(* ===== verification/_CoqProject ===== *)
-Q . S2P
Prelude.v
Word.v
Float.v
Rounding.v
Binary64.v
RoundingError.v
Time.v
Op.v
Text.v
Config.v
SampleKey.v
Sampler.v
ParetoTail.v
Content.v
Namespace.v
Concurrency.v
Bandwidth.v
BandwidthCurve.v
Metrics.v
Events.v
LogWriter.v
Engine.v
EngineSteps.v
EngineDecisions.v
EngineTiming.v
FaultFs.v
Serving.v
Sessions.v
MountOpts.v
Serde.v
EventLog.v
TestsCore.v
TestsConfig.v
TestsEngine.v
Cli.v
Mounted.v
Replay.v
TestsFiles.v
TestsAdapter.v
