(* ===== verification/Prelude.v ===== *)
(** * fusecraft-rs: a verification library

    fusecraft is a deterministic FUSE filesystem simulator: it mounts a
    synthetic directory tree and puts every request through an engine that
    injects latency, faults, queueing and bandwidth limits. This library models
    the three crates of the workspace as executable Rocq definitions, one file
    per component, and proves what makes each of them correct.

    ** The program

    [fusecraft-core] holds the simulation. [config.rs] reads and validates a
    policy per operation; [engine/mod.rs] runs a request: it takes a sequence
    number, acquires the operation's concurrency limiter, draws a fault and a
    latency from a generator seeded by the request's key, reserves bandwidth,
    sleeps, runs or skips the request's closure, emits an event, records a
    sample and drops the limiter's guard. [namespace/] and [content/] give the
    directory tree and the bytes of its files. [fusecraft-fuser] turns kernel
    requests into engine calls and results into replies; [fusecraft-cli] loads
    a configuration, builds the filesystem, mounts it and prints the summary.

    The components meet in few places. The engine owns one limiter and up to
    two token buckets per operation, a sink and a recorder, all behind locks
    and shared by the request threads; the FUSE adapter owns the engine, a
    namespace and a content model, and passes closures over the latter two to
    the engine. The traits of the source are type classes here, with their
    documented contracts as classes of laws: [ContentModel] and
    [ContentModelLaws], [NamespaceModel], [DirSink] and [NamespaceLaws],
    [EventSink]. The adapter's theorems are proved from the laws, and the flat
    namespace and the deterministic content discharge them.

    ** The files

    - Prelude: results, panics, counting and weighing lists, step sequences.
    - Word: unsigned machine words as [Z] with the wrap-around written out.
      Release builds wrap; [usize] is 64 bits wide.
    - Float, Rounding, Binary64: [f64] as the Standard Library's executable
      binary64 ([SpecFloat]), rounding of exact values in integer arithmetic,
      and the theorem that conversion, addition and subtraction round the
      exact result. RoundingError: the error of products and quotients.
    - Time: [Duration] as nanoseconds up to [DURATION_MAX]; [Instant].
    - Text: decimal formatting and parsing, UTF-8 well-formedness.
    - Op: [op.rs] and [error.rs].
    - Config: [config.rs]; [validate] with its messages, the conversions of
      the raw structs in the two hand-written deserializers.
    - Serde: reading and writing every configuration type, the derived
      implementations included, over an abstract data format ([Format], and
      [FormatLaws] for what is asked of TOML), with TOML's data model as an
      instance.
    - SampleKey: [sampler/key.rs]; [mix] on 64-bit words.
    - Sampler: [sampler/fault.rs], [sampler/latency.rs]. ParetoTail: the
      rounded draw of the Pareto tail, and what a negative scale does.
    - Content: [content/mod.rs], [content/deterministic.rs].
    - Namespace: [namespace/mod.rs], [namespace/flat.rs]; [readdir] pushes
      into any sink and stops when the sink is full.
    - Concurrency: [limiter/concurrency.rs]. Each stretch of code between two
      waits is one function on the locked state ([acquire_enter],
      [acquire_wake], [acquire_timeout_enter], [acquire_timeout_wake],
      [release]); the step relation [lstep] interleaves them over a list of
      threads and lets the condition variable notify any sleeper or wake one
      spuriously.
    - Bandwidth: [limiter/bandwidth.rs], on binary64 tokens. BandwidthCurve:
      that bucket against an exact one.
    - Metrics: [metrics/mod.rs]. Events: [events/mod.rs], with the log file as
      it is specified, a line per event ([LineFile]). LogWriter: the sink that
      the code has, [JsonlEventSink] with its buffer ([Writer], [writer_create],
      [writer_emit], [writer_flush]), and the answers of the operating system
      to its writes. EventLog: the JSON lines of the log and reading them back
      ([LogFormat], [LogFormatLaws]), with a format that has text.
    - Engine: [engine/context.rs], [engine/mod.rs]. One function per stage of
      [run_op] ([begin_op], [acquire_enter], [draw_op], [sleep_for],
      [exec_body], [finish_op], [drop_guard], [reject_op]); [run_op] composes
      them for one call, which ends with a result, blocked in the queue, or
      with a panic.
    - EngineSteps: the same stages as atomic steps of any number of threads
      ([estep]), with the history of events and samples. EngineDecisions: what
      the engine injects under any schedule. EngineTiming: the steps under a
      clock ([tstep]), and with threads that run promptly ([pstep]).
    - FaultFs: [fusecraft-fuser/src/lib.rs], [reply_helpers.rs]: one [handle_]
      function per method of the [Filesystem] trait, and [handle] over an
      inductive type of requests. Serving: the same handlers on any number of
      threads ([sstep]), each of which runs the engine's steps for the request
      it took, and the machine without threads that the server implements
      ([Ideal]). Sessions: what clients see of a server whose threads fit the
      slots, on one thread, and when they list directories.
    - MountOpts: [fusecraft-fuser/src/opts.rs], [mount.rs].
    - Cli: [fusecraft-cli/src]: the subcommands as lists of visible actions
      that end with success or an error. Mounted: the [mount] subcommand around
      a session of the server, from the configuration file to the summary and
      the log. Replay: two mounts of one configuration.
    - TestsCore, TestsConfig, TestsEngine, TestsFiles: the unit tests of the
      sources, the integration tests of the configuration and the
      configurations of [examples/], run on the model. TestsAdapter: the
      configurations of the adapter's integration tests, and the tests as
      lemmas on every session of their mounts.

    ** What the theorems show

    - Engine, one call ([run_op_one_event], [run_op_body],
      [run_op_releases_slot], [run_op_isolated], [run_op_panics]): a call that
      returns has emitted exactly one event and recorded one sample that agree
      with its result; the closure runs exactly when the call is admitted and
      no fault is drawn; the slot comes back on every path; other operations
      are untouched; the only panic is an overflowing sleep, and
      [run_op_overflow_panics] exhibits it under a configuration that
      validation accepts.
    - Engine, many threads ([engine_accounts], [engine_calls_complete],
      [engine_limits_hold]): sequence numbers are distinct, every call begun is
      accounted for by one event and its sample, every schedule ends with all
      calls over, every step of the engine is at most one step of each
      operation's limiter, so that the limiter's invariants hold in the engine.
      That the sequential [run_op] is one of the schedules, result included, is
      checked too ([run_op_as_steps]).
    - Determinism ([engine_decisions], [engine_replay],
      [key_does_not_decide]): under every schedule an admitted call's latency,
      fault and result are those that configuration, context and sequence
      number decide, so two runs of one configuration agree on calls with the
      same context and number; a sampling key alone does not decide, since it
      leaves out the requested length that selects the tier. Two mounts of one
      configuration, by any users at any times, that serve the same requests on
      one thread reply alike, log the same events but for times and print the
      same counts ([mounts_replay]).
    - Time ([engine_holds_callers]): under every schedule of a monotonic clock
      a call is held for at least its queue wait, its injected latency and its
      bandwidth delay, which its event reports; if ready threads run within a
      given time, it is held for little more than these
      ([engine_releases_callers]).
    - Limiters: [inflight] and [queued] count guards and waiters and keep
      within their bounds, no wake-up is lost, waiters are served
      ([limiter_counts], [limiter_no_lost_wakeup], [limiter_waiters_served]);
      [acquire_timeout_leaks] shows the one path that loses a place in the
      queue, and [limiter_overtakes] that no number of later calls bounds a
      wait. The bucket's balance stays within the burst, over any run the bytes
      granted are paid by the burst, the credits of the refills and the debt
      still waited for ([bandwidth_bounded], [bandwidth_long_run]), and the
      bucket refines an exact one: when the waits are over the bytes granted
      are at most the burst and the rate times the elapsed time, up to stated
      rounding errors ([bandwidth_conforms]).
    - Sampling: latencies never exceed the validated maximum, whatever the
      generator, and do not fall below the base where the tail is not negative
      ([sample_latency_bounds]), which validation does not ask for: with a
      negative scale an accepted profile can inject nothing at all
      ([negative_tail_undercuts]). They are above the scale of the tail when
      they are always drawn from it ([pareto_latency_floor]). Faults follow the
      first matching rule, rates 0 and 1 are exact; [mix] is injective in each field alone, and
      [mix_sequential_64k_collide] and [content_inodes_correlated] show where
      the independence that the comments claim ends.
    - Data: names and inodes of the flat namespace are a bijection, listings
      agree with lookups and resume at every cookie; reads of any chunking
      agree; validation accepts exactly the configurations that satisfy the
      documented rules; the summary reports every operation's own samples.
    - Files: a written configuration reads back as itself exactly when no
      policy has a bandwidth profile or a fault rule ([config_round_trip]),
      structs may be given by name or by position ([config_by_position]), the
      printed default configuration loads ([printed_default_loads]), a
      configuration that the command line accepts gives the engine what its
      theorems need ([loaded_engine_ready]). As long as no write to the log
      fails, the file behind the buffer is the specified one, however the
      operating system splits or interrupts the writes ([log_writer_refines]),
      and that of a finished run reads back as one event per call
      ([engine_log_read_back]); with failing writes each event is there whole,
      without its line break, or missing ([log_writer_errors],
      [line_break_lost]).
    - Adapter and command line: every handler refines an ideal filesystem
      without faults ([handle_refines_ideal]), also when requests interleave
      ([server_refines_ideal]), and every request is answered once, but for
      those of operations with a bandwidth profile on which a thread panics
      ([server_answers_all]); a read gets the bytes that seed, inode and offset
      determine ([served_reads]), so that a client that reads a file to its end
      has the whole file, whatever others write ([served_file]). Where the threads fit the slots every reply is
      the decided one ([served_exactly]), and a mount on one thread is a
      function of its requests ([one_thread_deterministic]). A client that pages
      through a directory sees every entry once ([readdir_paging_complete]),
      also beside other clients ([served_listing]); reads have
      the POSIX length, a fault rule on fsync spares writes, and what [mount]
      builds from a validated configuration satisfies the hypotheses of the
      theorems above ([build_fs_ready]).
    - End to end ([mounted_run_accounts], [mount_run_unmounts]): the summary
      that a mounted run prints counts the requests and the failures that the
      kernel saw, a log file whose writes do not fail reads back as their
      answers, and however the command ends it unmounts what it mounted.
    - Tests ([config_tests_pass] and its like): every test of a modelled suite
      passes on the model, and every configuration of [examples/] is read and
      accepted. The adapter's tests hold of every session, whatever else the
      kernel asks ([fsync_enospc_does_not_affect_write],
      [concurrency_cap_rejects_with_eagain], [bandwidth_throttle_observable]
      and the others of TestsAdapter); [replay_latencies_zero] shows that the
      latencies its replay test compares are all zero.

    ** Parameters, bounds and fuel

    Code outside the repository is a parameter: the [rand] generator ([Rng],
    with the range of a uniform draw in [RngLaws]), the platform's [ln],
    [exp], [cos], [pow] ([Libm], [LibmLaws]), the [hdrhistogram] histogram
    ([Histogram]), the [fuser] crate's reply buffer, errno conversion and mount
    call, the operating system's files and its answers to writes. TOML is a
    [Format] with [FormatLaws]: every float, infinities and NaN included, can be
    written and read back. JSON is a [Format] of which far less is asked, as it
    has no such floats: [LogFormatLaws], that the integers, names and entries of
    events are read back, and [line_printer], that the document of an event is
    printed on one line and parsed. [PowLaws] adds to [LibmLaws] that a power of
    a number up to 1 is at most 1. Each set of laws has an instance. Clock readings
    are arguments of the operations that take them; only EngineTiming and
    BandwidthCurve assume that successive readings do not run backwards, as
    [Instant] documents.

    Fuel occurs in three places. Decimal digits of a 64-bit word: 20, more than
    any word has. [push_files] runs [inode_count - start] iterations, the
    length of the source's range. [list_directory], the paging client, is
    given one round more than the listing has entries, and
    [readdir_paging_complete] proves that it returns. Termination of
    schedules is proved by the measures [work] and [call_work], without fuel.

    The error bounds of BandwidthCurve are for runs of at most 2^53 seconds
    and 2^53 bytes at up to 2^960 bytes per second: integers up to 2^53 convert
    exactly, and the products stay finite.

    ** Not modelled

    The text of TOML and JSON, and which of several errors in one document is
    reported; argument parsing by clap; tracing output and the derived [Debug]
    text; the memory model of the relaxed sequence counter beyond the atomicity
    of [fetch_add]. Closures passed to [run_op] are atomic state transformers:
    those of the adapter only read immutable models. The buffered writer of the
    log is also flushed when its last reference is dropped; when that happens
    depends on the threads of the [fuser] crate, so only the explicit flush is
    modelled.

    Of the unit tests, the one on the median of the lognormal latencies depends
    on the platform's logarithm and is left out; those that expect random
    numbers to differ are run with a generator that shows its seed. The
    integration tests of the adapter make system calls on a mounted filesystem:
    how the kernel turns these into requests, and the times they measure, are
    not modelled. The benchmarks exercise the library and add no behaviour.

    The session of the [fuser] crate, between [mount] and the end of the
    mount, is any run of the server of the file Serving after which its
    threads are idle.

    Bounds on the wait in the queue that count other calls are not among the
    theorems because there are none: [Condvar] promises no order, and
    [limiter_overtakes] is a schedule in which any number of later calls pass a
    waiting one. What holds is that every waiter is served once calls stop
    ([limiter_waiters_served], [engine_calls_complete]). *)

From stdpp Require Import base list numbers strings.
From Stdlib Require Import ZArith Lia.

Local Open Scope Z_scope.

(** ** Fallible code

    Rust's [Result<T, E>]; the [?] operator is [let?]. *)

Inductive result (T E : Type) : Type :=
| Ok (x : T)
| Err (e : E).

Arguments Ok {T E} x.
Arguments Err {T E} e.

Declare Scope fusecraft_scope.
Delimit Scope fusecraft_scope with fc.

Notation "'let?' x ':=' m 'in' k" :=
  (match m with Ok x => k | Err err => Err err end)
  (at level 10, x pattern, m at level 100, k at level 200) : fusecraft_scope.

Definition is_ok {T E} (r : result T E) : bool :=
  match r with Ok _ => true | Err _ => false end.

Definition ok_or {T E} (o : option T) (e : E) : result T E :=
  match o with Some x => Ok x | None => Err e end.

Definition result_map {T U E} (f : T -> U) (r : result T E) : result U E :=
  match r with Ok x => Ok (f x) | Err e => Err e end.

(** Code that may panic: [Panic] is an unwinding thread. *)

Inductive outcome (T : Type) : Type :=
| Returns (x : T)
| Panic.

Arguments Returns {T} x.
Arguments Panic {T}.

(** ** Counting the elements of a list that satisfy a test

    The invariants of the concurrent components relate a counter kept by the
    code to the number of threads in some phase. *)

Section Count.
Context {A : Type}.

Fixpoint count (P : A -> bool) (l : list A) : Z :=
  match l with
  | [] => 0
  | x :: l' => Z.b2z (P x) + count P l'
  end.

Lemma count_nonneg P (l : list A) : 0 <= count P l.
Proof. induction l as [|x l IH]; simpl; [|destruct (P x); simpl]; lia. Qed.

Lemma count_app P (l1 l2 : list A) : count P (l1 ++ l2) = count P l1 + count P l2.
Proof. induction l1 as [|x l1 IH]; simpl; [|rewrite IH]; lia. Qed.

(** Replacing the [i]-th element moves the count by the difference of the
    two tests: the step of every counting invariant. *)
Lemma count_insert P (l : list A) i x y :
  l !! i = Some x ->
  count P (<[i := y]> l) = count P l - Z.b2z (P x) + Z.b2z (P y).
Proof.
  revert i; induction l as [|a l IH]; intros [|i] H; simpl in *; try discriminate.
  - simplify_eq. lia.
  - rewrite (IH _ H). lia.
Qed.

Lemma count_pos_exists P (l : list A) :
  0 < count P l -> exists i x, l !! i = Some x /\ P x = true.
Proof.
  induction l as [|a l IH]; simpl; intros H; [lia|].
  destruct (P a) eqn:E.
  - exists 0%nat, a. done.
  - destruct IH as (i & x & Hi & Hx); [simpl in H; lia|]. by exists (S i), x.
Qed.

Lemma count_lookup_pos P (l : list A) i x :
  l !! i = Some x -> P x = true -> 0 < count P l.
Proof.
  revert i; induction l as [|a l IH]; intros [|i] H HP; simpl in *; try discriminate.
  - simplify_eq. rewrite HP. pose proof (count_nonneg P l). simpl. lia.
  - specialize (IH _ H HP). destruct (P a); simpl; lia.
Qed.

Lemma count_ext P Q (l : list A) :
  (forall x, P x = Q x) -> count P l = count Q l.
Proof. intros H; induction l as [|a l IH]; simpl; [|rewrite H, IH]; done. Qed.

Lemma count_zero P (l : list A) :
  (forall i x, l !! i = Some x -> P x = false) -> count P l = 0.
Proof.
  induction l as [|a l IH]; simpl; intros H; [done|].
  rewrite (H 0%nat a) by done. rewrite IH; [done|].
  intros i x Hi. by apply (H (S i)).
Qed.

Lemma count_zero_inv P (l : list A) i x :
  count P l = 0 -> l !! i = Some x -> P x = false.
Proof.
  intros Hc Hi. destruct (P x) eqn:E; [|done].
  pose proof (count_lookup_pos _ _ _ _ Hi E). lia.
Qed.

Lemma count_le_length P (l : list A) : count P l <= Z.of_nat (length l).
Proof. induction l as [|x l IH]; simpl; [|destruct (P x); simpl]; lia. Qed.

Lemma count_lt_length P (l : list A) i x :
  l !! i = Some x -> P x = false -> count P l < Z.of_nat (length l).
Proof.
  revert i; induction l as [|a l IH]; intros [|i] H HP; simpl in *; try discriminate.
  - simplify_eq. rewrite HP. pose proof (count_le_length P l). simpl. lia.
  - specialize (IH _ H HP). destruct (P a); simpl; lia.
Qed.

Lemma count_replicate P n (x : A) :
  count P (replicate n x) = Z.of_nat n * Z.b2z (P x).
Proof. induction n as [|n IH]; simpl count; [|rewrite IH]; lia. Qed.
End Count.

Lemma count_fmap {A B} (f : B -> A) P (l : list B) : count P (f <$> l) = count (fun x => P (f x)) l.
Proof. induction l as [|x l IH]; cbn; [done|]. by rewrite IH. Qed.

(** ** What a list of threads adds up to

    [total] weighs the threads, for termination; [l ≫= f] gathers what they
    have in flight, for accounting. *)

Section Totals.
Context {A : Type}.

Fixpoint total (f : A -> Z) (l : list A) : Z :=
  match l with
  | [] => 0
  | x :: l' => f x + total f l'
  end.

Lemma total_nonneg f (l : list A) : (forall x, 0 <= f x) -> 0 <= total f l.
Proof. intros Hf. induction l as [|x l IH]; cbn; [lia|]. pose proof (Hf x). lia. Qed.

Lemma total_insert f (l : list A) i x y :
  l !! i = Some x -> total f (<[i := y]> l) = total f l - f x + f y.
Proof.
  revert i; induction l as [|a l IH]; intros [|i] H; simplify_eq/=; [lia|]. rewrite (IH _ H). lia.
Qed.

Context {B : Type}.

Lemma bind_insert (f : A -> list B) l i x y :
  l !! i = Some x -> f x ++ (<[i := y]> l ≫= f) ≡ₚ f y ++ (l ≫= f).
Proof.
  revert i; induction l as [|a l IH]; intros [|i] Hi; simplify_eq/=.
  - by rewrite !(assoc_L (++)), (Permutation_app_comm (f x)).
  - rewrite !(assoc_L (++)), (Permutation_app_comm (f x)), (Permutation_app_comm (f y)), <- !(assoc_L (++)).
    by rewrite IH.
Qed.

Lemma bind_insert_same (f : A -> list B) l i x y :
  l !! i = Some x -> f y = f x -> <[i := y]> l ≫= f = l ≫= f.
Proof.
  revert i; induction l as [|a l IH]; intros [|i] Hi E; simplify_eq/=; [by rewrite E|by rewrite IH].
Qed.

Lemma bind_nil (f : A -> list B) l : (forall i x, l !! i = Some x -> f x = []) -> l ≫= f = [].
Proof.
  induction l as [|a l IH]; intros Hf; cbn; [done|]. rewrite (Hf 0%nat a) by done. cbn.
  apply IH. intros i x Hi. by apply (Hf (S i)).
Qed.
End Totals.

(** ** Sequences of transitions *)

Section Steps.
Context {S : Type} (step : S -> S -> Prop).

Inductive steps : S -> S -> Prop :=
| steps_refl s : steps s s
| steps_cons s1 s2 s3 : step s1 s2 -> steps s2 s3 -> steps s1 s3.

Lemma steps_one s1 s2 : step s1 s2 -> steps s1 s2.
Proof. intros H. eapply steps_cons; [done|apply steps_refl]. Qed.

Lemma steps_trans s1 s2 s3 : steps s1 s2 -> steps s2 s3 -> steps s1 s3.
Proof. induction 1; [done|]. intros. eapply steps_cons; eauto. Qed.

(** Rule induction in the form the invariants use it: a property kept by
    every step holds along every sequence. *)
Lemma steps_invariant (I : S -> Prop) :
  (forall s s', I s -> step s s' -> I s') ->
  forall s s', I s -> steps s s' -> I s'.
Proof. intros Hstep s s' HI Hs. induction Hs; eauto. Qed.

(** A measure that some step always decreases while [P] fails leads to [P]. *)
Lemma steps_measure (I P : S -> Prop) (m : S -> Z) :
  (forall s, I s -> 0 <= m s) ->
  (forall s, I s -> P s \/ exists s', step s s' /\ I s' /\ m s' < m s) ->
  forall s, I s -> exists s', steps s s' /\ I s' /\ P s'.
Proof.
  intros Hm Hstep s HI.
  remember (Z.to_nat (m s)) as n eqn:En. revert s HI En.
  induction n as [n IH] using lt_wf_ind. intros s HI ->.
  destruct (Hstep s HI) as [HP|(s' & Hs & HI' & Hlt)].
  { exists s. split; [apply steps_refl|done]. }
  pose proof (Hm s' HI').
  destruct (IH (Z.to_nat (m s')) ltac:(lia) s' HI' eq_refl) as (s'' & Hss & HI'' & HP).
  exists s''. split; [|done]. by eapply steps_cons.
Qed.
End Steps.

#[export] Hint Resolve steps_refl steps_one count_nonneg : core.
