(* ===== verification/Word.v ===== *)
(** * Machine words

    Rust's unsigned integers as [Z] with their range and wrap-around written
    out. [usize] is 64 bits wide: fusecraft mounts on Linux hosts and the
    development takes a 64-bit target. *)

From stdpp Require Import base numbers.
From Stdlib Require Import ZArith Lia Bool.

Local Open Scope Z_scope.

(** ** Ranges *)

Definition U64_SIZE : Z := 2 ^ 64.
Definition U64_MAX : Z := 2 ^ 64 - 1.
Definition U32_MAX : Z := 2 ^ 32 - 1.

Definition is_u64 (x : Z) : Prop := 0 <= x < 2 ^ 64.
Definition is_u32 (x : Z) : Prop := 0 <= x < 2 ^ 32.

(** ** Operations *)

Definition wrap64 (x : Z) : Z := x mod 2 ^ 64.
Definition wrap32 (x : Z) : Z := x mod 2 ^ 32.
Definition wrap8 (x : Z) : Z := x mod 2 ^ 8.

Definition wrapping_add (x y : Z) : Z := wrap64 (x + y).
Definition wrapping_sub (x y : Z) : Z := wrap64 (x - y).
Definition wrapping_mul (x y : Z) : Z := wrap64 (x * y).
Definition saturating_add (x y : Z) : Z := Z.min (x + y) U64_MAX.
Definition saturating_sub (x y : Z) : Z := Z.max (x - y) 0.
Definition checked_sub (x y : Z) : option Z := if y <=? x then Some (x - y) else None.

Definition rotate_left (x k : Z) : Z :=
  Z.lor (wrap64 (Z.shiftl x k)) (Z.shiftr x (64 - k)).

(** [x ^ (x >> s)] *)
Definition xorshift (x s : Z) : Z := Z.lxor x (Z.shiftr x s).

(** ** Bits of a word *)

Create HintDb u64.

Lemma is_u64_bits (x : Z) : is_u64 x <-> 0 <= x /\ forall i, 64 <= i -> Z.testbit x i = false.
Proof.
  unfold is_u64. split.
  - intros H. split; [lia|]. intros i Hi.
    rewrite <- (Z.mod_small x (2 ^ 64)) by lia. by apply Z.mod_pow2_bits_high.
  - intros [H0 H]. split; [done|].
    destruct (Z.eq_dec x 0) as [->|Hx]; [lia|].
    apply Z.log2_lt_pow2; [lia|].
    destruct (Z.lt_ge_cases (Z.log2 x) 64) as [|Hge]; [done|].
    specialize (H _ Hge). rewrite Z.bit_log2 in H by lia. discriminate.
Qed.

Lemma u64_high_bits x i : is_u64 x -> 64 <= i -> Z.testbit x i = false.
Proof. intros H%is_u64_bits. by apply H. Qed.

Lemma wrap64_u64 x : is_u64 (wrap64 x).
Proof. unfold is_u64, wrap64. apply Z.mod_pos_bound. lia. Qed.

Lemma wrap64_small x : is_u64 x -> wrap64 x = x.
Proof. intros H. by apply Z.mod_small. Qed.

Lemma lxor_u64 x y : is_u64 x -> is_u64 y -> is_u64 (Z.lxor x y).
Proof.
  intros Hx%is_u64_bits Hy%is_u64_bits. apply is_u64_bits. split.
  - apply Z.lxor_nonneg. lia.
  - intros i Hi. rewrite Z.lxor_spec. rewrite (proj2 Hx), (proj2 Hy) by done. done.
Qed.

Lemma shiftr_u64 x s : 0 <= s -> is_u64 x -> is_u64 (Z.shiftr x s).
Proof.
  intros Hs Hx%is_u64_bits. apply is_u64_bits. split.
  - apply Z.shiftr_nonneg. lia.
  - intros i Hi. rewrite Z.shiftr_spec by lia. apply Hx. lia.
Qed.

Lemma rotate_left_u64 x k : 0 <= k <= 64 -> is_u64 x -> is_u64 (rotate_left x k).
Proof.
  intros Hk Hx. apply is_u64_bits. unfold rotate_left. split.
  - apply Z.lor_nonneg. split; [apply wrap64_u64|]. apply shiftr_u64; [lia|done].
  - intros i Hi. rewrite Z.lor_spec.
    rewrite (u64_high_bits _ _ (wrap64_u64 _)) by done.
    rewrite (u64_high_bits (Z.shiftr x _)) by (try apply shiftr_u64; done || lia). done.
Qed.

Lemma xorshift_u64 x s : 0 <= s -> is_u64 x -> is_u64 (xorshift x s).
Proof. intros. apply lxor_u64; [done|]. by apply shiftr_u64. Qed.

Lemma wrapping_mul_u64 x y : is_u64 (wrapping_mul x y).
Proof. apply wrap64_u64. Qed.

Lemma wrapping_add_u64 x y : is_u64 (wrapping_add x y).
Proof. apply wrap64_u64. Qed.

Lemma u64_of_small x b : 0 <= x < b -> b <= 2 ^ 64 -> is_u64 x.
Proof. unfold is_u64. lia. Qed.

#[export] Hint Resolve wrap64_u64 lxor_u64 shiftr_u64 rotate_left_u64 xorshift_u64
  wrapping_mul_u64 wrapping_add_u64 : u64.

#[export] Hint Extern 2 (_ <= _ <= _) => lia : u64.
#[export] Hint Extern 2 (_ <= _) => lia : u64.
#[export] Hint Extern 2 (_ < _) => lia : u64.
#[export] Hint Extern 3 (is_u64 _) => unfold is_u64 in *; lia : u64.

(** Closes range side conditions. *)
Ltac u64 := solve [auto with u64 | unfold is_u64, is_u32 in *; lia].

(** A rotated word's bit [i] is bit [i - k] of the word, cyclically. *)
Lemma rotate_left_bits x k i :
  is_u64 x -> 0 <= k < 64 -> 0 <= i < 64 ->
  Z.testbit (rotate_left x k) i =
  Z.testbit x (if k <=? i then i - k else i - k + 64).
Proof.
  intros Hx Hk Hi. unfold rotate_left, wrap64. rewrite Z.lor_spec.
  rewrite Z.mod_pow2_bits_low by lia.
  rewrite Z.shiftl_spec, Z.shiftr_spec by lia.
  destruct (Z.leb_spec k i).
  - rewrite (u64_high_bits x (i + (64 - k))) by (done || lia). by rewrite orb_false_r.
  - rewrite Z.testbit_neg_r by lia. simpl. f_equal. lia.
Qed.

Lemma u64_bits_inj x y :
  is_u64 x -> is_u64 y ->
  (forall i, 0 <= i < 64 -> Z.testbit x i = Z.testbit y i) -> x = y.
Proof.
  intros Hx Hy H. apply Z.bits_inj'. intros i Hi.
  destruct (Z.lt_ge_cases i 64); [by apply H|].
  by rewrite (u64_high_bits x), (u64_high_bits y).
Qed.

Lemma rotate_left_inj k x y :
  0 <= k < 64 -> is_u64 x -> is_u64 y ->
  rotate_left x k = rotate_left y k -> x = y.
Proof.
  intros Hk Hx Hy E. apply u64_bits_inj; [done..|]. intros i Hi.
  assert (Hj : exists j, 0 <= j < 64 /\ (if k <=? j then j - k else j - k + 64) = i).
  { destruct (Z.lt_ge_cases (i + k) 64).
    - exists (i + k). split; [lia|]. destruct (Z.leb_spec k (i + k)); lia.
    - exists (i + k - 64). split; [lia|]. destruct (Z.leb_spec k (i + k - 64)); lia. }
  destruct Hj as (j & Hj & Eij).
  pose proof (rotate_left_bits x k j Hx Hk Hj) as Bx.
  pose proof (rotate_left_bits y k j Hy Hk Hj) as By.
  rewrite Eij in Bx, By. congruence.
Qed.

Lemma rotate_left_0 x : is_u64 x -> rotate_left x 0 = x.
Proof.
  intros Hx. apply u64_bits_inj; [u64..|]. intros i Hi.
  rewrite rotate_left_bits by (done || lia). f_equal. destruct (Z.leb_spec 0 i); lia.
Qed.

(** Rotating twice. *)
Lemma rotate_left_shiftl x j k :
  0 <= j < 64 -> 0 <= k < 64 -> 0 <= x < 2 ^ (64 - j) ->
  rotate_left (Z.shiftl x j) k = rotate_left x ((j + k) mod 64).
Proof.
  intros Hj Hk Hx.
  assert (Hxj : is_u64 (Z.shiftl x j)).
  { unfold is_u64. rewrite Z.shiftl_mul_pow2 by lia.
    replace 64 with ((64 - j) + j) by lia. rewrite Z.pow_add_r by lia. nia. }
  assert (Hx64 : is_u64 x).
  { unfold is_u64. pose proof (Z.pow_le_mono_r 2 (64 - j) 64). lia. }
  pose proof (Z.mod_pos_bound (j + k) 64).
  assert (Hhigh : forall i, 64 - j <= i -> Z.testbit x i = false).
  { intros i Hi. rewrite <- (Z.mod_small x (2 ^ (64 - j))) by lia.
    by apply Z.mod_pow2_bits_high; lia. }
  apply u64_bits_inj; [u64..|].
  intros i Hi. rewrite !rotate_left_bits by (done || lia).
  rewrite Z.shiftl_spec by (destruct (Z.leb_spec k i); lia).
  assert (Ejk : (j + k) mod 64 = if j + k <? 64 then j + k else j + k - 64).
  { destruct (Z.ltb_spec (j + k) 64); [rewrite Z.mod_small; lia|].
    symmetry. apply (Z.mod_unique _ _ 1); lia. }
  rewrite Ejk.
  destruct (Z.leb_spec k i), (Z.ltb_spec (j + k) 64);
    match goal with |- context [?a <=? i] => destruct (Z.leb_spec a i) end;
    first [ f_equal; lia
          | rewrite (Z.testbit_neg_r x) by lia; rewrite ?Hhigh by lia; done
          | rewrite !Hhigh by lia; done ].
Qed.

(** ** Injectivity of the mixing steps *)

Lemma lxor_inj_r a x y : Z.lxor a x = Z.lxor a y -> x = y.
Proof.
  intros H. rewrite <- (Z.lxor_0_l x), <- (Z.lxor_0_l y), <- (Z.lxor_nilpotent a).
  by rewrite !Z.lxor_assoc, H.
Qed.

Lemma lxor_inj_l a x y : Z.lxor x a = Z.lxor y a -> x = y.
Proof. rewrite !(Z.lxor_comm _ a). apply lxor_inj_r. Qed.

(** [x ^ (x >> s)] loses nothing: the top [s] bits are kept, and each lower
    bit is recovered from a higher one. *)
Lemma xorshift_inj s x y :
  0 < s -> is_u64 x -> is_u64 y -> xorshift x s = xorshift y s -> x = y.
Proof.
  intros Hs Hx Hy E. apply u64_bits_inj; [done..|].
  assert (H : forall n i, 0 <= i -> (Z.to_nat (64 - i) <= n)%nat ->
                          Z.testbit x i = Z.testbit y i).
  { induction n as [|n IH]; intros i Hi Hn.
    - rewrite (u64_high_bits x), (u64_high_bits y) by (done || lia). done.
    - destruct (Z.lt_ge_cases i 64) as [Hlt|];
        [|rewrite (u64_high_bits x), (u64_high_bits y) by (done || lia); done].
      assert (Ei : Z.testbit (xorshift x s) i = Z.testbit (xorshift y s) i) by congruence.
      unfold xorshift in Ei. rewrite !Z.lxor_spec, !Z.shiftr_spec in Ei by lia.
      rewrite (IH (i + s)) in Ei by lia.
      by destruct (Z.testbit x i), (Z.testbit y i), (Z.testbit y (i + s)). }
  intros i Hi. apply (H (Z.to_nat (64 - i))); lia.
Qed.

(** Multiplication by a unit of [Z/2^64] is injective. *)
Lemma wrapping_mul_inj c cinv x y :
  wrapping_mul c cinv = 1 -> is_u64 x -> is_u64 y ->
  wrapping_mul x c = wrapping_mul y c -> x = y.
Proof.
  intros Hc Hx Hy E.
  assert (H : forall z, is_u64 z -> wrapping_mul (wrapping_mul z c) cinv = z).
  { intros z Hz. unfold wrapping_mul, wrap64 in *.
    rewrite Z.mul_mod_idemp_l by lia. rewrite <- Z.mul_assoc.
    rewrite <- Z.mul_mod_idemp_r by lia. rewrite Hc, Z.mul_1_r. by apply Z.mod_small. }
  rewrite <- (H x Hx), <- (H y Hy). by rewrite E.
Qed.

Lemma saturating_add_u64 x y : is_u64 x -> is_u64 y -> is_u64 (saturating_add x y).
Proof. unfold is_u64, saturating_add, U64_MAX. lia. Qed.

#[export] Hint Resolve saturating_add_u64 : u64.
