(* ===== verification/Float.v ===== *)
(** * IEEE 754 binary64

    Rust's [f64] as the Standard Library's executable specification of
    floating-point arithmetic ([SpecFloat]) at precision 53 and maximal exponent
    1024: rounding to nearest even, signed zeros, infinities and one NaN. This
    file holds the operations the source uses and the order they induce. *)

From stdpp Require Import base numbers.
From Stdlib Require Import ZArith Lia Bool.
From Stdlib Require Export SpecFloat.

From S2P Require Import Prelude Word.

Local Open Scope Z_scope.

Definition f64 : Type := spec_float.

(** ** Constants *)

Definition f64_zero : f64 := S754_zero false.
Definition f64_infinity : f64 := S754_infinity false.
Definition f64_nan : f64 := S754_nan.

(** [z as f64] for an integer [z]. *)
Definition f64_of_Z (z : Z) : f64 := binary_normalize 53 1024 z 0 false.

Definition f64_one : f64 := f64_of_Z 1.
Definition f64_two : f64 := f64_of_Z 2.
(** The literal [0.5]. *)
Definition f64_half : f64 := S754_finite false (2 ^ 52) (-53).
(** The literal [1.5]. *)
Definition f64_one_and_half : f64 := S754_finite false (3 * 2 ^ 51) (-52).
(** [f64::MIN_POSITIVE], the smallest positive normal number. *)
Definition F64_MIN_POSITIVE : f64 := S754_finite false (2 ^ 52) (-1074).
(** [std::f64::consts::PI]. *)
Definition F64_PI : f64 := S754_finite false 7074237752028440 (-51).

(** ** Arithmetic *)

Definition f64_add : f64 -> f64 -> f64 := SFadd 53 1024.
Definition f64_sub : f64 -> f64 -> f64 := SFsub 53 1024.
Definition f64_mul : f64 -> f64 -> f64 := SFmul 53 1024.
Definition f64_div : f64 -> f64 -> f64 := SFdiv 53 1024.
Definition f64_sqrt : f64 -> f64 := SFsqrt 53 1024.
Definition f64_neg : f64 -> f64 := SFopp.

(** ** Tests *)

Definition f64_lt (x y : f64) : bool := SFltb x y.
Definition f64_le (x y : f64) : bool := SFleb x y.
Definition f64_gt (x y : f64) : bool := f64_lt y x.
Definition f64_ge (x y : f64) : bool := f64_le y x.

Definition is_nan (x : f64) : bool :=
  match x with S754_nan => true | _ => false end.

Definition is_finite (x : f64) : bool :=
  match x with S754_zero _ | S754_finite _ _ _ => true | _ => false end.

(** [f64::min] and [f64::max] return the other argument when one is NaN. *)
Definition f64_min (x y : f64) : f64 :=
  if is_nan x then y else if is_nan y then x else if f64_lt y x then y else x.
Definition f64_max (x y : f64) : f64 :=
  if is_nan x then y else if is_nan y then x else if f64_lt x y then y else x.

(** ** Conversions *)

(** [f64::round]: to the nearest integer, halves away from zero. *)
Definition f64_round (x : f64) : f64 :=
  match x with
  | S754_finite s m e =>
      if 0 <=? e then x
      else
        let n := (Zpos m + 2 ^ (- e - 1)) / 2 ^ (- e) in
        binary_normalize 53 1024 (cond_Zopp s n) 0 s
  | _ => x
  end.

(** The integer part of the magnitude of a finite number. *)
Definition trunc_pos (m : positive) (e : Z) : Z :=
  if 0 <=? e then Zpos m * 2 ^ e else Zpos m / 2 ^ (- e).

(** [x as u64]: truncates, saturates at both ends, and maps NaN to 0. *)
Definition f64_to_u64 (x : f64) : Z :=
  match x with
  | S754_infinity false => U64_MAX
  | S754_finite false m e => Z.min (trunc_pos m e) U64_MAX
  | _ => 0
  end.

(** ** Order *)

Create HintDb f64.

(** [SFcompare] on two finite numbers is lexicographic in sign, exponent and
    mantissa, so transitivity holds of any representations. *)
Ltac f64_cases :=
  unfold f64_lt, f64_le, f64_gt, f64_ge, SFltb, SFleb;
  repeat match goal with
  | x : f64 |- _ => destruct x as [[]|[]| |[] ? ?]
  end; cbn [SFcompare]; intros; try done.

Ltac f64_compare :=
  repeat match goal with
  | H : context [Pos.compare_cont Eq ?a ?b] |- _ =>
      change (Pos.compare_cont Eq a b) with (a ?= b)%positive in H
  | |- context [Pos.compare_cont Eq ?a ?b] =>
      change (Pos.compare_cont Eq a b) with (a ?= b)%positive
  | H : context [Z.compare ?a ?b] |- _ => destruct (Z.compare_spec a b)
  | H : context [Pos.compare ?a ?b] |- _ => destruct (Pos.compare_spec a b)
  | |- context [Z.compare ?a ?b] => destruct (Z.compare_spec a b)
  | |- context [Pos.compare ?a ?b] => destruct (Pos.compare_spec a b)
  end; subst; cbn in *; try lia; try done.

Lemma f64_lt_le_trans (x y z : f64) :
  f64_lt x y = true -> f64_le y z = true -> f64_lt x z = true.
Proof. f64_cases; f64_compare. Qed.

Lemma f64_le_lt_trans (x y z : f64) :
  f64_le x y = true -> f64_lt y z = true -> f64_lt x z = true.
Proof. f64_cases; f64_compare. Qed.

Lemma f64_le_trans (x y z : f64) :
  f64_le x y = true -> f64_le y z = true -> f64_le x z = true.
Proof. f64_cases; f64_compare. Qed.

Lemma f64_lt_irrefl (x : f64) : f64_lt x x = false.
Proof. f64_cases; f64_compare. Qed.

Lemma f64_lt_le (x y : f64) : f64_lt x y = true -> f64_le x y = true.
Proof. f64_cases; f64_compare. Qed.

Lemma f64_le_refl (x : f64) : is_nan x = false -> f64_le x x = true.
Proof. f64_cases; f64_compare. Qed.

(** On numbers the two tests are each other's negation; with a NaN both fail. *)
Lemma f64_le_not_lt (x y : f64) :
  is_nan x = false -> is_nan y = false -> f64_lt x y = negb (f64_le y x).
Proof. f64_cases; f64_compare. Qed.

Lemma f64_le_lt_false (x y : f64) : f64_le x y = true -> f64_lt y x = false.
Proof. f64_cases; f64_compare. Qed.

Lemma f64_lt_not_nan (x y : f64) :
  f64_lt x y = true -> is_nan x = false /\ is_nan y = false.
Proof. destruct x as [[]|[]| |[] ? ?], y as [[]|[]| |[] ? ?]; done. Qed.

Lemma f64_le_not_nan (x y : f64) :
  f64_le x y = true -> is_nan x = false /\ is_nan y = false.
Proof. destruct x as [[]|[]| |[] ? ?], y as [[]|[]| |[] ? ?]; done. Qed.

(** ** Minimum and maximum *)

Lemma f64_min_le_r (x y : f64) : is_nan y = false -> f64_le (f64_min x y) y = true.
Proof.
  intros Hy. unfold f64_min. destruct (is_nan x) eqn:Hx; [by apply f64_le_refl|].
  rewrite Hy. destruct (f64_lt y x) eqn:E; [by apply f64_le_refl|].
  rewrite f64_le_not_lt in E by done. by apply negb_false_iff in E.
Qed.

Lemma f64_max_ge_r (x y : f64) : is_nan y = false -> f64_le y (f64_max x y) = true.
Proof.
  intros Hy. unfold f64_max. destruct (is_nan x) eqn:Hx; [by apply f64_le_refl|].
  rewrite Hy. destruct (f64_lt x y) eqn:E; [by apply f64_le_refl|].
  rewrite f64_le_not_lt in E by done. by apply negb_false_iff in E.
Qed.

Lemma f64_max_not_nan (x y : f64) : is_nan y = false -> is_nan (f64_max x y) = false.
Proof. intros Hy. unfold f64_max. destruct (is_nan x) eqn:Hx; [done|]. rewrite Hy. by case_match. Qed.

Lemma f64_min_not_nan (x y : f64) : is_nan y = false -> is_nan (f64_min x y) = false.
Proof. intros Hy. unfold f64_min. destruct (is_nan x) eqn:Hx; [done|]. rewrite Hy. by case_match. Qed.

Lemma f64_to_u64_range (x : f64) : is_u64 (f64_to_u64 x).
Proof.
  unfold f64_to_u64, is_u64, U64_MAX, trunc_pos.
  destruct x as [[]|[]| |[] m e]; try lia.
  destruct (Z.leb_spec 0 e); [pose proof (Z.pow_pos_nonneg 2 e); nia|].
  pose proof (Z.pow_pos_nonneg 2 (- e)). pose proof (Z.div_pos (Zpos m) (2 ^ (- e))). lia.
Qed.

#[export] Hint Resolve f64_to_u64_range : u64.
