(* ===== verification/Rounding.v ===== *)
(** * Rounding of binary64 operations

    What [Float]'s conversions, additions and subtractions compute, in exact
    integer arithmetic: every finite binary64 number is an integer multiple of
    2^-1074, [scaled] is that integer, and the result of an operation is
    [round53] of the exact one. From this follow monotonicity, exactness on
    53-bit integers and closure of the representable numbers. *)

From stdpp Require Import base numbers.
From Stdlib Require Import ZArith Lia Bool.

From S2P Require Import Prelude Word Float.

Local Open Scope Z_scope.

(** ** Round to nearest even of [m / 2^n] *)

Definition rne (m n : Z) : Z :=
  let q := m / 2 ^ n in
  let r := m mod 2 ^ n in
  match 2 * r ?= 2 ^ n with
  | Lt => q
  | Gt => q + 1
  | Eq => if Z.even q then q else q + 1
  end.

(** Round a nonnegative integer to 53 significant bits. *)
Definition round53 (N : Z) : Z :=
  if Z.log2 N <? 53 then N
  else rne N (Z.log2 N - 52) * 2 ^ (Z.log2 N - 52).

Lemma pow2_pos n : 0 <= n -> 0 < 2 ^ n.
Proof. intros. by apply Z.pow_pos_nonneg. Qed.

#[export] Hint Resolve pow2_pos : f64.

Lemma rne_bounds m n : 0 <= n -> m / 2 ^ n <= rne m n <= m / 2 ^ n + 1.
Proof. intros. unfold rne. case_match; [case_match|..]; lia. Qed.

Lemma rne_mono m m' n : 0 <= n -> m <= m' -> rne m n <= rne m' n.
Proof.
  intros Hn Hle. pose proof (pow2_pos n Hn) as Hp.
  pose proof (Z.div_le_mono m m' (2 ^ n) Hp Hle) as Hq.
  destruct (Z.eq_dec (m / 2 ^ n) (m' / 2 ^ n)) as [Eq|Ne].
  - unfold rne. rewrite <- Eq.
    assert (m mod 2 ^ n <= m' mod 2 ^ n).
    { rewrite !Z.mod_eq by lia. rewrite <- Eq. lia. }
    destruct (Z.compare_spec (2 * (m mod 2 ^ n)) (2 ^ n)),
      (Z.compare_spec (2 * (m' mod 2 ^ n)) (2 ^ n)); try lia;
      destruct (Z.even (m / 2 ^ n)); lia.
  - pose proof (rne_bounds m n Hn). pose proof (rne_bounds m' n Hn). lia.
Qed.

Lemma rne_exact q n : 0 <= n -> rne (q * 2 ^ n) n = q.
Proof.
  intros Hn. pose proof (pow2_pos n Hn). unfold rne.
  rewrite Z.div_mul, Z_mod_mult by lia.
  destruct (Z.compare_spec (2 * 0) (2 ^ n)); lia.
Qed.

Lemma rne_scale m n k : 0 <= n -> 0 <= k -> rne (m * 2 ^ k) (n + k) = rne m n.
Proof.
  intros Hn Hk. pose proof (pow2_pos n Hn). pose proof (pow2_pos k Hk). unfold rne.
  rewrite Z.pow_add_r by lia.
  rewrite Z.div_mul_cancel_r, Zmult_mod_distr_r by lia.
  replace (2 * (m mod 2 ^ n * 2 ^ k) ?= 2 ^ n * 2 ^ k) with (2 * (m mod 2 ^ n) ?= 2 ^ n); [done|].
  rewrite Z.mul_assoc. apply Zmult_compare_compat_r. lia.
Qed.

Lemma rne_nonneg m n : 0 <= n -> 0 <= m -> 0 <= rne m n.
Proof.
  intros Hn Hm. pose proof (rne_bounds m n Hn).
  pose proof (Z.div_pos m (2 ^ n) Hm (pow2_pos n Hn)). lia.
Qed.

(** ** [round53] *)

Lemma log2_bounds N : 0 < N -> 2 ^ Z.log2 N <= N < 2 ^ (Z.log2 N + 1).
Proof. intros H. rewrite Z.add_1_r. by apply Z.log2_spec. Qed.

(** A rounded magnitude of more than 53 bits keeps its leading power of two
    and at most reaches the next one. *)
Lemma rne_log2_bounds N :
  53 <= Z.log2 N -> 2 ^ 52 <= rne N (Z.log2 N - 52) <= 2 ^ 53.
Proof.
  intros HL.
  assert (HN : 0 < N).
  { destruct (Z.lt_ge_cases 0 N); [done|]. rewrite Z.log2_nonpos in HL by done. lia. }
  destruct (log2_bounds N HN) as [Hlo Hhi]. set (L := Z.log2 N) in *.
  pose proof (rne_mono (2 ^ 52 * 2 ^ (L - 52)) N (L - 52) ltac:(lia)) as H1.
  pose proof (rne_mono N (2 ^ 53 * 2 ^ (L - 52)) (L - 52) ltac:(lia)) as H2.
  rewrite !rne_exact in H1, H2 by lia. rewrite <- Z.pow_add_r in H1, H2 by lia.
  replace (52 + (L - 52)) with L in H1 by lia.
  replace (53 + (L - 52)) with (L + 1) in H2 by lia. lia.
Qed.

Lemma round53_small N : Z.log2 N < 53 -> round53 N = N.
Proof. intros H. unfold round53. destruct (Z.ltb_spec (Z.log2 N) 53); lia. Qed.

Lemma round53_lt N : N < 2 ^ 53 -> round53 N = N.
Proof.
  intros H. apply round53_small.
  destruct (Z.lt_ge_cases 0 N); [|rewrite Z.log2_nonpos; lia].
  apply Z.log2_lt_pow2; lia.
Qed.

Lemma round53_bounds N :
  0 < N -> 2 ^ Z.log2 N <= round53 N <= 2 ^ (Z.log2 N + 1).
Proof.
  intros HN. pose proof (log2_bounds N HN). unfold round53.
  destruct (Z.ltb_spec (Z.log2 N) 53); [lia|].
  pose proof (rne_log2_bounds N ltac:(lia)).
  pose proof (pow2_pos (Z.log2 N - 52) ltac:(lia)).
  replace (2 ^ Z.log2 N) with (2 ^ 52 * 2 ^ (Z.log2 N - 52))
    by (rewrite <- Z.pow_add_r by lia; f_equal; lia).
  replace (2 ^ (Z.log2 N + 1)) with (2 ^ 53 * 2 ^ (Z.log2 N - 52))
    by (rewrite <- Z.pow_add_r by lia; f_equal; lia).
  nia.
Qed.

Lemma round53_mono N M : 0 <= N -> N <= M -> round53 N <= round53 M.
Proof.
  intros H0 Hle. destruct (Z.eq_dec N 0) as [->|HN].
  { rewrite (round53_lt 0) by lia. destruct (Z.eq_dec M 0) as [->|]; [rewrite round53_lt; lia|].
    pose proof (round53_bounds M ltac:(lia)). pose proof (pow2_pos (Z.log2 M) (Z.log2_nonneg M)). lia. }
  pose proof (Z.log2_le_mono N M Hle) as HL.
  destruct (Z.eq_dec (Z.log2 N) (Z.log2 M)) as [E|E].
  - unfold round53. rewrite <- E. destruct (Z.ltb_spec (Z.log2 N) 53); [done|].
    apply Z.mul_le_mono_nonneg_r; [apply Z.lt_le_incl, pow2_pos; lia|].
    apply rne_mono; lia.
  - pose proof (round53_bounds N ltac:(lia)). pose proof (round53_bounds M ltac:(lia)).
    pose proof (Z.log2_nonneg N).
    pose proof (Z.pow_le_mono_r 2 (Z.log2 N + 1) (Z.log2 M) ltac:(lia) ltac:(lia)). lia.
Qed.

Lemma round53_nonneg N : 0 <= N -> 0 <= round53 N.
Proof. intros H. pose proof (round53_mono 0 N ltac:(lia) H). by rewrite (round53_lt 0) in *. Qed.

(** Rounding commutes with scaling by powers of two. *)
Lemma round53_scale N k : 0 < N -> 0 <= k -> round53 (N * 2 ^ k) = round53 N * 2 ^ k.
Proof.
  intros HN Hk. unfold round53. rewrite Z.log2_mul_pow2 by lia.
  rewrite (Z.add_comm k). pose proof (pow2_pos k Hk).
  destruct (Z.ltb_spec (Z.log2 N + k) 53), (Z.ltb_spec (Z.log2 N) 53); try lia.
  - set (n := Z.log2 N + k - 52). set (q := N * 2 ^ (k - n)).
    assert (E : N * 2 ^ k = q * 2 ^ n).
    { unfold q. rewrite <- Z.mul_assoc, <- Z.pow_add_r by lia. f_equal. f_equal. lia. }
    rewrite E. by rewrite rne_exact by lia.
  - replace (Z.log2 N + k - 52) with (Z.log2 N - 52 + k) by lia.
    rewrite rne_scale by lia. rewrite Z.pow_add_r by lia. lia.
Qed.

(** Numbers of at most 53 significant bits are left alone. *)
Lemma round53_fix m k : 0 <= m < 2 ^ 53 -> 0 <= k -> round53 (m * 2 ^ k) = m * 2 ^ k.
Proof.
  intros Hm Hk. destruct (Z.eq_dec m 0) as [->|]; [by rewrite Z.mul_0_l, round53_lt|].
  rewrite round53_scale by lia. by rewrite round53_lt by lia.
Qed.

(** A rounded number has at most 53 significant bits. *)
Lemma round53_shape N :
  0 <= N -> exists m k, round53 N = m * 2 ^ k /\ 0 <= m <= 2 ^ 53 /\ 0 <= k.
Proof.
  intros HN. unfold round53. destruct (Z.ltb_spec (Z.log2 N) 53) as [H|H].
  - exists N, 0. split; [lia|]. split; [|lia].
    destruct (Z.eq_dec N 0); [lia|]. pose proof (log2_bounds N ltac:(lia)).
    pose proof (Z.pow_le_mono_r 2 (Z.log2 N + 1) 53 ltac:(lia) ltac:(lia)). lia.
  - exists (rne N (Z.log2 N - 52)), (Z.log2 N - 52).
    pose proof (rne_log2_bounds N ltac:(lia)). lia.
Qed.

Lemma round53_idem N : 0 <= N -> round53 (round53 N) = round53 N.
Proof.
  intros HN. destruct (round53_shape N HN) as (m & k & -> & Hm & Hk).
  destruct (Z.eq_dec m (2 ^ 53)) as [->|]; [|apply round53_fix; lia].
  change (2 ^ 53) with (1 * 2 ^ 53). rewrite <- Z.mul_assoc, <- Z.pow_add_r by lia.
  apply round53_fix; lia.
Qed.

(** Rounding of signed integers. *)
Definition roundZ (N : Z) : Z := Z.sgn N * round53 (Z.abs N).

Lemma roundZ_nonneg N : 0 <= N -> roundZ N = round53 N.
Proof.
  intros H. unfold roundZ. rewrite Z.abs_eq by done.
  destruct (Z.eq_dec N 0) as [->|]; [by rewrite round53_lt|]. rewrite Z.sgn_pos; lia.
Qed.

Lemma roundZ_opp N : roundZ (- N) = - roundZ N.
Proof. unfold roundZ. rewrite Z.abs_opp, Z.sgn_opp. lia. Qed.

Lemma roundZ_mono N M : N <= M -> roundZ N <= roundZ M.
Proof.
  intros H. destruct (Z.le_gt_cases 0 N).
  - rewrite !roundZ_nonneg by lia. apply round53_mono; lia.
  - rewrite <- (Z.opp_involutive N), roundZ_opp, roundZ_nonneg by lia.
    pose proof (round53_nonneg (- N) ltac:(lia)).
    destruct (Z.le_gt_cases 0 M).
    + rewrite roundZ_nonneg by lia. pose proof (round53_nonneg M ltac:(lia)). lia.
    + rewrite <- (Z.opp_involutive M), roundZ_opp, (roundZ_nonneg (- M)) by lia.
      pose proof (round53_mono (- M) (- N) ltac:(lia) ltac:(lia)). lia.
Qed.

(** ** Error of one rounding *)

Lemma rne_error m n : 0 <= n -> 2 * Z.abs (rne m n * 2 ^ n - m) <= 2 ^ n.
Proof.
  intros Hn. pose proof (pow2_pos n Hn) as Hp.
  pose proof (Z.div_mod m (2 ^ n) ltac:(lia)) as E. pose proof (Z.mod_pos_bound m (2 ^ n) Hp) as Hr.
  unfold rne. destruct (Z.compare_spec (2 * (m mod 2 ^ n)) (2 ^ n)); [destruct (Z.even _)|..]; lia.
Qed.

Lemma roundZ_error N : 2 ^ 53 * Z.abs (roundZ N - N) <= Z.abs N.
Proof.
  assert (Hpos : forall M, 0 < M -> 2 ^ 53 * Z.abs (round53 M - M) <= M).
  { intros M HM. unfold round53. destruct (Z.ltb_spec (Z.log2 M) 53); [lia|].
    pose proof (rne_error M (Z.log2 M - 52) ltac:(lia)) as He.
    pose proof (log2_bounds M HM) as [Hl _].
    replace (2 ^ Z.log2 M) with (2 ^ 52 * 2 ^ (Z.log2 M - 52)) in Hl
      by (rewrite <- Z.pow_add_r by lia; f_equal; lia). lia. }
  destruct (Z.lt_trichotomy N 0) as [H|[->|H]]; [|done|].
  - specialize (Hpos (- N) ltac:(lia)). rewrite <- (Z.opp_involutive N) at 1.
    rewrite roundZ_opp, roundZ_nonneg by lia. lia.
  - specialize (Hpos N H). rewrite roundZ_nonneg by lia. lia.
Qed.
