(* ===== verification/Binary64.v ===== *)
(** * Binary64 operations against exact arithmetic

    The bridge between [SpecFloat]'s algorithms and [Rounding]: representation
    invariant [valid], integer value [scaled], and for conversions from
    integers, addition and subtraction the theorem that the result is the
    rounded exact one. *)

From stdpp Require Import base numbers.
From Stdlib Require Import ZArith Lia Bool.

From S2P Require Import Prelude Word Float Rounding.

Local Open Scope Z_scope.

(** ** Representation *)

(** Canonical mantissa and exponent in range: the invariant of every value an
    operation produces. *)
Definition valid (x : f64) : Prop := valid_binary 53 1024 x = true.

(** A finite number in units of 2^-1074. *)
Definition scaled (x : f64) : Z :=
  match x with
  | S754_finite s m e => cond_Zopp s (Zpos m) * 2 ^ (e + 1074)
  | _ => 0
  end.

(** The first magnitude that rounds to infinity, in the same unit. *)
Definition OVERFLOW : Z := 2 ^ 2098.

Lemma digits2_pos_log2 p : Zpos (digits2_pos p) = Z.log2 (Zpos p) + 1.
Proof.
  induction p as [p IH|p IH|]; simpl digits2_pos; [..|done].
  - rewrite Pos2Z.inj_succ, IH, Pos2Z.inj_xI, Z.log2_succ_double by lia. lia.
  - rewrite Pos2Z.inj_succ, IH, Pos2Z.inj_xO, Z.log2_double by lia. lia.
Qed.

Lemma fexp_eq e : fexp 53 1024 e = Z.max (e - 53) (-1074).
Proof. unfold fexp, emin. lia. Qed.

Lemma valid_finite s m e :
  valid (S754_finite s m e) <->
  Z.max (Z.log2 (Zpos m) - 52 + e) (-1074) = e /\ e <= 971.
Proof.
  unfold valid, valid_binary, bounded, canonical_mantissa.
  rewrite andb_true_iff, Z.eqb_eq, Z.leb_le, fexp_eq, digits2_pos_log2. lia.
Qed.

Lemma valid_finite_bounds s m e :
  valid (S754_finite s m e) ->
  Zpos m < 2 ^ 53 /\ -1074 <= e <= 971 /\ (-1074 < e -> 2 ^ 52 <= Zpos m).
Proof.
  rewrite valid_finite. intros [H He].
  pose proof (log2_bounds (Zpos m) ltac:(lia)) as [Hlo Hhi].
  pose proof (Z.log2_nonneg (Zpos m)).
  split; [|split; [lia|]].
  - apply Z.lt_le_trans with (1 := Hhi). apply Z.pow_le_mono_r; lia.
  - intros. apply Z.le_trans with (2 := Hlo). apply Z.pow_le_mono_r; lia.
Qed.

(** ** The shifting loop of [SpecFloat] *)

Lemma iter_pos_nat {A} (f : A -> A) n x :
  iter_pos f n x = Nat.iter (Pos.to_nat n) f x.
Proof.
  revert x. induction n as [n IH|n IH|]; intros x; simpl iter_pos; [..|done].
  - rewrite !IH. rewrite Pos2Nat.inj_xI. simpl. rewrite Nat.add_0_r, Nat.iter_add.
    by rewrite !Nat.iter_swap.
  - rewrite !IH. rewrite Pos2Nat.inj_xO. simpl. by rewrite Nat.add_0_r, Nat.iter_add.
Qed.

Lemma shr_1_nonneg m r s :
  0 <= m ->
  shr_1 {| shr_m := m; shr_r := r; shr_s := s |} =
  {| shr_m := m / 2; shr_r := Z.odd m; shr_s := r || s |}.
Proof.
  intros Hm. destruct m as [|[p|p|]|]; try lia; simpl; try done.
  - change (Zpos p~1) with (2 * Zpos p + 1).
    rewrite <- (Z.div_unique (2 * Zpos p + 1) 2 (Zpos p) 1) by lia. done.
  - change (Zpos p~0) with (2 * Zpos p). rewrite Z.mul_comm, Z.div_mul by lia. done.
Qed.

(** After [n + 1] steps: the quotient, the last bit shifted out, and whether
    any earlier one was set. *)
Lemma shr_iter m n :
  0 <= m ->
  Nat.iter (S n) shr_1 {| shr_m := m; shr_r := false; shr_s := false |} =
  {| shr_m := m / 2 ^ Z.of_nat (S n);
     shr_r := Z.odd (m / 2 ^ Z.of_nat n);
     shr_s := negb (m mod 2 ^ Z.of_nat n =? 0) |}.
Proof.
  intros Hm. induction n as [|n IH].
  - cbn [Nat.iter nat_rect]. rewrite shr_1_nonneg by done. simpl Z.of_nat.
    rewrite Z.pow_0_r, Z.div_1_r, Z.mod_1_r. done.
  - remember (S n) as k eqn:Ek. rewrite Nat.iter_succ, IH.
    assert (Hk : 0 <= Z.of_nat k) by lia.
    rewrite shr_1_nonneg by (apply Z.div_pos; [done|by apply pow2_pos]).
    rewrite Z.div_div by (try apply pow2_pos; lia).
    f_equal.
    + f_equal. rewrite Nat2Z.inj_succ, Z.pow_succ_r; lia.
    + subst k. rewrite Nat2Z.inj_succ, Z.pow_succ_r by lia.
      pose proof (pow2_pos (Z.of_nat n) ltac:(lia)) as Hp.
      rewrite (Z.mul_comm 2), Z.rem_mul_r by lia.
      pose proof (Z.mod_pos_bound m (2 ^ Z.of_nat n) Hp).
      rewrite Zmod_odd. destruct (Z.odd (m / 2 ^ Z.of_nat n)); simpl.
      * symmetry. apply negb_true_iff, Z.eqb_neq. lia.
      * rewrite Z.mul_0_r, Z.add_0_r. done.
Qed.

(** Rounding the record the loop leaves is [rne]. *)
Lemma shr_round m n :
  0 <= m -> 0 < n ->
  let mrs := Nat.iter (Z.to_nat n) shr_1 {| shr_m := m; shr_r := false; shr_s := false |} in
  round_nearest_even (shr_m mrs) (loc_of_shr_record mrs) = rne m n.
Proof.
  intros Hm Hn. assert (exists k, Z.to_nat n = S k) as [k Ek] by (exists (Z.to_nat n - 1)%nat; lia).
  rewrite Ek, shr_iter by done. cbn zeta. unfold rne.
  replace (Z.of_nat (S k)) with n by lia.
  set (h := Z.of_nat k). assert (En : n = Z.succ h) by lia.
  pose proof (pow2_pos h ltac:(lia)) as Hp.
  assert (Emod : m mod 2 ^ n = m mod 2 ^ h + 2 ^ h * Z.b2z (Z.odd (m / 2 ^ h))).
  { rewrite En, Z.pow_succ_r, (Z.mul_comm 2), Z.rem_mul_r by lia. rewrite Zmod_odd.
    by destruct (Z.odd _). }
  assert (E2 : 2 ^ n = 2 * 2 ^ h) by (rewrite En, Z.pow_succ_r; lia).
  pose proof (Z.mod_pos_bound m (2 ^ h) Hp).
  rewrite Emod. cbn [shr_m loc_of_shr_record].
  destruct (Z.odd (m / 2 ^ h)), (Z.eqb_spec (m mod 2 ^ h) 0); cbn [negb Z.b2z round_nearest_even];
    match goal with |- context [?a ?= ?b] => destruct (Z.compare_spec a b) end; lia.
Qed.

(** ** Correctness of [binary_round_aux] on exact inputs *)

(** A magnitude [m * 2^e] whose exponent is canonical already. *)
Lemma round_aux_canonical s (m : positive) e :
  fexp 53 1024 (Zpos (digits2_pos m) + e) = e ->
  binary_round_aux 53 1024 s (Zpos m) e loc_Exact =
  if e <=? 971 then S754_finite s m e else S754_infinity s.
Proof.
  intros H. unfold binary_round_aux, shr_fexp. cbn [Zdigits2].
  rewrite H, Z.sub_diag. cbn [shr shr_record_of_loc loc_of_shr_record shr_m round_nearest_even Zdigits2].
  rewrite H, Z.sub_diag. done.
Qed.

(** What a conversion, sum or difference may return for the exact value [N]. *)
Definition rounds_to (N : Z) (x : f64) : Prop :=
  valid x /\
  (Z.abs (roundZ N) < OVERFLOW -> is_finite x = true /\ scaled x = roundZ N) /\
  (OVERFLOW <= Z.abs (roundZ N) -> x = S754_infinity (N <? 0)).

(** A canonical magnitude [R = m * 2^(e + 1074)] of 53 bits, as returned after
    the overflow check. *)
Lemma rounds_to_intro s (m : positive) e N :
  Zpos m < 2 ^ 53 -> -1074 <= e -> (-1074 < e -> 2 ^ 52 <= Zpos m) ->
  roundZ N = cond_Zopp s (Zpos m * 2 ^ (e + 1074)) -> (N <? 0) = s ->
  rounds_to N (if e <=? 971 then S754_finite s m e else S754_infinity s).
Proof.
  intros Hm He Hn HR Hs. unfold rounds_to. rewrite HR, Hs.
  pose proof (pow2_pos (e + 1074) ltac:(lia)) as Hp.
  assert (Habs : Z.abs (cond_Zopp s (Zpos m * 2 ^ (e + 1074))) = Zpos m * 2 ^ (e + 1074))
    by (destruct s; unfold cond_Zopp; lia).
  rewrite Habs. unfold OVERFLOW. destruct (Z.leb_spec e 971).
  - split; [|split].
    + apply valid_finite. split; [|done].
      destruct (Z.eq_dec e (-1074)) as [->|].
      * assert (Z.log2 (Zpos m) < 53) by (apply Z.log2_lt_pow2; lia). lia.
      * assert (Z.log2 (Zpos m) = 52) by (apply Z.log2_unique; lia). lia.
    + intros _. split; [done|]. destruct s; unfold scaled, cond_Zopp; lia.
    + intros Hov. exfalso.
      pose proof (Z.pow_le_mono_r 2 (e + 1074) 2045 ltac:(lia) ltac:(lia)).
      assert (Zpos m * 2 ^ (e + 1074) < 2 ^ 53 * 2 ^ 2045) by nia.
      rewrite <- Z.pow_add_r in * by lia. simpl Z.add in *. lia.
  - split; [done|]. split; [|done]. intros Hov. exfalso.
    pose proof (Z.pow_le_mono_r 2 2046 (e + 1074) ltac:(lia) ltac:(lia)).
    assert (2 ^ 52 * 2 ^ 2046 <= Zpos m * 2 ^ (e + 1074)) by nia.
    rewrite <- Z.pow_add_r in * by lia. simpl Z.add in *. lia.
Qed.

(** A magnitude of more than 53 bits: one pass drops the low bits and rounds,
    a second one renormalises when rounding carried into bit 53. *)
Lemma round_aux_long s (m : positive) e :
  53 <= Z.log2 (Zpos m) -> -1074 <= e ->
  let n := Z.log2 (Zpos m) - 52 in
  let q := rne (Zpos m) n in
  binary_round_aux 53 1024 s (Zpos m) e loc_Exact =
  if q =? 2 ^ 53
  then (if e + n + 1 <=? 971 then S754_finite s (2 ^ 52) (e + n + 1) else S754_infinity s)
  else (if e + n <=? 971 then S754_finite s (Z.to_pos q) (e + n) else S754_infinity s).
Proof.
  intros HL He n q. pose proof (rne_log2_bounds (Zpos m) HL) as Hq. fold n q in Hq.
  assert (En0 : n = Z.log2 (Zpos m) - 52) by done.
  assert (Eq0 : q = rne (Zpos m) n) by done. clearbody q n.
  assert (Hn : 0 < n) by lia.
  unfold binary_round_aux. unfold shr_fexp at 1. cbn [Zdigits2 shr_record_of_loc].
  rewrite digits2_pos_log2, fexp_eq.
  replace (Z.max (Z.log2 (Zpos m) + 1 + e - 53) (-1074) - e) with n by lia.
  unfold shr at 1. destruct n as [|pn|] eqn:En; try lia. rewrite <- En in *.
  rewrite iter_pos_nat.
  replace (Pos.to_nat pn) with (Z.to_nat n) by (rewrite En; done).
  pose proof (shr_round (Zpos m) n ltac:(lia) Hn) as Hr. cbn zeta in Hr. rewrite Hr, <- Eq0.
  clear Hr. unfold shr_fexp.
  assert (exists pq, q = Zpos pq) as [pq Eq]
    by (destruct q as [|pq|]; [lia|by exists pq|lia]).
  rewrite Eq. cbn [Zdigits2 shr_record_of_loc]. rewrite digits2_pos_log2, fexp_eq, <- Eq.
  destruct (Z.eqb_spec q (2 ^ 53)) as [E53|E53].
  - rewrite E53. change (Z.log2 (2 ^ 53)) with 53.
    replace (Z.max (53 + 1 + (e + n) - 53) (-1074) - (e + n)) with 1 by lia.
    cbn [shr iter_pos]. rewrite shr_1_nonneg by lia. cbn [shr_m].
    change (2 ^ 53 / 2) with (2 ^ 52). change (2 ^ 52) with (Zpos (2 ^ 52)). done.
  - assert (Z.log2 q = 52) by (apply Z.log2_unique; lia).
    replace (Z.max (Z.log2 q + 1 + (e + n) - 53) (-1074) - (e + n)) with 0 by lia.
    cbn [shr shr_m]. rewrite Eq. done.
Qed.

Lemma iter_xO_pow2 (m d : positive) : Zpos (Pos.iter xO m d) = Zpos m * 2 ^ Zpos d.
Proof.
  revert m. induction d as [|d IH] using Pos.peano_ind; intros m.
  - simpl Pos.iter. change (2 ^ 1) with 2. lia.
  - rewrite Pos.iter_succ, Pos2Z.inj_xO, IH, Pos2Z.inj_succ, Z.pow_succ_r by lia. lia.
Qed.

(** [shl_align] lowers the exponent to [ex'] when it is above it. *)
Lemma shl_align_spec (m : positive) e e' :
  let '(m', e'') := shl_align m e e' in
  e'' = Z.min e e' /\ Zpos m' = Zpos m * 2 ^ (e - e'').
Proof.
  unfold shl_align. destruct (e' - e) as [|d|d] eqn:E.
  - split; [lia|]. rewrite Z.sub_diag. lia.
  - split; [lia|]. rewrite Z.sub_diag. lia.
  - split; [lia|]. rewrite iter_xO_pow2. f_equal. f_equal. lia.
Qed.

Lemma roundZ_cond s N : 0 <= N -> roundZ (cond_Zopp s N) = cond_Zopp s (round53 N).
Proof. intros. destruct s; unfold cond_Zopp; rewrite ?roundZ_opp, roundZ_nonneg by done; done. Qed.

Lemma binary_round_correct s (m : positive) e :
  -1074 <= e ->
  rounds_to (cond_Zopp s (Zpos m * 2 ^ (e + 1074))) (binary_round 53 1024 s m e).
Proof.
  intros He. unfold binary_round. rewrite digits2_pos_log2, fexp_eq.
  pose proof (Z.log2_nonneg (Zpos m)) as HL0.
  pose proof (log2_bounds (Zpos m) ltac:(lia)) as [Hlo Hhi].
  set (L := Z.log2 (Zpos m)) in *. set (ex' := Z.max (L + 1 + e - 53) (-1074)).
  pose proof (shl_align_spec m e ex') as Hsh.
  destruct (shl_align m e ex') as [mz ez]. destruct Hsh as [Hez Hmz].
  pose proof (pow2_pos (e + 1074) ltac:(lia)) as Hp.
  assert (Hsign : (cond_Zopp s (Zpos m * 2 ^ (e + 1074)) <? 0) = s).
  { destruct s; unfold cond_Zopp; [apply Z.ltb_lt|apply Z.ltb_ge]; nia. }
  assert (Hval : Zpos m * 2 ^ (e + 1074) = Zpos mz * 2 ^ (ez + 1074)).
  { rewrite Hmz, <- Z.mul_assoc, <- Z.pow_add_r by lia. f_equal. f_equal. lia. }
  destruct (Z.lt_ge_cases L 53) as [Hshort|Hlong].
  - assert (Hez' : ez = ex') by lia.
    assert (Hlz : Z.log2 (Zpos mz) = L + (e - ez)) by (rewrite Hmz, Z.log2_mul_pow2; lia).
    rewrite round_aux_canonical by (rewrite digits2_pos_log2, fexp_eq, Hlz; lia).
    pose proof (log2_bounds (Zpos mz) ltac:(lia)) as [Hlo' Hhi']. rewrite Hlz in Hlo', Hhi'.
    apply rounds_to_intro; [..|done].
    + apply Z.lt_le_trans with (1 := Hhi'). apply Z.pow_le_mono_r; lia.
    + lia.
    + intros. apply Z.le_trans with (2 := Hlo'). apply Z.pow_le_mono_r; lia.
    + rewrite roundZ_cond by lia. f_equal. rewrite Hval. apply round53_fix; [|lia].
      split; [lia|]. apply Z.lt_le_trans with (1 := Hhi'). apply Z.pow_le_mono_r; lia.
  - assert (Hz : mz = m /\ ez = e).
    { assert (Ez : ez = e) by lia. rewrite Ez, Z.sub_diag in Hmz. split; lia. }
    destruct Hz as [-> ->]. rewrite round_aux_long by (fold L; lia). fold L.
    pose proof (rne_log2_bounds (Zpos m) Hlong) as Hq. fold L in Hq.
    assert (Hround : round53 (Zpos m * 2 ^ (e + 1074)) =
                     rne (Zpos m) (L - 52) * 2 ^ (e + (L - 52) + 1074)).
    { rewrite round53_scale by lia. unfold round53. fold L.
      destruct (Z.ltb_spec L 53); [lia|].
      rewrite <- Z.mul_assoc, <- Z.pow_add_r by lia. f_equal. f_equal. lia. }
    destruct (Z.eqb_spec (rne (Zpos m) (L - 52)) (2 ^ 53)) as [E|E];
      (apply rounds_to_intro; [lia|lia|lia| |done]);
      rewrite roundZ_cond by lia; f_equal; rewrite Hround.
    + rewrite E. change (Zpos (2 ^ 52)) with (2 ^ 52).
      rewrite <- !Z.pow_add_r by lia. f_equal. lia.
    + rewrite Z2Pos.id by lia. done.
Qed.

Lemma rounds_to_zero s : rounds_to 0 (S754_zero s).
Proof.
  split; [done|]. split; [done|]. change (Z.abs (roundZ 0)) with 0.
  pose proof (pow2_pos 2098 ltac:(lia)). unfold OVERFLOW. lia.
Qed.

Lemma binary_normalize_correct N e sz :
  -1074 <= e ->
  rounds_to (N * 2 ^ (e + 1074)) (binary_normalize 53 1024 N e sz).
Proof.
  intros He. destruct N as [|p|p].
  - rewrite Z.mul_0_l. apply rounds_to_zero.
  - exact (binary_round_correct false p e He).
  - pose proof (binary_round_correct true p e He) as H. unfold cond_Zopp in H.
    rewrite <- Z.mul_opp_l in H. exact H.
Qed.

(** ** The operations *)

(** [z as f64]: the nearest representable integer, ties to even. *)
Lemma f64_of_Z_correct z :
  Z.abs z < 2 ^ 64 ->
  valid (f64_of_Z z) /\ is_finite (f64_of_Z z) = true /\
  scaled (f64_of_Z z) = roundZ z * 2 ^ 1074.
Proof.
  intros Hz. destruct (binary_normalize_correct z 0 false ltac:(lia)) as (Hv & Hfin & _).
  change (0 + 1074) with 1074 in *.
  assert (HR : roundZ (z * 2 ^ 1074) = roundZ z * 2 ^ 1074).
  { destruct (Z.eq_dec z 0) as [->|]; [by rewrite Z.mul_0_l|].
    unfold roundZ. rewrite Z.sgn_mul, Z.abs_mul.
    rewrite (Z.sgn_pos (2 ^ 1074)), (Z.abs_eq (2 ^ 1074)), round53_scale by lia. lia. }
  destruct Hfin as [Hf Hs].
  - rewrite HR. unfold roundZ. destruct (Z.eq_dec z 0) as [->|]; [by vm_compute|].
    pose proof (round53_bounds (Z.abs z) ltac:(lia)) as [_ Hb].
    assert (Z.log2 (Z.abs z) < 64) by (apply Z.log2_lt_pow2; lia).
    pose proof (Z.pow_le_mono_r 2 (Z.log2 (Z.abs z) + 1) 64 ltac:(lia) ltac:(lia)).
    pose proof (round53_nonneg (Z.abs z) ltac:(lia)).
    rewrite !Z.abs_mul, (Z.abs_eq (round53 _)), (Z.abs_eq (2 ^ 1074)) by lia.
    assert (Z.abs (Z.sgn z) = 1) as -> by lia. rewrite Z.mul_1_l.
    assert (Hle : round53 (Z.abs z) * 2 ^ 1074 <= 2 ^ 64 * 2 ^ 1074) by nia.
    unfold OVERFLOW. rewrite <- Z.pow_add_r in Hle by lia.
    apply Z.le_lt_trans with (1 := Hle). apply Z.pow_lt_mono_r; lia.
  - split; [done|]. split; [done|]. unfold f64_of_Z. by rewrite Hs.
Qed.

(** Subtracting is adding the opposite. *)
Lemma f64_sub_add_neg x y : f64_sub x y = f64_add x (f64_neg y).
Proof.
  destruct x as [[]|[]| |[] m e], y as [[]|[]| |[] m' e']; try done;
    unfold f64_sub, f64_add, SFsub, SFadd, f64_neg, SFopp, negb, cond_Zopp;
    by rewrite ?Z.sub_opp_r, ?Z.add_opp_r.
Qed.

Lemma valid_neg x : valid x -> valid (f64_neg x).
Proof. destruct x as [[]|[]| |[] ? ?]; done. Qed.

Lemma scaled_neg x : scaled (f64_neg x) = - scaled x.
Proof. destruct x as [[]|[]| |[] ? ?]; simpl; lia. Qed.

Lemma is_finite_neg x : is_finite (f64_neg x) = is_finite x.
Proof. by destruct x as [[]|[]| |[] ? ?]. Qed.

(** Every valid finite number is its own rounding and below the overflow
    threshold. *)
Lemma scaled_representable x :
  valid x -> is_finite x = true ->
  roundZ (scaled x) = scaled x /\ Z.abs (scaled x) < OVERFLOW.
Proof.
  intros Hv Hf. destruct x as [s|s| |s m e]; try done.
  apply valid_finite_bounds in Hv as (Hm & He & _).
  pose proof (pow2_pos (e + 1074) ltac:(lia)).
  assert (Hsc : scaled (S754_finite s m e) = cond_Zopp s (Zpos m * 2 ^ (e + 1074)))
    by (destruct s; unfold scaled, cond_Zopp; lia).
  rewrite Hsc. split.
  - rewrite roundZ_cond by lia. f_equal. apply round53_fix; lia.
  - assert (Z.abs (cond_Zopp s (Zpos m * 2 ^ (e + 1074))) = Zpos m * 2 ^ (e + 1074)) as ->
      by (destruct s; unfold cond_Zopp; lia).
    pose proof (Z.pow_le_mono_r 2 (e + 1074) 2045 ltac:(lia) ltac:(lia)).
    assert (Zpos m * 2 ^ (e + 1074) < 2 ^ 53 * 2 ^ 2045) by nia.
    unfold OVERFLOW. rewrite <- Z.pow_add_r in * by lia. done.
Qed.

(** Addition of finite numbers is the rounded exact sum. *)
Lemma f64_add_correct x y :
  valid x -> valid y -> is_finite x = true -> is_finite y = true ->
  rounds_to (scaled x + scaled y) (f64_add x y).
Proof.
  assert (Hself : forall z, valid z -> is_finite z = true -> (forall s, z <> S754_zero s) ->
                            rounds_to (scaled z) z).
  { intros z Hv Hf _. destruct (scaled_representable z Hv Hf) as [HR Ho].
    split; [done|]. rewrite HR. split; [done|lia]. }
  intros Hvx Hvy Hfx Hfy.
  destruct x as [sx|sx| |sx mx ex], y as [sy|sy| |sy my ey]; try done.
  - change (scaled _ + scaled _) with 0. unfold f64_add, SFadd.
    destruct sx, sy; apply rounds_to_zero.
  - change (scaled (S754_zero sx)) with 0. rewrite Z.add_0_l.
    unfold f64_add, SFadd. by apply Hself.
  - change (scaled (S754_zero sy)) with 0. rewrite Z.add_0_r.
    unfold f64_add, SFadd. by apply Hself.
  - unfold f64_add, SFadd. set (ez := Z.min ex ey).
    apply valid_finite_bounds in Hvx as (_ & Hex & _). apply valid_finite_bounds in Hvy as (_ & Hey & _).
    pose proof (shl_align_spec mx ex ez) as Hx. pose proof (shl_align_spec my ey ez) as Hy.
    destruct (shl_align mx ex ez) as [mx' ex']. destruct (shl_align my ey ez) as [my' ey'].
    destruct Hx as [Ex Hx], Hy as [Ey Hy]. cbn [fst].
    assert (ex' = ez) as -> by lia. assert (ey' = ez) as -> by lia.
    pose proof (binary_normalize_correct
      (cond_Zopp sx (Zpos mx') + cond_Zopp sy (Zpos my')) ez false ltac:(lia)) as H.
    assert (HN : (cond_Zopp sx (Zpos mx') + cond_Zopp sy (Zpos my')) * 2 ^ (ez + 1074) =
                 scaled (S754_finite sx mx ex) + scaled (S754_finite sy my ey)).
    { unfold scaled. rewrite Hx, Hy.
      replace (2 ^ (ex + 1074)) with (2 ^ (ex - ez) * 2 ^ (ez + 1074))
        by (rewrite <- Z.pow_add_r by lia; f_equal; lia).
      replace (2 ^ (ey + 1074)) with (2 ^ (ey - ez) * 2 ^ (ez + 1074))
        by (rewrite <- Z.pow_add_r by lia; f_equal; lia).
      destruct sx, sy; unfold cond_Zopp; lia. }
    rewrite HN in H. exact H.
Qed.

Lemma f64_sub_correct x y :
  valid x -> valid y -> is_finite x = true -> is_finite y = true ->
  rounds_to (scaled x - scaled y) (f64_sub x y).
Proof.
  intros Hx Hy Hfx Hfy. rewrite f64_sub_add_neg.
  replace (scaled x - scaled y) with (scaled x + scaled (f64_neg y)) by (rewrite scaled_neg; lia).
  apply f64_add_correct; [done|by apply valid_neg|done|by rewrite is_finite_neg].
Qed.

(** ** Order of valid numbers *)

Lemma same_sign_compare (m1 m2 : positive) e1 e2 :
  Zpos m1 < 2 ^ 53 -> Zpos m2 < 2 ^ 53 -> -1074 <= e1 -> -1074 <= e2 ->
  (-1074 < e1 -> 2 ^ 52 <= Zpos m1) -> (-1074 < e2 -> 2 ^ 52 <= Zpos m2) ->
  match e1 ?= e2 with Lt => Lt | Gt => Gt | Eq => (m1 ?= m2)%positive end =
  (Zpos m1 * 2 ^ (e1 + 1074) ?= Zpos m2 * 2 ^ (e2 + 1074)).
Proof.
  intros H1 H2 He1 He2 Hn1 Hn2.
  assert (Hlt : forall (m m' : positive) e e', -1074 <= e -> e < e' -> Zpos m < 2 ^ 53 ->
    2 ^ 52 <= Zpos m' -> Zpos m * 2 ^ (e + 1074) < Zpos m' * 2 ^ (e' + 1074)).
  { intros m m' e e' He Hee Hm Hm'.
    pose proof (pow2_pos (e + 1074) ltac:(lia)).
    pose proof (Z.pow_le_mono_r 2 (Z.succ (e + 1074)) (e' + 1074) ltac:(lia) ltac:(lia)) as Hp.
    rewrite Z.pow_succ_r in Hp by lia. nia. }
  destruct (Z.compare_spec e1 e2) as [->|Hlt'|Hgt].
  - pose proof (pow2_pos (e2 + 1074) ltac:(lia)).
    rewrite <- Zmult_compare_compat_r by lia. done.
  - symmetry. apply Z.compare_lt_iff, Hlt; auto; lia.
  - symmetry. apply Z.compare_gt_iff, Hlt; auto; lia.
Qed.

Lemma SFcompare_scaled x y :
  valid x -> valid y -> is_finite x = true -> is_finite y = true ->
  SFcompare x y = Some (scaled x ?= scaled y).
Proof.
  intros Hvx Hvy Hfx Hfy.
  destruct x as [sx|sx| |sx mx ex], y as [sy|sy| |sy my ey]; try done; unfold SFcompare, scaled;
    try apply valid_finite_bounds in Hvx as (Hm & He & Hn);
    try apply valid_finite_bounds in Hvy as (Hm' & He' & Hn');
    try pose proof (pow2_pos (ex + 1074) ltac:(lia)); try pose proof (pow2_pos (ey + 1074) ltac:(lia)).
  - destruct sy; unfold cond_Zopp; f_equal; symmetry;
      [apply Z.compare_gt_iff|apply Z.compare_lt_iff]; nia.
  - destruct sx; unfold cond_Zopp; f_equal; symmetry;
      [apply Z.compare_lt_iff|apply Z.compare_gt_iff]; nia.
  - destruct sx, sy; unfold cond_Zopp; f_equal.
    + rewrite !Z.mul_opp_l, <- Zcompare_opp, <- (same_sign_compare my mx) by lia.
      change (Pos.compare_cont Eq mx my) with (mx ?= my)%positive.
      rewrite (Z.compare_antisym ex ey), (Pos.compare_antisym mx my).
      by destruct (ex ?= ey), (mx ?= my)%positive.
    + symmetry. apply Z.compare_lt_iff. nia.
    + symmetry. apply Z.compare_gt_iff. nia.
    + rewrite <- (same_sign_compare mx my) by lia. done.
Qed.

Lemma f64_le_scaled x y :
  valid x -> valid y -> is_finite x = true -> is_finite y = true ->
  f64_le x y = (scaled x <=? scaled y).
Proof.
  intros. unfold f64_le, SFleb, Z.leb. rewrite SFcompare_scaled by done. by case_match.
Qed.

Lemma f64_lt_scaled x y :
  valid x -> valid y -> is_finite x = true -> is_finite y = true ->
  f64_lt x y = (scaled x <? scaled y).
Proof.
  intros. unfold f64_lt, SFltb, Z.ltb. rewrite SFcompare_scaled by done. by case_match.
Qed.

Lemma f64_of_Z_valid z : Z.abs z < 2 ^ 64 -> valid (f64_of_Z z).
Proof. intros. by apply f64_of_Z_correct. Qed.

Lemma f64_of_Z_finite z : Z.abs z < 2 ^ 64 -> is_finite (f64_of_Z z) = true.
Proof. intros. by apply f64_of_Z_correct. Qed.

Lemma f64_of_Z_not_nan z : Z.abs z < 2 ^ 64 -> is_nan (f64_of_Z z) = false.
Proof. intros H%f64_of_Z_finite. by destruct (f64_of_Z z). Qed.

(** Conversion of words is monotone, and exact up to 2^53. *)
Lemma f64_of_Z_mono a b :
  Z.abs a < 2 ^ 64 -> Z.abs b < 2 ^ 64 -> a <= b -> f64_le (f64_of_Z a) (f64_of_Z b) = true.
Proof.
  intros Ha Hb Hab.
  destruct (f64_of_Z_correct a Ha) as (Hva & Hfa & Hsa).
  destruct (f64_of_Z_correct b Hb) as (Hvb & Hfb & Hsb).
  rewrite f64_le_scaled by done. apply Z.leb_le. rewrite Hsa, Hsb.
  pose proof (roundZ_mono a b Hab). pose proof (pow2_pos 1074 ltac:(lia)). nia.
Qed.

Lemma f64_of_Z_exact z :
  0 <= z <= 2 ^ 53 -> scaled (f64_of_Z z) = z * 2 ^ 1074.
Proof.
  intros Hz. destruct (f64_of_Z_correct z ltac:(lia)) as (_ & _ & ->). f_equal.
  rewrite roundZ_nonneg by lia. destruct (Z.eq_dec z (2 ^ 53)) as [->|]; [done|].
  apply round53_lt. lia.
Qed.

(** ** Subtraction and order *)

Lemma rounds_to_nonneg N x : 0 <= N -> rounds_to N x -> f64_le f64_zero x = true.
Proof.
  intros HN (Hv & Hfin & Hinf).
  destruct (Z.lt_ge_cases (Z.abs (roundZ N)) OVERFLOW) as [H|H].
  - destruct (Hfin H) as [Hf Hs]. rewrite f64_le_scaled by done. rewrite Hs.
    apply Z.leb_le. rewrite roundZ_nonneg by done. by apply round53_nonneg.
  - rewrite (Hinf H). destruct (Z.ltb_spec N 0); [lia|done].
Qed.

(** Taking a nonnegative amount off never raises a finite number. *)
Lemma f64_sub_le x n :
  valid x -> valid n -> is_finite x = true -> is_finite n = true ->
  f64_le f64_zero n = true -> f64_le (f64_sub x n) x = true.
Proof.
  intros Hvx Hvn Hfx Hfn Hn. rewrite f64_le_scaled in Hn by done.
  apply Z.leb_le in Hn. change (scaled f64_zero) with 0 in Hn.
  destruct (f64_sub_correct x n Hvx Hvn Hfx Hfn) as (Hv & Hfin & Hinf).
  destruct (scaled_representable x Hvx Hfx) as [HRx Hox].
  pose proof (roundZ_mono (scaled x - scaled n) (scaled x) ltac:(lia)) as Hmono.
  destruct (Z.lt_ge_cases (Z.abs (roundZ (scaled x - scaled n))) OVERFLOW) as [H|H].
  - destruct (Hfin H) as [Hf Hs]. rewrite f64_le_scaled by done. rewrite Hs. apply Z.leb_le. lia.
  - rewrite (Hinf H). assert (scaled x - scaled n < 0) as ->%Z.ltb_lt.
    { destruct (Z.lt_ge_cases (scaled x - scaled n) 0) as [|Hge]; [done|].
      pose proof (roundZ_mono 0 _ Hge) as H0. change (roundZ 0) with 0 in H0. lia. }
    by destruct x as [[]|[]| |[] ? ?].
Qed.

(** A difference is nonnegative when the subtrahend is no larger, and negative
    when it is larger: rounding never crosses zero. *)
Lemma f64_sub_nonneg x n :
  valid x -> valid n -> is_finite x = true -> is_finite n = true ->
  f64_le n x = true -> f64_le f64_zero (f64_sub x n) = true.
Proof.
  intros Hvx Hvn Hfx Hfn Hle. rewrite f64_le_scaled in Hle by done. apply Z.leb_le in Hle.
  apply (rounds_to_nonneg (scaled x - scaled n)); [lia|]. by apply f64_sub_correct.
Qed.

Lemma f64_sub_neg x n :
  valid x -> valid n -> is_finite x = true -> is_finite n = true ->
  f64_lt x n = true -> f64_lt (f64_sub x n) f64_zero = true.
Proof.
  intros Hvx Hvn Hfx Hfn Hlt. rewrite f64_lt_scaled in Hlt by done. apply Z.ltb_lt in Hlt.
  destruct (f64_sub_correct x n Hvx Hvn Hfx Hfn) as (Hv & Hfin & Hinf).
  destruct (Z.lt_ge_cases (Z.abs (roundZ (scaled x - scaled n))) OVERFLOW) as [H|H].
  - destruct (Hfin H) as [Hf Hs]. rewrite f64_lt_scaled by done. rewrite Hs.
    apply Z.ltb_lt. change (scaled f64_zero) with 0.
    rewrite <- (Z.opp_involutive (scaled x - scaled n)), roundZ_opp, roundZ_nonneg by lia.
    pose proof (round53_bounds (- (scaled x - scaled n)) ltac:(lia)).
    pose proof (pow2_pos (Z.log2 (- (scaled x - scaled n))) (Z.log2_nonneg _)). lia.
  - rewrite (Hinf H). assert (scaled x - scaled n < 0) as ->%Z.ltb_lt by lia. done.
Qed.

Lemma f64_sub_valid x y :
  valid x -> valid y -> is_finite x = true -> is_finite y = true -> valid (f64_sub x y).
Proof. intros. by apply f64_sub_correct. Qed.

#[export] Hint Resolve f64_of_Z_valid f64_of_Z_finite f64_of_Z_not_nan f64_sub_valid : f64.

(** ** Closure of the representable numbers under the other operations *)

(** The quotient left by the loop does not depend on the discarded bits. *)
Lemma shr_iter_m mrs n :
  0 <= shr_m mrs -> shr_m (Nat.iter n shr_1 mrs) = shr_m mrs / 2 ^ Z.of_nat n.
Proof.
  intros Hm. induction n as [|n IH].
  - by rewrite Z.pow_0_r, Z.div_1_r.
  - rewrite Nat.iter_succ. destruct (Nat.iter n shr_1 mrs) as [m r s] eqn:E.
    cbn [shr_m] in IH. pose proof (pow2_pos (Z.of_nat n) ltac:(lia)).
    rewrite shr_1_nonneg by (rewrite IH; apply Z.div_pos; lia). cbn [shr_m].
    rewrite IH, Z.div_div, Nat2Z.inj_succ, Z.pow_succ_r by lia. f_equal. lia.
Qed.

Lemma round_nearest_even_bounds m l :
  m <= round_nearest_even m l <= m + 1.
Proof. destruct l as [|[]]; simpl; try case_match; lia. Qed.

(** The second pass puts a mantissa of at most 2^53 in canonical form. *)
Lemma renormalise_valid s m e :
  0 <= m <= 2 ^ 53 -> -1074 <= e -> (-1074 < e -> 2 ^ 52 <= m) ->
  valid (let '(mrs, e') := shr_fexp 53 1024 m e loc_Exact in
         match shr_m mrs with
         | Z0 => S754_zero s
         | Zpos p => if e' <=? 1024 - 53 then S754_finite s p e' else S754_infinity s
         | Zneg _ => S754_nan
         end).
Proof.
  intros Hm He Hn. unfold shr_fexp. cbn [shr_record_of_loc].
  destruct m as [|p|p]; [..|lia].
  - assert (e = -1074) as -> by lia. done.
  - cbn [Zdigits2]. rewrite digits2_pos_log2, fexp_eq.
    destruct (Z.eq_dec (Zpos p) (2 ^ 53)) as [E|Hne].
    + rewrite E. change (Z.log2 (2 ^ 53)) with 53.
      replace (Z.max (53 + 1 + e - 53) (-1074) - e) with 1 by lia.
      cbn [shr iter_pos]. rewrite shr_1_nonneg by lia. cbn [shr_m].
      change (2 ^ 53 / 2) with (Zpos (2 ^ 52)). destruct (Z.leb_spec (e + 1) (1024 - 53)); [|done].
      apply valid_finite. change (Z.log2 (Zpos (2 ^ 52))) with 52. lia.
    + assert (HL : Z.log2 (Zpos p) < 53) by (apply Z.log2_lt_pow2; lia).
      assert (HL' : -1074 < e -> Z.log2 (Zpos p) = 52) by (intros; apply Z.log2_unique; lia).
      replace (Z.max (Z.log2 (Zpos p) + 1 + e - 53) (-1074) - e) with 0 by lia.
      cbn [shr shr_m]. destruct (Z.leb_spec e (1024 - 53)); [|done]. apply valid_finite. lia.
Qed.

Lemma binary_round_aux_valid s m e l :
  0 <= m -> e <= fexp 53 1024 (Zdigits2 m + e) ->
  valid (binary_round_aux 53 1024 s m e l).
Proof.
  intros Hm He. unfold binary_round_aux. unfold shr_fexp at 1.
  assert (Hn : exists n, n = fexp 53 1024 (Zdigits2 m + e) - e) by eauto.
  destruct Hn as [n En]. rewrite <- En. rewrite fexp_eq in En, He.
  assert (Hshr : exists mrs, shr (shr_record_of_loc m l) e n = (mrs, e + n) /\
                             shr_m mrs = m / 2 ^ n).
  { assert (E0 : shr_m (shr_record_of_loc m l) = m) by (destruct l as [|[]]; done).
    destruct n as [|pn|pn]; [..|lia].
    - eexists. split; [cbn [shr]; f_equal; lia|]. by rewrite E0, Z.pow_0_r, Z.div_1_r.
    - eexists. split; [done|]. rewrite iter_pos_nat, shr_iter_m, E0 by lia. f_equal. f_equal. lia. }
  destruct Hshr as (mrs & -> & Hq). rewrite Hq.
  pose proof (round_nearest_even_bounds (m / 2 ^ n) (loc_of_shr_record mrs)) as Hr.
  pose proof (pow2_pos n ltac:(lia)).
  assert (Hd : 0 < m -> Zdigits2 m = Z.log2 m + 1).
  { destruct m; try lia. intros _. apply digits2_pos_log2. }
  assert (Hmq : m < 2 ^ 53 * 2 ^ n /\ (-1074 < e + n -> 2 ^ 52 * 2 ^ n <= m)).
  { destruct (Z.eq_dec m 0) as [->|].
    - simpl Zdigits2 in En, He. split; [lia|]. intros. exfalso. lia.
    - pose proof (log2_bounds m ltac:(lia)) as [Hlo Hhi]. rewrite Hd in En, He by lia.
      pose proof (Z.log2_nonneg m). rewrite <- !Z.pow_add_r by lia. split.
      + apply Z.lt_le_trans with (1 := Hhi). apply Z.pow_le_mono_r; lia.
      + intros. apply Z.le_trans with (2 := Hlo). apply Z.pow_le_mono_r; lia. }
  pose proof (Z.div_lt_upper_bound m (2 ^ n) (2 ^ 53) ltac:(lia) ltac:(lia)).
  pose proof (Z.div_pos m (2 ^ n) Hm ltac:(lia)).
  apply renormalise_valid; [lia|lia|].
  intros Hen. destruct Hmq as [_ Hmq]. specialize (Hmq Hen).
  pose proof (Z.div_le_lower_bound m (2 ^ n) (2 ^ 52) ltac:(lia) ltac:(lia)). lia.
Qed.

(** A product of mantissas has enough digits for its exponent. *)
Lemma mul_digits sx mx ex sy my ey :
  valid (S754_finite sx mx ex) -> valid (S754_finite sy my ey) ->
  ex + ey <= fexp 53 1024 (Zdigits2 (Zpos (mx * my)) + (ex + ey)).
Proof.
  intros Hx Hy.
  pose proof (valid_finite_bounds _ _ _ Hx) as (Hmx & Hex & Hnx).
  pose proof (valid_finite_bounds _ _ _ Hy) as (Hmy & Hey & Hny).
  cbn [Zdigits2]. rewrite digits2_pos_log2, fexp_eq, Pos2Z.inj_mul.
  pose proof (Z.log2_nonneg (Zpos mx * Zpos my)).
  destruct (Z.le_gt_cases (ex + ey) (-1074)); [lia|].
  assert (52 <= Z.log2 (Zpos mx * Zpos my)); [|lia].
  apply Z.log2_le_pow2; [lia|].
  destruct (Z.lt_ge_cases (-1074) ex); [specialize (Hnx ltac:(lia)); nia|].
  assert (-1074 < ey) by lia. specialize (Hny ltac:(lia)). nia.
Qed.

Lemma f64_mul_valid x y : valid x -> valid y -> valid (f64_mul x y).
Proof.
  intros Hx Hy. destruct x as [[]|[]| |sx mx ex], y as [[]|[]| |sy my ey]; try done.
  unfold f64_mul, SFmul. apply binary_round_aux_valid; [lia|]. by eapply mul_digits.
Qed.

Lemma f64_add_valid x y : valid x -> valid y -> valid (f64_add x y).
Proof.
  intros Hx Hy.
  destruct (is_finite x) eqn:Fx, (is_finite y) eqn:Fy; [by apply f64_add_correct|..];
    destruct x as [[]|[]| |[] ? ?], y as [[]|[]| |[] ? ?]; done.
Qed.

(** The quotient of the mantissas: its exponent leaves enough digits, and the
    remainder is classified. *)
Lemma div_core_spec (m1 m2 : positive) e1 e2 :
  exists q r e', SFdiv_core_binary 53 1024 (Zpos m1) e1 (Zpos m2) e2 = (q, e', new_location (Zpos m2) r) /\
    e' = Z.min (fexp 53 1024 (Z.log2 (Zpos m1) + 1 + e1 - (Z.log2 (Zpos m2) + 1 + e2))) (e1 - e2) /\
    0 <= q /\ 0 <= r < Zpos m2 /\ q * Zpos m2 + r = Zpos m1 * 2 ^ (e1 - e2 - e') /\
    e' <= fexp 53 1024 (Zdigits2 q + e').
Proof.
  unfold SFdiv_core_binary. cbn [Zdigits2]. rewrite !digits2_pos_log2.
  set (D := Z.log2 (Zpos m1) + 1 + e1 - (Z.log2 (Zpos m2) + 1 + e2)).
  assert (He' : exists e', e' = Z.min (fexp 53 1024 D) (e1 - e2)) by eauto.
  destruct He' as [e' He']. rewrite <- He'.
  assert (Hm' : match e1 - e2 - e' with
                | Z0 => Zpos m1 | Zpos _ => Z.shiftl (Zpos m1) (e1 - e2 - e') | Zneg _ => 0
                end = Zpos m1 * 2 ^ (e1 - e2 - e')).
  { destruct (e1 - e2 - e') as [|p|p] eqn:E.
    - by rewrite Z.mul_1_r.
    - by rewrite Z.shiftl_mul_pow2 by lia.
    - lia. }
  rewrite Hm'. assert (Hsh : exists sh, sh = e1 - e2 - e') by eauto.
  destruct Hsh as [sh Hsh]. rewrite <- Hsh. assert (0 <= sh) by lia.
  pose proof (pow2_pos sh ltac:(lia)).
  pose proof (Z_div_mod (Zpos m1 * 2 ^ sh) (Zpos m2) ltac:(lia)) as Hdiv.
  destruct (Z.div_eucl (Zpos m1 * 2 ^ sh) (Zpos m2)) as [q r]. destruct Hdiv as [Hq Hr].
  exists q, r, e'. rewrite <- Hsh. split; [done|]. split; [done|]. split; [nia|]. split; [lia|]. split; [lia|].
  assert (HD : D <= Zdigits2 q + e').
  { assert (Z.log2 (Zpos m1) + sh - Z.log2 (Zpos m2) <= Zdigits2 q); [|lia].
    destruct (Z.le_gt_cases (Z.log2 (Zpos m1) + sh - Z.log2 (Zpos m2)) 0).
    { unfold Zdigits2. destruct q; lia. }
    pose proof (log2_bounds (Zpos m1) ltac:(lia)) as [Hlo1 _].
    pose proof (log2_bounds (Zpos m2) ltac:(lia)) as [_ Hhi2].
    set (k := Z.log2 (Zpos m1) + sh - Z.log2 (Zpos m2) - 1).
    assert (Hk : 2 ^ k <= q).
    { assert (E : 2 ^ Z.log2 (Zpos m1) * 2 ^ sh = 2 ^ k * 2 ^ (Z.log2 (Zpos m2) + 1)).
      { pose proof (Z.log2_nonneg (Zpos m1)). pose proof (Z.log2_nonneg (Zpos m2)).
        rewrite <- !Z.pow_add_r by lia. f_equal. lia. }
      pose proof (pow2_pos k ltac:(lia)). nia. }
    destruct q as [|p|p]; [pose proof (pow2_pos k ltac:(lia)); lia| |lia].
    cbn [Zdigits2]. rewrite digits2_pos_log2.
    apply Z.log2_le_pow2 in Hk; lia. }
  rewrite fexp_eq in *. lia.
Qed.

Lemma f64_div_valid x y : valid x -> valid y -> valid (f64_div x y).
Proof.
  intros _ _. destruct x as [[]|[]| |s1 m1 e1], y as [[]|[]| |s2 m2 e2]; try done.
  unfold f64_div, SFdiv. destruct (div_core_spec m1 m2 e1 e2) as (q & r & e' & -> & _ & Hq & _ & _ & He).
  by apply binary_round_aux_valid.
Qed.

(** ** Signs *)

(** Not below zero: nonnegative numbers, both zeros and NaN. *)
Definition not_neg (x : f64) : bool := negb (f64_lt x f64_zero).

Lemma binary_round_aux_not_neg m e l : not_neg (binary_round_aux 53 1024 false m e l) = true.
Proof.
  unfold binary_round_aux. destruct (shr_fexp _ _ m e l) as [mrs e'].
  destruct (shr_fexp _ _ _ e' loc_Exact) as [mrs' e'']. by repeat case_match.
Qed.

(** A quotient of numbers that are not negative is not negative. *)
Lemma f64_div_not_neg x y :
  not_neg x = true -> f64_lt f64_zero y = true -> not_neg (f64_div x y) = true.
Proof.
  destruct x as [[]|[]| |[] m e], y as [[]|[]| |[] m' e']; try done; intros _ _.
  unfold f64_div, SFdiv. cbn [xorb].
  destruct (SFdiv_core_binary _ _ _ _ _ _) as [[q e''] l]. apply binary_round_aux_not_neg.
Qed.

Lemma f64_mul_not_neg x y :
  not_neg x = true -> f64_lt f64_zero y = true -> not_neg (f64_mul x y) = true.
Proof.
  destruct x as [[]|[]| |[] m e], y as [[]|[]| |[] m' e']; try done; intros _ _.
  unfold f64_mul, SFmul. cbn [xorb]. apply binary_round_aux_not_neg.
Qed.

(** Adding an amount that is not negative does not lower a number, unless the
    sum is NaN. *)
Lemma f64_add_ge x n :
  valid x -> valid n -> is_finite x = true -> not_neg n = true ->
  f64_le x (f64_add x n) = true \/ is_nan (f64_add x n) = true.
Proof.
  intros Hvx Hvn Hfx Hn. destruct (is_finite n) eqn:Hfn.
  - left. unfold not_neg in Hn. rewrite f64_lt_scaled in Hn by done.
    apply negb_true_iff, Z.ltb_ge in Hn. change (scaled f64_zero) with 0 in Hn.
    destruct (f64_add_correct x n Hvx Hvn Hfx Hfn) as (Hv & Hfin & Hinf).
    destruct (scaled_representable x Hvx Hfx) as [HRx Hox].
    pose proof (roundZ_mono (scaled x) (scaled x + scaled n) ltac:(lia)) as Hmono.
    destruct (Z.lt_ge_cases (Z.abs (roundZ (scaled x + scaled n))) OVERFLOW) as [H|H].
    + destruct (Hfin H) as [Hf Hs]. rewrite f64_le_scaled by done. rewrite Hs. apply Z.leb_le. lia.
    + rewrite (Hinf H). assert ((scaled x + scaled n <? 0) = false) as ->.
      { apply Z.ltb_ge. destruct (Z.lt_ge_cases (scaled x + scaled n) 0) as [Hlt|]; [|done].
        pose proof (roundZ_mono _ 0 (Z.lt_le_incl _ _ Hlt)) as H0. change (roundZ 0) with 0 in H0. lia. }
      by destruct x as [[]|[]| |[] ? ?].
  - destruct x as [[]|[]| |[] m e], n as [[]|[]| |[] m' e']; try done; by (left + right).
Qed.

(** ** Rounding to an integer and converting back *)

Lemma f64_to_u64_of_Z n : 0 <= n <= 2 ^ 53 -> f64_to_u64 (f64_of_Z n) = n.
Proof.
  intros Hn. pose proof (f64_of_Z_exact n Hn) as Hs.
  pose proof (f64_of_Z_valid n ltac:(lia)) as Hv. pose proof (f64_of_Z_finite n ltac:(lia)) as Hf.
  pose proof (pow2_pos 1074 ltac:(lia)).
  destruct (f64_of_Z n) as [s|s| |s m e]; try done.
  - change (scaled (S754_zero s)) with 0 in Hs. simpl. nia.
  - apply valid_finite_bounds in Hv as (Hm & He & _). unfold scaled in Hs.
    pose proof (pow2_pos (e + 1074) ltac:(lia)).
    destruct s; unfold cond_Zopp in Hs; [nia|]. unfold f64_to_u64, trunc_pos.
    assert (E : (if 0 <=? e then Zpos m * 2 ^ e else Zpos m / 2 ^ (- e)) = n);
      [|rewrite E; unfold U64_MAX; lia].
    destruct (Z.leb_spec 0 e).
    + rewrite Z.pow_add_r in Hs by lia. nia.
    + pose proof (pow2_pos (- e) ltac:(lia)).
      replace 1074 with ((- e) + (e + 1074)) in Hs at 2 by lia.
      rewrite (Z.pow_add_r 2 (- e)) in Hs by lia.
      assert (Zpos m = n * 2 ^ (- e)) as -> by nia. apply Z.div_mul. lia.
Qed.

Lemma div_half_up m d : 0 < d -> 0 <= m -> m / d <= (m + d / 2) / d.
Proof.
  intros. apply Z.div_le_mono; [done|]. pose proof (Z.div_pos d 2 ltac:(lia) ltac:(lia)). lia.
Qed.

(** An integer lower bound (up to 2^53) survives rounding and conversion. *)
Lemma f64_round_to_u64_ge x n :
  0 <= n <= 2 ^ 53 -> valid x -> is_finite x = true -> f64_le (f64_of_Z n) x = true ->
  n <= f64_to_u64 (f64_round x).
Proof.
  intros Hn Hv Hf Hle.
  rewrite f64_le_scaled, f64_of_Z_exact in Hle by (done || apply f64_of_Z_correct; lia).
  apply Z.leb_le in Hle. pose proof (pow2_pos 1074 ltac:(lia)).
  destruct x as [s|s| |s m e]; try done.
  - change (scaled (S754_zero s)) with 0 in Hle. simpl. destruct s; simpl; nia.
  - apply valid_finite_bounds in Hv as (Hm & He & _). unfold scaled in Hle.
    pose proof (pow2_pos (e + 1074) ltac:(lia)).
    destruct s; unfold cond_Zopp in Hle.
    { assert (n = 0) as -> by nia. apply f64_to_u64_range. }
    unfold f64_round. destruct (Z.leb_spec 0 e).
    + unfold f64_to_u64, trunc_pos. destruct (Z.leb_spec 0 e); [|lia].
      rewrite Z.pow_add_r in Hle by lia. unfold U64_MAX. nia.
    + pose proof (pow2_pos (- e) ltac:(lia)).
      pose proof (pow2_pos (- e - 1) ltac:(lia)).
      assert (Ehalf : 2 ^ (- e) = 2 * 2 ^ (- e - 1))
        by (rewrite <- Z.pow_succ_r by lia; f_equal; lia).
      unfold cond_Zopp. set (k := (Zpos m + 2 ^ (- e - 1)) / 2 ^ (- e)).
      assert (Hk : n <= k <= 2 ^ 53).
      { split.
        - apply Z.div_le_lower_bound; [lia|].
          replace 1074 with ((- e) + (e + 1074)) in Hle at 1 by lia.
          rewrite (Z.pow_add_r 2 (- e)) in Hle by lia. nia.
        - apply Z.div_le_upper_bound; nia. }
      change (binary_normalize 53 1024 k 0 false) with (f64_of_Z k).
      rewrite f64_to_u64_of_Z; lia.
Qed.

(** An integer of at most 53 bits survives conversion, rounding and conversion
    back. *)
Lemma f64_of_Z_roundtrip n : 0 <= n <= 2 ^ 53 -> f64_to_u64 (f64_round (f64_of_Z n)) = n.
Proof.
  intros Hn. pose proof (f64_of_Z_exact n Hn) as Hs.
  pose proof (f64_of_Z_valid n ltac:(lia)) as Hv. pose proof (f64_of_Z_finite n ltac:(lia)) as Hf.
  pose proof (f64_to_u64_of_Z n Hn) as Hto. pose proof (pow2_pos 1074 ltac:(lia)).
  destruct (f64_of_Z n) as [s|s| |s m e]; try done.
  apply valid_finite_bounds in Hv as (Hm & He & _).
  unfold f64_round. destruct (Z.leb_spec 0 e); [done|].
  pose proof (pow2_pos (e + 1074) ltac:(lia)). pose proof (pow2_pos (- e) ltac:(lia)).
  unfold scaled in Hs. destruct s; unfold cond_Zopp in *; [nia|].
  replace 1074 with ((- e) + (e + 1074)) in Hs at 2 by lia.
  rewrite (Z.pow_add_r 2 (- e)) in Hs by lia.
  assert (Em : Zpos m = n * 2 ^ (- e)) by nia.
  assert (Ek : (Zpos m + 2 ^ (- e - 1)) / 2 ^ (- e) = n).
  { pose proof (pow2_pos (- e - 1) ltac:(lia)).
    assert (2 ^ (- e) = 2 * 2 ^ (- e - 1)) by (rewrite <- Z.pow_succ_r by lia; f_equal; lia).
    symmetry. apply (Z.div_unique _ _ _ (2 ^ (- e - 1))); lia. }
  rewrite Ek. by apply f64_to_u64_of_Z.
Qed.

#[export] Hint Resolve f64_mul_valid f64_add_valid f64_div_valid : f64.
