(* ===== verification/RoundingError.v ===== *)
(** * Products and quotients

    The rounding error of [f64_mul] and [f64_div] when their result is finite:
    relative, of at most 2^-53, or absolute, of at most half the least
    positive number. Exact results are fractions of integers, in units of
    2^-1074; signs are set apart. *)

From stdpp Require Import base numbers.
From Stdlib Require Import ZArith Lia Bool.

From S2P Require Import Prelude Word Float Rounding Binary64.

Local Open Scope Z_scope.

(** The integer [r] is [P / Q] up to that error. *)
Definition near (r P Q : Z) : Prop := 2 ^ 53 * Z.abs (r * Q - P) <= Z.abs P + 2 ^ 52 * Q.

Lemma near_scale r P Q k : 0 < k -> near r (P * k) (Q * k) <-> near r P Q.
Proof.
  intros Hk. unfold near. replace (r * (Q * k) - P * k) with ((r * Q - P) * k) by lia.
  rewrite !Z.abs_mul, (Z.abs_eq k) by lia. nia.
Qed.

Lemma near_cond_opp s r P Q : near r P Q -> near (cond_Zopp s r) (cond_Zopp s P) Q.
Proof. unfold near. destruct s; cbn [cond_Zopp]; lia. Qed.

(** ** The shifting loop *)

(** A record stands for the fraction [N / D]: integer part, half, and whether
    there is a remainder below the half. *)
Definition stands_for (mrs : shr_record) (N D : Z) : Prop :=
  let t := 2 * N - (2 * shr_m mrs + Z.b2z (shr_r mrs)) * D in
  if shr_s mrs then 0 < t < D else t = 0.

Lemma stands_for_shr_1 mrs N D :
  0 <= shr_m mrs -> 0 < D -> stands_for mrs N D -> stands_for (shr_1 mrs) N (2 * D).
Proof.
  destruct mrs as [m r s]. cbn [shr_m]. intros Hm HD. rewrite shr_1_nonneg by done.
  unfold stands_for. cbn [shr_m shr_r shr_s].
  pose proof (Z.div_mod m 2 ltac:(lia)) as E. rewrite Zmod_odd in E.
  replace (2 * (m / 2) + Z.b2z (Z.odd m)) with m by (destruct (Z.odd m); cbn [Z.b2z]; lia).
  destruct r, s; cbn [orb Z.b2z]; nia.
Qed.

Lemma stands_for_iter n mrs N D :
  0 <= shr_m mrs -> 0 < D -> stands_for mrs N D ->
  stands_for (Nat.iter n shr_1 mrs) N (D * 2 ^ Z.of_nat n).
Proof.
  intros Hm HD Hs. induction n as [|n IH]; [by rewrite Z.mul_1_r|].
  rewrite Nat.iter_succ, Nat2Z.inj_succ, Z.pow_succ_r by lia.
  replace (D * (2 * 2 ^ Z.of_nat n)) with (2 * (D * 2 ^ Z.of_nat n)) by lia.
  pose proof (pow2_pos (Z.of_nat n) ltac:(lia)).
  apply stands_for_shr_1; [|nia|exact IH]. rewrite shr_iter_m by done. apply Z.div_pos; lia.
Qed.

Lemma stands_for_round mrs N D :
  0 < D -> stands_for mrs N D -> 2 * Z.abs (round_nearest_even (shr_m mrs) (loc_of_shr_record mrs) * D - N) <= D.
Proof.
  intros HD. destruct mrs as [m r s]. unfold stands_for. cbn [shr_m shr_r shr_s]. cbn zeta.
  destruct r, s; cbn [loc_of_shr_record round_nearest_even Z.b2z]; intros Ht;
    try (destruct (Z.even m)); rewrite ?Z.mul_add_distr_r in *; lia.
Qed.

Lemma stands_for_exact m : stands_for (shr_record_of_loc m loc_Exact) m 1.
Proof. unfold stands_for. cbn. lia. Qed.

(** The remainder of a division, as [SFdiv_core_binary] classifies it. *)
Lemma stands_for_quotient q r (d : positive) :
  0 <= r < Zpos d -> stands_for (shr_record_of_loc q (new_location (Zpos d) r)) (q * Zpos d + r) (Zpos d).
Proof.
  intros Hr. unfold new_location. destruct (Z.even (Zpos d)) eqn:Ev.
  - unfold new_location_even. destruct (Z.eqb_spec r 0) as [->|Hne];
      [unfold stands_for; cbn; lia|].
    destruct (Z.compare_spec (2 * r) (Zpos d)); unfold stands_for; cbn [shr_record_of_loc shr_m shr_r shr_s Z.b2z]; lia.
  - assert (Hodd : Zpos d mod 2 = 1) by (rewrite Zmod_odd, <- Z.negb_even, Ev; done).
    pose proof (Z.div_mod (Zpos d) 2 ltac:(lia)) as E.
    unfold new_location_odd. destruct (Z.eqb_spec r 0) as [->|Hne];
      [unfold stands_for; cbn; lia|].
    destruct (Z.compare_spec (2 * r + 1) (Zpos d)); unfold stands_for;
      cbn [shr_record_of_loc shr_m shr_r shr_s Z.b2z]; lia.
Qed.

(** ** [binary_round_aux] on a fraction *)

(** The second pass keeps the value. *)
Lemma renormalise_scaled s m e :
  0 <= m <= 2 ^ 53 -> -1074 <= e -> (-1074 < e -> 2 ^ 52 <= m) ->
  let r := let '(mrs, e') := shr_fexp 53 1024 m e loc_Exact in
           match shr_m mrs with
           | Z0 => S754_zero s
           | Zpos p => if e' <=? 1024 - 53 then S754_finite s p e' else S754_infinity s
           | Zneg _ => S754_nan
           end in
  is_finite r = true -> scaled r = cond_Zopp s (m * 2 ^ (e + 1074)).
Proof.
  intros Hm He Hn. unfold shr_fexp. cbn [shr_record_of_loc]. cbn zeta.
  destruct m as [|p|p]; [..|lia].
  - assert (e = -1074) as -> by lia. by destruct s.
  - cbn [Zdigits2]. rewrite digits2_pos_log2, fexp_eq.
    destruct (Z.eq_dec (Zpos p) (2 ^ 53)) as [E|Hne].
    + rewrite E. change (Z.log2 (2 ^ 53)) with 53.
      replace (Z.max (53 + 1 + e - 53) (-1074) - e) with 1 by lia.
      cbn [shr iter_pos]. rewrite shr_1_nonneg by lia. cbn [shr_m].
      change (2 ^ 53 / 2) with (Zpos (2 ^ 52)). destruct (Z.leb_spec (e + 1) (1024 - 53)); [|done].
      intros _. cbn [scaled]. replace (e + 1 + 1074) with (Z.succ (e + 1074)) by lia.
      rewrite Z.pow_succ_r by lia. destruct s; cbn [cond_Zopp]; lia.
    + assert (HL : Z.log2 (Zpos p) < 53) by (apply Z.log2_lt_pow2; lia).
      assert (HL' : -1074 < e -> Z.log2 (Zpos p) = 52) by (intros; apply Z.log2_unique; lia).
      replace (Z.max (Z.log2 (Zpos p) + 1 + e - 53) (-1074) - e) with 0 by lia.
      cbn [shr shr_m]. destruct (Z.leb_spec e (1024 - 53)); [|done]. intros _. cbn [scaled].
      destruct s; cbn [cond_Zopp]; lia.
Qed.

(** The first pass: the mantissa and exponent that are rounded to. *)
Lemma round_aux_first_pass m e l N D :
  0 <= m -> 0 < D -> e <= fexp 53 1024 (Zdigits2 m + e) -> stands_for (shr_record_of_loc m l) N D ->
  exists mrs e', shr_fexp 53 1024 m e l = (mrs, e') /\ e <= e' /\ -1074 <= e' /\
    0 <= round_nearest_even (shr_m mrs) (loc_of_shr_record mrs) <= 2 ^ 53 /\
    (-1074 < e' -> 2 ^ 52 <= round_nearest_even (shr_m mrs) (loc_of_shr_record mrs) /\ 2 ^ 52 * 2 ^ (e' - e) <= m) /\
    2 * Z.abs (round_nearest_even (shr_m mrs) (loc_of_shr_record mrs) * (D * 2 ^ (e' - e)) - N) <= D * 2 ^ (e' - e).
Proof.
  intros Hm HD He Hs. unfold shr_fexp. set (n := fexp 53 1024 (Zdigits2 m + e) - e).
  assert (E0 : shr_m (shr_record_of_loc m l) = m) by (destruct l as [|[]]; done).
  assert (Hn : 0 <= n) by lia.
  assert (Hshr : exists mrs, shr (shr_record_of_loc m l) e n = (mrs, e + n) /\
                   shr_m mrs = m / 2 ^ n /\ stands_for mrs N (D * 2 ^ n)).
  { destruct n as [|pn|pn]; [..|lia].
    - eexists. split; [cbn [shr]; f_equal; lia|]. by rewrite E0, Z.pow_0_r, Z.div_1_r, Z.mul_1_r.
    - eexists. split; [done|]. rewrite iter_pos_nat. split.
      + rewrite shr_iter_m, E0 by lia. f_equal. f_equal. lia.
      + replace (Zpos pn) with (Z.of_nat (Pos.to_nat pn)) by lia. apply stands_for_iter; [by rewrite E0|done|done]. }
  destruct Hshr as (mrs & -> & Hq & Hst). exists mrs, (e + n). split; [done|]. split; [lia|].
  pose proof (pow2_pos n Hn) as Hp.
  assert (En : e + n = Z.max (Zdigits2 m + e - 53) (-1074)) by (unfold n; rewrite fexp_eq; lia).
  split; [lia|]. replace (e + n - e) with n by lia.
  pose proof (round_nearest_even_bounds (m / 2 ^ n) (loc_of_shr_record mrs)) as Hr. rewrite <- Hq in Hr.
  assert (Hd : 0 < m -> Zdigits2 m = Z.log2 m + 1).
  { destruct m; try lia. intros _. apply digits2_pos_log2. }
  assert (Hmq : m < 2 ^ 53 * 2 ^ n /\ (-1074 < e + n -> 2 ^ 52 * 2 ^ n <= m)).
  { destruct (Z.eq_dec m 0) as [->|].
    - cbn [Zdigits2] in En. split; [lia|]. intros. exfalso. lia.
    - pose proof (log2_bounds m ltac:(lia)) as [Hlo Hhi]. rewrite Hd in En by lia.
      pose proof (Z.log2_nonneg m). rewrite <- !Z.pow_add_r by lia. split.
      + apply Z.lt_le_trans with (1 := Hhi). apply Z.pow_le_mono_r; lia.
      + intros. apply Z.le_trans with (2 := Hlo). apply Z.pow_le_mono_r; lia. }
  pose proof (Z.div_lt_upper_bound m (2 ^ n) (2 ^ 53) ltac:(lia) ltac:(lia)).
  pose proof (Z.div_pos m (2 ^ n) Hm ltac:(lia)).
  split; [lia|]. split.
  - intros Hen. destruct Hmq as [_ Hmq]. specialize (Hmq Hen).
    pose proof (Z.div_le_lower_bound m (2 ^ n) (2 ^ 52) ltac:(lia) ltac:(lia)). lia.
  - apply stands_for_round; [nia|done].
Qed.

Lemma round_aux_near s m e l N D :
  0 <= m -> 0 < D -> -2148 <= e -> e <= fexp 53 1024 (Zdigits2 m + e) ->
  stands_for (shr_record_of_loc m l) N D -> m * D <= N ->
  is_finite (binary_round_aux 53 1024 s m e l) = true ->
  near (scaled (binary_round_aux 53 1024 s m e l)) (cond_Zopp s (N * 2 ^ (e + 2148))) (D * 2 ^ 1074).
Proof.
  intros Hm HD He Hfe Hs HN. unfold binary_round_aux.
  destruct (round_aux_first_pass m e l N D Hm HD Hfe Hs) as (mrs & e' & -> & Hee & He' & Hq & Hn & Herr).
  set (q := round_nearest_even (shr_m mrs) (loc_of_shr_record mrs)) in *.
  intros Hf. rewrite (renormalise_scaled s q e' Hq He') by (done || (intros; by apply Hn)).
  apply near_cond_opp. unfold near.
  pose proof (pow2_pos (e + 2148) ltac:(lia)) as HP. pose proof (pow2_pos (e' - e) ltac:(lia)) as HX.
  assert (E1 : 2 ^ (e' + 1074) * 2 ^ 1074 = 2 ^ (e' - e) * 2 ^ (e + 2148)) by (rewrite <- !Z.pow_add_r by lia; f_equal; lia).
  replace (q * 2 ^ (e' + 1074) * (D * 2 ^ 1074) - N * 2 ^ (e + 2148))
    with ((q * (D * 2 ^ (e' - e)) - N) * 2 ^ (e + 2148)) by lia.
  rewrite Z.abs_mul, (Z.abs_eq (2 ^ (e + 2148))) by lia.
  rewrite (Z.abs_eq (N * _)) by nia.
  set (X := 2 ^ (e' - e)) in *. set (P := 2 ^ (e + 2148)) in *.
  assert (2 ^ 53 * (Z.abs (q * (D * X) - N) * P) <= 2 ^ 52 * (D * X * P)) by nia.
  destruct (Z.eq_dec e' (-1074)) as [Ee|Ee].
  - assert (X * P = 2 ^ 1074).
    { rewrite <- E1, Ee. change (2 ^ (-1074 + 1074)) with 1. lia. }
    nia.
  - destruct Hn as [_ Hmx]; [lia|]. assert (2 ^ 52 * (D * X) <= N) by nia. nia.
Qed.

(** ** The operations *)

Lemma scaled_finite s (m : positive) e : scaled (S754_finite s m e) = cond_Zopp s (Zpos m * 2 ^ (e + 1074)).
Proof. destruct s; cbn [scaled cond_Zopp]; lia. Qed.

Lemma near_zero Q : 0 < Q -> near 0 0 Q.
Proof. unfold near. lia. Qed.

(** The product of two numbers, rounded once. *)
Lemma f64_mul_near x y :
  valid x -> valid y -> is_finite (f64_mul x y) = true ->
  near (scaled (f64_mul x y)) (scaled x * scaled y) (2 ^ 1074).
Proof.
  intros Hx Hy. destruct x as [[]|[]| |sx mx ex], y as [[]|[]| |sy my ey]; try done;
    try (intros _; rewrite ?Z.mul_0_l, ?Z.mul_0_r; by apply near_zero).
  unfold f64_mul, SFmul. intros Hf.
  pose proof (valid_finite_bounds _ _ _ Hx) as (Hmx & Hex & Hnx).
  pose proof (valid_finite_bounds _ _ _ Hy) as (Hmy & Hey & Hny).
  replace (2 ^ 1074) with (1 * 2 ^ 1074) by lia.
  replace (scaled (S754_finite sx mx ex) * scaled (S754_finite sy my ey))
    with (cond_Zopp (xorb sx sy) (Zpos (mx * my) * 2 ^ (ex + ey + 2148))).
  - apply round_aux_near; [lia|lia|lia| |apply stands_for_exact|lia|exact Hf].
    by eapply mul_digits.
  - rewrite !scaled_finite, Pos2Z.inj_mul.
    replace (ex + ey + 2148) with ((ex + 1074) + (ey + 1074)) by lia. rewrite Z.pow_add_r by lia.
    destruct sx, sy; cbn [xorb cond_Zopp]; lia.
Qed.

(** The quotient by a positive number, rounded once. *)
Lemma f64_div_near x y :
  valid x -> valid y -> 0 < scaled y -> is_finite (f64_div x y) = true ->
  near (scaled (f64_div x y)) (scaled x * 2 ^ 1074) (scaled y).
Proof.
  intros Hx Hy Hpos. destruct x as [[]|[]| |s1 m1 e1], y as [[]|[]| |[] m2 e2]; try done;
    try (intros _; rewrite Z.mul_0_l; by apply near_zero); [cbn [scaled cond_Zopp] in Hpos; nia|].
  unfold f64_div, SFdiv. destruct (div_core_spec m1 m2 e1 e2) as (q & r & e' & -> & Ee & Hq & Hr & Em & He).
  rewrite xorb_false_r. intros Hf.
  pose proof (valid_finite_bounds _ _ _ Hx) as (Hm1 & He1 & _).
  pose proof (valid_finite_bounds _ _ _ Hy) as (Hm2 & He2 & _).
  assert (Hlo : -2148 <= e') by (rewrite Ee, fexp_eq; lia).
  pose proof (round_aux_near s1 q e' _ (q * Zpos m2 + r) (Zpos m2) Hq ltac:(lia) Hlo He
    (stands_for_quotient q r m2 Hr) ltac:(lia) Hf) as Hnear.
  rewrite Em in Hnear. rewrite (scaled_finite false m2), scaled_finite. cbn [cond_Zopp].
  apply (near_scale _ _ _ (2 ^ 1074)); [by apply pow2_pos|].
  apply (near_scale _ _ _ (2 ^ (e2 + 1074))) in Hnear; [|apply pow2_pos; lia].
  replace (Zpos m2 * 2 ^ (e2 + 1074) * 2 ^ 1074) with (Zpos m2 * 2 ^ 1074 * 2 ^ (e2 + 1074)) by lia.
  replace (cond_Zopp s1 (Zpos m1 * 2 ^ (e1 + 1074)) * 2 ^ 1074 * 2 ^ 1074)
    with (cond_Zopp s1 (Zpos m1 * 2 ^ (e1 - e2 - e') * 2 ^ (e' + 2148)) * 2 ^ (e2 + 1074)); [exact Hnear|].
  assert (E : 2 ^ (e1 - e2 - e') * 2 ^ (e' + 2148) * 2 ^ (e2 + 1074) = 2 ^ (e1 + 1074) * 2 ^ 1074 * 2 ^ 1074).
  { rewrite <- !Z.pow_add_r by lia. f_equal. lia. }
  destruct s1; cbn [cond_Zopp]; nia.
Qed.

(** ** Overflow *)

(** A fraction below 2^1023 is not rounded to infinity. *)
Lemma round_aux_finite s m e l N D :
  0 <= m -> 0 < D -> -2148 <= e -> e <= fexp 53 1024 (Zdigits2 m + e) ->
  stands_for (shr_record_of_loc m l) N D -> m * 2 ^ (e + 2148) < 2 ^ 3171 ->
  is_finite (binary_round_aux 53 1024 s m e l) = true.
Proof.
  intros Hm HD He Hfe Hs Hlt. unfold binary_round_aux.
  destruct (round_aux_first_pass m e l N D Hm HD Hfe Hs) as (mrs & e' & -> & Hee & He' & Hq & Hn & _).
  set (q := round_nearest_even (shr_m mrs) (loc_of_shr_record mrs)) in *.
  assert (Hmax : e' <= 970).
  { destruct (Z.le_gt_cases e' 970); [done|exfalso]. destruct Hn as [_ Hn]; [lia|].
    assert (E : 2 ^ 52 * 2 ^ (e' - e) * 2 ^ (e + 2148) = 2 ^ (e' + 2200)) by (rewrite <- !Z.pow_add_r by lia; f_equal; lia).
    pose proof (pow2_pos (e + 2148) ltac:(lia)).
    pose proof (Z.pow_lt_mono_r 2 3170 (e' + 2200) ltac:(lia) ltac:(lia) ltac:(lia)).
    pose proof (Z.pow_le_mono_r 2 3171 (e' + 2200) ltac:(lia) ltac:(lia)). nia. }
  unfold shr_fexp. cbn [shr_record_of_loc]. destruct q as [|p|p] eqn:Eq; [..|lia].
  - destruct (fexp 53 1024 (Zdigits2 0 + e') - e') as [|pn|pn] eqn:En; [done| |done].
    cbn [shr]. rewrite iter_pos_nat, shr_iter_m by (cbn; lia). cbn [shr_m]. by rewrite Z.div_0_l by (apply Z.pow_nonzero; lia).
  - cbn [Zdigits2]. rewrite digits2_pos_log2, fexp_eq.
    destruct (Z.eq_dec (Zpos p) (2 ^ 53)) as [E|Hne].
    + rewrite E. change (Z.log2 (2 ^ 53)) with 53. replace (Z.max (53 + 1 + e' - 53) (-1074) - e') with 1 by lia.
      cbn [shr iter_pos]. rewrite shr_1_nonneg by lia. cbn [shr_m]. change (2 ^ 53 / 2) with (Zpos (2 ^ 52)).
      destruct (Z.leb_spec (e' + 1) (1024 - 53)); [done|lia].
    + assert (HL : Z.log2 (Zpos p) < 53) by (apply Z.log2_lt_pow2; lia).
      assert (HL' : -1074 < e' -> Z.log2 (Zpos p) = 52) by (intros Hg; destruct (Hn Hg); apply Z.log2_unique; lia).
      replace (Z.max (Z.log2 (Zpos p) + 1 + e' - 53) (-1074) - e') with 0 by lia.
      cbn [shr shr_m]. destruct (Z.leb_spec e' (1024 - 53)); [done|lia].
Qed.

Lemma f64_mul_finite x y :
  valid x -> valid y -> is_finite x = true -> is_finite y = true ->
  Z.abs (scaled x * scaled y) < 2 ^ 3171 -> is_finite (f64_mul x y) = true.
Proof.
  intros Hx Hy Hfx Hfy. destruct x as [[]|[]| |sx mx ex], y as [[]|[]| |sy my ey]; try done.
  unfold f64_mul, SFmul. intros Hlt.
  pose proof (valid_finite_bounds _ _ _ Hx) as (Hmx & Hex & Hnx).
  pose proof (valid_finite_bounds _ _ _ Hy) as (Hmy & Hey & Hny).
  apply (round_aux_finite _ _ _ _ (Zpos (mx * my)) 1); [lia|lia|lia| |apply stands_for_exact|].
  - by eapply mul_digits.
  - rewrite !scaled_finite in Hlt. replace (ex + ey + 2148) with ((ex + 1074) + (ey + 1074)) by lia.
    rewrite Z.pow_add_r, Pos2Z.inj_mul by lia.
    pose proof (pow2_pos (ex + 1074) ltac:(lia)). pose proof (pow2_pos (ey + 1074) ltac:(lia)).
    destruct sx, sy; cbn [cond_Zopp] in Hlt; lia.
Qed.

Lemma f64_div_finite x y :
  valid x -> valid y -> is_finite x = true -> 0 < scaled y ->
  Z.abs (scaled x) < 2 ^ 1023 * scaled y -> is_finite (f64_div x y) = true.
Proof.
  intros Hx Hy Hfx Hpos. destruct x as [[]|[]| |s1 m1 e1], y as [[]|[]| |[] m2 e2]; try done;
    [cbn [scaled cond_Zopp] in Hpos; nia|].
  unfold f64_div, SFdiv. destruct (div_core_spec m1 m2 e1 e2) as (q & r & e' & -> & Ee & Hq & Hr & Em & He).
  intros Hlt.
  pose proof (valid_finite_bounds _ _ _ Hx) as (Hm1 & He1 & _).
  pose proof (valid_finite_bounds _ _ _ Hy) as (Hm2 & He2 & _).
  assert (Hlo : -2148 <= e') by (rewrite Ee, fexp_eq; lia).
  apply (round_aux_finite _ _ _ _ (q * Zpos m2 + r) (Zpos m2)); [done|lia|done|done|by apply stands_for_quotient|].
  rewrite !scaled_finite in Hlt. cbn [cond_Zopp] in Hlt.
  assert (Habs : Zpos m1 * 2 ^ (e1 + 1074) < 2 ^ 1023 * (Zpos m2 * 2 ^ (e2 + 1074))).
  { pose proof (pow2_pos (e1 + 1074) ltac:(lia)). destruct s1; cbn [cond_Zopp] in Hlt; lia. }
  assert (E : 2 ^ (e1 - e2 - e') * 2 ^ (e' + 2148) * 2 ^ (e2 + 1074) = 2 ^ (e1 + 1074) * 2 ^ 2148).
  { rewrite <- !Z.pow_add_r by lia. f_equal. lia. }
  change (2 ^ 3171) with (2 ^ 1023 * 2 ^ 2148).
  pose proof (pow2_pos (e' + 2148) ltac:(lia)) as P1. pose proof (pow2_pos (e2 + 1074) ltac:(lia)) as P2.
  pose proof (pow2_pos 2148 ltac:(lia)) as P3.
  set (A := 2 ^ (e' + 2148)) in *. set (B := 2 ^ (e2 + 1074)) in *. set (C := 2 ^ 2148) in *.
  assert (H1 : q * A * (Zpos m2 * B) <= (q * Zpos m2 + r) * A * B) by nia.
  rewrite Em in H1.
  assert (H2 : Zpos m1 * 2 ^ (e1 - e2 - e') * A * B = Zpos m1 * 2 ^ (e1 + 1074) * C) by nia.
  apply (Z.mul_lt_mono_pos_r (Zpos m2 * B)); nia.
Qed.
