(* ===== verification/Time.v ===== *)
(** * Durations and instants

    [std::time::Duration] as its length in nanoseconds, from 0 to
    [DURATION_MAX]; [std::time::Instant] as nanoseconds of the monotonic clock.
    Readings of the clock are inputs of the operations that take them. *)

From stdpp Require Import base numbers.
From Stdlib Require Import ZArith Lia.

From S2P Require Import Prelude Word Float Rounding Binary64.

Local Open Scope Z_scope.

Definition NANOS_PER_SEC : Z := 1000000000.

Definition Duration : Type := Z.
Definition Instant : Type := Z.

(** [u64::MAX] seconds and 999_999_999 nanoseconds. *)
Definition DURATION_MAX : Duration := 2 ^ 64 * NANOS_PER_SEC - 1.
Definition DURATION_ZERO : Duration := 0.

Definition is_duration (d : Duration) : Prop := 0 <= d <= DURATION_MAX.

(** The largest instant of a Unix [timespec]: [i64::MAX] seconds. *)
Definition INSTANT_MAX : Instant := 2 ^ 63 * NANOS_PER_SEC - 1.

Definition is_instant (t : Instant) : Prop := - (2 ^ 63) * NANOS_PER_SEC <= t <= INSTANT_MAX.

(** ** [Duration] *)

Definition is_zero (d : Duration) : bool := d =? 0.
Definition from_micros (us : Z) : Duration := us * 1000.
Definition from_nanos (ns : Z) : Duration := ns.
Definition as_micros (d : Duration) : Z := d / 1000.
Definition as_nanos (d : Duration) : Z := d.

(** [Duration + Duration] panics when the sum is not representable. *)
Definition duration_add (a b : Duration) : outcome Duration :=
  if a + b <=? DURATION_MAX then Returns (a + b) else Panic.

(** [Duration::as_secs_f64]: whole seconds plus the fraction, each converted. *)
Definition as_secs_f64 (d : Duration) : f64 :=
  f64_add (f64_of_Z (d / NANOS_PER_SEC))
          (f64_div (f64_of_Z (d mod NANOS_PER_SEC)) (f64_of_Z NANOS_PER_SEC)).

(** [Duration::try_from_secs_f64]: rounds to the nearest nanosecond, ties to
    even; fails on negative, non-finite and too large arguments. *)
Definition try_from_secs_f64 (secs : f64) : option Duration :=
  match secs with
  | S754_zero _ => Some 0
  | S754_finite false m e =>
      if 2 ^ 64 <=? trunc_pos m e then None
      else if 0 <=? e then Some (Zpos m * 2 ^ e * NANOS_PER_SEC)
      else Some (rne (Zpos m * NANOS_PER_SEC) (- e))
  | _ => None
  end.

(** ** [Instant] *)

(** [Instant::duration_since], and with it [elapsed], saturates at zero. *)
Definition duration_since (later earlier : Instant) : Duration :=
  Z.max 0 (later - earlier).

Definition saturating_duration_since : Instant -> Instant -> Duration := duration_since.

(** [Instant + Duration] panics when the result is not representable. *)
Definition instant_add (t : Instant) (d : Duration) : outcome Instant :=
  if t + d <=? INSTANT_MAX then Returns (t + d) else Panic.

(** ** Lemmas *)

Create HintDb time.

Lemma duration_since_nonneg a b : 0 <= duration_since a b.
Proof. unfold duration_since. lia. Qed.

Lemma duration_since_duration a b : is_instant a -> is_instant b -> is_duration (duration_since a b).
Proof.
  unfold is_instant, is_duration, duration_since, DURATION_MAX, INSTANT_MAX, NANOS_PER_SEC. lia.
Qed.

Lemma from_micros_duration us : is_u64 us -> is_duration (from_micros us).
Proof. unfold is_u64, is_duration, from_micros, DURATION_MAX, NANOS_PER_SEC. lia. Qed.

Lemma try_from_secs_f64_duration x d :
  valid x -> try_from_secs_f64 x = Some d -> is_duration d.
Proof.
  unfold try_from_secs_f64, trunc_pos, is_duration, DURATION_MAX, NANOS_PER_SEC. intros Hv.
  destruct x as [s|s| |[] m e]; try done.
  - intros. simplify_eq. lia.
  - apply valid_finite_bounds in Hv as (Hm & He & _). destruct (Z.leb_spec 0 e).
    + destruct (Z.leb_spec (2 ^ 64) (Zpos m * 2 ^ e)); [done|]. intros. simplify_eq.
      pose proof (pow2_pos e ltac:(lia)). nia.
    + pose proof (pow2_pos (- e) ltac:(lia)) as Hp.
      case_match; [done|]. intros. simplify_eq.
      split; [apply rne_nonneg; lia|].
      pose proof (rne_bounds (Zpos m * 1000000000) (- e) ltac:(lia)).
      pose proof (Z.div_le_upper_bound (Zpos m * 1000000000) (2 ^ (- e)) (Zpos m * 1000000000)).
      nia.
Qed.

(** Negative or NaN arguments are refused. *)
Lemma try_from_secs_f64_neg x : f64_lt x f64_zero = true -> try_from_secs_f64 x = None.
Proof. by destruct x as [[]|[]| |[] ? ?]. Qed.

Lemma duration_add_zero_r d : is_duration d -> duration_add d DURATION_ZERO = Returns d.
Proof.
  unfold is_duration, duration_add, DURATION_ZERO. intros.
  rewrite Z.add_0_r. destruct (Z.leb_spec d DURATION_MAX); [done|lia].
Qed.

Lemma duration_add_returns a b :
  a + b <= DURATION_MAX -> duration_add a b = Returns (a + b).
Proof. unfold duration_add. intros. destruct (Z.leb_spec (a + b) DURATION_MAX); [done|lia]. Qed.

Lemma as_secs_f64_valid d : 0 <= d <= DURATION_MAX -> valid (as_secs_f64 d).
Proof.
  unfold DURATION_MAX, NANOS_PER_SEC, as_secs_f64. intros Hd.
  pose proof (Z.mod_pos_bound d NANOS_PER_SEC ltac:(unfold NANOS_PER_SEC; lia)).
  pose proof (Z.div_pos d NANOS_PER_SEC ltac:(lia) ltac:(unfold NANOS_PER_SEC; lia)).
  pose proof (Z.div_lt_upper_bound d NANOS_PER_SEC (2 ^ 64) ltac:(unfold NANOS_PER_SEC; lia)
    ltac:(unfold NANOS_PER_SEC; lia)).
  apply f64_add_valid; [|apply f64_div_valid]; apply f64_of_Z_valid; unfold NANOS_PER_SEC in *; lia.
Qed.

#[export] Hint Resolve duration_since_nonneg duration_since_duration from_micros_duration : time.
