(* ===== verification/Op.v ===== *)
(** * Operation kinds and errors

    [fusecraft-core/src/op.rs] and [fusecraft-core/src/error.rs], with the
    Linux errno values of the [libc] constants the source names. *)

From stdpp Require Import base list numbers strings countable finite.
From Stdlib Require Import ZArith Lia.

From S2P Require Import Prelude.

Local Open Scope Z_scope.

(** ** Errno values (Linux, [libc]) *)

Definition ENOENT : Z := 2.
Definition EINTR : Z := 4.
Definition EIO : Z := 5.
Definition EAGAIN : Z := 11.
Definition ENOTDIR : Z := 20.
Definition EINVAL : Z := 22.
Definition ENOSPC : Z := 28.
Definition ESTALE : Z := 116.

(** ** [FsOp] *)

Inductive FsOp : Type :=
| Lookup | GetAttr | Open | Read | Write | Flush | Release | Fsync | Readdir | Statfs | Access.

#[export] Instance FsOp_eq_dec : EqDecision FsOp.
Proof. solve_decision. Defined.

(** [FsOp::ALL] *)
Definition ALL : list FsOp :=
  [Lookup; GetAttr; Open; Read; Write; Flush; Release; Fsync; Readdir; Statfs; Access].

(** [op as u64]: the position of the variant. *)
Definition op_as_u64 (op : FsOp) : Z :=
  match op with
  | Lookup => 0 | GetAttr => 1 | Open => 2 | Read => 3 | Write => 4 | Flush => 5
  | Release => 6 | Fsync => 7 | Readdir => 8 | Statfs => 9 | Access => 10
  end.

Definition op_as_str (op : FsOp) : string :=
  match op with
  | Lookup => "lookup"
  | GetAttr => "getattr"
  | Open => "open"
  | Read => "read"
  | Write => "write"
  | Flush => "flush"
  | Release => "release"
  | Fsync => "fsync"
  | Readdir => "readdir"
  | Statfs => "statfs"
  | Access => "access"
  end.

(** Deserialization of a unit variant ([rename_all = "lowercase"]): the inverse
    of the names above. *)
Definition op_from_str (s : string) : option FsOp :=
  list_find (fun op => op_as_str op = s) ALL ≫= fun p => Some p.2.

(** [matches!(op, FsOp::Read | FsOp::Write)] *)
Definition is_data_op (op : FsOp) : bool :=
  match op with Read | Write => true | _ => false end.

Lemma ALL_complete op : op ∈ ALL.
Proof. destruct op; apply (bool_decide_unpack _); by vm_compute. Qed.

Lemma ALL_NoDup : NoDup ALL.
Proof. apply (bool_decide_unpack _); by vm_compute. Qed.

#[export] Instance FsOp_finite : Finite FsOp :=
  {| enum := ALL; NoDup_enum := ALL_NoDup; elem_of_enum := ALL_complete |}.

Lemma op_as_str_inj op op' : op_as_str op = op_as_str op' -> op = op'.
Proof. by destruct op, op'. Qed.

Lemma op_from_as_str op : op_from_str (op_as_str op) = Some op.
Proof. by destruct op. Qed.

Lemma op_as_u64_range op : 0 <= op_as_u64 op < 11.
Proof. destruct op; simpl; lia. Qed.

(** The discriminant is the index into [ALL]. *)
Lemma op_as_u64_index op : ALL !! Z.to_nat (op_as_u64 op) = Some op.
Proof. by destruct op. Qed.

Lemma op_as_u64_inj op op' : op_as_u64 op = op_as_u64 op' -> op = op'.
Proof. by destruct op, op'. Qed.

(** ** [FsError] *)

(** [std::io::Error], of which the code reads [raw_os_error]. *)
Record IoError : Type := { raw_os_error : option Z }.

Inductive FsError : Type :=
| Errno (errno : Z)
| ConfigError (msg : string)
| Io (e : IoError).

(** [FsError::as_errno] *)
Definition as_errno (err : FsError) : Z :=
  match err with
  | Errno e => e
  | Io e => match raw_os_error e with Some code => code | None => EIO end
  | ConfigError _ => EINVAL
  end.
