(* ===== verification/Text.v ===== *)
(** * Text: decimal numbers and byte strings

    The formatting and parsing of the standard library that the source uses:
    [{n}] and [{n:06}] of an unsigned integer, [str::parse::<u64>], and the
    UTF-8 check of [OsStr::to_str]. A [string] is a sequence of bytes. *)

From stdpp Require Import base list numbers strings.
From Stdlib Require Import ZArith Lia Ascii.
From Stdlib Require Strings.String.

From S2P Require Import Prelude Word.

Local Open Scope Z_scope.

Abbreviation list_ascii_of_string := Strings.String.list_ascii_of_string.
Abbreviation string_of_list_ascii := Strings.String.string_of_list_ascii.

(** ** Digits *)

Definition is_digit (d : Z) : Prop := 0 <= d < 10.

(** Decimal digits, most significant first; 20 suffice for a [u64]. *)
Fixpoint dec_digits (fuel : nat) (n : Z) : list Z :=
  match fuel with
  | O => []
  | S fuel' => if n <? 10 then [n] else dec_digits fuel' (n / 10) ++ [n mod 10]
  end.

Definition U64_DIGITS : nat := 20.

(** The last [k] digits. *)
Fixpoint fixed_digits (k : nat) (n : Z) : list Z :=
  match k with
  | O => []
  | S k' => fixed_digits k' (n / 10) ++ [n mod 10]
  end.

(** Left padding with zeros to a minimal width. *)
Definition pad_zeros (width : nat) (ds : list Z) : list Z :=
  replicate (width - length ds) 0 ++ ds.

Definition digits_value (ds : list Z) : Z := fold_left (fun acc d => acc * 10 + d) ds 0.

Definition digit_char (d : Z) : ascii := ascii_of_nat (Z.to_nat (48 + d)).

(** [b.is_ascii_digit()] *)
Definition is_ascii_digit (c : ascii) : bool :=
  (48 <=? nat_of_ascii c)%nat && (nat_of_ascii c <=? 57)%nat.

Definition char_digit (c : ascii) : Z := Z.of_nat (nat_of_ascii c) - 48.

Definition digits_string (ds : list Z) : string :=
  string_of_list_ascii (digit_char <$> ds).

(** ** Formatting and parsing *)

(** [format!("{n}")] *)
Definition show_u64 (n : Z) : string := digits_string (dec_digits U64_DIGITS n).

(** [format!("{n:06}")] *)
Definition show_u64_06 (n : Z) : string :=
  digits_string (pad_zeros 6 (dec_digits U64_DIGITS n)).

Fixpoint parse_digits (acc : Z) (s : list ascii) : option Z :=
  match s with
  | [] => Some acc
  | c :: s' =>
      if is_ascii_digit c then
        let acc' := acc * 10 + char_digit c in
        if acc' <=? U64_MAX then parse_digits acc' s' else None
      else None
  end.

(** [s.parse::<u64>().ok()]: an optional plus sign, then one digit or more. *)
Definition parse_u64 (s : string) : option Z :=
  match list_ascii_of_string s with
  | [] => None
  | c :: s' =>
      if bool_decide (c = "+"%char) then
        match s' with [] => None | _ => parse_digits 0 s' end
      else parse_digits 0 (c :: s')
  end.

(** ** UTF-8 *)

Definition in_range (lo hi b : nat) : bool := (lo <=? b)%nat && (b <=? hi)%nat.

Fixpoint utf8_valid (s : list nat) : bool :=
  match s with
  | [] => true
  | b0 :: s1 =>
      if (b0 <? 128)%nat then utf8_valid s1
      else match s1 with
      | b1 :: s2 =>
          if in_range 194 223 b0 then in_range 128 191 b1 && utf8_valid s2
          else match s2 with
          | b2 :: s3 =>
              if in_range 224 239 b0 then
                in_range (if b0 =? 224 then 160 else 128)%nat
                         (if b0 =? 237 then 159 else 191)%nat b1
                && in_range 128 191 b2 && utf8_valid s3
              else match s3 with
              | b3 :: s4 =>
                  in_range 240 244 b0
                  && in_range (if b0 =? 240 then 144 else 128)%nat
                              (if b0 =? 244 then 143 else 191)%nat b1
                  && in_range 128 191 b2 && in_range 128 191 b3 && utf8_valid s4
              | _ => false
              end
          | _ => false
          end
      | _ => false
      end
  end.

(** [OsStr::to_str] *)
Definition to_str (name : string) : option string :=
  if utf8_valid (nat_of_ascii <$> list_ascii_of_string name) then Some name else None.

(** ** Digits and values *)

Create HintDb text.

Lemma fold_digits_app ds ds' acc :
  fold_left (fun a d => a * 10 + d) (ds ++ ds') acc =
  fold_left (fun a d => a * 10 + d) ds' (fold_left (fun a d => a * 10 + d) ds acc).
Proof. apply fold_left_app. Qed.

Lemma digits_value_snoc ds d : digits_value (ds ++ [d]) = digits_value ds * 10 + d.
Proof. unfold digits_value. by rewrite fold_digits_app. Qed.

Lemma length_fixed_digits k n : length (fixed_digits k n) = k.
Proof. revert n. induction k as [|k IH]; intros n; simpl; [done|]. rewrite length_app, IH. simpl. lia. Qed.

Lemma fixed_digits_ok k n : Forall is_digit (fixed_digits k n).
Proof.
  revert n. induction k as [|k IH]; intros n; simpl; [done|].
  apply Forall_app. split; [done|]. apply Forall_singleton. unfold is_digit.
  apply Z.mod_pos_bound. lia.
Qed.

Lemma fixed_digits_value k n : 0 <= n < 10 ^ Z.of_nat k -> digits_value (fixed_digits k n) = n.
Proof.
  revert n. induction k as [|k IH]; intros n Hn.
  - simpl in Hn. assert (n = 0) as -> by lia. done.
  - rewrite Nat2Z.inj_succ, Z.pow_succ_r in Hn by lia. cbn [fixed_digits].
    rewrite digits_value_snoc, IH.
    + pose proof (Z.div_mod n 10). lia.
    + split; [apply Z.div_pos; lia|]. apply Z.div_lt_upper_bound; lia.
Qed.

Lemma digits_value_bounds ds :
  Forall is_digit ds -> 0 <= digits_value ds < 10 ^ Z.of_nat (length ds).
Proof.
  induction ds as [|d ds IH] using rev_ind; intros H; [done|].
  apply Forall_app in H as [Hds [Hd _]%Forall_cons]. specialize (IH Hds).
  rewrite digits_value_snoc, length_app. unfold is_digit in Hd. simpl length.
  replace (Z.of_nat (length ds + 1)) with (Z.succ (Z.of_nat (length ds))) by lia.
  rewrite Z.pow_succ_r by lia. lia.
Qed.

Lemma fixed_digits_of_value ds :
  Forall is_digit ds -> fixed_digits (length ds) (digits_value ds) = ds.
Proof.
  induction ds as [|d ds IH] using rev_ind; intros H; [done|].
  apply Forall_app in H as [Hds [Hd _]%Forall_cons]. unfold is_digit in Hd.
  rewrite length_app, Nat.add_1_r, digits_value_snoc. cbn [fixed_digits length].
  rewrite Z.div_add_l, (Z.div_small d 10), Z.add_0_r, IH by (done || lia).
  f_equal. f_equal. rewrite Z.add_comm, Z_mod_plus_full. by apply Z.mod_small.
Qed.

(** Padding the shortest representation gives the fixed-width one. *)
Lemma pad_zeros_snoc w ds d :
  pad_zeros (S w) (ds ++ [d]) = pad_zeros w ds ++ [d].
Proof.
  unfold pad_zeros. rewrite length_app. simpl length.
  replace (S w - (length ds + 1))%nat with (w - length ds)%nat by lia. by rewrite app_assoc.
Qed.

Lemma fixed_digits_0 k : fixed_digits k 0 = replicate k 0.
Proof.
  induction k as [|k IH]; [done|]. cbn [fixed_digits].
  change (0 / 10) with 0. change (0 mod 10) with 0. rewrite IH.
  by rewrite <- replicate_cons_app.
Qed.

Lemma pad_dec_digits fuel k n :
  (k <= fuel)%nat -> 0 <= n < 10 ^ Z.of_nat (S k) ->
  pad_zeros (S k) (dec_digits (S fuel) n) = fixed_digits (S k) n.
Proof.
  revert fuel n. induction k as [|k IH]; intros fuel n Hf Hn.
  - simpl in Hn. cbn [dec_digits fixed_digits]. destruct (Z.ltb_spec n 10); [|lia].
    rewrite Z.mod_small by lia. done.
  - cbn [dec_digits]. destruct (Z.ltb_spec n 10).
    + change [n] with ([] ++ [n]). rewrite pad_zeros_snoc.
      change (fixed_digits (S (S k)) n) with (fixed_digits (S k) (n / 10) ++ [n mod 10]).
      rewrite (Z.div_small n 10), (Z.mod_small n 10) by lia. f_equal.
      rewrite fixed_digits_0. unfold pad_zeros. by rewrite app_nil_r.
    + destruct fuel as [|fuel]; [lia|]. rewrite pad_zeros_snoc.
      change (fixed_digits (S (S k)) n) with (fixed_digits (S k) (n / 10) ++ [n mod 10]).
      f_equal. apply (IH fuel); [lia|].
      rewrite (Nat2Z.inj_succ (S k)), Z.pow_succ_r in Hn by lia.
      split; [apply Z.div_pos; lia|]. apply Z.div_lt_upper_bound; lia.
Qed.

(** ** Characters *)

Lemma digit_char_code d : is_digit d -> nat_of_ascii (digit_char d) = Z.to_nat (48 + d).
Proof. unfold is_digit, digit_char. intros. rewrite nat_ascii_embedding; lia. Qed.

Lemma char_digit_char d : is_digit d -> char_digit (digit_char d) = d.
Proof. intros H. unfold char_digit. rewrite digit_char_code by done. unfold is_digit in H. lia. Qed.

Lemma is_ascii_digit_char d : is_digit d -> is_ascii_digit (digit_char d) = true.
Proof.
  intros H. unfold is_ascii_digit. rewrite digit_char_code by done. unfold is_digit in H.
  apply andb_true_iff. rewrite !Nat.leb_le. lia.
Qed.

Lemma digit_char_of_char c : is_ascii_digit c = true -> digit_char (char_digit c) = c.
Proof.
  unfold is_ascii_digit, digit_char, char_digit. rewrite andb_true_iff, !Nat.leb_le. intros.
  replace (Z.to_nat (48 + (Z.of_nat (nat_of_ascii c) - 48))) with (nat_of_ascii c) by lia.
  apply ascii_nat_embedding.
Qed.

Lemma char_digit_ok c : is_ascii_digit c = true -> is_digit (char_digit c).
Proof.
  unfold is_ascii_digit, is_digit, char_digit. rewrite andb_true_iff, !Nat.leb_le. lia.
Qed.

Lemma is_ascii_digit_not_plus c : is_ascii_digit c = true -> c <> "+"%char.
Proof. by intros H ->. Qed.

(** A run of digits that fits parses to its value. *)
Lemma parse_digits_value s acc :
  forallb is_ascii_digit s = true -> 0 <= acc ->
  fold_left (fun a d => a * 10 + d) (char_digit <$> s) acc <= U64_MAX ->
  parse_digits acc s = Some (fold_left (fun a d => a * 10 + d) (char_digit <$> s) acc).
Proof.
  revert acc. induction s as [|c s IH]; intros acc Hs Hacc Hle; [done|].
  simpl in Hs. apply andb_true_iff in Hs as [Hc Hs]. pose proof (char_digit_ok c Hc) as Hd.
  unfold is_digit in Hd. cbn [parse_digits fmap list_fmap fold_left] in *. rewrite Hc.
  assert (Hmono : forall ds a, 0 <= a -> Forall is_digit ds ->
                               a <= fold_left (fun a d => a * 10 + d) ds a).
  { induction ds as [|d ds IHds]; intros a Ha HF; simpl; [lia|].
    apply Forall_cons in HF as [Hd' HF]. unfold is_digit in Hd'.
    specialize (IHds (a * 10 + d) ltac:(lia) HF). lia. }
  assert (HF : Forall is_digit (char_digit <$> s)).
  { apply Forall_fmap, Forall_forall. intros x Hx. apply char_digit_ok.
    rewrite forallb_forall in Hs. apply Hs. by apply list_elem_of_In. }
  specialize (Hmono (char_digit <$> s) (acc * 10 + char_digit c) ltac:(lia) HF).
  destruct (Z.leb_spec (acc * 10 + char_digit c) U64_MAX); [|lia]. apply IH; [done|lia|done].
Qed.

(** ASCII digits are valid UTF-8. *)
Lemma utf8_valid_ascii s : Forall (fun b => (b < 128)%nat) s -> utf8_valid s = true.
Proof.
  induction 1 as [|b s Hb Hs IH]; [done|]. cbn [utf8_valid].
  destruct (Nat.ltb_spec b 128); [done|lia].
Qed.

Lemma to_str_digits s :
  forallb is_ascii_digit (list_ascii_of_string s) = true -> to_str s = Some s.
Proof.
  intros H. unfold to_str. rewrite utf8_valid_ascii; [done|].
  apply Forall_fmap, Forall_forall. intros c Hc. simpl.
  rewrite forallb_forall in H. specialize (H c ltac:(by apply list_elem_of_In)).
  unfold is_ascii_digit in H. rewrite andb_true_iff, !Nat.leb_le in H. lia.
Qed.

Lemma list_ascii_digits_string ds :
  list_ascii_of_string (digits_string ds) = digit_char <$> ds.
Proof. apply Strings.String.list_ascii_of_string_of_list_ascii. Qed.

Lemma digits_string_all_digits ds :
  Forall is_digit ds -> forallb is_ascii_digit (list_ascii_of_string (digits_string ds)) = true.
Proof.
  intros H. rewrite list_ascii_digits_string. apply forallb_forall. intros c Hc.
  apply list_elem_of_In, list_elem_of_fmap in Hc as (d & -> & Hd).
  apply is_ascii_digit_char. by eapply Forall_forall in H.
Qed.

Lemma char_digits_string ds :
  Forall is_digit ds -> char_digit <$> list_ascii_of_string (digits_string ds) = ds.
Proof.
  intros H. rewrite list_ascii_digits_string, <- list_fmap_compose.
  induction H as [|d ds Hd H IH]; [done|]. cbn. f_equal; [by apply char_digit_char|done].
Qed.

(** The text of a run of digits determines it. *)
Lemma digits_string_of_chars s :
  forallb is_ascii_digit (list_ascii_of_string s) = true ->
  digits_string (char_digit <$> list_ascii_of_string s) = s.
Proof.
  intros H. unfold digits_string. rewrite <- list_fmap_compose.
  rewrite <- (Strings.String.string_of_list_ascii_of_string s) at 2. f_equal.
  induction (list_ascii_of_string s) as [|c l IH]; [done|]. simpl in H.
  apply andb_true_iff in H as [Hc Hl]. cbn. f_equal; [by apply digit_char_of_char|by apply IH].
Qed.

(** [str::parse] on a nonempty run of digits whose value fits a [u64]. *)
Lemma parse_u64_digits s :
  list_ascii_of_string s <> [] ->
  forallb is_ascii_digit (list_ascii_of_string s) = true ->
  digits_value (char_digit <$> list_ascii_of_string s) <= U64_MAX ->
  parse_u64 s = Some (digits_value (char_digit <$> list_ascii_of_string s)).
Proof.
  intros Hne Hd Hle. unfold parse_u64. destruct (list_ascii_of_string s) as [|c l] eqn:E; [done|].
  assert (Hc : is_ascii_digit c = true) by (simpl in Hd; by apply andb_true_iff in Hd as [? _]).
  rewrite bool_decide_false by (by apply is_ascii_digit_not_plus).
  rewrite parse_digits_value by (done || lia). done.
Qed.
