(* ===== verification/Config.v ===== *)
(** * Configuration

    [fusecraft-core/src/config.rs]: the configuration records and their
    defaults, errno names, the conversions of the raw TOML structs and
    [Config::validate] with its messages. *)

From stdpp Require Import base list numbers strings gmap.
From Stdlib Require Import ZArith Lia Bool.

From S2P Require Import Prelude Word Float Binary64 Op Text.

Local Open Scope Z_scope.

(** ** Records *)

Record LatencyProfile : Type := {
  base_us : Z;
  lognormal_median_us : f64;
  lognormal_sigma : f64;
  pareto_weight : f64;
  pareto_xm_us : f64;
  pareto_alpha : f64;
  max_us : Z
}.

Record BandwidthProfile : Type := {
  bytes_per_sec : f64;
  burst_bytes : Z
}.

Record BandwidthProfileRaw : Type := {
  mib_per_sec : f64;
  raw_burst_bytes : Z
}.

Record FaultRule : Type := {
  rule_op : FsOp;
  rule_errno : Z;
  rule_rate : f64
}.

Record FaultRuleRaw : Type := {
  raw_op : FsOp;
  raw_errno : string;
  raw_rate : f64
}.

Record LargeTierPolicy : Type := {
  large_latency : LatencyProfile;
  large_bandwidth : option BandwidthProfile;
  large_faults : list FaultRule
}.

Record SizeTier : Type := {
  threshold_bytes : Z;
  large : LargeTierPolicy
}.

Record OpPolicy : Type := {
  concurrency_cap : Z;
  queue_cap : Z;
  latency : LatencyProfile;
  bandwidth : option BandwidthProfile;
  faults : list FaultRule;
  size_tier : option SizeTier
}.

Inductive RootLayout : Type := Flat.
Inductive WriteMode : Type := Discard.

Record MountConfig : Type := {
  fs_name : string;
  subtype : string;
  auto_unmount : bool;
  default_permissions : bool;
  read_only : bool;
  direct_io : bool
}.

Record FilesConfig : Type := {
  inode_count : Z;
  file_size_bytes : Z;
  root_layout : RootLayout;
  write_mode : WriteMode
}.

Record MetricsConfig : Type := { jsonl_path : option string }.

(** [ops] is a [HashMap]: its iteration order is not determined by its
    contents and is an argument of what iterates. *)
Record Config : Type := {
  seed : Z;
  mount : MountConfig;
  files : FilesConfig;
  ops : gmap FsOp OpPolicy;
  metrics : MetricsConfig
}.

(** ** Defaults *)

Definition default_seed : Z := 42.
Definition default_fs_name : string := "fusecraft".
Definition default_subtype : string := "sim".
Definition default_true : bool := true.
Definition default_inode_count : Z := 1000.
Definition default_file_size_bytes : Z := 65536.
Definition default_concurrency_cap : Z := 64.
Definition default_lognormal_median : f64 := f64_of_Z 100.
Definition default_lognormal_sigma : f64 := f64_half.
Definition default_pareto_xm : f64 := f64_of_Z 1000.
Definition default_pareto_alpha : f64 := f64_one_and_half.
Definition default_max_us : Z := 1000000.

Definition default_MountConfig : MountConfig := {|
  fs_name := default_fs_name;
  subtype := default_subtype;
  auto_unmount := true;
  default_permissions := true;
  read_only := false;
  direct_io := false
|}.

Definition default_FilesConfig : FilesConfig := {|
  inode_count := default_inode_count;
  file_size_bytes := default_file_size_bytes;
  root_layout := Flat;
  write_mode := Discard
|}.

Definition default_LatencyProfile : LatencyProfile := {|
  base_us := 0;
  lognormal_median_us := default_lognormal_median;
  lognormal_sigma := default_lognormal_sigma;
  pareto_weight := f64_zero;
  pareto_xm_us := default_pareto_xm;
  pareto_alpha := default_pareto_alpha;
  max_us := default_max_us
|}.

Definition default_OpPolicy : OpPolicy := {|
  concurrency_cap := default_concurrency_cap;
  queue_cap := 0;
  latency := default_LatencyProfile;
  bandwidth := None;
  faults := [];
  size_tier := None
|}.

Definition default_MetricsConfig : MetricsConfig := {| jsonl_path := None |}.

Definition default_Config : Config := {|
  seed := default_seed;
  mount := default_MountConfig;
  files := default_FilesConfig;
  ops := ∅;
  metrics := default_MetricsConfig
|}.

(** ** Errno names and raw structs *)

Definition parse_errno (name : string) : result Z FsError :=
  if bool_decide (name = "EIO") then Ok EIO
  else if bool_decide (name = "ENOENT") then Ok ENOENT
  else if bool_decide (name = "ESTALE") then Ok ESTALE
  else if bool_decide (name = "ENOSPC") then Ok ENOSPC
  else if bool_decide (name = "EAGAIN") then Ok EAGAIN
  else if bool_decide (name = "EINTR") then Ok EINTR
  else Err (ConfigError ("unknown errno: " +:+ name)).

(** The literal [1024.0]. *)
Definition f64_1024 : f64 := f64_of_Z 1024.

(** [BandwidthProfile::deserialize], from the raw struct on. *)
Definition bandwidth_from_raw (raw : BandwidthProfileRaw) : BandwidthProfile := {|
  bytes_per_sec := f64_mul (f64_mul (mib_per_sec raw) f64_1024) f64_1024;
  burst_bytes := raw_burst_bytes raw
|}.

(** [FaultRule::deserialize], from the raw struct on. *)
Definition fault_from_raw (raw : FaultRuleRaw) : result FaultRule FsError :=
  (let? errno := parse_errno (raw_errno raw) in
   Ok {| rule_op := raw_op raw; rule_errno := errno; rule_rate := raw_rate raw |})%fc.

(** ** Validation

    [fmt_f64] is [f64]'s [Display], which only appears in messages. *)

(** A string between double quotes. *)
Definition quoted (s : string) : string :=
  String (Ascii.ascii_of_nat 34) EmptyString +:+ s +:+ String (Ascii.ascii_of_nat 34) EmptyString.

Section Validate.
Context (fmt_f64 : f64 -> string).

Definition latency_floats (l : LatencyProfile) : list (string * f64) :=
  [("lognormal_median_us", lognormal_median_us l);
   ("lognormal_sigma", lognormal_sigma l);
   ("pareto_weight", pareto_weight l);
   ("pareto_xm_us", pareto_xm_us l);
   ("pareto_alpha", pareto_alpha l)].

(** The loop over the float fields: the first one that is not finite. *)
Fixpoint validate_finite (fields : list (string * f64)) (prefix : string) : result unit FsError :=
  match fields with
  | [] => Ok tt
  | (name, value) :: rest =>
      if negb (is_finite value)
      then Err (ConfigError (prefix +:+ "." +:+ name +:+ " must be finite, got " +:+ fmt_f64 value))
      else validate_finite rest prefix
  end.

Definition validate_latency (l : LatencyProfile) (prefix : string) : result unit FsError :=
  (let? _ := validate_finite (latency_floats l) prefix in
   if max_us l <? base_us l then
     Err (ConfigError (prefix +:+ ".max_us (" +:+ show_u64 (max_us l)
                       +:+ ") must be >= base_us (" +:+ show_u64 (base_us l) +:+ ")"))
   else if f64_lt (pareto_weight l) f64_zero || f64_gt (pareto_weight l) f64_one then
     Err (ConfigError (prefix +:+ ".pareto_weight must be in [0.0, 1.0], got "
                       +:+ fmt_f64 (pareto_weight l)))
   else if f64_gt (pareto_weight l) f64_zero && f64_le (pareto_alpha l) f64_zero then
     Err (ConfigError (prefix +:+ ".pareto_alpha must be > 0.0 when pareto_weight > 0"))
   else if f64_lt (lognormal_median_us l) f64_zero then
     Err (ConfigError (prefix +:+ ".lognormal_median_us must be >= 0.0"))
   else if f64_lt (lognormal_sigma l) f64_zero then
     Err (ConfigError (prefix +:+ ".lognormal_sigma must be >= 0.0"))
   else Ok tt)%fc.

Definition validate_bandwidth (b : BandwidthProfile) (prefix : string) : result unit FsError :=
  if negb (is_finite (bytes_per_sec b)) then
    Err (ConfigError (prefix +:+ ".mib_per_sec must be finite, got " +:+ fmt_f64 (bytes_per_sec b)))
  else Ok tt.

(** The loop of [validate_faults] from index [i] on. *)
Fixpoint validate_faults_from (i : nat) (fs : list FaultRule) (expected_op : FsOp)
    (prefix : string) : result unit FsError :=
  match fs with
  | [] => Ok tt
  | f :: rest =>
      let idx := show_u64 (Z.of_nat i) in
      if negb (bool_decide (rule_op f = expected_op)) then
        Err (ConfigError (prefix +:+ "[" +:+ idx +:+ "].op = " +:+ quoted (op_as_str (rule_op f))
          +:+ " does not match the enclosing op " +:+ quoted (op_as_str expected_op)
          +:+ " (at runtime the sampler filters rules by op, so a mismatch would silently never fire)"))
      else if negb (is_finite (rule_rate f)) || f64_lt (rule_rate f) f64_zero
              || f64_gt (rule_rate f) f64_one then
        Err (ConfigError (prefix +:+ "[" +:+ idx
          +:+ "].rate must be a finite value in [0.0, 1.0], got " +:+ fmt_f64 (rule_rate f)))
      else validate_faults_from (S i) rest expected_op prefix
  end.

Definition validate_faults : list FaultRule -> FsOp -> string -> result unit FsError :=
  validate_faults_from 0.

Definition validate_size_tier (op : FsOp) (tier : SizeTier) (prefix : string) : result unit FsError :=
  if negb (is_data_op op) then
    Err (ConfigError (prefix +:+ ".size_tier is only valid on Read or Write ops, not "
                      +:+ op_as_str op))
  else if threshold_bytes tier =? 0 then
    Err (ConfigError (prefix +:+ ".size_tier.threshold_bytes must be > 0 (a zero threshold is equivalent to not setting size_tier at all — configure the base policy directly instead)"))
  else
    (let? _ := validate_latency (large_latency (large tier)) (prefix +:+ ".size_tier.large.latency") in
     let? _ := match large_bandwidth (large tier) with
               | Some bw => validate_bandwidth bw (prefix +:+ ".size_tier.large.bandwidth")
               | None => Ok tt
               end in
     validate_faults (large_faults (large tier)) op (prefix +:+ ".size_tier.large.faults"))%fc.

Definition validate_op_policy (op : FsOp) (policy : OpPolicy) (prefix : string) : result unit FsError :=
  if concurrency_cap policy =? 0 then
    Err (ConfigError (prefix +:+ ".concurrency_cap must be > 0"))
  else
    (let? _ := validate_latency (latency policy) (prefix +:+ ".latency") in
     let? _ := match bandwidth policy with
               | Some bw => validate_bandwidth bw (prefix +:+ ".bandwidth")
               | None => Ok tt
               end in
     let? _ := validate_faults (faults policy) op (prefix +:+ ".faults") in
     match size_tier policy with
     | Some tier => validate_size_tier op tier prefix
     | None => Ok tt
     end)%fc.

(** The loop of [Config::validate] over the entries in iteration order. *)
Fixpoint validate_ops (entries : list (FsOp * OpPolicy)) : result unit FsError :=
  match entries with
  | [] => Ok tt
  | (op, policy) :: rest =>
      (let? _ := validate_op_policy op policy ("ops." +:+ op_as_str op) in
       validate_ops rest)%fc
  end.

Definition validate (cfg : Config) (entries : list (FsOp * OpPolicy)) : result unit FsError :=
  if inode_count (files cfg) =? 0 then
    Err (ConfigError "files.inode_count must be > 0")
  else if file_size_bytes (files cfg) =? 0 then
    Err (ConfigError "files.file_size_bytes must be > 0")
  else validate_ops entries.
End Validate.

(** ** What validation establishes *)

Definition unit_interval (x : f64) : Prop :=
  f64_le f64_zero x = true /\ f64_le x f64_one = true.

Definition latency_ok (l : LatencyProfile) : Prop :=
  Forall (fun p => is_finite p.2 = true) (latency_floats l) /\
  base_us l <= max_us l /\
  unit_interval (pareto_weight l) /\
  (f64_lt f64_zero (pareto_weight l) = true -> f64_lt f64_zero (pareto_alpha l) = true) /\
  f64_le f64_zero (lognormal_median_us l) = true /\
  f64_le f64_zero (lognormal_sigma l) = true.

Definition bandwidth_ok (b : option BandwidthProfile) : Prop :=
  forall bw, b = Some bw -> is_finite (bytes_per_sec bw) = true.

Definition faults_ok (op : FsOp) (fs : list FaultRule) : Prop :=
  Forall (fun f => rule_op f = op /\ unit_interval (rule_rate f)) fs.

Definition size_tier_ok (op : FsOp) (tier : SizeTier) : Prop :=
  is_data_op op = true /\ threshold_bytes tier <> 0 /\
  latency_ok (large_latency (large tier)) /\
  bandwidth_ok (large_bandwidth (large tier)) /\
  faults_ok op (large_faults (large tier)).

Definition policy_ok (op : FsOp) (p : OpPolicy) : Prop :=
  concurrency_cap p <> 0 /\ latency_ok (latency p) /\ bandwidth_ok (bandwidth p) /\
  faults_ok op (faults p) /\ (forall tier, size_tier p = Some tier -> size_tier_ok op tier).

Definition config_ok (cfg : Config) : Prop :=
  inode_count (files cfg) <> 0 /\ file_size_bytes (files cfg) <> 0 /\
  (forall op p, ops cfg !! op = Some p -> policy_ok op p).

(** ** Acceptance *)

Create HintDb config.

Lemma is_finite_not_nan x : is_finite x = true -> is_nan x = false.
Proof. by destruct x. Qed.

#[export] Hint Resolve is_finite_not_nan : config.

Section ValidateFacts.
Context (fmt_f64 : f64 -> string).

Lemma validate_finite_ok fields prefix :
  validate_finite fmt_f64 fields prefix = Ok tt <-> Forall (fun p => is_finite p.2 = true) fields.
Proof.
  induction fields as [|[name value] fields IH]; simpl; [by split|].
  rewrite Forall_cons. simpl. destruct (is_finite value); simpl; [|naive_solver].
  rewrite IH. naive_solver.
Qed.

(** The comparisons of the code, on numbers. *)
Lemma unit_interval_tests x :
  is_nan x = false -> f64_lt x f64_zero || f64_gt x f64_one = false <-> unit_interval x.
Proof.
  intros Hx. unfold unit_interval, f64_gt.
  rewrite (f64_le_not_lt x f64_zero), (f64_le_not_lt f64_one x) by done.
  rewrite orb_false_iff, !negb_false_iff. done.
Qed.

Lemma validate_latency_ok l prefix :
  validate_latency fmt_f64 l prefix = Ok tt <-> latency_ok l.
Proof.
  unfold validate_latency, latency_ok.
  destruct (validate_finite fmt_f64 (latency_floats l) prefix) as [[]|e] eqn:EF.
  2: { split; [done|]. intros [HF%(validate_finite_ok _ prefix) _]. congruence. }
  apply validate_finite_ok in EF.
  assert (HF := EF). unfold latency_floats in HF. rewrite !Forall_cons in HF.
  cbn [snd] in HF. destruct HF as (Hmed & Hsig & Hw & Hxm & Ha & _).
  pose proof (unit_interval_tests (pareto_weight l) ltac:(auto with config)) as Hu.
  assert (Hge : forall x, is_finite x = true -> f64_lt x f64_zero = false <-> f64_le f64_zero x = true).
  { intros x Hx. rewrite f64_le_not_lt by auto with config. apply negb_false_iff. }
  rewrite <- Hu, <- (Hge _ Hmed), <- (Hge _ Hsig).
  destruct (Z.ltb_spec (max_us l) (base_us l)); [split; [done|lia]|].
  destruct (f64_lt (pareto_weight l) f64_zero || f64_gt (pareto_weight l) f64_one); [naive_solver|].
  unfold f64_gt.
  assert (Hal : f64_le (pareto_alpha l) f64_zero = negb (f64_lt f64_zero (pareto_alpha l)))
    by (rewrite (f64_le_not_lt f64_zero) by auto with config; by rewrite negb_involutive).
  rewrite Hal.
  destruct (f64_lt f64_zero (pareto_weight l)), (f64_lt f64_zero (pareto_alpha l));
    cbn [negb andb]; destruct (f64_lt (lognormal_median_us l) f64_zero),
    (f64_lt (lognormal_sigma l) f64_zero); naive_solver.
Qed.

Lemma validate_bandwidth_ok b prefix :
  match b with
  | Some bw => validate_bandwidth fmt_f64 bw prefix
  | None => Ok tt
  end = Ok tt <-> bandwidth_ok b.
Proof.
  unfold bandwidth_ok, validate_bandwidth. destruct b as [bw|]; [|by split].
  destruct (is_finite (bytes_per_sec bw)) eqn:E; simpl; [naive_solver|].
  split; [done|]. intros H. specialize (H bw eq_refl). congruence.
Qed.

Lemma validate_faults_ok i fs op prefix :
  validate_faults_from fmt_f64 i fs op prefix = Ok tt <-> faults_ok op fs.
Proof.
  revert i. unfold faults_ok. induction fs as [|f fs IH]; intros i; [by split|].
  cbn [validate_faults_from]. rewrite Forall_cons, <- (IH (S i)).
  case_bool_decide as Hop; cbn [negb]; [|naive_solver].
  destruct (is_finite (rule_rate f)) eqn:Hf; cbn [negb orb].
  - pose proof (unit_interval_tests (rule_rate f) ltac:(auto with config)) as <-.
    destruct (f64_lt (rule_rate f) f64_zero || f64_gt (rule_rate f) f64_one); naive_solver.
  - split; [done|]. intros [[_ [H0 H1]] _].
    destruct (rule_rate f) as [[]|[]| |[] ? ?]; done.
Qed.

Lemma validate_size_tier_ok op tier prefix :
  validate_size_tier fmt_f64 op tier prefix = Ok tt <-> size_tier_ok op tier.
Proof.
  unfold validate_size_tier, size_tier_ok, validate_faults.
  rewrite <- (validate_latency_ok _ (prefix +:+ ".size_tier.large.latency")),
    <- (validate_bandwidth_ok _ (prefix +:+ ".size_tier.large.bandwidth")),
    <- (validate_faults_ok 0 _ _ (prefix +:+ ".size_tier.large.faults")).
  destruct (is_data_op op); cbn [negb]; [|naive_solver].
  destruct (Z.eqb_spec (threshold_bytes tier) 0); [naive_solver|].
  destruct (validate_latency _ _ _) as [[]|]; [|naive_solver].
  destruct (match large_bandwidth (large tier) with Some _ => _ | None => _ end) as [[]|];
    naive_solver.
Qed.

Lemma validate_op_policy_ok op p prefix :
  validate_op_policy fmt_f64 op p prefix = Ok tt <-> policy_ok op p.
Proof.
  unfold validate_op_policy, policy_ok, validate_faults.
  rewrite <- (validate_latency_ok _ (prefix +:+ ".latency")),
    <- (validate_bandwidth_ok _ (prefix +:+ ".bandwidth")),
    <- (validate_faults_ok 0 _ _ (prefix +:+ ".faults")).
  destruct (Z.eqb_spec (concurrency_cap p) 0); [naive_solver|].
  destruct (validate_latency _ _ _) as [[]|]; [|naive_solver].
  destruct (match bandwidth p with Some _ => _ | None => _ end) as [[]|]; [|naive_solver].
  destruct (validate_faults_from _ _ _ _ _) as [[]|]; [|naive_solver].
  destruct (size_tier p) as [tier|]; [|naive_solver].
  rewrite validate_size_tier_ok. naive_solver.
Qed.

Lemma validate_ops_ok entries :
  validate_ops fmt_f64 entries = Ok tt <-> Forall (fun e => policy_ok e.1 e.2) entries.
Proof.
  induction entries as [|[op p] es IH]; cbn [validate_ops]; [by split|].
  rewrite Forall_cons, <- IH, <- (validate_op_policy_ok _ _ ("ops." +:+ op_as_str op)).
  cbn [fst snd]. destruct (validate_op_policy _ _ _ _) as [[]|]; naive_solver.
Qed.

(** The acceptance test, entry by entry. *)
Lemma validate_ok_iff cfg entries :
  entries ≡ₚ map_to_list (ops cfg) ->
  validate fmt_f64 cfg entries = Ok tt <-> config_ok cfg.
Proof.
  intros Hperm. unfold validate, config_ok.
  destruct (Z.eqb_spec (inode_count (files cfg)) 0); [naive_solver|].
  destruct (Z.eqb_spec (file_size_bytes (files cfg)) 0); [naive_solver|].
  rewrite validate_ops_ok, Hperm, Forall_forall. split.
  - intros H. split_and!; [done|done|]. intros op p Hp.
    apply (H (op, p)). by apply elem_of_map_to_list.
  - intros (_ & _ & H) [op p] Hin%elem_of_map_to_list. by apply H.
Qed.

(** Every rejection is a configuration error. *)
Lemma validate_err_config cfg entries e :
  validate fmt_f64 cfg entries = Err e -> as_errno e = EINVAL.
Proof.
  assert (Hf : forall fields prefix e', validate_finite fmt_f64 fields prefix = Err e' -> as_errno e' = EINVAL).
  { induction fields as [|[] fields IH]; simpl; intros; [done|]. case_match; naive_solver. }
  assert (Hl : forall l prefix e', validate_latency fmt_f64 l prefix = Err e' -> as_errno e' = EINVAL).
  { intros l prefix e'. unfold validate_latency.
    destruct (validate_finite _ _ _) eqn:E; [|intros [= <-]; eauto]. repeat case_match; naive_solver. }
  assert (Hb : forall b prefix e', validate_bandwidth fmt_f64 b prefix = Err e' -> as_errno e' = EINVAL).
  { intros b prefix e'. unfold validate_bandwidth. case_match; naive_solver. }
  assert (Hfs : forall fs i op prefix e', validate_faults_from fmt_f64 i fs op prefix = Err e' -> as_errno e' = EINVAL).
  { induction fs as [|f fs IH]; cbn [validate_faults_from]; intros; [done|].
    repeat case_match; naive_solver. }
  assert (Hp : forall op p prefix e', validate_op_policy fmt_f64 op p prefix = Err e' -> as_errno e' = EINVAL).
  { intros op p prefix e'. unfold validate_op_policy, validate_size_tier, validate_faults.
    repeat case_match; naive_solver. }
  unfold validate. repeat case_match; try naive_solver.
  induction entries as [|[op p] es IH]; cbn [validate_ops]; [done|].
  destruct (validate_op_policy _ _ _ _) eqn:E; [done|]. intros [= <-]. eauto.
Qed.

(** ** Properties *)

(** C32: validation accepts exactly the configurations that satisfy the documented
    rules (nonzero file count, size and caps; finite and ordered latency
    parameters; rates in [0, 1]; fault rules under their own operation; size
    tiers on reads and writes only), whatever order the map yields its
    entries in, and rejects the others with a configuration error, EINVAL. *)
Theorem validate_accepts_iff_ok cfg entries :
  entries ≡ₚ map_to_list (ops cfg) ->
  (validate fmt_f64 cfg entries = Ok tt <-> config_ok cfg) /\
  (forall e, validate fmt_f64 cfg entries = Err e -> as_errno e = EINVAL).
Proof. intros Hp. split; [by apply validate_ok_iff|apply validate_err_config]. Qed.
End ValidateFacts.

(** ** Witness *)

(** The defaults with one listed operation whose fault rule names another. *)
Definition misplaced_rule : OpPolicy :=
  {| concurrency_cap := 1; queue_cap := 0; latency := default_LatencyProfile; bandwidth := None;
     faults := [{| rule_op := Write; rule_errno := EIO; rule_rate := f64_one |}]; size_tier := None |}.

Definition misplaced_config : Config :=
  {| seed := 0; mount := default_MountConfig; files := default_FilesConfig;
     ops := {[Read := misplaced_rule]}; metrics := default_MetricsConfig |}.

Lemma misplaced_entries : [(Read, misplaced_rule)] ≡ₚ map_to_list (ops misplaced_config).
Proof. cbn. by rewrite map_to_list_singleton. Qed.

Lemma validate_accepts_iff_ok_witness : ~ config_ok misplaced_config /\ config_ok default_Config.
Proof.
  split.
  - intros Hok. apply (validate_accepts_iff_ok (fun _ => "0") misplaced_config
      [(Read, misplaced_rule)] misplaced_entries) in Hok. by vm_compute in Hok.
  - apply (validate_accepts_iff_ok (fun _ => "0") default_Config []); [done|by vm_compute].
Defined.
