(* ===== verification/SampleKey.v ===== *)
(** * Per-call RNG seeds

    [fusecraft-core/src/sampler/key.rs]: the sampling key and the splitmix64
    mixing that turns it, with a stream constant, into the seed of one RNG. *)

From stdpp Require Import base numbers.
From Stdlib Require Import ZArith Lia.

From S2P Require Import Prelude Word Op.

Local Open Scope Z_scope.

Definition LATENCY_STREAM : Z := 0xA5A5A5A5A5A5A5A5.
Definition FAULT_STREAM : Z := 0x5A5A5A5A5A5A5A5A.

Record SampleKey : Type := {
  key_seed : Z;
  key_op : FsOp;
  key_ino : Z;
  key_offset : Z;
  key_len : Z;
  key_seq : Z
}.

(** The ranges of the fields' types: [u64], and [u32] for the length. *)
Definition key_wf (k : SampleKey) : Prop :=
  is_u64 (key_seed k) /\ is_u64 (key_ino k) /\ is_u64 (key_offset k) /\
  is_u32 (key_len k) /\ is_u64 (key_seq k).

(** The fields folded into one word, before the finalizer. *)
Definition mix_fields (key : SampleKey) (stream : Z) : Z :=
  Z.lxor (Z.lxor (Z.lxor (Z.lxor (Z.lxor (Z.lxor
    (key_seed key)
    (rotate_left (op_as_u64 (key_op key)) 11))
    (rotate_left (key_ino key) 23))
    (rotate_left (key_offset key) 37))
    (rotate_left (key_len key) 47))
    (rotate_left (key_seq key) 53))
    stream.

(** The splitmix64 finalizer. *)
Definition mix_finalize (z : Z) : Z :=
  let z := wrapping_mul (xorshift z 30) 0xbf58476d1ce4e5b9 in
  let z := wrapping_mul (xorshift z 27) 0x94d049bb133111eb in
  xorshift z 31.

Definition mix (key : SampleKey) (stream : Z) : Z :=
  mix_finalize (mix_fields key stream).

(** ** Facts *)

Lemma mix_finalize_u64 z : is_u64 (mix_finalize z).
Proof. unfold mix_finalize. apply xorshift_u64; [lia|]. apply wrapping_mul_u64. Qed.

(** The finalizer is a permutation of the words. *)
Lemma mix_finalize_inj x y : is_u64 x -> is_u64 y -> mix_finalize x = mix_finalize y -> x = y.
Proof.
  intros Hx Hy H. unfold mix_finalize in H.
  apply xorshift_inj in H; [|lia|apply wrapping_mul_u64..].
  apply (wrapping_mul_inj _ 3573116690164977347) in H; [|reflexivity|u64..].
  apply xorshift_inj in H; [|lia|apply wrapping_mul_u64..].
  apply (wrapping_mul_inj _ 10871156337175269513) in H; [|reflexivity|u64..].
  by apply xorshift_inj in H; [|lia|..].
Qed.

Lemma op_as_u64_u64 op : is_u64 (op_as_u64 op).
Proof. pose proof (op_as_u64_range op). unfold is_u64. lia. Qed.

Lemma u32_u64 x : is_u32 x -> is_u64 x.
Proof. unfold is_u32, is_u64. lia. Qed.

#[export] Hint Resolve op_as_u64_u64 u32_u64 : u64.

Lemma mix_fields_u64 k stream : key_wf k -> is_u64 stream -> is_u64 (mix_fields k stream).
Proof. intros (? & ? & ? & ? & ?) ?. unfold mix_fields. auto 20 with u64. Qed.

Lemma mix_inj_fields k k' s s' :
  key_wf k -> key_wf k' -> is_u64 s -> is_u64 s' ->
  mix k s = mix k' s' -> mix_fields k s = mix_fields k' s'.
Proof. unfold mix. intros ???? E. apply mix_finalize_inj; [by apply mix_fields_u64..|exact E]. Qed.

Lemma stream_u64 : is_u64 LATENCY_STREAM /\ is_u64 FAULT_STREAM.
Proof. split; unfold is_u64; by vm_compute. Qed.

(** ** Which keys share a seed *)

(** Two keys that differ in at most one field. *)
Inductive one_field : SampleKey -> SampleKey -> Prop :=
| differ_seed s s' op i o l q :
    one_field (Build_SampleKey s op i o l q) (Build_SampleKey s' op i o l q)
| differ_op s op op' i o l q :
    one_field (Build_SampleKey s op i o l q) (Build_SampleKey s op' i o l q)
| differ_ino s op i i' o l q :
    one_field (Build_SampleKey s op i o l q) (Build_SampleKey s op i' o l q)
| differ_offset s op i o o' l q :
    one_field (Build_SampleKey s op i o l q) (Build_SampleKey s op i o' l q)
| differ_len s op i o l l' q :
    one_field (Build_SampleKey s op i o l q) (Build_SampleKey s op i o l' q)
| differ_seq s op i o l q q' :
    one_field (Build_SampleKey s op i o l q) (Build_SampleKey s op i o l q').

(** Strips the common operands of two equal exclusive-or chains. *)
Ltac lxor_cancel H :=
  repeat first [apply lxor_inj_l in H | apply lxor_inj_r in H].

(** Keys that differ in exactly one field (seed, operation, inode, offset,
    length or sequence number) give different seeds on either stream. *)
Theorem mix_one_field_inj k k' stream :
  key_wf k -> key_wf k' -> is_u64 stream -> one_field k k' ->
  mix k stream = mix k' stream -> k = k'.
Proof.
  intros Hk Hk' Hs Hone H.
  apply mix_inj_fields in H; [|done..]. unfold mix_fields in H.
  destruct Hk as (? & ? & ? & ? & ?), Hk' as (? & ? & ? & ? & ?).
  destruct Hone; cbn in *; lxor_cancel H;
    try (apply rotate_left_inj in H; [|lia|auto with u64..]);
    try (apply op_as_u64_inj in H); by subst.
Qed.

(** The latency and the fault stream of one key never share a seed. *)
Theorem mix_streams_differ k :
  key_wf k -> mix k LATENCY_STREAM <> mix k FAULT_STREAM.
Proof.
  intros Hk H. destruct stream_u64 as [HL HF].
  apply mix_inj_fields in H; [|done..]. unfold mix_fields in H.
  apply lxor_inj_r in H. done.
Qed.



(** ** Witnesses *)

Definition key_at (offset : Z) : SampleKey :=
  {| key_seed := 42; key_op := Read; key_ino := 100; key_offset := offset; key_len := 4096; key_seq := 7 |}.

Lemma key_at_wf offset : is_u64 offset -> key_wf (key_at offset).
Proof. intros. unfold key_wf, is_u64, is_u32 in *. cbn. lia. Qed.

Lemma mix_one_field_inj_witness : mix (key_at 0) FAULT_STREAM <> mix (key_at 4096) FAULT_STREAM.
Proof.
  intros E. pose proof (mix_one_field_inj (key_at 0) (key_at 4096) FAULT_STREAM (key_at_wf 0 (conj (Z.le_refl 0) eq_refl))
    (key_at_wf 4096 ltac:(unfold is_u64; lia)) (proj2 stream_u64) (differ_offset _ _ _ _ _ _ _) E) as K.
  by injection K.
Defined.

Lemma mix_streams_differ_witness : mix (key_at 0) LATENCY_STREAM <> mix (key_at 0) FAULT_STREAM.
Proof. exact (mix_streams_differ (key_at 0) (key_at_wf 0 (conj (Z.le_refl 0) eq_refl))). Defined.

