(* ===== verification/Sampler.v ===== *)
(** * Fault and latency sampling

    [fusecraft-core/src/sampler/fault.rs] and [latency.rs], over two interfaces
    for code outside the repository: the [rand] generator ([Rng]) and the
    platform's mathematical functions ([Libm]), whose precision Rust leaves
    open. [RngLaws] and [LibmLaws] state their documented ranges. *)

From stdpp Require Import base list numbers gmap.
From Stdlib Require Import ZArith Lia Bool.

From S2P Require Import Prelude Word Float Rounding Binary64 Op Config SampleKey.

Local Open Scope Z_scope.

(** ** Interfaces *)

(** [StdRng::seed_from_u64] and [rng.random::<f64>()]. *)
Class Rng (R : Type) : Type := {
  seed_from_u64 : Z -> R;
  random_f64 : R -> f64 * R
}.

(** A uniform [f64] lies in [0, 1). *)
Class RngLaws (R : Type) `{Rng R} : Prop := {
  random_valid : forall r, valid (random_f64 r).1;
  random_nonneg : forall r, f64_le f64_zero (random_f64 r).1 = true;
  random_lt_one : forall r, f64_lt (random_f64 r).1 f64_one = true
}.

Class Libm : Type := {
  f64_ln : f64 -> f64;
  f64_exp : f64 -> f64;
  f64_cos : f64 -> f64;
  f64_powf : f64 -> f64 -> f64
}.

(** No sign bit: zero, a positive number, infinity or NaN. *)
Definition sign_positive (x : f64) : bool :=
  match x with
  | S754_zero s | S754_infinity s | S754_finite s _ _ => negb s
  | S754_nan => true
  end.

(** The results are binary64 numbers; [exp] and powers of positive numbers are
    never negative. *)
Class LibmLaws `{Libm} : Prop := {
  exp_valid : forall x, valid (f64_exp x);
  exp_not_neg : forall x, not_neg (f64_exp x) = true;
  powf_valid : forall x y, valid (f64_powf x y);
  powf_positive : forall x y, f64_lt f64_zero x = true -> sign_positive (f64_powf x y) = true
}.

(** ** [fault.rs] *)

Section Fault.
Context {R : Type} `{Rng R}.

Definition fault_rng (key : SampleKey) : R := seed_from_u64 (mix key FAULT_STREAM).

(** The loop over the rules that match the operation. *)
Fixpoint first_fault (rules : list FaultRule) (rng : R) : option Z :=
  match rules with
  | [] => None
  | rule :: rest =>
      let (u, rng') := random_f64 rng in
      if f64_lt u (rule_rate rule) then Some (rule_errno rule) else first_fault rest rng'
  end.

Definition sample_fault (rules : list FaultRule) (key : SampleKey) : option Z :=
  first_fault (filter (fun r => rule_op r = key_op key) rules) (fault_rng key).
End Fault.

(** ** [latency.rs] *)

Section Latency.
Context {R : Type} `{Rng R} `{Libm}.

Definition latency_rng (key : SampleKey) : R := seed_from_u64 (mix key LATENCY_STREAM).

Definition sample_standard_normal (rng : R) : f64 * R :=
  let (r1, rng) := random_f64 rng in
  let u1 := f64_max r1 F64_MIN_POSITIVE in
  let (u2, rng) := random_f64 rng in
  (f64_mul (f64_sqrt (f64_mul (f64_neg f64_two) (f64_ln u1)))
           (f64_cos (f64_mul (f64_mul f64_two F64_PI) u2)), rng).

Definition sample_lognormal (rng : R) (median sigma : f64) : f64 * R :=
  if f64_le median f64_zero || f64_le sigma f64_zero then (f64_max median f64_zero, rng)
  else
    let mu := f64_ln median in
    let (z, rng) := sample_standard_normal rng in
    (f64_exp (f64_add mu (f64_mul sigma z)), rng).

Definition sample_pareto (rng : R) (xm alpha : f64) : f64 * R :=
  let (r, rng) := random_f64 rng in
  let u := f64_max r F64_MIN_POSITIVE in
  (f64_div xm (f64_powf u (f64_div f64_one alpha)), rng).

(** The mixture of the two distributions. *)
Definition sample_body (profile : LatencyProfile) (rng : R) : f64 :=
  if f64_gt (pareto_weight profile) f64_zero then
    let (u, rng) := random_f64 rng in
    if f64_lt u (pareto_weight profile)
    then (sample_pareto rng (pareto_xm_us profile) (pareto_alpha profile)).1
    else (sample_lognormal rng (lognormal_median_us profile) (lognormal_sigma profile)).1
  else (sample_lognormal rng (lognormal_median_us profile) (lognormal_sigma profile)).1.

(** The clamp to [max_us] and the conversion to whole microseconds. *)
Definition clamp_latency (total : f64) (max_us : Z) : Z :=
  let clamped := f64_max (f64_min total (f64_of_Z max_us)) f64_zero in
  Z.min (f64_to_u64 (f64_round clamped)) max_us.

Definition sample_latency_us (profile : LatencyProfile) (key : SampleKey) : Z :=
  let rng := latency_rng key in
  let base := f64_of_Z (base_us profile) in
  let body := sample_body profile rng in
  clamp_latency (f64_add base body) (max_us profile).
End Latency.

(** ** Faults: facts *)

Create HintDb sampler.

Section FaultFacts.
Context {R : Type} `{Rng R}.

(** Rules for other operations play no part: not even in the number of
    random draws. *)
Lemma sample_fault_filter rules key :
  sample_fault rules key = sample_fault (filter (fun r => rule_op r = key_op key) rules) key.
Proof.
  unfold sample_fault. f_equal. induction rules as [|r rules IH]; [done|].
  rewrite !filter_cons. destruct (decide (rule_op r = key_op key)) as [E|]; [|done].
  rewrite filter_cons_True by done. by rewrite <- IH.
Qed.

Lemma sample_fault_other_ops rules key :
  Forall (fun r => rule_op r <> key_op key) rules -> sample_fault rules key = None.
Proof.
  intros HF. unfold sample_fault.
  induction HF as [|r rules Hr HF IH]; [done|]. by rewrite filter_cons_False.
Qed.

(** The draws of the loop: the number for the [n]-th matching rule. *)
Fixpoint nth_draw (rng : R) (n : nat) : f64 :=
  match n with
  | O => (random_f64 rng).1
  | S n' => nth_draw (random_f64 rng).2 n'
  end.

(** Rule [n] of a list fires. *)
Definition fires (rules : list FaultRule) (rng : R) (n : nat) : Prop :=
  exists r, rules !! n = Some r /\ f64_lt (nth_draw rng n) (rule_rate r) = true.

Lemma fires_cons r rules rng n :
  fires (r :: rules) rng (S n) <-> fires rules (random_f64 rng).2 n.
Proof. done. Qed.

(** The loop returns the errno of the first rule that fires. *)
Lemma first_fault_spec rules rng res :
  first_fault rules rng = res <->
  match res with
  | Some e => exists n r, rules !! n = Some r /\ rule_errno r = e /\ fires rules rng n /\
                          forall m, (m < n)%nat -> ~ fires rules rng m
  | None => forall n, ~ fires rules rng n
  end.
Proof.
  revert rng res. induction rules as [|r rules IH]; intros rng res.
  - simpl. split; [intros <-; by intros n (r & Hr & _)|].
    destruct res as [e|]; [|done]. by intros (n & r & Hr & _).
  - cbn [first_fault]. pose proof (IH (random_f64 rng).2 res) as IHr.
    destruct (random_f64 rng) as [u rng'] eqn:E. cbn [snd] in IHr.
    assert (H0 : fires (r :: rules) rng 0 <-> f64_lt u (rule_rate r) = true).
    { unfold fires. cbn [nth_draw lookup list_lookup]. rewrite E. naive_solver. }
    assert (HS : forall n, fires (r :: rules) rng (S n) <-> fires rules rng' n).
    { intros n. rewrite fires_cons, E. done. }
    destruct (f64_lt u (rule_rate r)) eqn:Hu.
    + split.
      * intros <-. exists 0%nat, r. split_and!; [done|done|by apply H0|lia].
      * destruct res as [e|]; [|intros Hn; exfalso; by apply (Hn 0%nat), H0].
        intros ([|n] & r' & Hr' & <- & _ & Hm); [by simplify_eq/=|].
        exfalso. apply (Hm 0%nat); [lia|by apply H0].
    + rewrite IHr. clear IHr IH. destruct res as [e|].
      * split.
        -- intros (n & r' & Hr' & He & Hf & Hm). exists (S n), r'.
           split_and!; [done|done|by apply HS|]. intros [|m] Hlt; [by rewrite H0|].
           rewrite HS. apply Hm. lia.
        -- intros ([|n] & r' & Hr' & He & Hf & Hm); [by apply H0 in Hf|].
           exists n, r'. split_and!; [done|done|by apply HS|].
           intros m Hlt. rewrite <- HS. apply Hm. lia.
      * split.
        -- intros Hn [|n]; [by rewrite H0|]. by rewrite HS.
        -- intros Hn n. rewrite <- HS. apply Hn.
Qed.

Context `{!RngLaws R}.

Lemma nth_draw_unit rng n :
  f64_le f64_zero (nth_draw rng n) = true /\ f64_lt (nth_draw rng n) f64_one = true.
Proof. revert rng. induction n as [|n IH]; intros rng; [split; [apply random_nonneg|apply random_lt_one]|apply IH]. Qed.

(** A certain rule ends the loop, an impossible one never does. *)
Lemma fires_certain rules rng n r :
  rules !! n = Some r -> f64_le f64_one (rule_rate r) = true -> fires rules rng n.
Proof.
  intros Hr Hle. exists r. split; [done|].
  eapply f64_lt_le_trans; [apply nth_draw_unit|done].
Qed.

Lemma fires_impossible rules rng n r :
  rules !! n = Some r -> f64_le (rule_rate r) f64_zero = true -> ~ fires rules rng n.
Proof.
  intros Hr Hle (r' & Hr' & Hlt). simplify_eq.
  pose proof (proj1 (nth_draw_unit rng n)) as Hn.
  pose proof (f64_le_lt_trans _ _ _ Hn Hlt) as H1.
  pose proof (f64_lt_le_trans _ _ _ H1 Hle) as H2. by rewrite f64_lt_irrefl in H2.
Qed.

Lemma sample_fault_certain r rest key :
  rule_op r = key_op key -> f64_le f64_one (rule_rate r) = true ->
  sample_fault (r :: rest) key = Some (rule_errno r).
Proof.
  intros Hop Hle. unfold sample_fault. rewrite filter_cons_True by done.
  apply first_fault_spec. exists 0%nat, r. split_and!; [done|done| |lia].
  by eapply fires_certain.
Qed.
End FaultFacts.

(** ** Latency: facts *)

(** The representation invariant of a profile: its floats are binary64
    numbers, its integers words. *)
Definition latency_valid (l : LatencyProfile) : Prop :=
  Forall (fun p => valid p.2) (latency_floats l) /\ is_u64 (base_us l) /\ is_u64 (max_us l).

Lemma f64_div_sign x y :
  not_neg x = true -> sign_positive y = true -> not_neg (f64_div x y) = true.
Proof.
  destruct x as [[]|[]| |[] m e], y as [[]|[]| |[] m' e']; try done; intros _ _.
  unfold f64_div, SFdiv. cbn [xorb].
  destruct (SFdiv_core_binary _ _ _ _ _ _) as [[q e''] l]. apply binary_round_aux_not_neg.
Qed.

Lemma f64_ge_zero_not_neg x : f64_le f64_zero x = true -> not_neg x = true.
Proof. intros H. unfold not_neg. by rewrite f64_le_lt_false. Qed.

Lemma f64_max_zero x : f64_le f64_zero x = true -> f64_max x f64_zero = x.
Proof.
  intros H. unfold f64_max. destruct (f64_le_not_nan _ _ H) as [_ ->].
  change (is_nan f64_zero) with false. cbn iota. by rewrite f64_le_lt_false.
Qed.

Lemma f64_min_le_eq x y : f64_le x y = true -> f64_min x y = x.
Proof.
  intros H. unfold f64_min. destruct (f64_le_not_nan _ _ H) as [-> ->].
  by rewrite f64_le_lt_false.
Qed.

Lemma f64_max_valid x y : valid x -> valid y -> valid (f64_max x y).
Proof. unfold f64_max. intros. by repeat case_match. Qed.

Lemma f64_min_valid x y : valid x -> valid y -> valid (f64_min x y).
Proof. unfold f64_min. intros. by repeat case_match. Qed.

Lemma f64_between_finite lo x hi :
  is_finite lo = true -> is_finite hi = true -> f64_le lo x = true -> f64_le x hi = true ->
  is_finite x = true.
Proof. destruct lo as [[]|[]| |[] ? ?], x as [[]|[]| |[] ? ?], hi as [[]|[]| |[] ? ?]; done. Qed.

#[export] Hint Resolve f64_max_valid f64_min_valid f64_ge_zero_not_neg : f64.

(** The clamp keeps a total that is at least [n], or NaN, at [n] or more. *)
Lemma clamp_latency_ge total n mx :
  0 <= n <= 2 ^ 53 -> n <= mx -> is_u64 mx -> valid total ->
  f64_le (f64_of_Z n) total = true \/ is_nan total = true ->
  n <= clamp_latency total mx.
Proof.
  intros Hn Hmx Hu Hv Htot. unfold is_u64 in Hu. unfold clamp_latency.
  apply Z.min_glb; [|done].
  assert (Hmf : is_finite (f64_of_Z mx) = true) by (apply f64_of_Z_finite; lia).
  assert (Hmv : valid (f64_of_Z mx)) by (apply f64_of_Z_valid; lia).
  assert (Hle : f64_le (f64_of_Z n) (f64_min total (f64_of_Z mx)) = true).
  { pose proof (f64_of_Z_mono n mx ltac:(lia) ltac:(lia) Hmx). unfold f64_min.
    destruct (is_nan total); [done|]. destruct Htot as [Htot|]; [|done]. by repeat case_match. }
  assert (Hz : f64_le f64_zero (f64_of_Z n) = true) by (apply (f64_of_Z_mono 0); lia).
  rewrite f64_max_zero by (by eapply f64_le_trans).
  apply f64_round_to_u64_ge; [done|by apply f64_min_valid| |done].
  eapply f64_between_finite; [|exact Hmf|exact Hle|]; [apply f64_of_Z_finite; lia|].
  apply f64_min_le_r. by apply is_finite_not_nan.
Qed.

Lemma sample_latency_le_max_raw {R} `{Rng R} `{Libm} l key :
  is_u64 (max_us l) ->
  0 <= sample_latency_us (R:=R) l key <= max_us l.
Proof.
  intros Hm. unfold sample_latency_us, clamp_latency, is_u64 in *.
  pose proof (f64_to_u64_range (f64_round (f64_max (f64_min
    (f64_add (f64_of_Z (base_us l)) (sample_body l (latency_rng key))) (f64_of_Z (max_us l))) f64_zero))) as Hr.
  unfold is_u64 in Hr. lia.
Qed.

Section LatencyFacts.
Context {R : Type} `{RngLaws R} `{LibmLaws}.

Lemma sample_standard_normal_total (rng : R) : exists z rng', sample_standard_normal rng = (z, rng').
Proof. destruct (sample_standard_normal rng). eauto. Qed.

Lemma max_min_positive x : f64_lt f64_zero (f64_max x F64_MIN_POSITIVE) = true.
Proof.
  apply f64_lt_le_trans with F64_MIN_POSITIVE; [done|]. by apply f64_max_ge_r.
Qed.

Lemma sample_lognormal_body (rng : R) median sigma :
  valid median ->
  valid (sample_lognormal rng median sigma).1 /\ not_neg (sample_lognormal rng median sigma).1 = true.
Proof.
  intros Hv. unfold sample_lognormal. case_match; cbn [fst].
  - split; [by apply f64_max_valid|]. apply f64_ge_zero_not_neg. by apply f64_max_ge_r.
  - destruct (sample_standard_normal rng). split; [apply exp_valid|apply exp_not_neg].
Qed.

Lemma sample_pareto_body (rng : R) xm alpha :
  valid xm -> not_neg xm = true ->
  valid (sample_pareto rng xm alpha).1 /\ not_neg (sample_pareto rng xm alpha).1 = true.
Proof.
  intros Hv Hn. unfold sample_pareto. destruct (random_f64 rng) as [u rng']. cbn [fst]. split.
  - apply f64_div_valid; [done|apply powf_valid].
  - apply f64_div_sign; [done|]. apply powf_positive, max_min_positive.
Qed.

(** The tail, if it is ever drawn from, has a scale that is not negative: which
    validation does not ask for. *)
Definition tail_not_neg (l : LatencyProfile) : Prop :=
  f64_lt f64_zero (pareto_weight l) = true -> not_neg (pareto_xm_us l) = true.

(** Then the body is never negative. *)
Lemma sample_body_not_neg l (rng : R) :
  latency_valid l -> tail_not_neg l -> valid (sample_body l rng) /\ not_neg (sample_body l rng) = true.
Proof.
  intros (HF & _ & _) Hxm. unfold latency_floats in HF. rewrite !Forall_cons in HF. cbn [snd] in HF.
  destruct HF as (Hmed & Hsig & Hw & Hxv & Ha & _). unfold sample_body.
  case_match; [|by apply sample_lognormal_body]. destruct (random_f64 rng) as [u rng'].
  case_match; [apply sample_pareto_body; [done|by apply Hxm]|by apply sample_lognormal_body].
Qed.

Lemma sample_latency_ge_base l key :
  latency_valid l -> latency_ok l -> tail_not_neg l -> base_us l <= 2 ^ 53 ->
  base_us l <= sample_latency_us (R:=R) l key.
Proof.
  intros Hlv Hok Hxm Hbase. destruct (Hlv) as (_ & Hb & Hm). destruct Hok as (_ & Hle & _).
  unfold is_u64 in Hb. unfold sample_latency_us.
  destruct (sample_body_not_neg l (latency_rng key) Hlv Hxm) as [Hbv Hbn].
  apply clamp_latency_ge; [lia|done|done| |].
  - apply f64_add_valid; [apply f64_of_Z_valid; lia|done].
  - apply f64_add_ge; [apply f64_of_Z_valid; lia|done|apply f64_of_Z_finite; lia|done].
Qed.
End LatencyFacts.

Section FaultProperties.
Context {R : Type} `{Rng R}.

(** C34: the fault drawn for a call is the errno of the first rule for its
    operation whose draw is below its rate, the draws being one number per
    such rule, in order; no fault is drawn when there is no such rule. *)
Theorem sample_fault_first_match rules key res :
  sample_fault (R := R) rules key = res <->
  let matching := filter (fun r => rule_op r = key_op key) rules in
  match res with
  | Some e => exists n r, matching !! n = Some r /\ rule_errno r = e /\
                          fires matching (fault_rng key) n /\
                          forall m, (m < n)%nat -> ~ fires matching (fault_rng key) m
  | None => forall n, ~ fires matching (fault_rng (R := R) key) n
  end.
Proof. apply first_fault_spec. Qed.

Context `{!RngLaws R}.

(** Rules of other operations never matter, a matching rule of rate 1 always
    injects a fault, and matching rules of rate 0 never do. *)
Theorem sample_fault_rates rules key :
  sample_fault (R := R) rules key = sample_fault (filter (fun r => rule_op r = key_op key) rules) key /\
  (Exists (fun r => rule_op r = key_op key /\ f64_le f64_one (rule_rate r) = true) rules ->
   is_Some (sample_fault (R := R) rules key)) /\
  (Forall (fun r => rule_op r = key_op key -> f64_le (rule_rate r) f64_zero = true) rules ->
   sample_fault (R := R) rules key = None).
Proof.
  split; [apply sample_fault_filter|]. split.
  - intros (r & Hr & Hop & Hle)%Exists_exists. destruct (sample_fault rules key) as [e|] eqn:E; [eauto|].
    exfalso. unfold sample_fault in E. rewrite first_fault_spec in E.
    destruct (list_elem_of_lookup_1 (filter (fun r => rule_op r = key_op key) rules) r) as [n Hn];
      [by apply list_elem_of_filter|]. apply (E n). by eapply fires_certain.
  - intros HF. unfold sample_fault. apply first_fault_spec. intros n Hn.
    destruct (Hn) as (r & Hr & _).
    pose proof (list_elem_of_lookup_2 _ _ _ Hr) as [Hop Hin]%list_elem_of_filter.
    rewrite Forall_forall in HF. eapply fires_impossible; [exact Hr|by apply HF|done].
Qed.
End FaultProperties.

Section LatencyProperties.
Context {R : Type} `{RngLaws R} `{LibmLaws}.

(** C33: every latency sampled from a profile that validation accepts is at
    least 0 and at most [max_us]; and, where the base is at most 2^53
    microseconds and the Pareto scale is not negative, or its weight is zero,
    at least [base_us]. *)
Theorem sample_latency_bounds l key :
  latency_valid l -> latency_ok l ->
  0 <= sample_latency_us (R:=R) l key <= max_us l /\
  (tail_not_neg l -> base_us l <= 2 ^ 53 -> base_us l <= sample_latency_us (R:=R) l key).
Proof.
  intros Hlv Hok. split; [apply sample_latency_le_max_raw, Hlv|by apply sample_latency_ge_base].
Qed.
End LatencyProperties.

Section LatencyBounds.
Context {R : Type} `{Rng R} `{Libm}.

(** Whatever the generator and the mathematical functions return, infinite
    and NaN samples included, the sampled latency is a word and at most
    [max_us]. *)
Theorem sample_latency_le_max l key :
  is_u64 (max_us l) ->
  0 <= sample_latency_us (R:=R) l key <= max_us l.
Proof. apply sample_latency_le_max_raw. Qed.

(** A total that is NaN is served as the maximum, not as zero. *)
Lemma clamp_latency_nan mx :
  0 <= mx <= 2 ^ 53 -> clamp_latency S754_nan mx = mx.
Proof.
  intros Hm. unfold clamp_latency. cbn [f64_min is_nan].
  pose proof (f64_of_Z_mono 0 mx ltac:(lia) ltac:(lia) ltac:(lia)) as Hz0.
  change (f64_of_Z 0) with f64_zero in Hz0.
  change (f64_min S754_nan (f64_of_Z mx)) with (f64_of_Z mx).
  rewrite f64_max_zero, f64_of_Z_roundtrip by done. lia.
Qed.

(** A profile with a zero median and no Pareto part is a fixed latency: every
    call waits exactly [base_us]. *)
Theorem sample_latency_fixed l key s :
  lognormal_median_us l = S754_zero s ->
  f64_gt (pareto_weight l) f64_zero = false ->
  0 <= base_us l <= 2 ^ 53 -> base_us l <= max_us l -> is_u64 (max_us l) ->
  sample_latency_us (R:=R) l key = base_us l.
Proof.
  intros Hmed Hw Hb Hle Hm. unfold is_u64 in Hm. unfold sample_latency_us.
  assert (Hbody : sample_body l (latency_rng key) = S754_zero s).
  { unfold sample_body. rewrite Hw. unfold sample_lognormal. rewrite Hmed. by destruct s. }
  rewrite Hbody.
  assert (Hadd : f64_add (f64_of_Z (base_us l)) (S754_zero s) = f64_of_Z (base_us l)).
  { destruct (Z.eq_dec (base_us l) 0) as [->|Hne]; [by destruct s|].
    pose proof (f64_of_Z_exact (base_us l) Hb) as Hs. pose proof (f64_of_Z_finite (base_us l) ltac:(lia)).
    destruct (f64_of_Z (base_us l)) as [s0|[]| |[] m e]; try done.
    change (scaled (S754_zero s0)) with 0 in Hs. pose proof (pow2_pos 1074 ltac:(lia)). nia. }
  rewrite Hadd. unfold clamp_latency.
  pose proof (f64_of_Z_mono (base_us l) (max_us l) ltac:(lia) ltac:(lia) Hle) as Hbm.
  pose proof (f64_of_Z_mono 0 (base_us l) ltac:(lia) ltac:(lia) ltac:(lia)) as Hz0.
  change (f64_of_Z 0) with f64_zero in Hz0.
  rewrite f64_min_le_eq, f64_max_zero by done.
  rewrite f64_of_Z_roundtrip by done. lia.
Qed.
End LatencyBounds.

(** ** Witnesses *)

(** A generator that always draws one half, and constant functions. *)
#[export] Instance half_rng : Rng unit := {| seed_from_u64 := fun _ => tt; random_f64 := fun r => (f64_half, r) |}.

#[export] Instance unit_libm : Libm :=
  {| f64_ln := fun _ => f64_one; f64_exp := fun _ => f64_one; f64_cos := fun _ => f64_one;
     f64_powf := fun _ _ => f64_one |}.

#[export] Instance half_rng_laws : RngLaws unit.
Proof. split; intros []; by vm_compute. Qed.

#[export] Instance unit_libm_laws : LibmLaws.
Proof. split; intros; by vm_compute. Qed.

Definition read_key : SampleKey :=
  {| key_seed := 42; key_op := Read; key_ino := 100; key_offset := 0; key_len := 4096; key_seq := 0 |}.

(** A rule that never fires, one for writes, and one that always does. *)
Definition three_rules : list FaultRule :=
  [{| rule_op := Read; rule_errno := EINTR; rule_rate := f64_zero |};
   {| rule_op := Write; rule_errno := ENOSPC; rule_rate := f64_one |};
   {| rule_op := Read; rule_errno := EIO; rule_rate := f64_one |}].

Lemma sample_fault_rates_witness :
  is_Some (sample_fault (R := unit) three_rules read_key) /\ sample_fault (R := unit) [] read_key = None.
Proof.
  split.
  - apply (proj1 (proj2 (sample_fault_rates (R := unit) three_rules read_key))).
    do 2 right. left. by vm_compute.
  - by apply (proj2 (proj2 (sample_fault_rates (R := unit) [] read_key))).
Defined.

Lemma default_latency_valid : latency_valid default_LatencyProfile.
Proof. split_and!; [|by vm_compute..]. repeat constructor; by vm_compute. Qed.

Lemma default_latency_ok : latency_ok default_LatencyProfile.
Proof. split_and!; [repeat constructor; by vm_compute|..]; by vm_compute. Qed.

(** A base of 250 microseconds under the default body and a tail. *)
Definition based_profile : LatencyProfile :=
  {| base_us := 250; lognormal_median_us := default_lognormal_median; lognormal_sigma := default_lognormal_sigma;
     pareto_weight := f64_half; pareto_xm_us := default_pareto_xm; pareto_alpha := default_pareto_alpha;
     max_us := 1000000 |}.

Lemma sample_latency_bounds_witness :
  250 <= sample_latency_us (R := unit) based_profile read_key <= 1000000.
Proof.
  destruct (sample_latency_bounds (R := unit) based_profile read_key) as [[_ Hmax] Hbase].
  - split_and!; [|by vm_compute..]. repeat constructor; by vm_compute.
  - split_and!; [repeat constructor; by vm_compute|..]; by vm_compute.
  - split; [apply Hbase|exact Hmax]; by vm_compute.
Defined.

Lemma sample_latency_le_max_witness :
  0 <= sample_latency_us (R := unit) default_LatencyProfile read_key <= max_us default_LatencyProfile.
Proof. apply (sample_latency_le_max (R := unit)). by vm_compute. Defined.

(** 250 microseconds, no body. *)
Definition fixed_250 : LatencyProfile :=
  {| base_us := 250; lognormal_median_us := f64_zero; lognormal_sigma := f64_half; pareto_weight := f64_zero;
     pareto_xm_us := f64_one; pareto_alpha := f64_one; max_us := 1000 |}.

Lemma sample_latency_fixed_witness : sample_latency_us (R := unit) fixed_250 read_key = 250.
Proof. apply (sample_latency_fixed (R := unit) fixed_250 read_key false); by vm_compute. Defined.
