(* ===== verification/ParetoTail.v ===== *)
(** * The Pareto tail

    [sample_pareto] of [fusecraft-core/src/sampler/latency.rs] draws
    [xm / u^(1/alpha)]: in exact arithmetic at least [xm]. This file shows it
    of the rounded quotient, hence of the latencies of a profile that always
    draws from the tail. *)

From stdpp Require Import base numbers list strings.
From Stdlib Require Import ZArith Lia Bool.

From S2P Require Import Prelude Word Float Rounding Binary64 RoundingError Op Config SampleKey Sampler.

Local Open Scope Z_scope.

(** ** Rounding does not fall below a number *)

Lemma shr_fexp_nonneg m e l : 0 <= m -> 0 <= shr_m (shr_fexp 53 1024 m e l).1.
Proof.
  intros Hm. unfold shr_fexp. assert (E0 : shr_m (shr_record_of_loc m l) = m) by (destruct l as [|[]]; done).
  destruct (_ - e) as [|p|p]; cbn [shr fst]; rewrite ?E0; try done.
  rewrite iter_pos_nat, shr_iter_m, E0 by (by rewrite E0). apply Z.div_pos; [done|]. apply pow2_pos. lia.
Qed.

(** The rounding of a fraction without a sign is a finite number or infinity. *)
Lemma round_aux_positive m e l :
  0 <= m -> let r := binary_round_aux 53 1024 false m e l in is_finite r = true \/ r = f64_infinity.
Proof.
  intros Hm. cbn zeta. unfold binary_round_aux. pose proof (shr_fexp_nonneg m e l Hm) as H1.
  destruct (shr_fexp 53 1024 m e l) as [mrs e']. cbn [fst] in H1.
  pose proof (round_nearest_even_bounds (shr_m mrs) (loc_of_shr_record mrs)) as H2.
  pose proof (shr_fexp_nonneg (round_nearest_even (shr_m mrs) (loc_of_shr_record mrs)) e' loc_Exact ltac:(lia)) as H3.
  destruct (shr_fexp 53 1024 (round_nearest_even _ _) e' loc_Exact) as [mrs' e'']. cbn [fst] in H3.
  destruct (shr_m mrs'); [by left| |lia]. case_match; [by left|by right].
Qed.

(** A fraction that is at least [c * 2^j] units, [c] of at most 53 bits, is not
    rounded below it. *)
Lemma round_aux_ge m e l N D c j :
  0 <= m -> 0 < D -> -2148 <= e -> e <= fexp 53 1024 (Zdigits2 m + e) ->
  stands_for (shr_record_of_loc m l) N D ->
  0 <= c < 2 ^ 53 -> 0 <= j -> c * 2 ^ j * D * 2 ^ 1074 <= N * 2 ^ (e + 2148) ->
  is_finite (binary_round_aux 53 1024 false m e l) = true ->
  c * 2 ^ j <= scaled (binary_round_aux 53 1024 false m e l).
Proof.
  intros Hm HD He Hfe Hs Hc Hj HN. unfold binary_round_aux.
  destruct (round_aux_first_pass m e l N D Hm HD Hfe Hs) as (mrs & e' & -> & Hee & He' & Hq & Hn & Herr).
  set (q := round_nearest_even (shr_m mrs) (loc_of_shr_record mrs)) in *.
  intros Hf. rewrite (renormalise_scaled false q e' Hq He') by (done || (intros; by apply Hn)). cbn [cond_Zopp].
  destruct (Z.le_gt_cases (e' + 1074) j) as [Hle|Hgt].
  - assert (Ej : 2 ^ j = 2 ^ (j - (e' + 1074)) * 2 ^ (e' + 1074)) by (rewrite <- Z.pow_add_r by lia; f_equal; lia).
    assert (E1 : 2 ^ (e' + 1074) * 2 ^ 1074 = 2 ^ (e' - e) * 2 ^ (e + 2148)) by (rewrite <- !Z.pow_add_r by lia; f_equal; lia).
    pose proof (pow2_pos (e + 2148) ltac:(lia)) as HP. pose proof (pow2_pos (e' - e) ltac:(lia)) as HX.
    pose proof (pow2_pos (e' + 1074) ltac:(lia)) as HY.
    set (X := 2 ^ (e' - e)) in *. set (P := 2 ^ (e + 2148)) in *. set (Y := 2 ^ (e' + 1074)) in *.
    set (c' := c * 2 ^ (j - (e' + 1074))) in *.
    assert (HcN : c' * (D * X) <= N).
    { apply (Z.mul_le_mono_pos_r _ _ P); [done|].
      replace (c' * (D * X) * P) with (c * 2 ^ j * D * 2 ^ 1074); [done|]. rewrite Ej. unfold c'. nia. }
    assert (Hqc : c' <= q) by nia.
    rewrite Ej. unfold c' in Hqc. nia.
  - destruct Hn as [Hn _]; [lia|].
    assert (Ej : 2 ^ (e' + 1074) = 2 ^ (e' + 1074 - (j + 1)) * (2 * 2 ^ j)).
    { rewrite <- (Z.pow_succ_r 2 j), <- Z.pow_add_r by lia. f_equal. lia. }
    pose proof (pow2_pos (e' + 1074 - (j + 1)) ltac:(lia)). pose proof (pow2_pos j ltac:(lia)).
    rewrite Ej. nia.
Qed.

(** Dividing by a number in (0, 1] does not lower a number. *)
Lemma f64_div_ge x p :
  valid x -> valid p -> is_finite x = true -> not_neg x = true -> 0 < scaled p <= 2 ^ 1074 ->
  f64_le x (f64_div x p) = true.
Proof.
  intros Hx Hp Hfx Hnn [Hpos Hone].
  destruct x as [s1|[]| |[] m1 e1], p as [[]|[]| |[] m2 e2]; try done; try (by destruct s1);
    [cbn [scaled cond_Zopp] in Hpos; nia|].
  unfold f64_div, SFdiv. destruct (div_core_spec m1 m2 e1 e2) as (q & r & e' & E & Ee & Hq & Hr & Em & He).
  pose proof (f64_div_valid _ _ Hx Hp) as Hv. unfold f64_div, SFdiv in Hv. rewrite E in Hv |- *. cbn [xorb] in *.
  destruct (round_aux_positive q e' (new_location (Zpos m2) r) Hq) as [Hf| ->]; [|done].
  rewrite f64_le_scaled by done. apply Z.leb_le. rewrite scaled_finite. cbn [cond_Zopp].
  pose proof (valid_finite_bounds _ _ _ Hx) as (Hm1 & He1 & _).
  pose proof (valid_finite_bounds _ _ _ Hp) as (Hm2 & He2 & _).
  assert (Hlo : -2148 <= e') by (rewrite Ee, fexp_eq; lia).
  apply (round_aux_ge q e' _ (q * Zpos m2 + r) (Zpos m2)); try done; try lia; [by apply stands_for_quotient|].
  rewrite Em. rewrite scaled_finite in Hone. cbn [cond_Zopp] in Hone.
  apply (Z.mul_le_mono_pos_r _ _ (2 ^ (e2 + 1074))); [apply pow2_pos; lia|].
  assert (E2 : 2 ^ (e1 - e2 - e') * 2 ^ (e' + 2148) * 2 ^ (e2 + 1074) = 2 ^ (e1 + 1074) * 2 ^ 1074 * 2 ^ 1074).
  { rewrite <- !Z.pow_add_r by lia. f_equal. lia. }
  pose proof (pow2_pos (e1 + 1074) ltac:(lia)) as HA. pose proof (pow2_pos 1074 ltac:(lia)) as HB.
  set (A := 2 ^ (e1 + 1074)) in *. set (B := 2 ^ 1074) in *. set (C := 2 ^ (e2 + 1074)) in *.
  replace (Zpos m1 * 2 ^ (e1 - e2 - e') * 2 ^ (e' + 2148) * C) with (Zpos m1 * (A * B * B)) by (rewrite <- E2; lia).
  replace (Zpos m1 * A * Zpos m2 * B * C) with (Zpos m1 * A * B * (Zpos m2 * C)) by lia.
  replace (Zpos m1 * (A * B * B)) with (Zpos m1 * A * B * B) by lia. apply Z.mul_le_mono_nonneg_l; nia.
Qed.

(** Nor does adding to it. *)
Lemma f64_add_ge_r b x y :
  valid x -> valid y -> valid b -> is_finite x = true -> is_finite b = true ->
  f64_le f64_zero x = true -> f64_le b y = true -> f64_le b (f64_add x y) = true.
Proof.
  intros Hvx Hvy Hvb Hfx Hfb Hx Hb. destruct (is_finite y) eqn:Hfy.
  - rewrite f64_le_scaled in Hx, Hb by done. apply Z.leb_le in Hx, Hb. change (scaled f64_zero) with 0 in Hx.
    destruct (f64_add_correct x y Hvx Hvy Hfx Hfy) as (Hv & Hfin & Hinf).
    destruct (scaled_representable b Hvb Hfb) as [HRb Hob].
    pose proof (roundZ_mono (scaled b) (scaled x + scaled y) ltac:(lia)) as Hmono.
    destruct (Z.lt_ge_cases (Z.abs (roundZ (scaled x + scaled y))) OVERFLOW) as [H|H].
    + destruct (Hfin H) as [Hf Hs]. rewrite f64_le_scaled by done. rewrite Hs. apply Z.leb_le. lia.
    + rewrite (Hinf H). destruct (Z.ltb_spec (scaled x + scaled y) 0) as [Hlt|]; [exfalso|by destruct b as [[]|[]| |[] ? ?]].
      pose proof (roundZ_mono _ 0 (Z.lt_le_incl _ _ Hlt)) as H0. change (roundZ 0) with 0 in H0. lia.
  - destruct y as [[]|[]| |[] m e], x as [[]|[]| |[] m' e'], b as [[]|[]| |[] m'' e'']; try done.
Qed.

(** *** Signs *)

Lemma binary_round_aux_neg s m e l :
  binary_round_aux 53 1024 (negb s) m e l = f64_neg (binary_round_aux 53 1024 s m e l).
Proof. unfold binary_round_aux. repeat case_match; simplify_eq; done. Qed.

Lemma f64_div_neg x y : f64_div (f64_neg x) y = f64_neg (f64_div x y).
Proof.
  destruct x as [[]|[]| |[] m e], y as [[]|[]| |[] m' e']; try done; unfold f64_div, SFdiv, f64_neg at 1; cbn [SFopp xorb negb];
    destruct (SFdiv_core_binary _ _ _ _ _ _) as [[q e''] l];
    (exact (binary_round_aux_neg false q e'' l) || exact (binary_round_aux_neg true q e'' l)).
Qed.

Lemma f64_le_neg x y : f64_le (f64_neg x) (f64_neg y) = f64_le y x.
Proof.
  destruct x as [[]|[]| |[] m e], y as [[]|[]| |[] m' e']; try done; unfold f64_le, SFleb, f64_neg; cbn [SFopp negb SFcompare];
    rewrite (Z.compare_antisym e e'); destruct (Z.compare e e'); cbn [CompOpp]; try done;
    change (Pos.compare_cont Eq m m') with (Pos.compare m m'); change (Pos.compare_cont Eq m' m) with (Pos.compare m' m);
    rewrite (Pos.compare_antisym m m'); by destruct (Pos.compare m m').
Qed.

(** A sum with a number that is at most the opposite is not positive. *)
Lemma f64_add_le_zero b y :
  valid b -> valid y -> is_finite b = true -> f64_le y (f64_neg b) = true -> f64_le (f64_add b y) f64_zero = true.
Proof.
  intros Hvb Hvy Hfb Hle. destruct (is_finite y) eqn:Hfy.
  - rewrite f64_le_scaled, scaled_neg in Hle by (rewrite ?is_finite_neg; (done || by apply valid_neg)). apply Z.leb_le in Hle.
    destruct (f64_add_correct b y Hvb Hvy Hfb Hfy) as (Hvs & Hfin & Hinf).
    pose proof (roundZ_mono (scaled b + scaled y) 0 ltac:(lia)) as Hmono. change (roundZ 0) with 0 in Hmono.
    destruct (Z.lt_ge_cases (Z.abs (roundZ (scaled b + scaled y))) OVERFLOW) as [Hs|Hs].
    + destruct (Hfin Hs) as [Hf E]. rewrite f64_le_scaled by done. rewrite E. apply Z.leb_le. exact Hmono.
    + rewrite (Hinf Hs). destruct (Z.ltb_spec (scaled b + scaled y) 0) as [|Hge]; [done|].
      replace (scaled b + scaled y) with 0 in Hs by lia. change (roundZ 0) with 0 in Hs. unfold OVERFLOW in Hs. lia.
  - destruct y as [[]|[]| |[] m e], b as [[]|[]| |[] m' e']; done.
Qed.

(** The clamp takes a total that is not positive to zero. *)
Lemma clamp_latency_zero total mx : f64_le total f64_zero = true -> is_u64 mx -> clamp_latency total mx = 0.
Proof.
  intros Hle Hm. unfold is_u64 in Hm. unfold clamp_latency.
  rewrite f64_min_le_eq by (eapply f64_le_trans; [exact Hle|apply (f64_of_Z_mono 0); lia]).
  assert (E : f64_to_u64 (f64_round (f64_max total f64_zero)) = 0) by (by destruct total as [[]|[]| |[] m e]).
  rewrite E. lia.
Qed.

(** ** The draw *)

(** [powf] of a number in (0, 1] with an exponent that is not negative. *)
Class PowLaws `{Libm} : Prop := {
  powf_le_one x y : f64_lt f64_zero x = true -> f64_le x f64_one = true -> f64_le f64_zero y = true ->
    f64_le (f64_powf x y) f64_one = true
}.

#[export] Instance unit_pow_laws : PowLaws.
Proof. by split. Qed.

Section Tail.
Context {R : Type} `{RngLaws R} `{LibmLaws} `{!PowLaws}.

Lemma pareto_uniform (r : f64) : f64_lt r f64_one = true -> f64_le (f64_max r F64_MIN_POSITIVE) f64_one = true.
Proof. intros Hr. unfold f64_max. repeat case_match; try (by apply f64_lt_le); by vm_compute. Qed.

Lemma inverse_nonneg alpha :
  is_finite alpha = true -> f64_lt f64_zero alpha = true -> f64_le f64_zero (f64_div f64_one alpha) = true.
Proof.
  intros Haf Ha. pose proof (f64_div_not_neg f64_one alpha eq_refl Ha) as Hn.
  assert (Hshape : is_nan (f64_div f64_one alpha) = false).
  { destruct alpha as [[]|[]| |[] m e]; try done.
    change f64_one with (S754_finite false (2 ^ 52) (-52)). unfold f64_div, SFdiv.
    destruct (div_core_spec (2 ^ 52) m (-52) e) as (q & r & e' & -> & _ & Hq & _). cbn [xorb].
    destruct (round_aux_positive q e' (new_location (Zpos m) r) Hq) as [Hf| ->]; [|done]. by apply is_finite_not_nan. }
  destruct (f64_div f64_one alpha) as [[]|[]| |[] m e]; done.
Qed.

(** A draw is at least the scale of the distribution. *)
Lemma sample_pareto_ge (rng : R) xm alpha :
  valid xm -> is_finite xm = true -> f64_lt f64_zero xm = true ->
  is_finite alpha = true -> f64_lt f64_zero alpha = true ->
  f64_le xm (sample_pareto rng xm alpha).1 = true.
Proof.
  intros Hxv Hxf Hx Haf Ha. unfold sample_pareto. pose proof (random_lt_one rng) as Hu.
  destruct (random_f64 rng) as [r rng']. cbn [fst] in *.
  set (u := f64_max r F64_MIN_POSITIVE). assert (Hupos : f64_lt f64_zero u = true) by apply max_min_positive.
  pose proof (powf_le_one u (f64_div f64_one alpha) Hupos (pareto_uniform r Hu) (inverse_nonneg alpha Haf Ha)) as Hle.
  pose proof (powf_positive u (f64_div f64_one alpha) Hupos) as Hsign.
  pose proof (powf_valid u (f64_div f64_one alpha)) as Hv.
  destruct (f64_powf u (f64_div f64_one alpha)) as [[]|[]| |[] m e] eqn:E; try done.
  - by destruct xm as [[]|[]| |[] mx ex].
  - rewrite f64_le_scaled in Hle by done. apply Z.leb_le in Hle. change (scaled f64_one) with (2 ^ 1074) in Hle.
    apply f64_div_ge; try done; [unfold not_neg; by rewrite (f64_le_lt_false _ _ (f64_lt_le _ _ Hx))|].
    split; [|exact Hle]. rewrite scaled_finite. cbn [cond_Zopp].
    pose proof (valid_finite_bounds _ _ _ Hv) as (_ & He & _). pose proof (pow2_pos (e + 1074) ltac:(lia)). nia.
Qed.

(** A draw with a negative scale is at most the scale. *)
Lemma sample_pareto_le (rng : R) xm alpha :
  valid xm -> is_finite xm = true -> f64_lt xm f64_zero = true ->
  is_finite alpha = true -> f64_lt f64_zero alpha = true ->
  f64_le (sample_pareto rng xm alpha).1 xm = true.
Proof.
  intros Hxv Hxf Hx Haf Ha.
  assert (Hpos : f64_lt f64_zero (f64_neg xm) = true) by (by destruct xm as [[]|[]| |[] m e]).
  pose proof (sample_pareto_ge rng (f64_neg xm) alpha (valid_neg _ Hxv) ltac:(by rewrite is_finite_neg) Hpos Haf Ha) as Hge.
  unfold sample_pareto in *. destruct (random_f64 rng) as [r rng']. cbn [fst] in *.
  by rewrite f64_div_neg, f64_le_neg in Hge.
Qed.

(** ** Properties *)

(** A profile that always draws from the tail: whatever the generator, every
    latency is at least the scale of the Pareto distribution, in whole
    microseconds, or [max_us] where that is less. *)
Theorem pareto_latency_floor l key n :
  latency_valid l -> latency_ok l -> pareto_weight l = f64_one -> f64_lt f64_zero (pareto_xm_us l) = true ->
  0 <= n <= 2 ^ 53 -> f64_le (f64_of_Z n) (pareto_xm_us l) = true ->
  Z.min n (max_us l) <= sample_latency_us (R := R) l key.
Proof.
  intros (HF & Hb & Hm) (Hfin & _ & _ & Halpha & _) Hw Hx Hn Hxn.
  unfold latency_floats in HF, Hfin. rewrite !Forall_cons in HF. rewrite !Forall_cons in Hfin.
  cbn [snd] in HF, Hfin.
  destruct HF as (_ & _ & _ & Hxv & Hav & _), Hfin as (_ & _ & _ & Hxf & Haf & _).
  unfold sample_latency_us, sample_body. rewrite Hw. change (f64_gt f64_one f64_zero) with true. cbv iota.
  pose proof (random_lt_one (latency_rng key : R)) as Hu.
  destruct (random_f64 (latency_rng key)) as [u rng]. cbn [fst] in Hu. rewrite Hu.
  pose proof (sample_pareto_ge rng _ _ Hxv Hxf Hx Haf (Halpha ltac:(by rewrite Hw))) as Hge.
  assert (Hxn' : not_neg (pareto_xm_us l) = true) by (unfold not_neg; by rewrite (f64_le_lt_false _ _ (f64_lt_le _ _ Hx))).
  pose proof (proj1 (sample_pareto_body rng _ (pareto_alpha l) Hxv Hxn')) as Hbv.
  set (body := (sample_pareto rng (pareto_xm_us l) (pareto_alpha l)).1) in *.
  unfold is_u64 in Hb, Hm. apply clamp_latency_ge; [lia|lia|done|apply f64_add_valid; [apply f64_of_Z_valid; lia|done]|].
  left. apply f64_add_ge_r; [apply f64_of_Z_valid; lia|done|apply f64_of_Z_valid; lia|apply f64_of_Z_finite; lia..| |].
  - by apply (f64_of_Z_mono 0); lia.
  - eapply f64_le_trans; [apply (f64_of_Z_mono _ n); lia|]. by eapply f64_le_trans.
Qed.

(** C38: The tail can cancel the base: a profile that validation accepts, that
    always draws from the tail and whose Pareto scale is the opposite of its
    base or less has latency zero, whatever the generator and the key. *)
Theorem negative_tail_undercuts l key :
  latency_valid l -> latency_ok l -> pareto_weight l = f64_one -> 0 < base_us l ->
  f64_le (pareto_xm_us l) (f64_neg (f64_of_Z (base_us l))) = true ->
  sample_latency_us (R := R) l key = 0 /\ 0 < base_us l.
Proof.
  intros (HF & Hb & Hm) (Hfin & _ & _ & Halpha & _) Hw Hpos Hx. split; [|exact Hpos].
  unfold latency_floats in HF, Hfin. rewrite !Forall_cons in HF. rewrite !Forall_cons in Hfin.
  cbn [snd] in HF, Hfin.
  destruct HF as (_ & _ & _ & Hxv & Hav & _), Hfin as (_ & _ & _ & Hxf & Haf & _). unfold is_u64 in Hb.
  assert (Hneg : f64_lt (pareto_xm_us l) f64_zero = true).
  { eapply f64_le_lt_trans; [exact Hx|]. pose proof (f64_of_Z_mono 1 (base_us l) ltac:(lia) ltac:(lia) ltac:(lia)) as Hone.
    destruct (f64_of_Z (base_us l)) as [[]|[]| |[] m e]; done. }
  unfold sample_latency_us, sample_body. rewrite Hw. change (f64_gt f64_one f64_zero) with true. cbv iota.
  pose proof (random_lt_one (latency_rng key : R)) as Hu.
  destruct (random_f64 (latency_rng key)) as [u rng]. cbn [fst] in Hu. rewrite Hu.
  pose proof (sample_pareto_le rng _ _ Hxv Hxf Hneg Haf (Halpha ltac:(by rewrite Hw))) as Hle.
  apply clamp_latency_zero; [|exact Hm]. apply f64_add_le_zero; [apply f64_of_Z_valid; lia| |apply f64_of_Z_finite; lia|].
  - unfold sample_pareto. destruct (random_f64 rng). apply f64_div_valid; [done|apply powf_valid].
  - by eapply f64_le_trans.
Qed.
End Tail.

(** ** Witnesses *)

(** The profile of the test [pareto_tail_fires]. *)
Definition tail_profile : LatencyProfile :=
  {| base_us := 0; lognormal_median_us := f64_one; lognormal_sigma := f64_div f64_one (f64_of_Z 100);
     pareto_weight := f64_one; pareto_xm_us := f64_of_Z 1000; pareto_alpha := f64_one_and_half; max_us := 10000000 |}.

Lemma tail_profile_valid : latency_valid tail_profile.
Proof. split_and!; [|by vm_compute..]. repeat constructor; by vm_compute. Qed.

Lemma tail_profile_ok : latency_ok tail_profile.
Proof. split_and!; [repeat constructor; by vm_compute|..]; by vm_compute. Qed.

Lemma pareto_latency_floor_witness : 1000 <= sample_latency_us (R := unit) tail_profile read_key.
Proof.
  exact (pareto_latency_floor (R := unit) tail_profile read_key 1000 tail_profile_valid tail_profile_ok eq_refl
    ltac:(by vm_compute) ltac:(lia) ltac:(by vm_compute)).
Defined.

(** A base of 100 microseconds under a tail of scale -1000. *)
Definition undercut_profile : LatencyProfile :=
  {| base_us := 100; lognormal_median_us := f64_one; lognormal_sigma := f64_one; pareto_weight := f64_one;
     pareto_xm_us := f64_neg (f64_of_Z 1000); pareto_alpha := f64_one; max_us := 1000000 |}.

Lemma negative_tail_undercuts_witness :
  validate_latency (fun _ => "") undercut_profile "ops.read.latency" = Ok tt /\
  sample_latency_us (R := unit) undercut_profile read_key = 0.
Proof.
  split; [by vm_compute|]. apply (negative_tail_undercuts (R := unit) undercut_profile read_key).
  - split_and!; [|by vm_compute..]. repeat constructor; by vm_compute.
  - split_and!; [repeat constructor; by vm_compute|..]; by vm_compute.
  - reflexivity.
  - reflexivity.
  - by vm_compute.
Defined.
