(* ===== verification/Content.v ===== *)
(** * Synthetic file content

    [fusecraft-core/src/content/mod.rs] and [deterministic.rs]: the content
    trait with its contract as a class, and the seeded content model. Bytes are
    [Z] from 0 to 255; a buffer [dst: &mut [u8]] is a list that the operation
    returns in its new state. *)

From stdpp Require Import base list numbers.
From Stdlib Require Import ZArith Lia.

From S2P Require Import Prelude Word Op.

Local Open Scope Z_scope.

Definition is_byte (b : Z) : Prop := 0 <= b < 256.

(** ** The trait *)

Class ContentModel (C : Type) : Type := {
  file_len : C -> Z -> Z;
  read_at : C -> Z -> Z -> list Z -> list Z;
  write_at : C -> Z -> Z -> list Z -> result Z FsError
}.

(** What the trait's documentation demands: every byte of [dst] is filled, so
    the old content of the buffer never shows through and its length stays. *)
Class ContentModelLaws (C : Type) `{ContentModel C} : Prop := {
  read_at_length : forall c ino offset dst,
    length (read_at c ino offset dst) = length dst;
  read_at_fills : forall c ino offset dst dst',
    length dst = length dst' -> read_at c ino offset dst = read_at c ino offset dst'
}.

(** ** [deterministic.rs] *)

(** The Murmur-style finalizer, before the cast to a byte. *)
Definition synth_finalize (x : Z) : Z :=
  let x := xorshift x 33 in
  let x := wrapping_mul x 0xff51afd7ed558ccd in
  let x := xorshift x 33 in
  let x := wrapping_mul x 0xc4ceb9fe1a85ec53 in
  xorshift x 33.

Definition synth_fields (ino offset seed : Z) : Z :=
  Z.lxor (Z.lxor seed (rotate_left ino 17)) (rotate_left offset 31).

Definition synth_byte (ino offset seed : Z) : Z :=
  wrap8 (synth_finalize (synth_fields ino offset seed)).

Module DeterministicContent.
Record t : Type := { seed : Z; det_file_len : Z }.

Definition new (seed file_len : Z) : t := {| seed := seed; det_file_len := file_len |}.

Definition file_len (self : t) (_ino : Z) : Z := det_file_len self.

(** [dst.iter_mut().enumerate()], overwriting each byte. *)
Definition read_at (self : t) (ino offset : Z) (dst : list Z) : list Z :=
  imap (fun i _ => synth_byte ino (wrapping_add offset (wrap64 (Z.of_nat i))) (seed self)) dst.

(** Writes are acknowledged and dropped. *)
Definition write_at (self : t) (_ino _offset : Z) (data : list Z) : result Z FsError :=
  Ok (Z.of_nat (length data)).
End DeterministicContent.

#[export] Instance deterministic_content : ContentModel DeterministicContent.t := {|
  file_len := DeterministicContent.file_len;
  read_at := DeterministicContent.read_at;
  write_at := DeterministicContent.write_at
|}.

(** ** Facts *)

Lemma wrapping_add_assoc_l a b c : wrapping_add (wrapping_add a b) c = wrapping_add a (b + c).
Proof. unfold wrapping_add, wrap64. rewrite Z.add_mod_idemp_l by lia. f_equal. lia. Qed.

Lemma wrapping_add_wrap64_r a b : wrapping_add a (wrap64 b) = wrapping_add a b.
Proof. unfold wrapping_add, wrap64. by rewrite Z.add_mod_idemp_r. Qed.

Lemma wrapping_add_0_r a : is_u64 a -> wrapping_add a 0 = a.
Proof. intros. unfold wrapping_add. rewrite Z.add_0_r. by apply wrap64_small. Qed.

Lemma synth_byte_byte ino offset seed : is_byte (synth_byte ino offset seed).
Proof. unfold is_byte, synth_byte, wrap8. change 256 with (2 ^ 8). apply Z.mod_pos_bound. lia. Qed.

Section DeterministicFacts.
Implicit Type c : DeterministicContent.t.

(** Byte [i] of a read is the content's byte at [offset + i]. *)
Lemma det_read_lookup c ino offset dst i :
  (i < length dst)%nat ->
  DeterministicContent.read_at c ino offset dst !! i =
  Some (synth_byte ino (wrapping_add offset (Z.of_nat i)) (DeterministicContent.seed c)).
Proof.
  intros Hi. unfold DeterministicContent.read_at. rewrite list_lookup_imap.
  destruct (lookup_lt_is_Some_2 dst i Hi) as [x ->]. cbn. by rewrite wrapping_add_wrap64_r.
Qed.

Lemma det_read_length c ino offset dst :
  length (DeterministicContent.read_at c ino offset dst) = length dst.
Proof. apply length_imap. Qed.

Lemma det_read_app c ino offset d1 d2 :
  DeterministicContent.read_at c ino offset (d1 ++ d2) =
  DeterministicContent.read_at c ino offset d1 ++
  DeterministicContent.read_at c ino (wrapping_add offset (Z.of_nat (length d1))) d2.
Proof.
  unfold DeterministicContent.read_at. rewrite imap_app. f_equal. apply imap_ext.
  intros i x _. cbn. rewrite !wrapping_add_wrap64_r, wrapping_add_assoc_l. do 2 f_equal. lia.
Qed.

Lemma det_read_fills c ino offset dst dst' :
  length dst = length dst' ->
  DeterministicContent.read_at c ino offset dst = DeterministicContent.read_at c ino offset dst'.
Proof.
  intros Hl. apply list_eq. intros i. destruct (Nat.lt_ge_cases i (length dst)) as [Hi|Hi].
  - by rewrite !det_read_lookup by lia.
  - by rewrite !lookup_ge_None_2 by (rewrite det_read_length; lia).
Qed.
End DeterministicFacts.

#[export] Instance deterministic_laws : ContentModelLaws DeterministicContent.t.
Proof.
  split; intros; cbn in *; [apply det_read_length|by apply det_read_fills].
Qed.

(** A long read is the concatenation of the short reads that cover it, so the
    kernel may split a request anywhere. *)
Fixpoint read_chunks {C} `{ContentModel C} (c : C) (ino offset : Z) (chunks : list (list Z)) : list Z :=
  match chunks with
  | [] => []
  | d :: ds =>
      read_at c ino offset d ++
      read_chunks c ino (wrapping_add offset (Z.of_nat (length d))) ds
  end.

Lemma det_read_chunks (c : DeterministicContent.t) ino offset chunks :
  read_chunks c ino offset chunks = read_at c ino offset (concat chunks).
Proof.
  revert offset. induction chunks as [|d ds IH]; intros offset; [done|].
  cbn [read_chunks concat]. rewrite IH. symmetry. apply det_read_app.
Qed.

(** ** Which inputs share a byte *)

Lemma rotate_left_lxor k x y :
  0 <= k < 64 -> is_u64 x -> is_u64 y ->
  rotate_left (Z.lxor x y) k = Z.lxor (rotate_left x k) (rotate_left y k).
Proof.
  intros Hk Hx Hy. apply u64_bits_inj; [u64..|]. intros i Hi.
  rewrite Z.lxor_spec, !rotate_left_bits by (u64 || done). by rewrite Z.lxor_spec.
Qed.

Lemma synth_finalize_inj x y : is_u64 x -> is_u64 y -> synth_finalize x = synth_finalize y -> x = y.
Proof.
  intros Hx Hy H. unfold synth_finalize in H.
  apply xorshift_inj in H; [|lia|apply wrapping_mul_u64..].
  apply (wrapping_mul_inj _ 0x9cb4b2f8129337db) in H; [|reflexivity|u64..].
  apply xorshift_inj in H; [|lia|apply wrapping_mul_u64..].
  apply (wrapping_mul_inj _ 0x4f74430c22a54005) in H; [|reflexivity|u64..].
  by apply xorshift_inj in H; [|lia|..].
Qed.

(** Inode and offset enter 14 bits apart: moving [d] from one to the other
    leaves the mixed word, hence the byte, unchanged. *)
Lemma synth_fields_trade ino offset seed d :
  is_u64 ino -> is_u64 offset -> 0 <= d < 2 ^ 50 ->
  synth_fields (Z.lxor ino (Z.shiftl d 14)) (Z.lxor offset d) seed = synth_fields ino offset seed.
Proof.
  intros Hi Ho Hd.
  assert (Hd64 : is_u64 d) by (unfold is_u64; lia).
  assert (Hs64 : is_u64 (Z.shiftl d 14)) by (unfold is_u64; rewrite Z.shiftl_mul_pow2; lia).
  unfold synth_fields. rewrite !rotate_left_lxor by (done || lia).
  rewrite rotate_left_shiftl by lia. change ((14 + 17) mod 64) with 31.
  rewrite !Z.lxor_assoc. do 2 f_equal.
  rewrite (Z.lxor_comm (rotate_left offset 31)), <- Z.lxor_assoc.
  by rewrite Z.lxor_nilpotent, Z.lxor_0_l.
Qed.

(** ** Properties *)

(** A read of the deterministic content fills the whole buffer with the bytes
    of [(ino, offset + i, seed)], each a byte, whatever the buffer held, and
    reading in chunks of any sizes gives the same bytes as one read. *)
Theorem content_reads_consistent (c : DeterministicContent.t) ino offset dst chunks :
  (forall i, read_at c ino offset dst !! i =
     if decide (i < length dst)%nat
     then Some (synth_byte ino (wrapping_add offset (Z.of_nat i)) (DeterministicContent.seed c))
     else None) /\
  Forall is_byte (read_at c ino offset dst) /\
  read_chunks c ino offset chunks = read_at c ino offset (concat chunks).
Proof.
  split_and!; [| |apply det_read_chunks].
  - intros i. case_decide; [by apply det_read_lookup|].
    apply lookup_ge_None_2. cbn. rewrite det_read_length. lia.
  - apply Forall_lookup. intros i b Hb. cbn in Hb.
    assert (Hi : (i < length dst)%nat) by (apply lookup_lt_Some in Hb; by rewrite det_read_length in Hb).
    rewrite det_read_lookup in Hb by done. simplify_eq. apply synth_byte_byte.
Qed.

(** Two inodes 2^14 * d apart hold the same bytes, permuted by exclusive-or
    of the offset with [d]: the contents of different inodes are not
    independent. *)
Theorem content_inodes_correlated ino offset seed d :
  is_u64 ino -> is_u64 offset -> 0 <= d < 2 ^ 50 ->
  synth_byte (Z.lxor ino (Z.shiftl d 14)) (Z.lxor offset d) seed = synth_byte ino offset seed.
Proof. intros. unfold synth_byte. by rewrite synth_fields_trade. Qed.

(** ** Witness *)

(** File 16384 further on, with each pair of neighbouring bytes swapped. *)
Lemma content_inodes_correlated_witness : synth_byte 16484 7 42 = synth_byte 100 6 42.
Proof.
  refine (content_inodes_correlated 100 6 42 1 _ _ _); unfold is_u64; split; done.
Defined.
