(* ===== verification/Namespace.v ===== *)
(** * The virtual directory tree

    [fusecraft-core/src/namespace/mod.rs] (the traits [NamespaceModel] and
    [DirSink], with their contracts as classes) and [flat.rs]
    ([FlatObjectNamespace]). A sink is any type with a [push] that returns its
    new state. *)

From stdpp Require Import base list numbers gmap strings.
From Stdlib Require Import ZArith Lia.

From S2P Require Import Prelude Word Op Text Config.

Local Open Scope Z_scope.

(** ** [mod.rs] *)

Definition FUSE_ROOT_INO : Z := 1.

Inductive FileKind : Type :=
| Dir
| File.

#[export] Instance FileKind_eq_dec : EqDecision FileKind.
Proof. solve_decision. Defined.

(** A wall-clock reading, an input of the model. *)
Definition SystemTime : Type := Z.

Record FileAttrSpec : Type := {
  attr_ino : Z;
  attr_size : Z;
  attr_kind : FileKind;
  attr_mode : Z;
  attr_nlink : Z;
  attr_uid : Z;
  attr_gid : Z;
  attr_mtime : SystemTime
}.

(** [push(ino, offset, kind, name)]: [true] asks for more. *)
Class DirSink (S : Type) : Type := {
  push : S -> Z -> Z -> FileKind -> string -> bool * S
}.

Class NamespaceModel (N : Type) : Type := {
  lookup_child : N -> Z -> string -> option Z;
  attr : N -> Z -> option FileAttrSpec;
  readdir : forall {S} `{DirSink S}, N -> Z -> Z -> S -> result unit FsError * S
}.

(** ** What [readdir] promises

    A directory is a list of entries whose cookies increase from 1; reading it
    from a cookie offers the sink the entries after it until one is refused. *)

Record DirEntry : Type := {
  ent_ino : Z;
  ent_off : Z;
  ent_kind : FileKind;
  ent_name : string
}.

Fixpoint push_all {S} `{DirSink S} (sink : S) (es : list DirEntry) : S :=
  match es with
  | [] => sink
  | e :: es' =>
      let (more, sink') := push sink (ent_ino e) (ent_off e) (ent_kind e) (ent_name e) in
      if more then push_all sink' es' else sink'
  end.

Definition after (offset : Z) (es : list DirEntry) : list DirEntry :=
  filter (fun e => offset < ent_off e) es.

(** Cookies increase from [lo + 1]. *)
Fixpoint increasing (lo : Z) (es : list DirEntry) : Prop :=
  match es with
  | [] => True
  | e :: es' => lo < ent_off e /\ increasing (ent_off e) es'
  end.

Class NamespaceLaws (N : Type) `{NamespaceModel N} : Type := {
  ns_wf : N -> Prop;
  listing : N -> Z -> option (list DirEntry);
  lookup_has_attr : forall ns parent name ino,
    ns_wf ns -> lookup_child ns parent name = Some ino ->
    exists a, attr ns ino = Some a /\ attr_ino a = ino;
  listing_increasing : forall ns ino es,
    ns_wf ns -> listing ns ino = Some es -> increasing 0 es;
  readdir_listing : forall {S} `{DirSink S} ns ino offset (sink : S),
    ns_wf ns -> 0 <= offset ->
    readdir ns ino offset sink =
    match listing ns ino with
    | Some es => (Ok tt, push_all sink (after offset es))
    | None => (Err (Errno ENOTDIR), sink)
    end
}.

(** ** [flat.rs] *)

Definition MAX_FILES : Z := 1000000.

Module FlatObjectNamespace.
Record t : Type := {
  inode_count : Z;
  file_size_bytes : Z;
  uid : Z;
  gid : Z;
  ctime : SystemTime
}.

Definition OBJECTS_INO : Z := 2.
Definition FIRST_FILE_INO : Z := 100.

(** The credentials and the clock are inputs; the second component is what is
    written to the standard error. *)
Definition new (config : FilesConfig) (getuid getgid : Z) (now : SystemTime) : t * list string :=
  let count := Z.min (Config.inode_count config) (MAX_FILES - 1) in
  let warning :=
    if MAX_FILES <=? Config.inode_count config then
      ["fusecraft: inode_count (" +:+ show_u64 (Config.inode_count config)
       +:+ ") exceeds maximum " +:+ show_u64 (MAX_FILES - 1)
       +:+ "; clamping to " +:+ show_u64 count]
    else [] in
  ({| inode_count := count;
      file_size_bytes := Config.file_size_bytes config;
      uid := getuid; gid := getgid; ctime := now |}, warning).

Definition index_to_name (n : Z) : string := show_u64_06 n.

Definition ino_to_index (self : t) (ino : Z) : option Z :=
  match checked_sub ino FIRST_FILE_INO with
  | None => None
  | Some n => if n <? inode_count self then Some n else None
  end.

Definition parse_name (self : t) (name : string) : option Z :=
  match to_str name with
  | None => None
  | Some s =>
      if negb (Strings.String.length s =? 6)%nat || negb (forallb is_ascii_digit (list_ascii_of_string s))
      then None
      else
        match parse_u64 s with
        | None => None
        | Some n => if n <? inode_count self then Some n else None
        end
  end.

Definition dir_attr (self : t) (ino : Z) : FileAttrSpec :=
  {| attr_ino := ino; attr_size := 0; attr_kind := Dir; attr_mode := 493 (* 0o755 *);
     attr_nlink := 2; attr_uid := uid self; attr_gid := gid self; attr_mtime := ctime self |}.

Definition file_attr (self : t) (ino : Z) : FileAttrSpec :=
  {| attr_ino := ino; attr_size := file_size_bytes self; attr_kind := File; attr_mode := 420 (* 0o644 *);
     attr_nlink := 1; attr_uid := uid self; attr_gid := gid self; attr_mtime := ctime self |}.

Definition lookup (self : t) (parent : Z) (name : string) : option Z :=
  if parent =? FUSE_ROOT_INO then
    if bool_decide (name = "objects") then Some OBJECTS_INO else None
  else if parent =? OBJECTS_INO then
    option_map (fun n => FIRST_FILE_INO + n) (parse_name self name)
  else None.

Definition attr (self : t) (ino : Z) : option FileAttrSpec :=
  if ino =? FUSE_ROOT_INO then Some (dir_attr self FUSE_ROOT_INO)
  else if ino =? OBJECTS_INO then Some (dir_attr self OBJECTS_INO)
  else
    match ino_to_index self ino with
    | Some _ => Some (file_attr self ino)
    | None => None
    end.

Section Readdir.
Context {S : Type} `{DirSink S}.

Definition root_entries : list (Z * Z * FileKind * string) :=
  [(1, FUSE_ROOT_INO, Dir, "."); (2, FUSE_ROOT_INO, Dir, "..");
   (3, OBJECTS_INO, Dir, "objects")].

(** The loop of the root directory. *)
Fixpoint push_root (entries : list (Z * Z * FileKind * string)) (offset : Z) (sink : S) : S :=
  match entries with
  | [] => sink
  | (off, child_ino, kind, name) :: rest =>
      if off <=? offset then push_root rest offset sink
      else
        let (more, sink) := push sink child_ino off kind name in
        if more then push_root rest offset sink else sink
  end.

(** The loop [for n in start..inode_count], [fuel] iterations of it. *)
Fixpoint push_files (fuel : nat) (n : Z) (sink : S) : S :=
  match fuel with
  | O => sink
  | Datatypes.S fuel' =>
      let off := n + 3 in
      let name := index_to_name n in
      let (more, sink) := push sink (FIRST_FILE_INO + n) off File name in
      if more then push_files fuel' (n + 1) sink else sink
  end.

Definition push_rest (self : t) (offset : Z) (sink : S) : S :=
  let start := saturating_sub offset 2 in
  push_files (Z.to_nat (inode_count self - start)) start sink.

Definition readdir (self : t) (ino offset : Z) (sink : S) : result unit FsError * S :=
  if ino =? FUSE_ROOT_INO then (Ok tt, push_root root_entries offset sink)
  else if ino =? OBJECTS_INO then
    let (more, sink) :=
      if offset <? 1 then push sink OBJECTS_INO 1 Dir "." else (true, sink) in
    if negb more then (Ok tt, sink)
    else
      let (more, sink) :=
        if offset <? 2 then push sink FUSE_ROOT_INO 2 Dir ".." else (true, sink) in
      if negb more then (Ok tt, sink)
      else (Ok tt, push_rest self offset sink)
  else (Err (Errno ENOTDIR), sink).
End Readdir.
End FlatObjectNamespace.

#[export] Instance flat_namespace : NamespaceModel FlatObjectNamespace.t := {|
  lookup_child := FlatObjectNamespace.lookup;
  attr := FlatObjectNamespace.attr;
  readdir := fun S _ => FlatObjectNamespace.readdir
|}.

(** ** Names and indices *)

Import FlatObjectNamespace.

(** What [new] establishes, whatever the configuration. *)
Definition flat_wf (ns : t) : Prop := 0 <= inode_count ns <= MAX_FILES - 1.

Lemma new_wf config u g now :
  0 <= Config.inode_count config -> flat_wf (new config u g now).1.
Proof. unfold flat_wf, new, MAX_FILES. cbn. lia. Qed.

Lemma index_to_name_fixed n : 0 <= n < MAX_FILES -> index_to_name n = digits_string (fixed_digits 6 n).
Proof.
  unfold MAX_FILES. intros Hn. unfold index_to_name, show_u64_06, U64_DIGITS.
  rewrite (pad_dec_digits 19 5) by (simpl; lia). done.
Qed.

Lemma length_list_ascii s : length (list_ascii_of_string s) = Strings.String.length s.
Proof. induction s as [|c s IH]; simpl; congruence. Qed.

(** What [parse_name] accepts: six digits that spell an index in range. *)
Lemma parse_name_spec ns name n :
  flat_wf ns ->
  parse_name ns name = Some n <-> 0 <= n < inode_count ns /\ name = index_to_name n.
Proof.
  unfold flat_wf, MAX_FILES. intros Hwf. split.
  - unfold parse_name. destruct (to_str name) as [s|] eqn:Es; [|done].
    assert (s = name) as -> by (unfold to_str in Es; by case_match; simplify_eq).
    destruct (Nat.eqb_spec (Strings.String.length name) 6) as [Hl|]; [|done].
    destruct (forallb is_ascii_digit (list_ascii_of_string name)) eqn:Hd; [|done]. cbn [negb orb].
    rewrite <- length_list_ascii in Hl.
    assert (HF : Forall is_digit (char_digit <$> list_ascii_of_string name)).
    { apply Forall_fmap, Forall_forall. intros c Hc. apply char_digit_ok.
      rewrite forallb_forall in Hd. apply Hd. by apply list_elem_of_In. }
    pose proof (digits_value_bounds _ HF) as Hb. rewrite length_fmap, Hl in Hb.
    change (10 ^ Z.of_nat 6) with 1000000 in Hb.
    rewrite parse_u64_digits; [|by intros E; rewrite E in Hl|done|unfold U64_MAX; lia].
    case_match; [|done]. intros [= <-]. split; [lia|].
    rewrite index_to_name_fixed by (unfold MAX_FILES; lia).
    rewrite <- (digits_string_of_chars name Hd) at 1. f_equal.
    rewrite <- (fixed_digits_of_value _ HF) at 1. by rewrite length_fmap, Hl.
  - intros [Hn ->]. rewrite index_to_name_fixed by (unfold MAX_FILES; lia).
    pose proof (digits_string_all_digits _ (fixed_digits_ok 6 n)) as Hd.
    unfold parse_name. rewrite to_str_digits by done. rewrite Hd.
    rewrite <- length_list_ascii, list_ascii_digits_string, length_fmap, length_fixed_digits.
    cbn [Nat.eqb negb orb].
    assert (Hv : digits_value (char_digit <$> list_ascii_of_string (digits_string (fixed_digits 6 n))) = n).
    { rewrite char_digits_string by apply fixed_digits_ok. apply fixed_digits_value.
      change (10 ^ Z.of_nat 6) with 1000000. lia. }
    rewrite parse_u64_digits; [rewrite Hv|by rewrite list_ascii_digits_string|done|rewrite Hv; unfold U64_MAX; lia].
    case_match; [done|lia].
Qed.

Lemma index_to_name_inj n m :
  0 <= n < MAX_FILES - 1 -> 0 <= m < MAX_FILES - 1 -> index_to_name n = index_to_name m -> n = m.
Proof.
  intros Hn Hm E. assert (Hwf : flat_wf (Build_t (MAX_FILES - 1) 0 0 0 0)) by by split.
  pose proof (proj2 (parse_name_spec _ (index_to_name n) n Hwf) (conj Hn eq_refl)) as Pn.
  rewrite (proj2 (parse_name_spec _ (index_to_name n) m Hwf)) in Pn by done. congruence.
Qed.

Lemma index_to_name_not_dot n : 0 <= n < MAX_FILES -> index_to_name n <> "." /\ index_to_name n <> "..".
Proof.
  intros Hn. rewrite index_to_name_fixed by done.
  pose proof (digits_string_all_digits _ (fixed_digits_ok 6 n)) as Hd.
  by split; intros E; rewrite E in Hd.
Qed.

Lemma ino_to_index_spec ns ino n :
  ino_to_index ns ino = Some n <->
  ino = FIRST_FILE_INO + n /\ 0 <= n < inode_count ns.
Proof.
  unfold ino_to_index, checked_sub, FIRST_FILE_INO.
  destruct (Z.leb_spec 100 ino); [|naive_solver lia].
  destruct (Z.ltb_spec (ino - 100) (inode_count ns)).
  - split; [intros [= <-]; lia|intros [-> _]; f_equal; lia].
  - naive_solver lia.
Qed.

(** ** Lookup and attributes *)

Lemma lookup_spec ns parent name ino :
  flat_wf ns ->
  lookup ns parent name = Some ino <->
  (parent = FUSE_ROOT_INO /\ name = "objects" /\ ino = OBJECTS_INO) \/
  (parent = OBJECTS_INO /\ exists n, 0 <= n < inode_count ns /\
     name = index_to_name n /\ ino = FIRST_FILE_INO + n).
Proof.
  intros Hwf. unfold lookup, FUSE_ROOT_INO, OBJECTS_INO.
  destruct (Z.eqb_spec parent 1) as [->|Hp1]; [case_bool_decide; naive_solver|].
  destruct (Z.eqb_spec parent 2) as [->|Hp2]; [|naive_solver].
  split.
  - intros E. right. split; [done|]. destruct (parse_name ns name) as [n|] eqn:En; [|done].
    apply parse_name_spec in En as [Hn ->]; [|done]. simpl in E. simplify_eq. by exists n.
  - intros [(? & _)|(_ & n & Hn & -> & ->)]; [done|].
    by rewrite (proj2 (parse_name_spec ns (index_to_name n) n Hwf)).
Qed.

Lemma attr_spec ns ino a :
  flat_wf ns ->
  FlatObjectNamespace.attr ns ino = Some a <->
  (ino = FUSE_ROOT_INO \/ ino = OBJECTS_INO) /\ a = dir_attr ns ino \/
  (exists n, 0 <= n < inode_count ns /\ ino = FIRST_FILE_INO + n) /\ a = file_attr ns ino.
Proof.
  intros Hwf. unfold FlatObjectNamespace.attr, FUSE_ROOT_INO, OBJECTS_INO.
  destruct (Z.eqb_spec ino 1) as [->|Hne1];
    [unfold FIRST_FILE_INO; naive_solver lia|].
  destruct (Z.eqb_spec ino 2) as [->|Hne2];
    [unfold FIRST_FILE_INO; naive_solver lia|].
  destruct (ino_to_index ns ino) as [n|] eqn:En.
  - apply ino_to_index_spec in En as [-> Hn]. naive_solver.
  - split; [done|]. intros [[? _]|[(n & Hn & ->) _]]; [naive_solver|].
    pose proof (proj2 (ino_to_index_spec ns _ n) (conj eq_refl Hn)). congruence.
Qed.

(** ** Directory listings *)

Definition file_entry (n : Z) : DirEntry :=
  {| ent_ino := FIRST_FILE_INO + n; ent_off := n + 3; ent_kind := File; ent_name := index_to_name n |}.

Definition dot_entries (self : Z) : list DirEntry :=
  [{| ent_ino := self; ent_off := 1; ent_kind := Dir; ent_name := "." |};
   {| ent_ino := FUSE_ROOT_INO; ent_off := 2; ent_kind := Dir; ent_name := ".." |}].

Definition objects_entry : DirEntry :=
  {| ent_ino := OBJECTS_INO; ent_off := 3; ent_kind := Dir; ent_name := "objects" |}.

(** The file entries of indices [n], ..., [n + k - 1]. *)
Definition file_entries (k : nat) (n : Z) : list DirEntry :=
  (fun i => file_entry (n + Z.of_nat i)) <$> seq 0 k.

Definition flat_listing (ns : t) (ino : Z) : option (list DirEntry) :=
  if ino =? FUSE_ROOT_INO then Some (dot_entries FUSE_ROOT_INO ++ [objects_entry])
  else if ino =? OBJECTS_INO then
    Some (dot_entries OBJECTS_INO ++ file_entries (Z.to_nat (inode_count ns)) 0)
  else None.

Lemma file_entries_S k n : file_entries (S k) n = file_entry n :: file_entries k (n + 1).
Proof.
  unfold file_entries. cbn [seq fmap list_fmap]. rewrite Z.add_0_r. f_equal.
  rewrite <- fmap_S_seq, <- list_fmap_compose. apply list_fmap_ext. intros i x _.
  unfold compose. f_equal. lia.
Qed.

Lemma elem_of_file_entries k n e :
  e ∈ file_entries k n <-> exists i, n <= i < n + Z.of_nat k /\ e = file_entry i.
Proof.
  unfold file_entries. rewrite list_elem_of_fmap. split.
  - intros (i & -> & Hi%elem_of_seq). exists (n + Z.of_nat i). split; [lia|done].
  - intros (i & Hi & ->). exists (Z.to_nat (i - n)). split; [f_equal; lia|].
    apply elem_of_seq. lia.
Qed.

Lemma increasing_file_entries k n lo : lo < n + 3 -> increasing lo (file_entries k n).
Proof.
  revert n lo. induction k as [|k IH]; intros n lo Hlo; [done|].
  rewrite file_entries_S. split; [done|]. apply IH. cbn. lia.
Qed.

Lemma flat_listing_increasing ns ino es : flat_listing ns ino = Some es -> increasing 0 es.
Proof.
  unfold flat_listing. intros E. repeat case_match; simplify_eq; cbn.
  - lia.
  - split_and!; [lia..|]. by apply increasing_file_entries.
Qed.

Lemma increasing_after lo es offset : increasing lo es -> offset <= lo -> after offset es = es.
Proof.
  revert lo. induction es as [|e es IH]; intros lo; [done|]. intros [Hlt Hinc] Hle.
  unfold after. rewrite filter_cons_True by lia. f_equal. apply (IH (ent_off e)); [done|lia].
Qed.

(** Entries with increasing cookies: those after the cookie of one of them are
    those that follow it. *)
Lemma increasing_weaken a b es : a <= b -> increasing b es -> increasing a es.
Proof. destruct es; [done|]. intros ? [? ?]. split; [lia|done]. Qed.

Lemma increasing_after_inc lo offset es : increasing lo es -> increasing (Z.max lo offset) (after offset es).
Proof.
  revert lo. induction es as [|e es IH]; intros lo; [done|]. intros [Hlt Hinc]. unfold after.
  rewrite filter_cons. case_decide as Hd.
  - split; [lia|]. apply (IH (ent_off e)) in Hinc. eapply increasing_weaken; [|exact Hinc]. lia.
  - apply (IH (ent_off e)) in Hinc. eapply increasing_weaken; [|exact Hinc]. lia.
Qed.

Lemma increasing_split lo pre e post :
  increasing lo (pre ++ e :: post) -> after (ent_off e) (pre ++ e :: post) = post.
Proof.
  revert lo. induction pre as [|p pre IH]; intros lo.
  - intros [_ Hinc]. cbn [app]. unfold after. rewrite filter_cons_False by lia.
    by apply (increasing_after (ent_off e)).
  - intros [Hlt Hinc]. cbn [app]. unfold after. rewrite filter_cons_False; [by eapply IH|].
    assert (Hle : forall lo' pre', increasing lo' (pre' ++ e :: post) -> lo' < ent_off e).
    { clear. intros lo' pre'. revert lo'. induction pre' as [|p' pre' IH]; intros lo' [H1 H2]; [done|].
      specialize (IH _ H2). lia. }
    specialize (Hle _ _ Hinc). lia.
Qed.

Lemma after_app offset es es' : after offset (es ++ es') = after offset es ++ after offset es'.
Proof. apply filter_app. Qed.

Lemma after_after a b es : a <= b -> after b (after a es) = after b es.
Proof.
  intros Hab. unfold after. induction es as [|e es IH]; [done|].
  rewrite !filter_cons. repeat case_decide; rewrite ?filter_cons; try case_decide; try lia; congruence.
Qed.

Lemma increasing_resume offset lo es pre e post :
  increasing lo es -> after offset es = pre ++ e :: post -> after (ent_off e) es = post.
Proof.
  intros Hinc Hsplit. pose proof (increasing_after_inc lo offset es Hinc) as Hia. rewrite Hsplit in Hia.
  rewrite <- (increasing_split _ _ _ _ Hia), <- Hsplit. rewrite after_after; [done|].
  assert (He : e ∈ after offset es) by (rewrite Hsplit; apply elem_of_app; right; left).
  apply list_elem_of_filter in He as [He _]. lia.
Qed.

Section ReaddirFacts.
Context {S : Type} `{DirSink S}.
Implicit Type sink : S.

Lemma push_all_app sink e es :
  push_all sink (e :: es) =
  let (more, sink') := push sink (ent_ino e) (ent_off e) (ent_kind e) (ent_name e) in
  if more then push_all sink' es else sink'.
Proof. done. Qed.

Lemma push_files_all k n sink : push_files k n sink = push_all sink (file_entries k n).
Proof.
  revert n sink. induction k as [|k IH]; intros n sink; [done|].
  rewrite file_entries_S. cbn [push_files push_all]. cbn [file_entry ent_ino ent_off ent_kind ent_name].
  destruct (push _ _ _ _ _) as [[] sink']; [apply IH|done].
Qed.

(** The entries left after cookie [offset] start at index [offset - 2]. *)
Lemma after_file_entries k offset :
  0 <= offset ->
  after offset (file_entries k 0) =
  file_entries (Z.to_nat (Z.of_nat k - saturating_sub offset 2)) (saturating_sub offset 2).
Proof.
  intros Ho. assert (Hgen : forall k n, after offset (file_entries k n) =
    let start := Z.max n (offset - 2) in
    file_entries (Z.to_nat (n + Z.of_nat k - start)) start).
  { clear k. intros k. induction k as [|k IH]; intros n.
    - cbn zeta. replace (Z.to_nat (n + Z.of_nat 0 - Z.max n (offset - 2))) with 0%nat by lia. done.
    - rewrite file_entries_S. unfold after in *. cbn zeta in *.
      destruct (decide (offset < n + 3)) as [Hlt|Hge].
      + rewrite filter_cons_True by (cbn; lia). rewrite IH.
        replace (Z.max n (offset - 2)) with n by lia.
        replace (Z.max (n + 1) (offset - 2)) with (n + 1) by lia.
        replace (Z.to_nat (n + Z.of_nat (Datatypes.S k) - n)) with (Datatypes.S k) by lia.
        rewrite file_entries_S. do 2 f_equal. lia.
      + rewrite filter_cons_False by (cbn; lia). rewrite IH.
        replace (Z.max (n + 1) (offset - 2)) with (Z.max n (offset - 2)) by lia. f_equal. lia. }
  rewrite Hgen. cbn zeta. unfold saturating_sub. rewrite Z.max_comm. f_equal.
Qed.

Lemma push_root_all entries offset sink :
  push_root entries offset sink =
  push_all sink (after offset ((fun p => let '(off, i, k, nm) := p in
    {| ent_ino := i; ent_off := off; ent_kind := k; ent_name := nm |}) <$> entries)).
Proof.
  revert sink. induction entries as [|[[[off i] k] nm] es IH]; intros sink; [done|].
  unfold after. rewrite fmap_cons. cbn [push_root]. destruct (Z.leb_spec off offset).
  - rewrite filter_cons_False by (cbn; lia). apply IH.
  - rewrite filter_cons_True by (cbn; lia). cbn [push_all ent_ino ent_off ent_kind ent_name].
    destruct (push _ _ _ _ _) as [[] sink']; [apply IH|done].
Qed.

Lemma flat_readdir_listing ns ino offset sink :
  flat_wf ns -> 0 <= offset ->
  FlatObjectNamespace.readdir ns ino offset sink =
  match flat_listing ns ino with
  | Some es => (Ok tt, push_all sink (after offset es))
  | None => (Err (Errno ENOTDIR), sink)
  end.
Proof.
  unfold flat_wf. intros Hwf Ho. unfold FlatObjectNamespace.readdir, flat_listing.
  destruct (Z.eqb_spec ino FUSE_ROOT_INO); [by rewrite push_root_all|].
  destruct (Z.eqb_spec ino OBJECTS_INO); [|done].
  rewrite after_app, after_file_entries, Z2Nat.id by lia.
  assert (Hrest : forall sink, push_rest ns offset sink =
    push_all sink (file_entries (Z.to_nat (inode_count ns - saturating_sub offset 2)) (saturating_sub offset 2)))
    by (intros; apply push_files_all).
  unfold after, dot_entries.
  destruct (Z.ltb_spec offset 1), (Z.ltb_spec offset 2); try lia;
    repeat first [rewrite filter_cons_True by (cbn; lia)|rewrite filter_cons_False by (cbn; lia)];
    rewrite ?filter_nil; cbn [app push_all ent_ino ent_off ent_kind ent_name negb];
    repeat (destruct (push _ _ _ _ _) as [[] ?]; cbn [negb]); by rewrite ?Hrest.
Qed.
End ReaddirFacts.

#[export] Instance flat_laws : NamespaceLaws FlatObjectNamespace.t.
Proof.
  refine {| ns_wf := flat_wf; listing := flat_listing |}.
  - intros ns parent name ino Hwf E. apply lookup_spec in E; [|done]. cbn.
    destruct E as [(_ & _ & ->)|(_ & n & Hn & _ & ->)].
    + by exists (dir_attr ns OBJECTS_INO).
    + exists (file_attr ns (FIRST_FILE_INO + n)). split; [|done].
      apply attr_spec; [done|]. right. split; [by exists n|done].
  - intros ns ino es _. apply flat_listing_increasing.
  - intros. by apply flat_readdir_listing.
Defined.

(** A listed name other than the dots looks up to the listed inode, whose
    attributes have the listed kind; every name that looks up is listed. *)
Lemma flat_listing_lookup ns dir es name ino :
  flat_wf ns -> flat_listing ns dir = Some es ->
  lookup ns dir name = Some ino <->
  name <> "." /\ name <> ".." /\
  exists e, e ∈ es /\ ent_name e = name /\ ent_ino e = ino.
Proof.
  intros Hwf Hl. rewrite lookup_spec by done. unfold flat_listing in Hl.
  assert (Hdots : forall d e, e ∈ dot_entries d -> ent_name e = "." \/ ent_name e = "..").
  { intros d e. unfold dot_entries. rewrite !elem_of_cons, elem_of_nil. naive_solver. }
  destruct (Z.eqb_spec dir FUSE_ROOT_INO) as [->|Hd1]; [|destruct (Z.eqb_spec dir OBJECTS_INO) as [->|Hd2]; [|done]].
  - simplify_eq. setoid_rewrite elem_of_app. setoid_rewrite list_elem_of_singleton. split.
    + intros [(_ & -> & ->)|(? & _)]; [|done]. split_and!; [done..|]. exists objects_entry. naive_solver.
    + intros (H1 & H2 & e & [He| ->] & <- & <-); [|left; done]. apply Hdots in He. naive_solver.
  - simplify_eq. setoid_rewrite elem_of_app. setoid_rewrite elem_of_file_entries. split.
    + intros [(? & _)|(_ & n & Hn & -> & ->)]; [done|].
      destruct (index_to_name_not_dot n) as [H1 H2]; [unfold flat_wf in Hwf; lia|].
      split_and!; [done..|]. exists (file_entry n). split; [right; exists n; split; [lia|done]|done].
    + intros (H1 & H2 & e & [He|(n & Hn & ->)] & <- & <-); [apply Hdots in He; naive_solver|].
      right. split; [done|]. exists n. split_and!; [lia..|done|done].
Qed.

Lemma flat_listing_kind ns dir es e :
  flat_wf ns -> flat_listing ns dir = Some es -> e ∈ es ->
  exists a, FlatObjectNamespace.attr ns (ent_ino e) = Some a /\ attr_kind a = ent_kind e.
Proof.
  intros Hwf Hl He. unfold flat_listing in Hl.
  destruct (Z.eqb_spec dir FUSE_ROOT_INO) as [->|Hd1]; [|destruct (Z.eqb_spec dir OBJECTS_INO) as [->|Hd2]; [|done]];
    simplify_eq; apply elem_of_app in He as [He|He]; unfold dot_entries in He.
  - rewrite !elem_of_cons, elem_of_nil in He.
    destruct He as [->|[->|[]]]; by eexists.
  - apply list_elem_of_singleton in He as ->. by eexists.
  - rewrite !elem_of_cons, elem_of_nil in He.
    destruct He as [->|[->|[]]]; by eexists.
  - apply elem_of_file_entries in He as (n & Hn & ->).
    exists (file_attr ns (FIRST_FILE_INO + n)). split; [|done].
    apply attr_spec; [done|]. right. split; [exists n; split; [lia|done]|done].
Qed.

(** ** Properties *)

(** C25: names and inodes correspond one to one: [objects] under the root is inode
    2, and under it exactly the six-digit names of the indices below the
    count look up, the name of index [n] to inode [100 + n], which
    [ino_to_index] takes back to [n]; no other parent has children. *)
Theorem flat_lookup_spec ns parent name ino :
  flat_wf ns ->
  (lookup_child ns parent name = Some ino <->
   (parent = FUSE_ROOT_INO /\ name = "objects" /\ ino = OBJECTS_INO) \/
   (parent = OBJECTS_INO /\ exists n, ino_to_index ns ino = Some n /\ name = index_to_name n)).
Proof.
  intros Hwf. cbn. rewrite lookup_spec by done. setoid_rewrite ino_to_index_spec.
  split; (intros [?|(-> & n & H)]; [by left|right; split; [done|exists n]]).
  - by destruct H as (? & -> & ->).
  - by destruct H as ([-> ?] & ->).
Qed.

(** Attributes exist for the two directories and the counted files and for
    nothing else, with the kind, size, mode and link count of each; every
    inode a lookup returns has them. *)
Theorem flat_attr_spec ns ino a :
  flat_wf ns ->
  (attr ns ino = Some a <->
   (ino = FUSE_ROOT_INO \/ ino = OBJECTS_INO) /\ a = dir_attr ns ino \/
   is_Some (ino_to_index ns ino) /\ a = file_attr ns ino) /\
  (forall parent name, lookup_child ns parent name = Some ino -> is_Some (attr ns ino)).
Proof.
  intros Hwf. split.
  - cbn. rewrite attr_spec by done. unfold is_Some. setoid_rewrite ino_to_index_spec.
    split; (intros [?|((n & H1 & H2) & ->)]; [by left|right; split; [by exists n|done]]).
  - intros parent name Hl. destruct (@lookup_has_attr t _ flat_laws ns parent name ino Hwf Hl) as (a' & Ha & _). by exists a'.
Qed.

(** C26: [readdir] from a cookie offers any sink exactly the entries after that
    cookie, in order, until the sink refuses one; resuming from the cookie of
    the last entry continues without gap or repetition; an inode that is not
    a directory is ENOTDIR and leaves the sink alone. *)
Theorem flat_readdir_spec {S} `{DirSink S} ns ino offset (sink : S) :
  flat_wf ns -> 0 <= offset ->
  readdir ns ino offset sink =
  match flat_listing ns ino with
  | Some es => (Ok tt, push_all sink (after offset es))
  | None => (Err (Errno ENOTDIR), sink)
  end /\
  (forall es e pre post, flat_listing ns ino = Some es -> after offset es = pre ++ e :: post ->
     after (ent_off e) es = post).
Proof.
  intros Hwf Ho. split; [by apply flat_readdir_listing|].
  intros es e pre post Hl Hsplit. by eapply increasing_resume; [eapply flat_listing_increasing|].
Qed.

(** Listings and lookups agree: apart from the dots, the names of a directory
    listing are exactly the names that look up, each to the listed inode,
    whose attributes have the listed kind. *)
Theorem flat_listing_sound ns dir es name ino :
  flat_wf ns -> flat_listing ns dir = Some es ->
  (lookup_child ns dir name = Some ino <->
   name <> "." /\ name <> ".." /\ exists e, e ∈ es /\ ent_name e = name /\ ent_ino e = ino) /\
  (forall e, e ∈ es -> exists a, attr ns (ent_ino e) = Some a /\ attr_kind a = ent_kind e).
Proof.
  intros Hwf Hl. split; [by apply flat_listing_lookup|]. intros e He. by eapply flat_listing_kind.
Qed.

(** Construction clamps the file count to 999,999 and warns on the standard
    error exactly when the configured count exceeds that. *)
Theorem flat_new_clamps config u g now :
  is_u64 (Config.inode_count config) ->
  flat_wf (new config u g now).1 /\
  inode_count (new config u g now).1 = Z.min (Config.inode_count config) 999999 /\
  ((new config u g now).2 = [] <-> Config.inode_count config <= 999999).
Proof.
  unfold is_u64. intros Hu. split_and!; [apply new_wf; lia|done|].
  cbn. unfold MAX_FILES. destruct (Z.leb_spec 1000000 (Config.inode_count config)); split; intros; (done || lia).
Qed.

(** ** Witnesses *)

Definition five_files : t := {| inode_count := 5; file_size_bytes := 4096; uid := 0; gid := 0; ctime := 0 |}.

Lemma five_files_wf : flat_wf five_files.
Proof. unfold flat_wf, MAX_FILES. cbn. lia. Qed.

Lemma flat_lookup_spec_witness : lookup_child five_files OBJECTS_INO "000003" = Some 103.
Proof.
  apply (flat_lookup_spec five_files OBJECTS_INO "000003" 103 five_files_wf). right. split; [done|]. by exists 3.
Defined.

Lemma flat_attr_spec_witness : attr five_files 104 = Some (file_attr five_files 104).
Proof. apply (flat_attr_spec five_files 104 _ five_files_wf). right. split; [by exists 4|done]. Defined.

(** A sink that keeps the names and stops after two. *)
#[local] Instance two_names : DirSink (list string) :=
  {| push := fun s _ _ _ name => ((length s <? 1)%nat, s ++ [name]) |}.

Lemma flat_readdir_spec_witness :
  readdir five_files OBJECTS_INO 4 ([] : list string) = (Ok tt, ["000002"; "000003"]).
Proof.
  rewrite (proj1 (flat_readdir_spec five_files OBJECTS_INO 4 ([] : list string) five_files_wf ltac:(lia))).
  by vm_compute.
Defined.

Lemma flat_listing_sound_witness :
  lookup_child five_files FUSE_ROOT_INO "objects" = Some 2.
Proof.
  apply (flat_listing_sound five_files FUSE_ROOT_INO _ "objects" 2 five_files_wf eq_refl).
  split; [done|]. split; [done|]. exists objects_entry. split; [|done].
  apply elem_of_app. right. by apply list_elem_of_singleton.
Defined.

Lemma flat_new_clamps_witness :
  inode_count (new {| Config.inode_count := 2000000; Config.file_size_bytes := 1; root_layout := Flat;
                      write_mode := Discard |} 0 0 0).1 = 999999.
Proof. refine (proj1 (proj2 (flat_new_clamps _ 0 0 0 _))). unfold is_u64. cbn. lia. Defined.
