(* ===== verification/Concurrency.v ===== *)
(** * The blocking concurrency limiter

    [fusecraft-core/src/limiter/concurrency.rs]. The mutex makes every stretch
    of code between two waits on the condition variable atomic: each is a
    function on the limiter. [lstep] interleaves them for any number of
    threads, with the condition variable as the set of sleeping threads.
    Clock readings are arguments; counters are 64-bit words that wrap. *)

From stdpp Require Import base list numbers relations.
From Stdlib Require Import ZArith Lia.

From S2P Require Import Prelude Word Time Op.

Local Open Scope Z_scope.

(** ** State *)

Record LimiterState : Type := {
  inflight : Z;
  queued : Z;
  total_acquired : Z;
  total_rejected : Z;
  total_queue_wait_ns : Z
}.

Record LimiterStats : Type := {
  st_inflight : Z;
  st_queued : Z;
  st_total_acquired : Z;
  st_total_rejected : Z;
  st_total_queue_wait : Duration
}.

Record BlockingLimiter : Type := {
  state : LimiterState;
  cap : Z;
  queue_cap : Z
}.

(** The assignments to the locked state. *)
Definition set_state (self : BlockingLimiter) (st : LimiterState) : BlockingLimiter :=
  {| state := st; cap := cap self; queue_cap := queue_cap self |}.

Definition reject (st : LimiterState) : LimiterState :=
  {| inflight := inflight st; queued := queued st; total_acquired := total_acquired st;
     total_rejected := wrapping_add (total_rejected st) 1;
     total_queue_wait_ns := total_queue_wait_ns st |}.

Definition admit_now (st : LimiterState) : LimiterState :=
  {| inflight := wrapping_add (inflight st) 1; queued := queued st;
     total_acquired := wrapping_add (total_acquired st) 1;
     total_rejected := total_rejected st; total_queue_wait_ns := total_queue_wait_ns st |}.

Definition enqueue (st : LimiterState) : LimiterState :=
  {| inflight := inflight st; queued := wrapping_add (queued st) 1;
     total_acquired := total_acquired st; total_rejected := total_rejected st;
     total_queue_wait_ns := total_queue_wait_ns st |}.

Definition admit_waiter (st : LimiterState) (queue_wait : Duration) : LimiterState :=
  {| inflight := wrapping_add (inflight st) 1; queued := wrapping_sub (queued st) 1;
     total_acquired := wrapping_add (total_acquired st) 1;
     total_rejected := total_rejected st;
     total_queue_wait_ns := wrapping_add (total_queue_wait_ns st) (wrap64 (as_nanos queue_wait)) |}.

Definition give_up_waiting (st : LimiterState) : LimiterState :=
  {| inflight := inflight st; queued := wrapping_sub (queued st) 1;
     total_acquired := total_acquired st;
     total_rejected := wrapping_add (total_rejected st) 1;
     total_queue_wait_ns := total_queue_wait_ns st |}.

(** ** The critical sections *)

Definition new (cap queue_cap : Z) : BlockingLimiter :=
  {| state := {| inflight := 0; queued := 0; total_acquired := 0; total_rejected := 0;
                 total_queue_wait_ns := 0 |};
     cap := cap; queue_cap := queue_cap |}.

(** How a critical section ends: with the function returning a guard or an
    error, with the thread in [cv.wait] (since [start], until the deadline),
    or with a panic. *)
Inductive section_end : Type :=
| Guard (queue_wait : Duration)
| Fails (e : FsError)
| Waits (start : Instant) (deadline : option Instant)
| Panics.

(** [acquire], from its call to the first [cv.wait]. *)
Definition acquire_enter (self : BlockingLimiter) (now : Instant) : section_end * BlockingLimiter :=
  let st := state self in
  if cap self =? 0 then (Fails (Errno EAGAIN), set_state self (reject st))
  else if inflight st <? cap self then (Guard DURATION_ZERO, set_state self (admit_now st))
  else if queue_cap self <=? queued st then (Fails (Errno EAGAIN), set_state self (reject st))
  else (Waits now None, set_state self (enqueue st)).

(** [acquire], from the return of [cv.wait] to the next one. *)
Definition acquire_wake (self : BlockingLimiter) (start now : Instant) : section_end * BlockingLimiter :=
  let st := state self in
  if inflight st <? cap self then
    let queue_wait := duration_since now start in
    (Guard queue_wait, set_state self (admit_waiter st queue_wait))
  else (Waits start None, self).

(** The head of the loop of [acquire_timeout]: the deadline has passed, or the
    thread waits. *)
Definition timeout_loop (self : BlockingLimiter) (start deadline now : Instant) : section_end * BlockingLimiter :=
  let remaining := saturating_duration_since deadline now in
  if is_zero remaining then (Fails (Errno EAGAIN), set_state self (give_up_waiting (state self)))
  else (Waits start (Some deadline), self).

(** [acquire_timeout], from its call to the first [cv.wait_for]; [now] and
    [now'] are the two readings of the clock. *)
Definition acquire_timeout_enter (self : BlockingLimiter) (timeout : Duration) (now now' : Instant)
    : section_end * BlockingLimiter :=
  let st := state self in
  if cap self =? 0 then (Fails (Errno EAGAIN), set_state self (reject st))
  else if inflight st <? cap self then (Guard DURATION_ZERO, set_state self (admit_now st))
  else if queue_cap self <=? queued st then (Fails (Errno EAGAIN), set_state self (reject st))
  else
    let self := set_state self (enqueue st) in
    match instant_add now timeout with
    | Panic => (Panics, self)
    | Returns deadline => timeout_loop self now deadline now'
    end.

(** [acquire_timeout], from the return of [cv.wait_for] to the next one. *)
Definition acquire_timeout_wake (self : BlockingLimiter) (start deadline : Instant) (timed_out : bool)
    (now : Instant) : section_end * BlockingLimiter :=
  let st := state self in
  if inflight st <? cap self then
    let queue_wait := duration_since now start in
    (Guard queue_wait, set_state self (admit_waiter st queue_wait))
  else if timed_out then (Fails (Errno EAGAIN), set_state self (give_up_waiting st))
  else timeout_loop self start deadline now.

Definition stats (self : BlockingLimiter) : LimiterStats :=
  let st := state self in
  {| st_inflight := inflight st; st_queued := queued st;
     st_total_acquired := total_acquired st; st_total_rejected := total_rejected st;
     st_total_queue_wait := from_nanos (total_queue_wait_ns st) |}.

(** [release], called by the guard's [drop]; the notification is in [lstep]. *)
Definition release (self : BlockingLimiter) : BlockingLimiter :=
  let st := state self in
  set_state self
    {| inflight := wrapping_sub (inflight st) 1; queued := queued st;
       total_acquired := total_acquired st; total_rejected := total_rejected st;
       total_queue_wait_ns := total_queue_wait_ns st |}.

(** ** Threads *)

Inductive phase : Type :=
| Idle
| Asleep (start : Instant) (deadline : option Instant)
| Woken (start : Instant) (deadline : option Instant) (timed_out : bool)
| Holding (queue_wait : Duration)
| Crashed.

Definition phase_after (r : section_end) : phase :=
  match r with
  | Guard w => Holding w
  | Fails _ => Idle
  | Waits start deadline => Asleep start deadline
  | Panics => Crashed
  end.

Definition is_holding (p : phase) : bool := match p with Holding _ => true | _ => false end.
Definition is_asleep (p : phase) : bool := match p with Asleep _ _ => true | _ => false end.
Definition is_woken (p : phase) : bool := match p with Woken _ _ _ => true | _ => false end.
Definition is_crashed (p : phase) : bool := match p with Crashed => true | _ => false end.

(** [calls] counts the calls of [acquire] and [acquire_timeout]. *)
Record System : Type := {
  lim : BlockingLimiter;
  threads : list phase;
  calls : Z
}.

(** [cv.notify_one]: one sleeping thread returns from its wait, if there is
    one. *)
Inductive notify_one : list phase -> list phase -> Prop :=
| notify_none ts : count is_asleep ts = 0 -> notify_one ts ts
| notify_some ts i start deadline :
    ts !! i = Some (Asleep start deadline) ->
    notify_one ts (<[i := Woken start deadline false]> ts).

(** A new call, a return of the condition variable nobody asked for, or a step
    that settles work in progress. *)
Inductive label : Type := Call | Spurious | Settle.

Inductive lstep : label -> System -> System -> Prop :=
| step_acquire s i now r l :
    threads s !! i = Some Idle -> acquire_enter (lim s) now = (r, l) ->
    lstep Call s {| lim := l; threads := <[i := phase_after r]> (threads s); calls := calls s + 1 |}
| step_acquire_timeout s i timeout now now' r l :
    threads s !! i = Some Idle -> acquire_timeout_enter (lim s) timeout now now' = (r, l) ->
    lstep Call s {| lim := l; threads := <[i := phase_after r]> (threads s); calls := calls s + 1 |}
| step_spurious s i start deadline :
    threads s !! i = Some (Asleep start deadline) ->
    lstep Spurious s {| lim := lim s; threads := <[i := Woken start deadline false]> (threads s);
                        calls := calls s |}
| step_expire s i start deadline :
    threads s !! i = Some (Asleep start (Some deadline)) ->
    lstep Settle s {| lim := lim s; threads := <[i := Woken start (Some deadline) true]> (threads s);
                      calls := calls s |}
| step_wake s i start b now r l :
    threads s !! i = Some (Woken start None b) -> acquire_wake (lim s) start now = (r, l) ->
    lstep Settle s {| lim := l; threads := <[i := phase_after r]> (threads s); calls := calls s |}
| step_wake_timeout s i start deadline b now r l :
    threads s !! i = Some (Woken start (Some deadline) b) ->
    acquire_timeout_wake (lim s) start deadline b now = (r, l) ->
    lstep Settle s {| lim := l; threads := <[i := phase_after r]> (threads s); calls := calls s |}
| step_release s i w ts :
    threads s !! i = Some (Holding w) -> notify_one (<[i := Idle]> (threads s)) ts ->
    lstep Settle s {| lim := release (lim s); threads := ts; calls := calls s |}.

Definition lsteps : System -> System -> Prop := steps (fun s s' => exists a, lstep a s s').

Definition initial (cap queue_cap : Z) (n : nat) : System :=
  {| lim := new cap queue_cap; threads := replicate n Idle; calls := 0 |}.

Definition reachable (cap queue_cap : Z) (s : System) : Prop :=
  exists n, lsteps (initial cap queue_cap n) s.

(** ** The invariant *)

Record inv (c q : Z) (s : System) : Prop := {
  inv_cap : cap (lim s) = c;
  inv_queue_cap : queue_cap (lim s) = q;
  (** the counters are the numbers of guards and of waiters *)
  inv_inflight : inflight (state (lim s)) = count is_holding (threads s);
  inv_queued : queued (state (lim s)) =
    count is_asleep (threads s) + count is_woken (threads s) + count is_crashed (threads s);
  inv_inflight_le : inflight (state (lim s)) <= c;
  inv_queued_le : queued (state (lim s)) <= q;
  (** no lost wakeup: sleepers leave no more slots free than threads are on
      their way to take *)
  inv_wakeup : count is_asleep (threads s) = 0 \/
               c - inflight (state (lim s)) <= count is_woken (threads s);
  inv_calls : wrap64 (total_acquired (state (lim s)) + total_rejected (state (lim s))) =
              wrap64 (calls s - queued (state (lim s)))
}.

Lemma wrapping_add_small x y : 0 <= x + y < 2 ^ 64 -> wrapping_add x y = x + y.
Proof. intros. by apply wrap64_small. Qed.

Lemma wrapping_sub_small x y : 0 <= x - y < 2 ^ 64 -> wrapping_sub x y = x - y.
Proof. intros. by apply wrap64_small. Qed.

Lemma wrap64_eq_shift a b a' b' k :
  wrap64 a = wrap64 b -> wrap64 a' = wrap64 (a + k) -> wrap64 b' = wrap64 (b + k) ->
  wrap64 a' = wrap64 b'.
Proof.
  unfold wrap64. intros E -> ->. rewrite <- (Z.add_mod_idemp_l a), <- (Z.add_mod_idemp_l b) by lia.
  by rewrite E.
Qed.

Lemma wrap64_add_l a b : wrap64 (wrapping_add a b) = wrap64 (a + b).
Proof. unfold wrapping_add, wrap64. by rewrite Z.mod_mod. Qed.

Lemma wrap64_wrapping_add_plus a b c : wrap64 (wrapping_add a b + c) = wrap64 (a + c + b).
Proof. unfold wrapping_add, wrap64. rewrite Z.add_mod_idemp_l by lia. f_equal. lia. Qed.

Lemma wrap64_plus_wrapping_add a b c : wrap64 (c + wrapping_add a b) = wrap64 (c + a + b).
Proof. unfold wrapping_add, wrap64. rewrite Z.add_mod_idemp_r by lia. f_equal. lia. Qed.

(** What a section that started in phase [p] does to the counters: the changes
    of [inflight] and [queued] are those of the tests on the phase, and one of
    the totals counts a call that ends. *)
Definition b2z_wait (p : phase) : Z :=
  Z.b2z (is_asleep p) + Z.b2z (is_woken p) + Z.b2z (is_crashed p).

Record effect (new_call : Z) (p : phase) (l l' : BlockingLimiter) (r : section_end) : Prop := {
  eff_cap : cap l' = cap l;
  eff_queue_cap : queue_cap l' = queue_cap l;
  eff_inflight : inflight (state l') = inflight (state l) + Z.b2z (is_holding (phase_after r));
  eff_queued : queued (state l') = queued (state l) + b2z_wait (phase_after r) - b2z_wait p;
  eff_inflight_le : inflight (state l') <= cap l;
  eff_queued_le : queued (state l') <= queue_cap l;
  (** the thread goes to sleep only when no slot is free *)
  eff_sleep : is_asleep (phase_after r) = true -> inflight (state l') = cap l;
  (** it leaves the queue without a slot only when no slot is free *)
  eff_leave : is_woken p = true -> is_holding (phase_after r) = false ->
              inflight (state l') = cap l;
  eff_total : wrap64 (total_acquired (state l') + total_rejected (state l')) =
              wrap64 (total_acquired (state l) + total_rejected (state l)
                      + (new_call + b2z_wait p - b2z_wait (phase_after r)))
}.

Definition counters_ok (l : BlockingLimiter) : Prop :=
  is_u64 (cap l) /\ is_u64 (queue_cap l) /\
  0 <= inflight (state l) <= cap l /\ 0 <= queued (state l) <= queue_cap l.

(** Counter arithmetic after a critical section. *)
Ltac counters :=
  cbn [state cap queue_cap set_state reject admit_now enqueue admit_waiter give_up_waiting
       inflight queued total_acquired total_rejected phase_after is_holding is_asleep is_woken
       is_crashed Z.b2z b2z_wait] in *;
  unfold b2z_wait, is_u64 in *;
  cbn [phase_after is_holding is_asleep is_woken is_crashed Z.b2z] in *;
  repeat first [rewrite wrapping_add_small by lia | rewrite wrapping_sub_small by lia];
  rewrite ?wrap64_wrapping_add_plus, ?wrap64_plus_wrapping_add;
  try (intros; first [discriminate | lia | f_equal; lia]).

(** Every branch of a critical section. *)
Ltac section_cases :=
  repeat match goal with
  | H : (if ?b then _ else _) = _ |- _ =>
      lazymatch b with
      | _ =? _ => destruct (Z.eqb_spec _ _ : reflect _ b)
      | _ <? _ => destruct (Z.ltb_spec0 _ _ : reflect _ b)
      | _ <=? _ => destruct (Z.leb_spec0 _ _ : reflect _ b)
      | _ => destruct b eqn:?
      end
  | H : match instant_add ?a ?b with _ => _ end = _ |- _ => destruct (instant_add a b)
  end; simplify_eq.

Lemma acquire_enter_effect l now r l' :
  counters_ok l -> acquire_enter l now = (r, l') -> effect 1 Idle l l' r.
Proof.
  unfold counters_ok, acquire_enter. intros Hok E. section_cases; split; counters.
Qed.

Lemma acquire_wake_effect l start start' d b now r l' :
  counters_ok l -> 0 < queued (state l) -> acquire_wake l start now = (r, l') ->
  effect 0 (Woken start' d b) l l' r.
Proof.
  unfold counters_ok, acquire_wake. intros Hok Hq E. section_cases; split; counters.
Qed.

Lemma acquire_timeout_enter_effect l timeout now now' r l' :
  counters_ok l -> acquire_timeout_enter l timeout now now' = (r, l') -> effect 1 Idle l l' r.
Proof.
  unfold counters_ok, acquire_timeout_enter, timeout_loop. intros Hok E.
  section_cases; split; counters.
Qed.

Lemma acquire_timeout_wake_effect l start start' d deadline b now r l' :
  counters_ok l -> 0 < queued (state l) -> acquire_timeout_wake l start deadline b now = (r, l') ->
  effect 0 (Woken start' d b) l l' r.
Proof.
  unfold counters_ok, acquire_timeout_wake, timeout_loop. intros Hok Hq E.
  section_cases; split; counters.
Qed.

(** ** The steps keep the invariant *)

Lemma count_lookup_le (P : phase -> bool) ts i p :
  ts !! i = Some p -> Z.b2z (P p) <= count P ts.
Proof.
  intros Hi. destruct (P p) eqn:E; cbn; [|apply count_nonneg].
  pose proof (count_lookup_pos _ _ _ _ Hi E). lia.
Qed.

(** The counts after thread [i] moved from [p] to [p']. *)
Ltac move_thread Hi :=
  rewrite ?(count_insert is_holding _ _ _ _ Hi), ?(count_insert is_asleep _ _ _ _ Hi),
    ?(count_insert is_woken _ _ _ _ Hi), ?(count_insert is_crashed _ _ _ _ Hi).

(** Facts about the counts that involve thread [i]. *)
Ltac thread_counts Hi :=
  pose proof (count_lookup_le is_holding _ _ _ Hi); pose proof (count_lookup_le is_asleep _ _ _ Hi);
  pose proof (count_lookup_le is_woken _ _ _ Hi); pose proof (count_lookup_le is_crashed _ _ _ Hi).

Section Invariant.
Context (c q : Z) (Hc : is_u64 c) (Hq : is_u64 q).

Lemma inv_counters s : inv c q s -> counters_ok (lim s).
Proof.
  intros [Ec Eq Ei Ew Hi Hw _ _]. unfold counters_ok. rewrite Ec, Eq.
  pose proof (count_nonneg is_holding (threads s)). pose proof (count_nonneg is_asleep (threads s)).
  pose proof (count_nonneg is_woken (threads s)). pose proof (count_nonneg is_crashed (threads s)).
  split_and!; done || lia.
Qed.

(** A critical section of thread [i]. *)
Lemma inv_effect new_call s i p r l :
  inv c q s -> threads s !! i = Some p -> is_asleep p = false -> is_holding p = false ->
  effect new_call p (lim s) l r ->
  inv c q {| lim := l; threads := <[i := phase_after r]> (threads s); calls := calls s + new_call |}.
Proof.
  intros Hinv Hi Hna Hnh He. pose proof (inv_counters s Hinv) as Hok.
  destruct Hinv as [Ec Eq Einf Eque Hinf Hque Hwake Htot], He as [Ec' Eq' Einf' Eque' Hinf' Hque' Hsl Hlv Htot'].
  unfold b2z_wait in *. rewrite Hna in *. cbn [Z.b2z] in *.
  split; cbn [lim threads calls]; try congruence; try lia.
  - move_thread Hi. rewrite Hnh. cbn [Z.b2z]. lia.
  - move_thread Hi. rewrite Hna. cbn [Z.b2z]. lia.
  - move_thread Hi. rewrite Hna. cbn [Z.b2z].
    destruct (is_asleep (phase_after r)) eqn:Er; [right; specialize (Hsl eq_refl)|].
    + pose proof (count_nonneg is_woken (threads s)). thread_counts Hi.
      destruct (is_woken (phase_after r)), (is_woken p); cbn [Z.b2z] in *; lia.
    + cbn [Z.b2z]. destruct Hwake as [Hz|Hle]; [left; lia|]. right.
      destruct (is_woken p) eqn:Ew.
      * thread_counts Hi. rewrite Ew in *. cbn [Z.b2z] in *.
        destruct (is_holding (phase_after r)) eqn:Eh; cbn [Z.b2z] in *.
        -- destruct (is_woken (phase_after r)); cbn; lia.
        -- specialize (Hlv eq_refl eq_refl). destruct (is_woken (phase_after r)); cbn; lia.
      * destruct (is_woken (phase_after r)), (is_holding (phase_after r)); cbn [Z.b2z] in *; lia.
  - rewrite Htot'. eapply wrap64_eq_shift; [exact Htot|reflexivity|f_equal; lia].
Qed.

Lemma notify_one_counts ts ts' :
  notify_one ts ts' ->
  count is_holding ts' = count is_holding ts /\ count is_crashed ts' = count is_crashed ts /\
  count is_asleep ts' + count is_woken ts' = count is_asleep ts + count is_woken ts /\
  count is_woken ts' = count is_woken ts + (if count is_asleep ts =? 0 then 0 else 1).
Proof.
  intros [ts0 Hz|ts0 i start d Hi]; [rewrite Hz; cbn; lia|].
  move_thread Hi. thread_counts Hi. cbn [is_holding is_asleep is_woken is_crashed Z.b2z] in *.
  destruct (Z.eqb_spec (count is_asleep ts0) 0); lia.
Qed.

Lemma inv_step a s s' : inv c q s -> lstep a s s' -> inv c q s'.
Proof.
  intros Hinv Hstep. pose proof (inv_counters s Hinv) as Hok.
  destruct Hstep as [s i now r l Hi E|s i timeout now now' r l Hi E|s i start d Hi|s i start d Hi
                    |s i start b now r l Hi E|s i start d b now r l Hi E|s i w ts Hi Hn].
  - eapply inv_effect; eauto using acquire_enter_effect.
  - eapply inv_effect; eauto using acquire_timeout_enter_effect.
  - destruct Hinv as [Ec Eq Einf Eque Hinf Hque Hwake Htot].
    thread_counts Hi; cbn in *. split; cbn [lim threads calls]; move_thread Hi; cbn; try (done || lia).
  - destruct Hinv as [Ec Eq Einf Eque Hinf Hque Hwake Htot].
    thread_counts Hi; cbn in *. split; cbn [lim threads calls]; move_thread Hi; cbn; try (done || lia).
  - rewrite <- (Z.add_0_r (calls s)). thread_counts Hi. cbn in *. pose proof (inv_queued _ _ _ Hinv).
    pose proof (count_nonneg is_asleep (threads s)). pose proof (count_nonneg is_crashed (threads s)).
    eapply inv_effect; eauto. eapply acquire_wake_effect; eauto. lia.
  - rewrite <- (Z.add_0_r (calls s)). thread_counts Hi. cbn in *. pose proof (inv_queued _ _ _ Hinv).
    pose proof (count_nonneg is_asleep (threads s)). pose proof (count_nonneg is_crashed (threads s)).
    eapply inv_effect; eauto. eapply acquire_timeout_wake_effect; eauto. lia.
  - destruct Hinv as [Ec Eq Einf Eque Hinf Hque Hwake Htot], Hok as (Hc64 & Hq64 & Hin & Hqu).
    thread_counts Hi. apply notify_one_counts in Hn as (N1 & N2 & N3 & N4).
    revert N1 N2 N3 N4. move_thread Hi. cbn [is_holding is_asleep is_woken is_crashed Z.b2z] in *. intros.
    split; cbn [lim threads calls release set_state state inflight queued cap queue_cap
                total_acquired total_rejected]; try rewrite wrapping_sub_small by (unfold is_u64 in *; lia);
      try (done || lia).
    destruct (Z.eqb_spec (count is_asleep (threads s) - 0 + 0) 0); lia.
Qed.

Lemma inv_initial n : inv c q (initial c q n).
Proof.
  unfold is_u64 in *. split; cbn; rewrite ?count_replicate; cbn; try (done || lia).
Qed.

Lemma inv_reachable s : reachable c q s -> inv c q s.
Proof.
  intros [n Hs]. eapply (steps_invariant _ (inv c q)); [|apply inv_initial|exact Hs].
  intros s1 s2 H1 [a Ha]. by eapply inv_step.
Qed.
End Invariant.

(** ** Waiters are served *)

(** Work left in a thread: a settling step always lowers the sum. *)
Definition work_of (p : phase) : Z :=
  match p with
  | Idle | Crashed => 0
  | Holding _ => 2
  | Woken _ (Some _) true => 3
  | Asleep _ _ => 4
  | Woken _ _ _ => 5
  end.

Definition work (ts : list phase) : Z := total work_of ts.

Lemma work_nonneg ts : 0 <= work ts.
Proof. apply total_nonneg. by intros [| |? [] []| |]. Qed.

Lemma work_insert ts i p p' :
  ts !! i = Some p -> work (<[i := p']> ts) = work ts - work_of p + work_of p'.
Proof. apply total_insert. Qed.

Lemma settle_work s s' : lstep Settle s s' -> work (threads s') < work (threads s).
Proof.
  inversion 1 as [| | |? i start d Hi|? i start b now r l Hi E|? i start d b now r l Hi E
                 |? i w ts Hi Hn]; subst; cbn [threads].
  - rewrite (work_insert _ _ _ _ Hi). cbn. lia.
  - rewrite (work_insert _ _ _ _ Hi). unfold acquire_wake in E. section_cases; destruct b; cbn; lia.
  - rewrite (work_insert _ _ _ _ Hi). unfold acquire_timeout_wake, timeout_loop in E.
    section_cases; cbn; try destruct b; cbn; lia.
  - assert (Hw : work ts <= work (<[i:=Idle]> (threads s)) + 1).
    { destruct Hn as [|ts0 j start d Hj]; [lia|]. rewrite (work_insert _ _ _ _ Hj). destruct d; cbn; lia. }
    rewrite (work_insert _ _ _ _ Hi) in Hw. cbn in Hw. lia.
Qed.

(** While a thread waits for a slot or holds one, some step settles work. *)
Lemma settle_enabled c q s :
  0 < c -> inv c q s ->
  (forall i p, threads s !! i = Some p -> p = Idle \/ p = Crashed) \/ exists s', lstep Settle s s'.
Proof.
  intros Hc Hinv.
  destruct (Z.eq_dec (count is_holding (threads s)) 0) as [Hh|Hh].
  - destruct (Z.eq_dec (count is_woken (threads s)) 0) as [Hw|Hw].
    + left. intros i p Hi. thread_counts Hi. destruct (inv_wakeup _ _ _ Hinv) as [Ha|Hle].
      * destruct p; cbn in *; (lia || auto).
      * rewrite (inv_inflight _ _ _ Hinv) in Hle. lia.
    + right. pose proof (count_nonneg is_woken (threads s)).
      destruct (count_pos_exists is_woken (threads s) ltac:(lia)) as (i & p & Hi & Hp).
      destruct p as [| |start [d|] b| |]; try done.
      * destruct (acquire_timeout_wake (lim s) start d b 0) as [r l] eqn:E.
        eexists. by eapply step_wake_timeout.
      * destruct (acquire_wake (lim s) start 0) as [r l] eqn:E. eexists. by eapply step_wake.
  - right. pose proof (count_nonneg is_holding (threads s)).
    destruct (count_pos_exists is_holding (threads s) ltac:(lia)) as (i & p & Hi & Hp).
    destruct p as [| | |w|]; try done.
    assert (Hts : exists ts, ts = <[i:=Idle]> (threads s)) by eauto. destruct Hts as [ts Ets].
    destruct (Z.eq_dec (count is_asleep ts) 0) as [Ha|Ha].
    + eexists. eapply step_release; [done|]. rewrite <- Ets. by apply notify_none.
    + pose proof (count_nonneg is_asleep ts).
      destruct (count_pos_exists is_asleep ts ltac:(lia)) as (j & p & Hj & Hp').
      destruct p; try done. eexists. eapply step_release; [done|]. rewrite <- Ets. by eapply notify_some.
Qed.

(** ** One thread at a time

    What a sequential client sees: a slot free at the call is granted at once
    and restored by the release. *)
Lemma acquire_release_restores l now :
  counters_ok l -> inflight (state l) < cap l ->
  exists l', acquire_enter l now = (Guard DURATION_ZERO, l') /\
    inflight (state (release l')) = inflight (state l) /\
    queued (state (release l')) = queued (state l).
Proof.
  unfold counters_ok, is_u64, acquire_enter. intros Hok Hlt.
  destruct (Z.eqb_spec (cap l) 0); [lia|]. destruct (Z.ltb_spec (inflight (state l)) (cap l)); [|lia].
  eexists. split_and!; [done| |done]. cbn.
  rewrite wrapping_add_small, wrapping_sub_small by lia. lia.
Qed.

Lemma acquire_rejected l now :
  (acquire_enter l now).1 = Fails (Errno EAGAIN) <->
  cap l = 0 \/ cap l <= inflight (state l) /\ queue_cap l <= queued (state l).
Proof.
  unfold acquire_enter. repeat case_match; cbn; split; intros; try done; lia.
Qed.

Lemma settle_run n s s' :
  nsteps (lstep Settle) n s s' -> Z.of_nat n + work (threads s') <= work (threads s).
Proof.
  induction 1 as [s|n s1 s2 s3 H1 _ IH]; [lia|]. apply settle_work in H1. lia.
Qed.

Lemma lsteps_settle n s s' : nsteps (lstep Settle) n s s' -> lsteps s s'.
Proof.
  induction 1 as [s|n s1 s2 s3 H1 _ IH]; [apply steps_refl|]. eapply steps_cons; [|exact IH]. eauto.
Qed.

Lemma crashed_step a s s' :
  lstep a s s' -> count is_crashed (threads s) <= count is_crashed (threads s').
Proof.
  assert (Hmove : forall s i p p', threads s !! i = Some p -> is_crashed p = false ->
    count is_crashed (threads s) <= count is_crashed (<[i := p']> (threads s))).
  { intros s0 i p p' Hi Hp. move_thread Hi. rewrite Hp. destruct (is_crashed p'); cbn; lia. }
  destruct 1 as [s i now r l Hi E|s i timeout now now' r l Hi E|s i start d Hi|s i start d Hi
                |s i start b now r l Hi E|s i start d b now r l Hi E|s i w ts Hi Hn];
    cbn [threads]; try (by eapply Hmove).
  apply notify_one_counts in Hn as (_ & -> & _). by eapply Hmove.
Qed.

(** ** Properties *)

Section Properties.
Context (c q : Z) (Hc : is_u64 c) (Hq : is_u64 q).

(** C20: in every interleaving of calls, wake-ups, timeouts and releases, the
    limiter's [inflight] is the number of live guards and at most [cap], and
    [queued] is the number of queued threads and at most [queue_cap]; in
    particular neither counter ever wraps. *)
Theorem limiter_counts s :
  reachable c q s ->
  inflight (state (lim s)) = count is_holding (threads s) /\ inflight (state (lim s)) <= c /\
  queued (state (lim s)) =
    count is_asleep (threads s) + count is_woken (threads s) + count is_crashed (threads s) /\
  queued (state (lim s)) <= q.
Proof. intros Hr. by destruct (inv_reachable c q Hc Hq s Hr). Qed.

(** C21: no wake-up is lost: whenever a slot is free and some thread sleeps in
    the queue, another one has already been notified and is on its way, so
    no thread sleeps beside an idle limiter. *)
Theorem limiter_no_lost_wakeup s :
  reachable c q s -> 0 < count is_asleep (threads s) ->
  inflight (state (lim s)) < c -> c - inflight (state (lim s)) <= count is_woken (threads s).
Proof. intros Hr Ha Hf. destruct (inv_wakeup _ _ _ (inv_reachable c q Hc Hq s Hr)); lia. Qed.

(** C22: Waiting ends: without new calls and without spurious wake-ups, every
    schedule stops after at most [work] steps, and where it stops no thread
    is left waiting for a slot or holding one (a thread that panicked in
    [acquire_timeout] apart). *)
Theorem limiter_waiters_served s n s' :
  0 < c -> reachable c q s -> nsteps (lstep Settle) n s s' ->
  Z.of_nat n <= work (threads s) /\
  ((forall s'', ~ lstep Settle s' s'') ->
   forall i p, threads s' !! i = Some p -> p = Idle \/ p = Crashed).
Proof.
  intros Hpos Hr Hn. split.
  - pose proof (settle_run _ _ _ Hn). pose proof (work_nonneg (threads s')). lia.
  - intros Hstuck. assert (Hr' : reachable c q s').
    { destruct Hr as [k Hk]. exists k. by eapply steps_trans, lsteps_settle. }
    destruct (settle_enabled c q s' Hpos (inv_reachable c q Hc Hq s' Hr')) as [Hall|[s'' Hs]];
      [exact Hall|by destruct (Hstuck s'')].
Qed.

(** Some schedule stops. *)
Lemma limiter_can_stop s :
  0 < c -> inv c q s -> exists n s', nsteps (lstep Settle) n s s' /\ forall s'', ~ lstep Settle s' s''.
Proof.
  intros Hpos. remember (Z.to_nat (work (threads s))) as m eqn:Em. revert s Em.
  induction m as [m IH] using lt_wf_ind. intros s Em Hinv.
  destruct (settle_enabled c q s Hpos Hinv) as [Hall|[s1 Hs]].
  - exists 0%nat, s. split; [apply nsteps_O|]. intros s'' Hs. inversion Hs; subst;
      match goal with Hi : threads s !! _ = Some _ |- _ => by apply Hall in Hi as [|] end.
  - pose proof (settle_work _ _ Hs). pose proof (work_nonneg (threads s1)).
    destruct (IH (Z.to_nat (work (threads s1))) ltac:(lia) s1 eq_refl) as (n & s' & Hn & Hstuck);
      [by eapply inv_step|]. exists (S n), s'. split; [by eapply nsteps_l|exact Hstuck].
Qed.

(** Calls are accounted for: modulo 2^64, admissions, rejections and
    threads still in the queue add up to the calls made. *)
Theorem limiter_calls_accounted s :
  reachable c q s ->
  wrap64 (total_acquired (state (lim s)) + total_rejected (state (lim s))) =
  wrap64 (calls s - (count is_asleep (threads s) + count is_woken (threads s)
                     + count is_crashed (threads s))).
Proof.
  intros Hr. pose proof (inv_reachable c q Hc Hq s Hr) as Hinv.
  rewrite <- (inv_queued _ _ _ Hinv). apply Hinv.
Qed.
End Properties.

(** [acquire] rejects with EAGAIN exactly when the cap is zero, or every slot
    and every place in the queue is taken; otherwise it returns a guard or
    waits. A rejection moves neither [inflight] nor [queued]. *)
Theorem acquire_rejects l now :
  ((acquire_enter l now).1 = Fails (Errno EAGAIN) <->
   cap l = 0 \/ cap l <= inflight (state l) /\ queue_cap l <= queued (state l)) /\
  ((acquire_enter l now).1 = Fails (Errno EAGAIN) ->
   inflight (state (acquire_enter l now).2) = inflight (state l) /\
   queued (state (acquire_enter l now).2) = queued (state l)).
Proof.
  split; [apply acquire_rejected|]. unfold acquire_enter. by repeat case_match.
Qed.

(** C39: a timeout whose deadline the clock cannot represent makes
    [acquire_timeout] panic after it has entered the queue, and in no later
    state is that place in the queue given back. *)
Theorem acquire_timeout_leaks l timeout now now' :
  counters_ok l -> 0 < cap l -> inflight (state l) = cap l -> queued (state l) < queue_cap l ->
  INSTANT_MAX < now + timeout ->
  (acquire_timeout_enter l timeout now now').1 = Panics /\
  queued (state (acquire_timeout_enter l timeout now now').2) = queued (state l) + 1 /\
  (forall s s', lsteps s s' -> count is_crashed (threads s) <= count is_crashed (threads s')).
Proof.
  unfold counters_ok, is_u64. intros Hok Hcap Hfull Hroom Hover. unfold acquire_timeout_enter.
  destruct (Z.eqb_spec (cap l) 0); [lia|]. destruct (Z.ltb_spec (inflight (state l)) (cap l)); [lia|].
  destruct (Z.leb_spec (queue_cap l) (queued (state l))); [lia|].
  unfold instant_add. destruct (Z.leb_spec (now + timeout) INSTANT_MAX); [lia|].
  split_and!; [done|cbn; rewrite wrapping_add_small; lia|].
  intros s s' Hs. induction Hs as [|s1 s2 s3 [a Ha] _ IH]; [done|].
  pose proof (crashed_step _ _ _ Ha). lia.
Qed.

(** *** No order among callers *)

(** A limiter of one slot and one place in the queue, both taken: thread 1 has
    been waiting since instant 5, and [k] calls have been made. *)
Definition one_waiting (k acquired : Z) : System :=
  {| lim := {| state := {| inflight := 1; queued := 1; total_acquired := acquired; total_rejected := 0;
                           total_queue_wait_ns := 0 |}; cap := 1; queue_cap := 1 |};
     threads := [Holding 0; Asleep 5 None]; calls := k |}.

(** A step after which thread 1 has no guard. *)
Definition passes_by (s s' : System) : Prop :=
  (exists a, lstep a s s') /\ forall w, threads s' !! 1%nat <> Some (Holding w).

(** The guard is dropped, thread 1 is notified, but another call takes the
    slot first. *)
Lemma one_overtaken k acquired :
  steps passes_by (one_waiting k acquired) (one_waiting (k + 1) (wrapping_add acquired 1)).
Proof.
  set (freed := {| lim := release (lim (one_waiting k acquired)); threads := [Idle; Woken 5 None false]; calls := k |}).
  set (taken := {| lim := lim (one_waiting k (wrapping_add acquired 1)); threads := [Holding 0; Woken 5 None false];
                   calls := k + 1 |}).
  apply (steps_cons passes_by _ freed); [split; [exists Settle|done]|].
  { apply (step_release (one_waiting k acquired) 0 0); [done|]. by apply (notify_some [Idle; Asleep 5 None] 1 5 None). }
  apply (steps_cons passes_by _ taken); [split; [exists Call|done]|].
  { by apply (step_acquire freed 0 6 (Guard DURATION_ZERO) (lim taken)). }
  apply (steps_cons passes_by _ (one_waiting (k + 1) (wrapping_add acquired 1))); [split; [exists Settle|done]|apply steps_refl].
  by apply (step_wake taken 1 5 false 6 (Waits 5 None) (lim taken)).
Qed.

(** Slots are not handed out in the order of arrival, and the wait in the
    queue has no bound: for every [n] there is a run in which [n] later calls
    are admitted one after the other while a thread that was notified each
    time stays in the queue. *)
Theorem limiter_overtakes n :
  exists acquired, steps passes_by (one_waiting 2 1) (one_waiting (2 + Z.of_nat n) acquired).
Proof.
  induction n as [|n [acquired IH]]; [exists 1; apply steps_refl|].
  exists (wrapping_add acquired 1). eapply steps_trans; [exact IH|].
  replace (2 + Z.of_nat (S n)) with (2 + Z.of_nat n + 1) by lia. apply one_overtaken.
Qed.

(** ** Witnesses *)

(** One guard and two sleepers on a limiter of one slot, after three calls. *)
Definition two_waiting : System :=
  {| lim := {| state := {| inflight := 1; queued := 2; total_acquired := 1; total_rejected := 0;
                           total_queue_wait_ns := 0 |}; cap := 1; queue_cap := 2 |};
     threads := [Holding 0; Asleep 5 None; Asleep 5 None]; calls := 3 |}.

Lemma two_waiting_reachable : reachable 1 2 two_waiting.
Proof.
  exists 3%nat. eapply steps_cons; [exists Call; by eapply (step_acquire _ 0 5)|].
  eapply steps_cons; [exists Call; by eapply (step_acquire _ 1 5)|].
  eapply steps_cons; [exists Call; by eapply (step_acquire _ 2 5)|]. apply steps_refl.
Qed.

(** The guard is dropped: one sleeper has been notified, the slot is free. *)
Definition one_notified : System :=
  {| lim := release (lim two_waiting); threads := [Idle; Woken 5 None false; Asleep 5 None]; calls := 3 |}.

Lemma one_notified_step : lstep Settle two_waiting one_notified.
Proof.
  apply (step_release two_waiting 0 0 [Idle; Woken 5 None false; Asleep 5 None]); [done|].
  by apply (notify_some [Idle; Asleep 5 None; Asleep 5 None] 1 5 None).
Qed.

Lemma one_notified_reachable : reachable 1 2 one_notified.
Proof.
  destruct two_waiting_reachable as [n Hn]. exists n.
  eapply steps_trans; [exact Hn|]. apply steps_one. exists Settle. apply one_notified_step.
Qed.

Lemma u64_1 : is_u64 1.
Proof. done. Qed.

Lemma u64_2 : is_u64 2.
Proof. done. Qed.

Lemma limiter_counts_witness :
  inflight (state (lim two_waiting)) = count is_holding (threads two_waiting) /\ queued (state (lim two_waiting)) <= 2.
Proof.
  destruct (limiter_counts 1 2 u64_1 u64_2 two_waiting two_waiting_reachable) as (H1 & _ & _ & H2).
  split; [exact H1|exact H2].
Defined.

Lemma limiter_no_lost_wakeup_witness : 1 - 0 <= count is_woken (threads one_notified).
Proof. exact (limiter_no_lost_wakeup 1 2 u64_1 u64_2 one_notified one_notified_reachable eq_refl eq_refl). Defined.

Lemma limiter_waiters_served_witness :
  exists n s', nsteps (lstep Settle) n two_waiting s' /\ Z.of_nat n <= work (threads two_waiting) /\
    forall i p, threads s' !! i = Some p -> p = Idle \/ p = Crashed.
Proof.
  destruct (limiter_can_stop 1 2 u64_1 u64_2 two_waiting eq_refl (inv_reachable 1 2 u64_1 u64_2 _ two_waiting_reachable))
    as (n & s' & Hn & Hstuck). exists n, s'. split; [exact Hn|].
  destruct (limiter_waiters_served 1 2 u64_1 u64_2 two_waiting n s' eq_refl two_waiting_reachable Hn) as [Hle Hrest].
  split; [exact Hle|exact (Hrest Hstuck)].
Defined.

Lemma limiter_calls_accounted_witness : wrap64 (1 + 0) = wrap64 (3 - (2 + 0 + 0)).
Proof. exact (limiter_calls_accounted 1 2 u64_1 u64_2 two_waiting two_waiting_reachable). Defined.

Lemma full_counters_ok : counters_ok {| state := admit_now (state (new 1 1)); cap := 1; queue_cap := 1 |}.
Proof. unfold counters_ok, is_u64. cbn. change (wrapping_add 0 1) with 1. lia. Qed.

Lemma acquire_timeout_leaks_witness :
  (acquire_timeout_enter {| state := admit_now (state (new 1 1)); cap := 1; queue_cap := 1 |}
     DURATION_MAX 0 0).1 = Panics.
Proof.
  exact (proj1 (acquire_timeout_leaks _ DURATION_MAX 0 0 full_counters_ok eq_refl eq_refl eq_refl eq_refl)).
Defined.
