(* ===== verification/Bandwidth.v ===== *)
(** * The token-bucket bandwidth limiter

    [fusecraft-core/src/limiter/bandwidth.rs]. Each method is one critical
    section of the mutex: a function on the limiter. A method that may read the
    clock takes the reading as the argument [now]. *)

From stdpp Require Import base list numbers gmap.
From Stdlib Require Import ZArith Lia Bool.

From S2P Require Import Prelude Word Float Rounding Binary64 Time Op Config Sampler.

Local Open Scope Z_scope.

Record BandwidthStats : Type := {
  tokens_available : f64;
  stat_bytes_per_sec : f64;
  stat_burst_bytes : Z;
  stat_total_bytes_reserved : Z;
  stat_total_throttled : Z
}.

Record BucketState : Type := {
  tokens : f64;
  last : Instant;
  total_bytes_reserved : Z;
  total_throttled : Z
}.

Record BandwidthLimiter : Type := {
  rate : f64;
  capacity : f64;
  bucket : BucketState
}.

Definition set_bucket (self : BandwidthLimiter) (st : BucketState) : BandwidthLimiter :=
  {| rate := rate self; capacity := capacity self; bucket := st |}.

Definition bw_new (profile : BandwidthProfile) (now : Instant) : BandwidthLimiter :=
  {| rate := bytes_per_sec profile;
     capacity := f64_of_Z (burst_bytes profile);
     bucket := {| tokens := f64_of_Z (burst_bytes profile); last := now;
                  total_bytes_reserved := 0; total_throttled := 0 |} |}.

Definition refill (self : BandwidthLimiter) (st : BucketState) (now : Instant) : BucketState :=
  let elapsed := duration_since now (last st) in
  if is_zero elapsed then st
  else
    {| tokens :=
         if f64_gt (rate self) f64_zero then
           let added := f64_mul (as_secs_f64 elapsed) (rate self) in
           f64_min (f64_add (tokens st) added) (capacity self)
         else tokens st;
       last := now;
       total_bytes_reserved := total_bytes_reserved st;
       total_throttled := total_throttled st |}.

Definition count_bytes (st : BucketState) (bytes : Z) : BucketState :=
  {| tokens := tokens st; last := last st;
     total_bytes_reserved := saturating_add (total_bytes_reserved st) bytes;
     total_throttled := total_throttled st |}.

Definition take_tokens (st : BucketState) (needed : f64) : BucketState :=
  {| tokens := f64_sub (tokens st) needed; last := last st;
     total_bytes_reserved := total_bytes_reserved st;
     total_throttled := total_throttled st |}.

Definition count_throttled (st : BucketState) : BucketState :=
  {| tokens := tokens st; last := last st;
     total_bytes_reserved := total_bytes_reserved st;
     total_throttled := wrapping_add (total_throttled st) 1 |}.

(** [Duration::try_from_secs_f64(..).unwrap_or(Duration::MAX)] *)
Definition wait_for_deficit (self : BandwidthLimiter) (deficit : f64) : Duration :=
  let wait_secs := f64_div deficit (rate self) in
  match try_from_secs_f64 wait_secs with
  | Some d => d
  | None => DURATION_MAX
  end.

Definition reserve (self : BandwidthLimiter) (bytes : Z) (now : Instant) : Duration * BandwidthLimiter :=
  if bytes =? 0 then (DURATION_ZERO, self)
  else
    let st := count_bytes (bucket self) bytes in
    if f64_le (rate self) f64_zero then (DURATION_ZERO, set_bucket self st)
    else
      let st := take_tokens (refill self st now) (f64_of_Z bytes) in
      if f64_ge (tokens st) f64_zero then (DURATION_ZERO, set_bucket self st)
      else
        let st := count_throttled st in
        (wait_for_deficit self (f64_neg (tokens st)), set_bucket self st).

Definition bw_stats (self : BandwidthLimiter) (now : Instant) : BandwidthStats * BandwidthLimiter :=
  let st := refill self (bucket self) now in
  ({| tokens_available := f64_max (tokens st) f64_zero;
      stat_bytes_per_sec := rate self;
      stat_burst_bytes := f64_to_u64 (capacity self);
      stat_total_bytes_reserved := total_bytes_reserved st;
      stat_total_throttled := total_throttled st |}, set_bucket self st).

(** ** Invariant

    The balance is a number no larger than the capacity: the bucket never
    holds more than one burst. *)

Record bw_wf (l : BandwidthLimiter) : Prop := {
  bw_rate_valid : valid (rate l);
  bw_capacity : exists burst, is_u64 burst /\ capacity l = f64_of_Z burst;
  bw_tokens_valid : valid (tokens (bucket l));
  bw_last : is_instant (last (bucket l));
  bw_tokens_le : f64_le (tokens (bucket l)) (capacity l) = true
}.

Lemma f64_of_u64 n :
  is_u64 n -> valid (f64_of_Z n) /\ is_finite (f64_of_Z n) = true /\ f64_le f64_zero (f64_of_Z n) = true.
Proof.
  unfold is_u64. intros Hn. split_and!; [apply f64_of_Z_valid; lia|apply f64_of_Z_finite; lia|].
  apply (f64_of_Z_mono 0); lia.
Qed.

(** Below a finite bound there is only the negative infinity to set apart. *)
Lemma f64_le_finite_cases x y :
  is_finite y = true -> f64_le x y = true -> is_finite x = true \/ x = S754_infinity true.
Proof. destruct x as [[]|[]| |[] ? ?], y as [[]|[]| |[] ? ?]; try done; intros; auto. Qed.

Lemma f64_sub_bounded x n y :
  valid x -> is_u64 n -> is_finite y = true -> f64_le x y = true ->
  valid (f64_sub x (f64_of_Z n)) /\ f64_le (f64_sub x (f64_of_Z n)) x = true.
Proof.
  intros Hx Hn Hy Hle. destruct (f64_of_u64 n Hn) as (Hv & Hf & Hp).
  destruct (f64_le_finite_cases x y Hy Hle) as [Hfx| ->].
  - split; [by apply f64_sub_valid|by apply f64_sub_le].
  - destruct (f64_of_Z n) as [[]|[]| |[] ? ?]; done.
Qed.

Lemma refill_wf l st now :
  bw_wf (set_bucket l st) -> is_instant now -> bw_wf (set_bucket l (refill l st now)).
Proof.
  intros [Hr (b & Hb & Ec) Hv Hlast Hle] Hnow. cbn in *. unfold refill.
  destruct (is_zero (duration_since now (last st))) eqn:Ez; [split; cbn; eauto|].
  destruct (f64_of_u64 b Hb) as (Hcv & Hcf & _). rewrite <- Ec in Hcv, Hcf.
  split; cbn; [done|eauto| |done|]; case_match; try done.
  - apply f64_min_valid; [|done]. apply f64_add_valid; [done|]. apply f64_mul_valid; [|done].
    apply as_secs_f64_valid. by apply duration_since_duration.
  - apply f64_min_le_r. by apply is_finite_not_nan.
Qed.

Lemma take_tokens_wf l st n :
  bw_wf (set_bucket l st) -> is_u64 n -> bw_wf (set_bucket l (take_tokens st (f64_of_Z n))).
Proof.
  intros [Hr (b & Hb & Ec) Hv Hlast Hle] Hn. cbn in *.
  destruct (f64_of_u64 b Hb) as (Hcv & Hcf & _). rewrite <- Ec in Hcv, Hcf.
  destruct (f64_sub_bounded _ _ _ Hv Hn Hcf Hle) as [Hsv Hsle].
  split; cbn; [done|eauto|done|done|]. by eapply f64_le_trans.
Qed.

Lemma bw_new_wf p now :
  valid (bytes_per_sec p) -> is_u64 (burst_bytes p) -> is_instant now -> bw_wf (bw_new p now).
Proof.
  intros Hr Hb Hn. destruct (f64_of_u64 _ Hb) as (Hv & Hf & _).
  split; cbn; [done|eauto|done|done|]. apply f64_le_refl. by apply is_finite_not_nan.
Qed.

Lemma reserve_wf l bytes now :
  bw_wf l -> is_u64 bytes -> is_instant now -> bw_wf (reserve l bytes now).2.
Proof.
  intros Hwf Hb Hn. unfold reserve. destruct (bytes =? 0); [done|].
  assert (Hc : bw_wf (set_bucket l (count_bytes (bucket l) bytes))) by by destruct Hwf; split.
  destruct (f64_le (rate l) f64_zero); [done|].
  pose proof (take_tokens_wf l _ bytes (refill_wf l _ now Hc Hn) Hb) as Ht.
  case_match; [done|]. by destruct Ht; split.
Qed.

Lemma bw_stats_wf l now : bw_wf l -> is_instant now -> bw_wf (bw_stats l now).2.
Proof. intros Hwf Hn. apply refill_wf; [|done]. by destruct Hwf; split. Qed.

(** ** What [reserve] returns *)

Lemma wait_for_deficit_duration l x : valid x -> valid (rate l) -> is_duration (wait_for_deficit l x).
Proof.
  intros Hx Hr. unfold wait_for_deficit. case_match eqn:E.
  - apply try_from_secs_f64_duration in E; [done|]. by apply f64_div_valid.
  - unfold is_duration, DURATION_MAX, NANOS_PER_SEC. lia.
Qed.

Lemma reserve_duration l bytes now :
  bw_wf l -> is_u64 bytes -> is_instant now -> is_duration (reserve l bytes now).1.
Proof.
  intros Hwf Hb Hn. pose proof (reserve_wf l bytes now Hwf Hb Hn) as Hwf'. revert Hwf'.
  assert (Hz : is_duration DURATION_ZERO) by (unfold is_duration, DURATION_MAX, NANOS_PER_SEC, DURATION_ZERO; lia).
  unfold reserve. destruct (bytes =? 0); [done|]. destruct (f64_le (rate l) f64_zero); [done|].
  case_match; [done|]. intros Hwf'. apply wait_for_deficit_duration; [|apply Hwf].
  apply valid_neg. apply Hwf'.
Qed.

(** The balance [reserve] compares with the request. *)
Definition balance (l : BandwidthLimiter) (now : Instant) : f64 := tokens (refill l (bucket l) now).

Lemma tokens_refill_count l bytes now :
  tokens (refill l (count_bytes (bucket l) bytes) now) = balance l now.
Proof. unfold balance, refill. cbn. by case_match. Qed.

Lemma balance_wf l now :
  bw_wf l -> is_instant now ->
  valid (balance l now) /\ exists y, is_finite y = true /\ f64_le (balance l now) y = true.
Proof.
  intros Hwf Hn. destruct (bw_stats_wf l now Hwf Hn) as [_ (b & Hb & Ec) Hv _ Hle].
  split; [done|]. exists (capacity l). split; [|done]. cbn in Ec. rewrite Ec. by apply f64_of_u64.
Qed.

(** A request within the balance is free. *)
Lemma reserve_within l bytes now :
  bw_wf l -> is_u64 bytes -> is_instant now ->
  f64_le (f64_of_Z bytes) (balance l now) = true ->
  (reserve l bytes now).1 = DURATION_ZERO.
Proof.
  intros Hwf Hb Hn Hle. unfold reserve. destruct (bytes =? 0); [done|].
  destruct (f64_le (rate l) f64_zero); [done|].
  destruct (f64_of_u64 bytes Hb) as (Hv & Hf & Hp).
  destruct (balance_wf l now Hwf Hn) as [Hbv (y & Hy & Hby)].
  cbn [tokens take_tokens]. rewrite tokens_refill_count.
  destruct (f64_le_finite_cases _ _ Hy Hby) as [Hbf|E].
  - unfold f64_ge. by rewrite f64_sub_nonneg.
  - rewrite E in Hle. by destruct (f64_of_Z bytes) as [[]|[]| |[] ? ?].
Qed.

(** A request beyond it is throttled, for the time the deficit takes at the
    configured rate. *)
Lemma reserve_beyond l bytes now :
  bw_wf l -> is_u64 bytes -> is_instant now -> bytes <> 0 -> f64_le (rate l) f64_zero = false ->
  f64_lt (balance l now) (f64_of_Z bytes) = true ->
  (reserve l bytes now).1 = wait_for_deficit l (f64_neg (f64_sub (balance l now) (f64_of_Z bytes))) /\
  total_throttled (bucket (reserve l bytes now).2) = wrapping_add (total_throttled (bucket l)) 1.
Proof.
  intros Hwf Hb Hn Hne Hr Hlt. unfold reserve. destruct (Z.eqb_spec bytes 0); [done|]. rewrite Hr.
  destruct (f64_of_u64 bytes Hb) as (Hv & Hf & Hp).
  destruct (balance_wf l now Hwf Hn) as [Hbv (y & Hy & Hby)].
  cbn [tokens take_tokens]. rewrite tokens_refill_count.
  assert (Hneg : f64_ge (f64_sub (balance l now) (f64_of_Z bytes)) f64_zero = false).
  { unfold f64_ge. destruct (f64_le_finite_cases _ _ Hy Hby) as [Hbf|E].
    - pose proof (f64_sub_neg _ _ Hbv Hv Hbf Hf Hlt) as Hs.
      destruct (f64_le f64_zero (f64_sub (balance l now) (f64_of_Z bytes))) eqn:Hle; [|done].
      by rewrite (f64_le_lt_false _ _ Hle) in Hs.
    - rewrite E in *. destruct (f64_of_Z bytes) as [[]|[]| |[] ? ?]; done. }
  rewrite Hneg. split; [cbn; by rewrite tokens_refill_count|].
  cbn. unfold refill. cbn. by destruct (is_zero _).
Qed.

(** ** Sequences of requests *)

Fixpoint reserve_all (l : BandwidthLimiter) (reqs : list (Z * Instant)) : BandwidthLimiter :=
  match reqs with
  | [] => l
  | (bytes, now) :: reqs' => reserve_all (reserve l bytes now).2 reqs'
  end.

Definition sum_bytes (reqs : list (Z * Instant)) : Z := foldr (fun p acc => p.1 + acc) 0 reqs.

Lemma reserve_total l bytes now :
  total_bytes_reserved (bucket (reserve l bytes now).2) =
  if bytes =? 0 then total_bytes_reserved (bucket l)
  else saturating_add (total_bytes_reserved (bucket l)) bytes.
Proof. unfold reserve, refill. cbn. by repeat case_match. Qed.

Lemma reserve_all_total l reqs :
  Forall (fun p => 0 <= p.1) reqs -> 0 <= total_bytes_reserved (bucket l) <= U64_MAX ->
  total_bytes_reserved (bucket (reserve_all l reqs)) =
  saturating_add (total_bytes_reserved (bucket l)) (sum_bytes reqs).
Proof.
  intros HF. revert l. induction HF as [|[b t] reqs Hb HF IH]; intros l Hl; cbn in *.
  - unfold saturating_add. lia.
  - assert (Hs : 0 <= sum_bytes reqs).
    { clear -HF. unfold sum_bytes. induction HF as [|[b t] reqs Hb HF IH]; cbn in *; lia. }
    pose proof (reserve_total l b t) as Ht. unfold saturating_add in *.
    rewrite IH; rewrite Ht; destruct (Z.eqb_spec b 0); unfold sum_bytes in *; lia.
Qed.

(** ** The long run

    The tokens in units of 2^-1074, exactly: one byte is [BYTE] units. *)

Definition BYTE : Z := 2 ^ 1074.

Lemma bytes_exact n : 0 <= n <= 2 ^ 53 -> scaled (f64_of_Z n) = n * BYTE.
Proof. apply f64_of_Z_exact. Qed.

Lemma byte_nonneg n : 0 <= n -> 0 <= n * BYTE.
Proof. intros. by apply Z.mul_nonneg_nonneg. Qed.

(** What the time since the last request adds, as the refill computes it. *)
Definition elapsed_credit (l : BandwidthLimiter) (now : Instant) : f64 :=
  let elapsed := duration_since now (last (bucket l)) in
  if is_zero elapsed then f64_zero else f64_mul (as_secs_f64 elapsed) (rate l).

(** The credits of a sequence of requests, added up; a request of zero bytes
    does not look at the clock. *)
Fixpoint credit (l : BandwidthLimiter) (reqs : list (Z * Instant)) : Z :=
  match reqs with
  | [] => 0
  | (bytes, now) :: reqs' =>
      (if bytes =? 0 then 0 else scaled (elapsed_credit l now)) + credit (reserve l bytes now).2 reqs'
  end.

Fixpoint credits_finite (l : BandwidthLimiter) (reqs : list (Z * Instant)) : bool :=
  match reqs with
  | [] => true
  | (bytes, now) :: reqs' =>
      ((bytes =? 0) || is_finite (elapsed_credit l now)) && credits_finite (reserve l bytes now).2 reqs'
  end.

Lemma not_neg_scaled x : valid x -> is_finite x = true -> not_neg x = true -> 0 <= scaled x.
Proof.
  intros Hv Hf Hn. unfold not_neg in Hn. rewrite f64_lt_scaled in Hn by done.
  by apply negb_true_iff, Z.ltb_ge in Hn.
Qed.

Lemma as_secs_f64_not_neg d : 0 <= d <= DURATION_MAX -> not_neg (as_secs_f64 d) = true.
Proof.
  unfold DURATION_MAX. intros Hd.
  pose proof (Z.mod_pos_bound d NANOS_PER_SEC ltac:(unfold NANOS_PER_SEC; lia)) as Hm.
  pose proof (Z.div_pos d NANOS_PER_SEC ltac:(lia) ltac:(unfold NANOS_PER_SEC; lia)) as Hq.
  pose proof (Z.div_lt_upper_bound d NANOS_PER_SEC (2 ^ 64) ltac:(unfold NANOS_PER_SEC; lia) ltac:(lia)) as Hq'.
  destruct (f64_of_u64 (d / NANOS_PER_SEC)) as (Hv & Hf & Hp); [unfold is_u64; lia|].
  destruct (f64_of_u64 (d mod NANOS_PER_SEC)) as (Hv' & Hf' & Hp'); [unfold is_u64, NANOS_PER_SEC in *; lia|].
  assert (Hn : not_neg (f64_div (f64_of_Z (d mod NANOS_PER_SEC)) (f64_of_Z NANOS_PER_SEC)) = true).
  { apply f64_div_not_neg; [|done]. unfold not_neg. by rewrite (f64_le_lt_false _ _ Hp'). }
  unfold as_secs_f64. destruct (f64_add_ge _ _ Hv (f64_div_valid _ _ Hv' (proj1 (f64_of_u64 NANOS_PER_SEC ltac:(done)))) Hf Hn)
    as [Hle|Hnan].
  - unfold not_neg. by rewrite (f64_le_lt_false _ _ (f64_le_trans _ _ _ Hp Hle)).
  - by destruct (f64_add _ _).
Qed.

Lemma elapsed_credit_valid l now :
  bw_wf l -> is_instant now -> f64_lt f64_zero (rate l) = true ->
  valid (elapsed_credit l now) /\ not_neg (elapsed_credit l now) = true.
Proof.
  intros Hwf Hn Hr. unfold elapsed_credit. case_match; [done|].
  pose proof (duration_since_duration now (last (bucket l)) Hn (bw_last _ Hwf)) as Hd.
  split; [apply f64_mul_valid; [by apply as_secs_f64_valid|apply Hwf]|].
  apply f64_mul_not_neg; [|done]. by apply as_secs_f64_not_neg.
Qed.

(** A cap on a rounded sum: no more than the sum and its rounding error. *)
Lemma capped_sum t a c :
  valid t -> valid a -> valid c -> is_finite t = true -> is_finite a = true -> is_finite c = true ->
  scaled t <= scaled c -> 0 <= scaled a ->
  let t1 := f64_min (f64_add t a) c in
  valid t1 /\ is_finite t1 = true /\ scaled t <= scaled t1 <= scaled c /\
  2 ^ 53 * (scaled t1 - (scaled t + scaled a)) <= Z.max (Z.abs (scaled t)) (Z.abs (scaled c)).
Proof.
  intros Hvt Hva Hvc Hft Hfa Hfc Htc Ha.
  destruct (f64_add_correct t a Hvt Hva Hft Hfa) as (Hv & Hfin & Hinf).
  destruct (scaled_representable c Hvc Hfc) as [Rc Oc]. destruct (scaled_representable t Hvt Hft) as [Rt Ot].
  set (N := scaled t + scaled a) in *. set (x := f64_add t a) in *. cbn zeta.
  pose proof (roundZ_error N) as Herr. pose proof (roundZ_mono (scaled t) N ltac:(lia)) as Hlo.
  assert (Hup : N <= scaled c -> roundZ N <= scaled c) by (rewrite <- Rc at 2; apply roundZ_mono).
  assert (Hdn : scaled c <= N -> scaled c <= roundZ N) by (rewrite <- Rc at 2; apply roundZ_mono).
  unfold f64_min. rewrite (is_finite_not_nan c Hfc).
  destruct (Z.lt_ge_cases (Z.abs (roundZ N)) OVERFLOW) as [Ho|Ho].
  - destruct (Hfin Ho) as [Hfx Hsx]. rewrite (is_finite_not_nan x Hfx), f64_lt_scaled by done. rewrite Hsx.
    destruct (Z.ltb_spec (scaled c) (roundZ N)); split_and!; try done; try lia.
  - rewrite (Hinf Ho). assert ((N <? 0) = false) as -> by (apply Z.ltb_ge; lia). cbn [is_nan].
    assert (f64_lt c (S754_infinity false) = true) as -> by by destruct c as [[]|[]| |[] ? ?].
    split_and!; try done; try lia.
Qed.

(** The balance after the bytes of [spent] requested bytes so far: finite, and
    between a debt of those bytes and the capacity. *)
Record solvent (l : BandwidthLimiter) (spent : Z) : Prop := {
  sol_wf : bw_wf l;
  sol_rate : f64_lt f64_zero (rate l) = true;
  sol_finite : is_finite (tokens (bucket l)) = true;
  sol_debt : - (spent * BYTE) <= scaled (tokens (bucket l));
  sol_total : 0 <= spent <= 2 ^ 53
}.

Lemma bw_wf_capacity l : bw_wf l -> valid (capacity l) /\ is_finite (capacity l) = true /\ 0 <= scaled (capacity l).
Proof.
  intros [_ (b & Hb & ->) _ _ _]. destruct (f64_of_u64 b Hb) as (Hv & Hf & Hp). split_and!; [done|done|].
  rewrite f64_le_scaled in Hp by done. by apply Z.leb_le in Hp.
Qed.

Lemma solvent_tokens_le l spent : solvent l spent -> scaled (tokens (bucket l)) <= scaled (capacity l).
Proof.
  intros [Hwf _ Hf _ _]. destruct (bw_wf_capacity l Hwf) as (Hv & Hfc & _).
  pose proof (bw_tokens_le _ Hwf) as Hle. rewrite f64_le_scaled in Hle by (done || apply Hwf). by apply Z.leb_le.
Qed.

(** Refilling, for a positive rate. *)
Lemma balance_credit l now spent :
  solvent l spent -> is_instant now -> is_finite (elapsed_credit l now) = true ->
  valid (balance l now) /\ is_finite (balance l now) = true /\
  scaled (tokens (bucket l)) <= scaled (balance l now) <= scaled (capacity l) /\
  2 ^ 53 * (scaled (balance l now) - (scaled (tokens (bucket l)) + scaled (elapsed_credit l now))) <=
    scaled (capacity l) + spent * BYTE.
Proof.
  intros Hs Hn Hf. pose proof (solvent_tokens_le _ _ Hs) as Hle. destruct Hs as [Hwf Hr Hft Hd Ht].
  destruct (bw_wf_capacity l Hwf) as (Hvc & Hfc & Hc).
  destruct (elapsed_credit_valid l now Hwf Hn Hr) as [Hva Hna].
  pose proof (byte_nonneg spent ltac:(lia)).
  unfold balance, refill. unfold elapsed_credit in *. destruct (is_zero _).
  - pose proof (bw_tokens_valid _ Hwf). change (scaled f64_zero) with 0.
    split_and!; try done; try lia.
  - cbn [tokens]. unfold f64_gt. rewrite Hr.
    destruct (capped_sum (tokens (bucket l)) _ (capacity l) (bw_tokens_valid _ Hwf) Hva Hvc Hft Hf Hfc Hle)
      as (H1 & H2 & H3 & H4); [by apply not_neg_scaled|].
    split_and!; try done; try lia.
Qed.

(** One request that takes tokens. *)
Lemma reserve_balance l bytes now :
  bytes <> 0 -> f64_lt f64_zero (rate l) = true ->
  tokens (bucket (reserve l bytes now).2) = f64_sub (balance l now) (f64_of_Z bytes) /\
  rate (reserve l bytes now).2 = rate l /\ capacity (reserve l bytes now).2 = capacity l.
Proof.
  intros Hb Hr. unfold reserve. destruct (Z.eqb_spec bytes 0); [done|].
  assert (f64_le (rate l) f64_zero = false) as -> by by destruct (rate l) as [[]|[]| |[] ? ?].
  cbn [tokens take_tokens]. rewrite tokens_refill_count. case_match; cbn; by rewrite ?tokens_refill_count.
Qed.

Lemma reserve_solvent l spent bytes now :
  solvent l spent -> is_instant now -> 0 < bytes -> spent + bytes <= 2 ^ 53 ->
  is_finite (elapsed_credit l now) = true ->
  solvent (reserve l bytes now).2 (spent + bytes) /\
  2 ^ 53 * (bytes * BYTE - (scaled (tokens (bucket l)) + scaled (elapsed_credit l now)
                            - scaled (tokens (bucket (reserve l bytes now).2)))) <=
    2 * (scaled (capacity l) + (spent + bytes) * BYTE).
Proof.
  intros Hs Hn Hb Hsum Hf.
  destruct (balance_credit l now spent Hs Hn Hf) as (Hv & Hfb & Hbal & Herr).
  pose proof Hs as [Hwf Hr Hft Hd Ht]. destruct (bw_wf_capacity l Hwf) as (Hvc & Hfc & Hc).
  destruct (reserve_balance l bytes now ltac:(lia) Hr) as (Et & Er & Ec).
  assert (Hu : is_u64 bytes) by (unfold is_u64; lia).
  destruct (f64_of_u64 bytes Hu) as (Hvn & Hfn & _).
  pose proof (bytes_exact bytes ltac:(lia)) as En.
  destruct (f64_sub_correct _ _ Hv Hvn Hfb Hfn) as (Hvs & Hfin & _). rewrite <- Et in Hvs, Hfin.
  set (N := scaled (balance l now) - scaled (f64_of_Z bytes)) in *.
  pose proof (roundZ_error N) as HerrN.
  destruct (scaled_representable _ Hvc Hfc) as [Rc Oc].
  assert (Hdebt : roundZ (- ((spent + bytes) * BYTE)) = - ((spent + bytes) * BYTE)).
  { rewrite roundZ_opp. f_equal. rewrite <- (bytes_exact (spent + bytes)) by lia.
    apply scaled_representable; [apply f64_of_Z_valid|apply f64_of_Z_finite]; lia. }
  assert (HO : (spent + bytes) * BYTE < OVERFLOW).
  { apply Z.le_lt_trans with (2 ^ 53 * BYTE); [apply Z.mul_le_mono_nonneg_r; [done|lia]|done]. }
  pose proof (byte_nonneg bytes ltac:(lia)). pose proof (byte_nonneg spent ltac:(lia)).
  rewrite Z.mul_add_distr_r in *.
  pose proof (roundZ_mono (- (spent * BYTE + bytes * BYTE)) N ltac:(lia)) as Hlo.
  pose proof (roundZ_mono N (scaled (capacity l)) ltac:(lia)) as Hup. rewrite Hdebt in Hlo. rewrite Rc in Hup.
  destruct Hfin as [Hfs Hss]; [lia|].
  split; [|lia]. split; [by apply reserve_wf|by rewrite Er|done| |lia].
  rewrite Z.mul_add_distr_r. lia.
Qed.

Lemma sum_bytes_nonneg reqs : Forall (fun p => 0 <= p.1) reqs -> 0 <= sum_bytes reqs.
Proof. unfold sum_bytes. induction 1 as [|[b t] reqs Hb _ IH]; cbn in *; lia. Qed.

Definition request_ok (p : Z * Instant) : Prop := 0 <= p.1 /\ is_instant p.2.

Lemma reserve_all_solvent reqs : forall l spent,
  solvent l spent -> Forall request_ok reqs -> spent + sum_bytes reqs <= 2 ^ 53 ->
  credits_finite l reqs = true ->
  solvent (reserve_all l reqs) (spent + sum_bytes reqs) /\
  2 ^ 53 * (sum_bytes reqs * BYTE - (scaled (tokens (bucket l)) + credit l reqs
                                     - scaled (tokens (bucket (reserve_all l reqs))))) <=
    2 * Z.of_nat (length reqs) * (scaled (capacity l) + (spent + sum_bytes reqs) * BYTE).
Proof.
  induction reqs as [|[bytes now] reqs IH]; intros l spent Hs HF Hsum Hfin.
  { change (sum_bytes []) with 0. rewrite Z.add_0_r. split; [done|]. cbn. lia. }
  apply Forall_cons in HF as [[Hb Hn] HF]. cbn [fst snd] in Hb, Hn.
  change (sum_bytes ((bytes, now) :: reqs)) with (bytes + sum_bytes reqs) in *.
  assert (Hpos : 0 <= sum_bytes reqs).
  { apply sum_bytes_nonneg. eapply Forall_impl; [exact HF|]. by intros p []. }
  destruct (bw_wf_capacity l (sol_wf _ _ Hs)) as (_ & _ & Hc).
  cbn [reserve_all credit credits_finite length] in *. apply andb_true_iff in Hfin as [Hf Hfin].
  pose proof (byte_nonneg (sum_bytes reqs) Hpos). pose proof (sol_total _ _ Hs).
  destruct (Z.eqb_spec bytes 0) as [->|Hne].
  - change (reserve l 0 now).2 with l in *. destruct (IH l spent Hs HF ltac:(lia) Hfin) as [H1 H2].
    split; [exact H1|]. pose proof (byte_nonneg (spent + sum_bytes reqs) ltac:(lia)). cbn. nia.
  - cbn [orb] in Hf. destruct (reserve_balance l bytes now Hne (sol_rate _ _ Hs)) as (_ & _ & Ec).
    destruct (reserve_solvent l spent bytes now Hs Hn ltac:(lia) ltac:(lia) Hf) as [Hs' Hstep].
    destruct (IH _ _ Hs' HF ltac:(lia) Hfin) as [H1 H2]. rewrite Ec in H2.
    rewrite Z.add_assoc. split; [exact H1|].
    rewrite Nat2Z.inj_succ, !Z.mul_add_distr_r in *.
    pose proof (byte_nonneg bytes ltac:(lia)). pose proof (byte_nonneg spent ltac:(lia)). nia.
Qed.

Lemma bw_new_solvent p now :
  valid (bytes_per_sec p) -> f64_lt f64_zero (bytes_per_sec p) = true -> is_u64 (burst_bytes p) ->
  is_instant now -> solvent (bw_new p now) 0.
Proof.
  intros Hr Hpos Hb Hn. destruct (f64_of_u64 _ Hb) as (Hv & Hf & Hp).
  split; cbn [bucket bw_new tokens rate]; [by apply bw_new_wf|done|done| |lia].
  apply (not_neg_scaled _ Hv Hf). unfold not_neg. by rewrite (f64_le_lt_false _ _ Hp).
Qed.

(** ** Properties *)

Inductive bw_op : Type :=
| OpReserve (bytes : Z) (now : Instant)
| OpStats (now : Instant).

Definition bw_op_ok (o : bw_op) : Prop :=
  match o with OpReserve bytes now => is_u64 bytes /\ is_instant now | OpStats now => is_instant now end.

Fixpoint bw_run (l : BandwidthLimiter) (ops : list bw_op) : BandwidthLimiter :=
  match ops with
  | [] => l
  | OpReserve bytes now :: ops' => bw_run (reserve l bytes now).2 ops'
  | OpStats now :: ops' => bw_run (bw_stats l now).2 ops'
  end.

(** C24: whatever requests and statistics calls are made, at whatever clock
    readings (running backwards included), the token balance stays a binary64
    number that is at most the burst capacity, never NaN, and every wait that
    [reserve] answers is a representable duration. *)
Theorem bandwidth_bounded profile t0 ops bytes now :
  valid (bytes_per_sec profile) -> is_u64 (burst_bytes profile) -> is_instant t0 ->
  Forall bw_op_ok ops -> is_u64 bytes -> is_instant now ->
  let l := bw_run (bw_new profile t0) ops in
  f64_le (tokens (bucket l)) (f64_of_Z (burst_bytes profile)) = true /\
  is_duration (reserve l bytes now).1.
Proof.
  intros Hr Hb Ht HF Hbytes Hnow. cbn zeta.
  assert (Hrun : forall ops l, Forall bw_op_ok ops -> bw_wf l ->
    bw_wf (bw_run l ops) /\ capacity (bw_run l ops) = capacity l).
  { clear. induction ops as [|[b t|t] ops IH]; intros l HF Hl; [done|..]; cbn [bw_run];
      apply Forall_cons in HF as [Ho HF]; cbn in Ho.
    - destruct Ho as [Hb Ht]. destruct (IH (reserve l b t).2 HF) as [H1 ->]; [by apply reserve_wf|].
      split; [done|]. unfold reserve. by repeat case_match.
    - destruct (IH (bw_stats l t).2 HF) as [H1 ->]; [by apply bw_stats_wf|]. done. }
  destruct (Hrun ops (bw_new profile t0) HF) as [Hwf Ecap]; [by apply bw_new_wf|]. cbn in Ecap.
  split; [rewrite <- Ecap; apply Hwf|by apply reserve_duration].
Qed.

(** A request no larger than the refilled balance waits for nothing; a larger
    one is counted as throttled and waits the deficit divided by the rate,
    rounded to nanoseconds and cut off at the longest duration. *)
Theorem bandwidth_reserve_spec l bytes now :
  bw_wf l -> is_u64 bytes -> is_instant now -> bytes <> 0 -> f64_le (rate l) f64_zero = false ->
  (f64_le (f64_of_Z bytes) (balance l now) = true -> (reserve l bytes now).1 = DURATION_ZERO) /\
  (f64_lt (balance l now) (f64_of_Z bytes) = true ->
   (reserve l bytes now).1 = wait_for_deficit l (f64_neg (f64_sub (balance l now) (f64_of_Z bytes))) /\
   total_throttled (bucket (reserve l bytes now).2) = wrapping_add (total_throttled (bucket l)) 1).
Proof.
  intros Hwf Hb Hn Hne Hr. split; [by apply reserve_within|by apply reserve_beyond].
Qed.

(** The configured rate is kept in the long run: over any sequence of
    requests of up to 2^53 bytes in all, the bytes granted are at most the
    burst, plus what the elapsed time is worth at the rate, plus the debt the
    last callers are still waiting for, up to two roundings of relative size
    2^-53 per request; the balance stays finite, and the debt is never more
    than the bytes requested. *)
Theorem bandwidth_long_run profile t0 reqs :
  valid (bytes_per_sec profile) -> f64_lt f64_zero (bytes_per_sec profile) = true ->
  is_u64 (burst_bytes profile) -> is_instant t0 -> Forall request_ok reqs -> sum_bytes reqs <= 2 ^ 53 ->
  credits_finite (bw_new profile t0) reqs = true ->
  let l := bw_new profile t0 in
  let balance := scaled (tokens (bucket (reserve_all l reqs))) in
  let burst := scaled (f64_of_Z (burst_bytes profile)) in
  is_finite (tokens (bucket (reserve_all l reqs))) = true /\
  - (sum_bytes reqs * BYTE) <= balance <= burst /\
  2 ^ 53 * (sum_bytes reqs * BYTE - (burst + credit l reqs - balance)) <=
    2 * Z.of_nat (length reqs) * (burst + sum_bytes reqs * BYTE).
Proof.
  intros Hr Hpos Hb Ht HF Hsum Hfin. cbn zeta.
  destruct (reserve_all_solvent reqs (bw_new profile t0) 0 (bw_new_solvent _ _ Hr Hpos Hb Ht) HF Hsum Hfin) as [Hs He].
  rewrite Z.add_0_l in Hs, He. split_and!; [apply Hs|apply Hs| |exact He].
  replace (f64_of_Z (burst_bytes profile)) with (capacity (reserve_all (bw_new profile t0) reqs));
    [by apply solvent_tokens_le with (sum_bytes reqs)|].
  clear. change (f64_of_Z (burst_bytes profile)) with (capacity (bw_new profile t0)).
  generalize (bw_new profile t0). induction reqs as [|[b t] reqs IH]; intros l; [done|]. cbn [reserve_all].
  rewrite IH. unfold reserve. by repeat case_match.
Qed.

(** A rate that is zero or negative never delays a request and leaves the
    balance alone, but the bytes are still counted; a request of zero bytes
    changes nothing at all. *)
Theorem bandwidth_unlimited l bytes now :
  (reserve l 0 now = (DURATION_ZERO, l)) /\
  (f64_le (rate l) f64_zero = true -> bytes <> 0 ->
   (reserve l bytes now).1 = DURATION_ZERO /\
   tokens (bucket (reserve l bytes now).2) = tokens (bucket l) /\
   total_throttled (bucket (reserve l bytes now).2) = total_throttled (bucket l) /\
   total_bytes_reserved (bucket (reserve l bytes now).2) =
     saturating_add (total_bytes_reserved (bucket l)) bytes).
Proof.
  split; [done|]. intros Hr Hne. rewrite reserve_total. unfold reserve.
  destruct (Z.eqb_spec bytes 0); [done|]. by rewrite Hr.
Qed.

(** [total_bytes_reserved] is the sum of all requested bytes, held at the
    largest [u64] once the sum exceeds it. *)
Theorem bandwidth_total_bytes profile t0 reqs :
  Forall (fun p => 0 <= p.1) reqs ->
  total_bytes_reserved (bucket (reserve_all (bw_new profile t0) reqs)) =
  Z.min (sum_bytes reqs) U64_MAX.
Proof. intros HF. rewrite reserve_all_total; [done|done|by vm_compute]. Qed.

(** One byte more than the burst at 10^12 bytes per second. *)
Definition fast_bucket : BandwidthLimiter :=
  bw_new {| bytes_per_sec := f64_of_Z 1000000000000; burst_bytes := 1 |} 0.

(** [total_throttled] also counts reservations whose wait rounds to zero
    nanoseconds: a one-byte deficit at 10^12 bytes per second. *)
Theorem bandwidth_throttled_without_wait :
  (reserve fast_bucket 2 0).1 = DURATION_ZERO /\
  total_throttled (bucket (reserve fast_bucket 2 0).2) = 1.
Proof. by vm_compute. Qed.

(** ** Witnesses *)

(** 1024 bytes per second, a burst of 4096 bytes. *)
Definition slow_profile : BandwidthProfile := {| bytes_per_sec := f64_of_Z 1024; burst_bytes := 4096 |}.

Lemma slow_profile_ok : valid (bytes_per_sec slow_profile) /\ is_u64 (burst_bytes slow_profile) /\ is_instant 0.
Proof. unfold is_u64, is_instant. by vm_compute. Qed.

Lemma slow_bucket_wf : bw_wf (bw_new slow_profile 0).
Proof. by apply bw_new_wf; apply slow_profile_ok. Qed.

Lemma bandwidth_bounded_witness :
  is_duration (reserve (bw_run (bw_new slow_profile 0) [OpReserve 6144 5; OpStats 1]) 1 9).1.
Proof.
  refine (proj2 (bandwidth_bounded slow_profile 0 [OpReserve 6144 5; OpStats 1] 1 9
    (proj1 slow_profile_ok) (proj1 (proj2 slow_profile_ok)) (proj2 (proj2 slow_profile_ok)) _ _ _));
    [|by vm_compute|by vm_compute]. repeat constructor; by vm_compute.
Defined.

(** 6144 bytes against a burst of 4096: two seconds. *)
Lemma bandwidth_reserve_spec_witness :
  (reserve (bw_new slow_profile 0) 4096 0).1 = DURATION_ZERO /\
  (reserve (bw_new slow_profile 0) 6144 0).1 = 2 * NANOS_PER_SEC.
Proof.
  split.
  - refine (proj1 (bandwidth_reserve_spec (bw_new slow_profile 0) 4096 0 slow_bucket_wf _ _ _ _) _);
      by vm_compute.
  - refine (eq_trans (proj1 (proj2 (bandwidth_reserve_spec (bw_new slow_profile 0) 6144 0
      slow_bucket_wf _ _ _ _) _)) _); by vm_compute.
Defined.

(** Twice the burst, in three requests over two seconds. *)
Lemma bandwidth_long_run_witness :
  is_finite (tokens (bucket (reserve_all (bw_new slow_profile 0) [(4096, 0); (1, 5); (4095, 2 * NANOS_PER_SEC)]))) = true.
Proof.
  refine (proj1 (bandwidth_long_run slow_profile 0 [(4096, 0); (1, 5); (4095, 2 * NANOS_PER_SEC)]
    (proj1 slow_profile_ok) eq_refl (proj1 (proj2 slow_profile_ok)) (proj2 (proj2 slow_profile_ok)) _ _ _));
    [|by vm_compute|by vm_compute].
  repeat constructor; by vm_compute.
Defined.

Lemma bandwidth_unlimited_witness :
  total_bytes_reserved (bucket (reserve (bw_new {| bytes_per_sec := f64_zero; burst_bytes := 0 |} 0) 7 0).2) = 7.
Proof.
  refine (proj2 (proj2 (proj2 (proj2 (bandwidth_unlimited
    (bw_new {| bytes_per_sec := f64_zero; burst_bytes := 0 |} 0) 7 0) _ _)))); by vm_compute.
Defined.

Lemma bandwidth_total_bytes_witness :
  total_bytes_reserved (bucket (reserve_all (bw_new slow_profile 0) [(3, 0); (4, 1)])) = 7.
Proof. refine (bandwidth_total_bytes slow_profile 0 [(3, 0); (4, 1)] _). repeat constructor; by vm_compute. Defined.
