(* ===== verification/BandwidthCurve.v ===== *)
(** * The token bucket keeps its rate

    The floating-point bucket of [fusecraft-core/src/limiter/bandwidth.rs]
    against an exact one: by the time the waits it answers are over, the bytes
    granted are at most the burst and what the elapsed time is worth at the
    configured rate, up to stated rounding errors. Amounts are integers in
    units of 2^-1074 bytes ([BYTE] units to the byte), times are nanoseconds. *)

From stdpp Require Import base list numbers gmap.
From Stdlib Require Import ZArith Lia Bool.

From S2P Require Import Prelude Word Float Rounding Binary64 RoundingError Time Op Config Sampler Bandwidth.

Local Open Scope Z_scope.

(** ** Elapsed time *)

(** One byte is many units, so that a rounding of one unit is negligible. *)
Lemma byte_large : 2 ^ 200 <= BYTE.
Proof. apply Z.pow_le_mono_r; lia. Qed.

(** The fraction of a second. *)
Lemma nanos_fraction n :
  0 <= n < NANOS_PER_SEC ->
  let b := f64_div (f64_of_Z n) (f64_of_Z NANOS_PER_SEC) in
  valid b /\ is_finite b = true /\ 2 ^ 52 * Z.abs (scaled b * NANOS_PER_SEC - n * BYTE) <= n * BYTE.
Proof.
  intros Hn. cbn zeta. pose proof byte_large as HU.
  assert (Hu : is_u64 n /\ is_u64 NANOS_PER_SEC) by (unfold is_u64, NANOS_PER_SEC in *; lia).
  destruct (f64_of_u64 n (proj1 Hu)) as (Hv & Hf & _). destruct (f64_of_u64 _ (proj2 Hu)) as (Hv9 & Hf9 & _).
  assert (En : scaled (f64_of_Z n) = n * BYTE) by (apply bytes_exact; unfold NANOS_PER_SEC in *; lia).
  assert (E9 : scaled (f64_of_Z NANOS_PER_SEC) = NANOS_PER_SEC * BYTE) by (by apply bytes_exact).
  assert (Hpos : 0 < scaled (f64_of_Z NANOS_PER_SEC)) by (rewrite E9; unfold NANOS_PER_SEC; lia).
  assert (Hfb : is_finite (f64_div (f64_of_Z n) (f64_of_Z NANOS_PER_SEC)) = true).
  { apply f64_div_finite; [done|done|done|done|]. rewrite En, E9. unfold NANOS_PER_SEC in *. nia. }
  split; [by apply f64_div_valid|]. split; [exact Hfb|].
  pose proof (f64_div_near _ _ Hv Hv9 Hpos Hfb) as Hnear. rewrite En, E9 in Hnear.
  apply near_scale in Hnear; [|apply pow2_pos; lia]. unfold near in Hnear.
  destruct (Z.eq_dec n 0) as [->|Hne]; unfold NANOS_PER_SEC in *; [lia|].
  assert (BYTE <= n * BYTE) by nia. lia.
Qed.

(** [Duration::as_secs_f64] up to 2^53 seconds, against [d] nanoseconds. *)
Lemma as_secs_f64_near d :
  0 <= d <= 2 ^ 53 * NANOS_PER_SEC ->
  is_finite (as_secs_f64 d) = true /\ 2 ^ 51 * Z.abs (scaled (as_secs_f64 d) * NANOS_PER_SEC - d * BYTE) <= d * BYTE.
Proof.
  intros Hd. unfold as_secs_f64. pose proof byte_large as HU.
  assert (HN : 0 < NANOS_PER_SEC) by done.
  pose proof (Z.div_mod d NANOS_PER_SEC ltac:(lia)) as Ed. pose proof (Z.mod_pos_bound d _ HN) as Hm.
  assert (Hq : 0 <= d / NANOS_PER_SEC <= 2 ^ 53) by (split; [apply Z.div_pos; lia|apply Z.div_le_upper_bound; lia]).
  revert Ed Hm Hq. generalize (d / NANOS_PER_SEC) (d mod NANOS_PER_SEC). intros q n Ed Hm Hq.
  destruct (nanos_fraction n Hm) as (Hvb & Hfb & Hb).
  destruct (f64_of_u64 q ltac:(unfold is_u64; lia)) as (Hva & Hfa & _). pose proof (bytes_exact q Hq) as Ea.
  destruct (f64_add_correct _ _ Hva Hvb Hfa Hfb) as (_ & Hfin & _).
  revert Hvb Hfb Hb Hfin. generalize (f64_div (f64_of_Z n) (f64_of_Z NANOS_PER_SEC)). intros b Hvb Hfb Hb Hfin.
  rewrite Ea in Hfin. pose proof (roundZ_error (q * BYTE + scaled b)) as Herr.
  assert (Hsb : 0 <= scaled b <= 2 * BYTE) by (unfold NANOS_PER_SEC in *; nia).
  assert (HqU : 0 <= q * BYTE <= 2 ^ 53 * BYTE) by nia.
  destruct Hfin as [Hf Hs].
  { apply Z.le_lt_trans with (2 ^ 55 * BYTE); [lia|done]. }
  split; [exact Hf|]. rewrite Hs. unfold NANOS_PER_SEC in *.
  assert (d * BYTE = (q * BYTE) * 1000000000 + n * BYTE) by (rewrite Ed; lia). lia.
Qed.

(** [Duration::try_from_secs_f64] is right to half a nanosecond. *)
Lemma try_from_secs_f64_near x w :
  valid x -> try_from_secs_f64 x = Some w ->
  is_finite x = true /\ 2 * Z.abs (w * BYTE - scaled x * NANOS_PER_SEC) <= BYTE.
Proof.
  intros Hv. pose proof byte_large as HU. destruct x as [s|s| |[] m e]; try done; cbn [try_from_secs_f64].
  - intros. simplify_eq. split; [done|]. cbn [scaled]. lia.
  - destruct (2 ^ 64 <=? trunc_pos m e); [done|].
    pose proof (valid_finite_bounds _ _ _ Hv) as (_ & He & _).
    destruct (Z.leb_spec 0 e); intros E; simplify_eq; (split; [done|]); rewrite scaled_finite; cbn [cond_Zopp].
    + rewrite Z.pow_add_r by lia. fold BYTE. lia.
    + pose proof (rne_error (Zpos m * NANOS_PER_SEC) (- e) ltac:(lia)) as Herr.
      pose proof (pow2_pos (e + 1074) ltac:(lia)) as HP.
      assert (EU : BYTE = 2 ^ (- e) * 2 ^ (e + 1074)).
      { unfold BYTE. rewrite <- Z.pow_add_r by lia. f_equal. lia. }
      rewrite EU. set (P := 2 ^ (e + 1074)) in *. set (R := rne _ _) in *.
      replace (R * (2 ^ (- e) * P) - Zpos m * P * NANOS_PER_SEC)
        with ((R * 2 ^ (- e) - Zpos m * NANOS_PER_SEC) * P) by lia.
      rewrite Z.abs_mul, (Z.abs_eq P) by lia. nia.
Qed.

(** ** The credit of a sequence of requests *)

(** The largest rate considered, in bytes per second. *)
Definition MAX_RATE : Z := 2 ^ 960.

Section Rate.
Context (l0 : BandwidthLimiter).
Context (rate_valid : valid (rate l0)) (rate_finite : is_finite (rate l0) = true).
Context (rate_pos : 0 < scaled (rate l0)) (rate_max : scaled (rate l0) <= MAX_RATE * BYTE).

Local Abbreviation rho := (scaled (rate l0)).

(** What [d] nanoseconds add to the balance. *)
Lemma refill_near d :
  0 <= d <= 2 ^ 53 * NANOS_PER_SEC ->
  let c := f64_mul (as_secs_f64 d) (rate l0) in
  is_finite c = true /\
  2 ^ 50 * (NANOS_PER_SEC * scaled c - d * rho) <= d * rho + 2 ^ 50 * NANOS_PER_SEC.
Proof.
  intros Hd. cbn zeta. pose proof byte_large as HU. destruct (as_secs_f64_near d Hd) as [Hf Hs].
  assert (Hv : valid (as_secs_f64 d)) by (apply as_secs_f64_valid; unfold DURATION_MAX, NANOS_PER_SEC in *; lia).
  assert (HdU : 0 <= d * BYTE <= 2 ^ 53 * NANOS_PER_SEC * BYTE) by nia.
  revert Hf Hs Hv. generalize (as_secs_f64 d). intros s Hf Hs Hv.
  assert (Hs0 : 0 <= scaled s <= 2 ^ 54 * BYTE) by (unfold NANOS_PER_SEC in *; lia).
  assert (Hfc : is_finite (f64_mul s (rate l0)) = true).
  { apply f64_mul_finite; [done|done|done|done|]. rewrite Z.abs_eq by nia.
    apply Z.le_lt_trans with (2 ^ 54 * BYTE * (MAX_RATE * BYTE)); [|done].
    apply Z.mul_le_mono_nonneg; lia. }
  split; [exact Hfc|].
  pose proof (f64_mul_near s (rate l0) Hv rate_valid Hfc) as Hn. change (2 ^ 1074) with BYTE in Hn. unfold near in Hn.
  revert Hn. generalize (scaled (f64_mul s (rate l0))). intros c Hn.
  assert (Hsr : 0 <= scaled s * rho) by nia. rewrite (Z.abs_eq (scaled s * rho)) in Hn by done.
  assert (H1 : 2 ^ 51 * (NANOS_PER_SEC * (scaled s * rho)) <= (2 ^ 51 + 1) * (d * rho * BYTE)).
  { assert (2 ^ 51 * (scaled s * NANOS_PER_SEC) <= (2 ^ 51 + 1) * (d * BYTE)) as H by (unfold NANOS_PER_SEC in *; lia).
    apply (Z.mul_le_mono_nonneg_r _ _ rho) in H; [|lia]. lia. }
  assert (H2 : 2 ^ 53 * (NANOS_PER_SEC * (c * BYTE)) <= (2 ^ 53 + 1) * (NANOS_PER_SEC * (scaled s * rho)) + 2 ^ 52 * NANOS_PER_SEC * BYTE)
    by (unfold NANOS_PER_SEC in *; lia).
  assert (H3 : 0 <= d * rho) by nia.
  apply (Z.mul_le_mono_pos_r _ _ BYTE); [lia|].
  set (X := scaled s * rho) in *. set (Y := d * rho) in *. set (Z0 := c * BYTE) in *.
  assert (0 <= Y * BYTE) by nia.
  replace (2 ^ 50 * (NANOS_PER_SEC * c - Y) * BYTE) with (2 ^ 50 * (NANOS_PER_SEC * Z0 - Y * BYTE)) by (unfold Z0; lia).
  replace ((Y + 2 ^ 50 * NANOS_PER_SEC) * BYTE) with (Y * BYTE + 2 ^ 50 * NANOS_PER_SEC * BYTE) by lia.
  unfold NANOS_PER_SEC in *. lia.
Qed.

(** The wait for a deficit is long enough to earn it. *)
Lemma wait_near x w :
  valid x -> 0 <= scaled x -> try_from_secs_f64 (f64_div x (rate l0)) = Some w ->
  2 ^ 53 * (NANOS_PER_SEC * scaled x - (w + 1) * rho) <= NANOS_PER_SEC * scaled x.
Proof.
  intros Hv Hx Hw. pose proof byte_large as HU.
  destruct (try_from_secs_f64_near _ w (f64_div_valid _ _ Hv rate_valid) Hw) as [Hf He].
  pose proof (f64_div_near x (rate l0) Hv rate_valid rate_pos Hf) as Hn.
  change (2 ^ 1074) with BYTE in Hn. unfold near in Hn.
  revert Hn He. generalize (scaled (f64_div x (rate l0))). intros t Hn He.
  rewrite (Z.abs_eq (scaled x * BYTE)) in Hn by nia.
  assert (H1 : 2 * (t * NANOS_PER_SEC) <= (2 * w + 1) * BYTE) by lia.
  apply (Z.mul_le_mono_nonneg_r _ _ rho) in H1; [|lia].
  assert (H2 : 2 ^ 200 * rho <= BYTE * rho) by nia.
  apply (Z.mul_le_mono_pos_r _ _ BYTE); [lia|].
  set (X := scaled x * BYTE) in *. set (T := t * rho) in *. set (R := BYTE * rho) in *. set (W := w * R).
  replace (2 ^ 53 * (NANOS_PER_SEC * scaled x - (w + 1) * rho) * BYTE)
    with (2 ^ 53 * (NANOS_PER_SEC * X - (W + R))) by (unfold W, R, X; lia).
  replace (NANOS_PER_SEC * scaled x * BYTE) with (NANOS_PER_SEC * X) by (unfold X; lia).
  replace (2 * (t * NANOS_PER_SEC) * rho) with (2 * NANOS_PER_SEC * T) in H1 by (unfold T; lia).
  replace ((2 * w + 1) * BYTE * rho) with (2 * W + R) in H1 by (unfold W, R; lia).
  unfold NANOS_PER_SEC in *. lia.
Qed.

End Rate.

(** Clock readings that do not run backwards. *)
Fixpoint clock_runs (t : Instant) (reqs : list (Z * Instant)) : Prop :=
  match reqs with
  | [] => True
  | (_, now) :: reqs' => t <= now /\ clock_runs now reqs'
  end.

Record rate_ok (r : f64) : Prop := {
  ok_valid : valid r;
  ok_finite : is_finite r = true;
  ok_positive : f64_lt f64_zero r = true;
  ok_max : scaled r <= MAX_RATE * BYTE
}.

Lemma rate_ok_scaled r : rate_ok r -> 0 < scaled r.
Proof. intros [Hv Hf Hp _]. rewrite f64_lt_scaled in Hp by done. by apply Z.ltb_lt in Hp. Qed.

Lemma reserve_last l bytes now :
  bytes <> 0 -> f64_lt f64_zero (rate l) = true ->
  last (bucket (reserve l bytes now).2) = Z.max (last (bucket l)) now.
Proof.
  intros Hb Hr. unfold reserve. destruct (Z.eqb_spec bytes 0); [done|].
  assert (f64_le (rate l) f64_zero = false) as -> by by destruct (rate l) as [[]|[]| |[] ? ?].
  assert (E : last (refill l (count_bytes (bucket l) bytes) now) = Z.max (last (bucket l)) now).
  { unfold refill, is_zero, duration_since. cbn [last count_bytes].
    destruct (Z.eqb_spec (Z.max 0 (now - last (bucket l))) 0); cbn; lia. }
  case_match; exact E.
Qed.

(** What one request earns. *)
Lemma elapsed_credit_near l now :
  rate_ok (rate l) -> duration_since now (last (bucket l)) <= 2 ^ 53 * NANOS_PER_SEC ->
  is_finite (elapsed_credit l now) = true /\
  2 ^ 50 * (NANOS_PER_SEC * scaled (elapsed_credit l now) - duration_since now (last (bucket l)) * scaled (rate l)) <=
    duration_since now (last (bucket l)) * scaled (rate l) + 2 ^ 50 * NANOS_PER_SEC.
Proof.
  intros Hr Hd. pose proof (duration_since_nonneg now (last (bucket l))) as H0. unfold elapsed_credit.
  destruct (is_zero _) eqn:Ez.
  - apply Z.eqb_eq in Ez. rewrite Ez. done.
  - pose proof (rate_ok_scaled _ Hr). destruct Hr. by apply refill_near.
Qed.

Lemma credit_near tend reqs : forall l t,
  rate_ok (rate l) -> last (bucket l) <= t -> tend - last (bucket l) <= 2 ^ 53 * NANOS_PER_SEC ->
  clock_runs t reqs -> Forall (fun p => p.2 <= tend) reqs -> last (bucket l) <= tend ->
  credits_finite l reqs = true /\
  last (bucket l) <= last (bucket (reserve_all l reqs)) <= tend /\
  (let earned := (last (bucket (reserve_all l reqs)) - last (bucket l)) * scaled (rate l) in
   2 ^ 50 * (NANOS_PER_SEC * credit l reqs - earned) <=
     earned + Z.of_nat (length reqs) * (2 ^ 50 * NANOS_PER_SEC)).
Proof.
  induction reqs as [|[bytes now] reqs IH]; intros l t Hr Hlast Htend Hclock HF Hle; cbn zeta.
  { split; [done|]. cbn. lia. }
  cbn [clock_runs] in Hclock. destruct Hclock as [Hnow Hclock]. apply Forall_cons in HF as [Hn HF]. cbn [snd] in Hn.
  cbn [reserve_all credit credits_finite length]. rewrite Nat2Z.inj_succ.
  destruct (Z.eqb_spec bytes 0) as [->|Hne].
  - change (reserve l 0 now).2 with l. destruct (IH l now Hr ltac:(lia) Htend Hclock HF Hle) as (H1 & H2 & H3).
    split; [exact H1|]. split; [exact H2|]. cbn zeta in H3. unfold NANOS_PER_SEC in *. lia.
  - cbn [orb].
    assert (Ed : duration_since now (last (bucket l)) = now - last (bucket l)) by (unfold duration_since; lia).
    destruct (elapsed_credit_near l now Hr ltac:(lia)) as [Hf Hc]. rewrite Hf. cbn [andb]. rewrite Ed in Hc.
    pose proof (reserve_last l bytes now Hne (ok_positive _ Hr)) as El.
    replace (Z.max (last (bucket l)) now) with now in El by lia.
    destruct (reserve_balance l bytes now Hne (ok_positive _ Hr)) as (_ & Er & _).
    destruct (IH (reserve l bytes now).2 now) as (H1 & H2 & H3);
      [by rewrite Er|lia|rewrite El; lia|done|done|lia|].
    rewrite El, Er in *. split; [exact H1|]. split; [lia|]. cbn zeta in H3. unfold NANOS_PER_SEC in *. lia.
Qed.

Lemma clock_runs_before t reqs bytes now :
  clock_runs t (reqs ++ [(bytes, now)]) -> t <= now /\ Forall (fun p => p.2 <= now) (reqs ++ [(bytes, now)]).
Proof.
  revert t. induction reqs as [|[b u] reqs IH]; cbn; intros t [Ht H].
  - split; [lia|]. by repeat constructor.
  - apply IH in H as [H1 H2]. split; [lia|]. by constructor.
Qed.

(** ** One sequence of requests and the wait of its last *)

Lemma reserve_all_app l reqs reqs' : reserve_all l (reqs ++ reqs') = reserve_all (reserve_all l reqs) reqs'.
Proof. revert l. induction reqs as [|[b t] reqs IH]; intros l; cbn; [done|apply IH]. Qed.

Lemma sum_bytes_app reqs reqs' : sum_bytes (reqs ++ reqs') = sum_bytes reqs + sum_bytes reqs'.
Proof. unfold sum_bytes. induction reqs as [|[b t] reqs IH]; cbn in *; lia. Qed.

Lemma reserve_all_rate l reqs :
  rate (reserve_all l reqs) = rate l /\ capacity (reserve_all l reqs) = capacity l.
Proof.
  revert l. induction reqs as [|[b t] reqs IH]; intros l; [done|]. cbn [reserve_all].
  destruct (IH (reserve l b t).2) as [-> ->]. unfold reserve. by repeat case_match.
Qed.

(** The debt after a request is earned by the end of its wait. *)
Lemma reserve_wait_covers l bytes now :
  rate_ok (rate l) -> 0 < bytes ->
  is_finite (tokens (bucket (reserve l bytes now).2)) = true ->
  valid (tokens (bucket (reserve l bytes now).2)) ->
  (reserve l bytes now).1 < DURATION_MAX ->
  let debt := - scaled (tokens (bucket (reserve l bytes now).2)) in
  2 ^ 53 * (NANOS_PER_SEC * debt - ((reserve l bytes now).1 + 1) * scaled (rate l)) <= NANOS_PER_SEC * Z.max 0 debt.
Proof.
  intros Hr Hb. pose proof (rate_ok_scaled _ Hr) as Hpos. cbn zeta. unfold reserve.
  destruct (Z.eqb_spec bytes 0); [lia|].
  assert (f64_le (rate l) f64_zero = false) as ->.
  { pose proof (ok_positive _ Hr). by destruct (rate l) as [[]|[]| |[] ? ?]. }
  set (st := take_tokens _ _). destruct (f64_ge (tokens st) f64_zero) eqn:Eg; cbn [fst snd bucket set_bucket].
  - intros Hf Hv _. unfold f64_ge in Eg. rewrite f64_le_scaled in Eg by done. apply Z.leb_le in Eg.
    change (scaled f64_zero) with 0 in Eg. unfold DURATION_ZERO, NANOS_PER_SEC. lia.
  - cbn [tokens count_throttled]. intros Hf Hv. unfold f64_ge in Eg.
    rewrite f64_le_scaled in Eg by done. apply Z.leb_gt in Eg. change (scaled f64_zero) with 0 in Eg.
    unfold wait_for_deficit. destruct (try_from_secs_f64 _) as [w|] eqn:Et; [|lia]. intros _. destruct Hr as [Hrv _ _ _].
    pose proof (wait_near l Hrv Hpos (f64_neg (tokens st)) w (valid_neg _ Hv)) as Hw. rewrite scaled_neg in Hw.
    specialize (Hw ltac:(lia) Et). unfold NANOS_PER_SEC in *. lia.
Qed.

(** The three error bounds, put together: [k] requests for [S] units in all
    against a burst of [B]; [C] was credited where [E] was earned, of [D] at
    most, and [W] pays for what the balance [b] is short of. *)
Lemma curve_errors k S B C E D W b :
  1 <= k -> 0 <= B -> BYTE <= S -> - S <= b -> E <= D ->
  2 ^ 53 * (S - (B + C - b)) <= 2 * k * (B + S) ->
  2 ^ 50 * (NANOS_PER_SEC * C - E) <= E + k * (2 ^ 50 * NANOS_PER_SEC) ->
  2 ^ 53 * (NANOS_PER_SEC * - b - W) <= NANOS_PER_SEC * Z.max 0 (- b) ->
  2 ^ 50 * (NANOS_PER_SEC * (S - B) - (D + W)) <= D + NANOS_PER_SEC * k * (B + S).
Proof.
  intros Hk HB HS Hb HE H1 H2 H3. pose proof byte_large.
  assert (HkS : 2 ^ 200 * k <= k * S) by nia. assert (HkS' : S <= k * S) by nia.
  assert (HkB : 0 <= k * B) by nia.
  replace (2 * k * (B + S)) with (2 * (k * B + k * S)) in H1 by lia.
  replace (NANOS_PER_SEC * k * (B + S)) with (NANOS_PER_SEC * (k * B + k * S)) by lia.
  unfold NANOS_PER_SEC in *. lia.
Qed.

(** By the end of the last wait, the bytes granted are paid for. *)
Lemma bucket_conforms profile t0 reqs bytes now :
  rate_ok (bytes_per_sec profile) -> is_u64 (burst_bytes profile) -> is_instant t0 ->
  Forall request_ok reqs -> 0 < bytes -> is_instant now ->
  clock_runs t0 (reqs ++ [(bytes, now)]) -> now - t0 <= 2 ^ 53 * NANOS_PER_SEC ->
  sum_bytes reqs + bytes <= 2 ^ 53 ->
  let l := reserve_all (bw_new profile t0) reqs in
  let wait := (reserve l bytes now).1 in
  let rate := scaled (bytes_per_sec profile) in
  let burst := scaled (f64_of_Z (burst_bytes profile)) in
  let granted := (sum_bytes reqs + bytes) * BYTE in
  wait < DURATION_MAX ->
  credits_finite (bw_new profile t0) (reqs ++ [(bytes, now)]) = true /\
  2 ^ 50 * (NANOS_PER_SEC * (granted - burst) - (now + wait + 1 - t0) * rate) <=
    (now - t0) * rate + NANOS_PER_SEC * Z.of_nat (length reqs + 1) * (burst + granted).
Proof.
  intros Hr Hb Ht HF Hbytes Hnow Hclock Htime Hsum. cbn zeta. intros Hwait.
  set (l0 := bw_new profile t0) in *. set (all := reqs ++ [(bytes, now)]) in *.
  destruct (clock_runs_before _ _ _ _ Hclock) as [Ht0 Hbefore].
  destruct (credit_near now all l0 t0 Hr ltac:(cbn; lia) Htime Hclock Hbefore Ht0) as (Hfin & Hlast & Hcredit).
  split; [exact Hfin|].
  assert (Hs0 : solvent l0 0) by (destruct Hr; by apply bw_new_solvent).
  assert (HFa : Forall request_ok all).
  { apply Forall_app. split; [exact HF|]. repeat constructor; [cbn; lia|apply Hnow..]. }
  assert (Esum : sum_bytes all = sum_bytes reqs + bytes) by (unfold all; rewrite sum_bytes_app; cbn; lia).
  assert (Hpos : 0 <= sum_bytes reqs).
  { apply sum_bytes_nonneg. eapply Forall_impl; [exact HF|]. by intros p []. }
  destruct (reserve_all_solvent all l0 0 Hs0 HFa ltac:(lia) Hfin) as [Hs Hrun].
  unfold all in Hs, Hrun, Hcredit, Hlast. rewrite reserve_all_app in Hs, Hrun, Hcredit, Hlast.
  fold all in Hrun, Hcredit. cbn [reserve_all] in Hs, Hrun, Hcredit, Hlast.
  destruct (reserve_all_rate l0 reqs) as [Er Ec]. set (l := reserve_all l0 reqs) in *.
  pose proof (reserve_wait_covers l bytes now ltac:(by rewrite Er) Hbytes (sol_finite _ _ Hs)
    (bw_tokens_valid _ (sol_wf _ _ Hs)) Hwait) as Hcover.
  pose proof (sol_debt _ _ Hs) as Hdebt. rewrite Er in Hcover. cbn zeta in Hcover, Hcredit.
  change (rate l0) with (bytes_per_sec profile) in *.
  change (capacity l0) with (f64_of_Z (burst_bytes profile)) in *.
  change (tokens (bucket l0)) with (f64_of_Z (burst_bytes profile)) in *.
  change (last (bucket l0)) with t0 in *.
  fold all in Hdebt. rewrite !Z.add_0_l, Esum in *. unfold all in Hrun, Hcredit. rewrite length_app in Hrun, Hcredit.
  fold all in Hrun, Hcredit. cbn [length] in Hrun, Hcredit.
  destruct (bw_wf_capacity l0 (sol_wf _ _ Hs0)) as (_ & _ & Hcap). pose proof (rate_ok_scaled _ Hr).
  replace ((now + (reserve l bytes now).1 + 1 - t0) * scaled (bytes_per_sec profile))
    with ((now - t0) * scaled (bytes_per_sec profile) + ((reserve l bytes now).1 + 1) * scaled (bytes_per_sec profile)) by lia.
  replace (Z.of_nat (length reqs + 1)) with (Z.of_nat (length reqs) + 1) in * by lia.
  eapply curve_errors; [lia|exact Hcap| |exact Hdebt| |exact Hrun|exact Hcredit|exact Hcover].
  - rewrite <- (Z.mul_1_l BYTE) at 1. apply Z.mul_le_mono_nonneg_r; [done|lia].
  - apply Z.mul_le_mono_nonneg_r; lia.
Qed.

(** ** Properties *)

(** C19: the limiter against an exact token bucket. Requests are made at clock
    readings that do not run backwards, over at most 2^53 seconds and for at
    most 2^53 bytes, at a positive rate of at most 2^960 bytes per second. When
    the wait answered to the last of them is over (and one nanosecond later),
    the bytes granted by then are at most the burst and the rate times the time
    since the limiter was made, up to a relative error of 2^-50 in what was
    earned and of 2^-50 of the burst and the bytes for each request. Every
    amount the refills add is finite. *)
Theorem bandwidth_conforms profile t0 reqs bytes now :
  rate_ok (bytes_per_sec profile) -> is_u64 (burst_bytes profile) -> is_instant t0 ->
  Forall request_ok reqs -> 0 < bytes -> is_instant now ->
  clock_runs t0 (reqs ++ [(bytes, now)]) -> now - t0 <= 2 ^ 53 * NANOS_PER_SEC ->
  sum_bytes reqs + bytes <= 2 ^ 53 ->
  let l := reserve_all (bw_new profile t0) reqs in
  let wait := (reserve l bytes now).1 in
  let rate := scaled (bytes_per_sec profile) in
  let burst := scaled (f64_of_Z (burst_bytes profile)) in
  let granted := (sum_bytes reqs + bytes) * BYTE in
  wait < DURATION_MAX ->
  credits_finite (bw_new profile t0) (reqs ++ [(bytes, now)]) = true /\
  2 ^ 50 * (NANOS_PER_SEC * (granted - burst) - (now + wait + 1 - t0) * rate) <=
    (now - t0) * rate + NANOS_PER_SEC * Z.of_nat (length reqs + 1) * (burst + granted).
Proof. apply bucket_conforms. Qed.

(** ** Witness *)

(** 4096 bytes at once, 1024 after a second, and 2048 half a second later,
    which wait for a second and a half. *)
Lemma bandwidth_conforms_witness :
  let reqs := [(4096, 0); (1024, NANOS_PER_SEC)] in
  let l := reserve_all (bw_new slow_profile 0) reqs in
  let now := NANOS_PER_SEC + NANOS_PER_SEC / 2 in
  let wait := (reserve l 2048 now).1 in
  wait = NANOS_PER_SEC + NANOS_PER_SEC / 2 /\
  2 ^ 50 * (NANOS_PER_SEC * (7168 * BYTE - 4096 * BYTE) - (now + wait + 1) * (1024 * BYTE)) <=
    now * (1024 * BYTE) + NANOS_PER_SEC * 3 * (4096 * BYTE + 7168 * BYTE).
Proof.
  cbn zeta. split; [by vm_compute|].
  assert (Hr : rate_ok (bytes_per_sec slow_profile)) by (split; by vm_compute).
  pose proof (proj2 (bandwidth_conforms slow_profile 0 [(4096, 0); (1024, NANOS_PER_SEC)] 2048
    (NANOS_PER_SEC + NANOS_PER_SEC / 2) Hr (proj1 (proj2 slow_profile_ok)) (proj2 (proj2 slow_profile_ok))
    ltac:(repeat constructor; by vm_compute) ltac:(done) ltac:(by vm_compute)
    ltac:(repeat split; by vm_compute) ltac:(by vm_compute) ltac:(by vm_compute) ltac:(by vm_compute))) as H.
  exact H.
Defined.
