(* ===== verification/Metrics.v ===== *)
(** * Per-operation metrics

    [fusecraft-core/src/metrics/mod.rs]. The histogram is the [hdrhistogram]
    crate's, a parameter of the model ([Histogram]); the recorder is a map from
    operations to two counters and a histogram, updated under one mutex. *)

From stdpp Require Import base list numbers gmap strings.
From Stdlib Require Import ZArith Lia.

From S2P Require Import Prelude Word Float Op Text.

Local Open Scope Z_scope.

Definition HIST_LOW : Z := 1.
Definition HIST_HIGH : Z := 60000000.
Definition HIST_SIGFIG : Z := 3.

(** [Histogram::new_with_bounds], [record] (whose error the source drops) and
    [value_at_percentile]. *)
Class Histogram (H : Type) : Type := {
  new_with_bounds : Z -> Z -> Z -> H;
  hist_record : H -> Z -> H;
  value_at_percentile : H -> f64 -> Z
}.

(** The documented precondition of [new_with_bounds], on which its [expect]
    relies. *)
Lemma hist_bounds_valid : 1 <= HIST_LOW /\ 2 * HIST_LOW <= HIST_HIGH /\ 0 <= HIST_SIGFIG <= 5.
Proof. unfold HIST_LOW, HIST_HIGH, HIST_SIGFIG. lia. Qed.

Record OpHisto (H : Type) : Type := {
  count_ok : Z;
  count_err : Z;
  histo : H
}.
Arguments Build_OpHisto {H}.
Arguments count_ok {H}.
Arguments count_err {H}.
Arguments histo {H}.

Record OpSummary : Type := {
  sum_op : FsOp;
  sum_count : Z;
  sum_errors : Z;
  p50_us : Z;
  p95_us : Z;
  p99_us : Z;
  p999_us : Z
}.

(** The literals [50.0], [95.0], [99.0] and [99.9]. *)
Definition P50 : f64 := f64_of_Z 50.
Definition P95 : f64 := f64_of_Z 95.
Definition P99 : f64 := f64_of_Z 99.
Definition P999 : f64 := S754_finite false 7029837543348634 (-46).

Definition clamp (x lo hi : Z) : Z := if x <? lo then lo else if hi <? x then hi else x.

Abbreviation HistogramRecorder H := (gmap FsOp (OpHisto H)).

Section Recorder.
Context {H : Type} `{Histogram H}.

Definition recorder_new : HistogramRecorder H := ∅.

Definition fresh_histo : OpHisto H :=
  {| count_ok := 0; count_err := 0; histo := new_with_bounds HIST_LOW HIST_HIGH HIST_SIGFIG |}.

Definition record (self : HistogramRecorder H) (op : FsOp) (duration_us : Z) (is_error : bool)
    : HistogramRecorder H :=
  let entry := default fresh_histo (self !! op) in
  let clamped := clamp duration_us HIST_LOW HIST_HIGH in
  <[op := {| count_ok := if is_error then count_ok entry else wrapping_add (count_ok entry) 1;
             count_err := if is_error then wrapping_add (count_err entry) 1 else count_err entry;
             histo := hist_record (histo entry) clamped |}]> self.

Definition op_summary (self : HistogramRecorder H) (op : FsOp) : option OpSummary :=
  match self !! op with
  | None => None
  | Some entry =>
      let count := wrapping_add (count_ok entry) (count_err entry) in
      if count =? 0 then None
      else Some {| sum_op := op; sum_count := count; sum_errors := count_err entry;
                   p50_us := value_at_percentile (histo entry) P50;
                   p95_us := value_at_percentile (histo entry) P95;
                   p99_us := value_at_percentile (histo entry) P99;
                   p999_us := value_at_percentile (histo entry) P999 |}
  end.

Definition summary (self : HistogramRecorder H) : list OpSummary := omap (op_summary self) ALL.

(** The lines written to the standard error. *)
Definition print_summary (self : HistogramRecorder H) : list string :=
  (fun s => "op=" +:+ op_as_str (sum_op s) +:+ " count=" +:+ show_u64 (sum_count s)
    +:+ " p50_us=" +:+ show_u64 (p50_us s) +:+ " p95_us=" +:+ show_u64 (p95_us s)
    +:+ " p99_us=" +:+ show_u64 (p99_us s) +:+ " p999_us=" +:+ show_u64 (p999_us s)
    +:+ " errors=" +:+ show_u64 (sum_errors s)) <$> summary self.
End Recorder.

(** ** Facts *)

(** One recorded sample: operation, duration and whether it failed. *)
Definition sample : Type := FsOp * Z * bool.

Definition sample_op (s : sample) : FsOp := s.1.1.
Definition sample_us (s : sample) : Z := s.1.2.
Definition sample_err (s : sample) : bool := s.2.

Section RecorderFacts.
Context {H : Type} `{Histogram H}.

Definition record_sample (m : HistogramRecorder H) (s : sample) : HistogramRecorder H :=
  record m (sample_op s) (sample_us s) (sample_err s).

Definition record_all (m : HistogramRecorder H) (l : list sample) : HistogramRecorder H :=
  fold_left record_sample l m.

(** The samples of one operation. *)
Definition of_op (op : FsOp) (l : list sample) : list sample := filter (fun s => sample_op s = op) l.

Definition n_errors (l : list sample) : Z := count sample_err l.
Definition n_oks (l : list sample) : Z := count (fun s => negb (sample_err s)) l.

(** The histogram that has seen the clamped durations of [l], in order. *)
Definition histo_of (l : list sample) : H :=
  fold_left (fun h s => hist_record h (clamp (sample_us s) HIST_LOW HIST_HIGH)) l
    (new_with_bounds HIST_LOW HIST_HIGH HIST_SIGFIG).

Lemma clamp_range x : HIST_LOW <= clamp x HIST_LOW HIST_HIGH <= HIST_HIGH.
Proof. unfold clamp, HIST_LOW, HIST_HIGH. destruct (Z.ltb_spec x 1); [lia|]. destruct (Z.ltb_spec 60000000 x); lia. Qed.

Lemma record_all_snoc m l s : record_all m (l ++ [s]) = record_sample (record_all m l) s.
Proof. unfold record_all. by rewrite fold_left_app. Qed.

Lemma of_op_snoc op l s :
  of_op op (l ++ [s]) = of_op op l ++ (if decide (sample_op s = op) then [s] else []).
Proof. unfold of_op. rewrite filter_app, filter_cons, filter_nil. done. Qed.

(** The recorder after a run, operation by operation. *)
Lemma record_all_lookup l op :
  record_all recorder_new l !! op =
  match of_op op l with
  | [] => None
  | l' => Some {| count_ok := wrap64 (n_oks l'); count_err := wrap64 (n_errors l'); histo := histo_of l' |}
  end.
Proof.
  induction l as [|s l IH] using rev_ind; [done|].
  rewrite record_all_snoc, of_op_snoc. unfold record_sample, record.
  destruct (decide (sample_op s = op)) as [<-|Hne].
  - rewrite lookup_insert_eq. rewrite IH. destruct (of_op (sample_op s) l) as [|s0 l'].
    + cbn. unfold n_oks, n_errors, histo_of. cbn. by destruct (sample_err s).
    + cbn [app default from_option id count_ok count_err histo].
      change (s0 :: l' ++ [s]) with ((s0 :: l') ++ [s]).
      unfold n_oks, n_errors, histo_of. rewrite !count_app, fold_left_app. cbn [count fold_left].
      unfold wrapping_add, wrap64. rewrite !Z.add_mod_idemp_l by lia.
      destruct (sample_err s); cbn [negb Z.b2z]; rewrite ?Z.add_0_r; done.
  - rewrite lookup_insert_ne by done. by rewrite IH, app_nil_r.
Qed.

Lemma count_length (l : list sample) : n_oks l + n_errors l = Z.of_nat (length l).
Proof.
  unfold n_oks, n_errors. induction l as [|s l IH]; [done|]. cbn [count length].
  destruct (sample_err s); cbn [negb Z.b2z]; lia.
Qed.

Lemma op_summary_run l op :
  op_summary (record_all recorder_new l) op =
  let l' := of_op op l in
  if wrap64 (Z.of_nat (length l')) =? 0 then None
  else Some {| sum_op := op; sum_count := wrap64 (Z.of_nat (length l')); sum_errors := wrap64 (n_errors l');
               p50_us := value_at_percentile (histo_of l') P50;
               p95_us := value_at_percentile (histo_of l') P95;
               p99_us := value_at_percentile (histo_of l') P99;
               p999_us := value_at_percentile (histo_of l') P999 |}.
Proof.
  unfold op_summary. rewrite record_all_lookup. cbn zeta.
  destruct (of_op op l) as [|s l'] eqn:E; [done|]. cbn [count_ok count_err histo].
  assert (Ec : wrapping_add (wrap64 (n_oks (s :: l'))) (wrap64 (n_errors (s :: l'))) =
               wrap64 (Z.of_nat (length (s :: l')))).
  { rewrite <- count_length. unfold wrapping_add, wrap64. symmetry. apply Z.add_mod. lia. }
  by rewrite Ec.
Qed.

(** After any run of fewer than 2^64 samples, the summary lists exactly the
    operations that were recorded, each once and in the order of
    [FsOp::ALL], with the number of its samples, the number of its errors,
    and the percentiles of its own durations only, each clamped to the
    histogram's range and recorded in order. *)
Theorem summary_spec l :
  Z.of_nat (length l) < 2 ^ 64 ->
  summary (record_all recorder_new l) =
  omap (fun op =>
    match of_op op l with
    | [] => None
    | l' => Some {| sum_op := op; sum_count := Z.of_nat (length l'); sum_errors := n_errors l';
                    p50_us := value_at_percentile (histo_of l') P50;
                    p95_us := value_at_percentile (histo_of l') P95;
                    p99_us := value_at_percentile (histo_of l') P99;
                    p999_us := value_at_percentile (histo_of l') P999 |}
    end) ALL.
Proof.
  intros Hl. apply list_omap_ext, Forall_Forall2_diag, Forall_forall. intros op _.
  rewrite op_summary_run. cbn zeta.
  assert (Hlen : (length (of_op op l) <= length l)%nat) by apply length_filter.
  pose proof (count_length (of_op op l)) as Hc. pose proof (count_nonneg (fun s => negb (sample_err s)) (of_op op l)) as Hn.
  pose proof (count_nonneg sample_err (of_op op l)) as He. unfold n_oks in Hc.
  fold (n_errors (of_op op l)) in He.
  rewrite !wrap64_small by (unfold is_u64; lia). by destruct (of_op op l).
Qed.
End RecorderFacts.

(** ** Witness *)

(** A histogram that keeps the recorded values. *)
#[export] Instance values_histogram : Histogram (list Z) :=
  {| new_with_bounds := fun _ _ _ => []; hist_record := fun h v => v :: h;
     value_at_percentile := fun h _ => foldr Z.max 0 h |}.

Lemma summary_spec_witness :
  map sum_count (summary (H := list Z)
    (record_all recorder_new [(Write, 0, false); (Read, 5, true); (Write, 70000000, false)])) = [1; 2].
Proof.
  rewrite (summary_spec (H := list Z) [(Write, 0, false); (Read, 5, true); (Write, 70000000, false)] eq_refl).
  by vm_compute.
Defined.
