(* ===== verification/Events.v ===== *)
(** * The event log

    [fusecraft-core/src/events/mod.rs]: events, the sink trait, the null sink,
    and the specification of the JSON-lines file, one line per event. The sink
    that the code has, with its buffer and its errors, is in the file
    LogWriter. The serializer [serde_json::to_string] is a parameter. *)

From stdpp Require Import base list numbers strings.
From Stdlib Require Import ZArith Lia Ascii.

From S2P Require Import Prelude Word Time Op Text.

Local Open Scope Z_scope.

Inductive Outcome : Type :=
| OutcomeOk
| OutcomeError.

Record Event : Type := {
  ts_unix_nanos : Z;
  ev_seq : Z;
  ev_op : FsOp;
  ev_ino : Z;
  ev_offset : Z;
  ev_len : Z;
  ev_outcome : Outcome;
  ev_errno : option Z;
  ev_queue_wait_us : Z;
  ev_injected_latency_us : Z;
  ev_bandwidth_delay_us : Z;
  ev_total_duration_us : Z
}.

(** [emit] has no result: it neither fails nor panics. *)
Class EventSink (S : Type) : Type := {
  emit : S -> Event -> S
}.

Definition NullEventSink : Type := unit.

#[export] Instance null_sink : EventSink NullEventSink := {| emit := fun self _ => self |}.

(** The sink of the tests: all events, oldest first. *)
#[export] Instance trace_sink : EventSink (list Event) := {| emit := fun self e => self ++ [e] |}.

(** [now_unix_nanos]: a clock before the epoch reads as zero. *)
Definition now_unix_nanos (system_now : Z) : Z := Z.max 0 system_now.

Section Jsonl.
(** [serde_json::to_string], [None] when it fails. *)
Context (to_json : Event -> option string).

Definition newline : string := String "010"%char EmptyString.

(** *** The specification of the log file

    A sink without a buffer whose writes all succeed: it is not the code, which
    ignores the results of its writes, but what the code is compared with. *)
Record LineFile : Type := { written : string; flushed : string }.

Definition lines_create : LineFile := {| written := ""; flushed := "" |}.

Definition lines_flush (self : LineFile) : LineFile :=
  {| written := written self; flushed := written self |}.

Definition lines_emit (self : LineFile) (event : Event) : LineFile :=
  match to_json event with
  | Some json => {| written := written self +:+ (json +:+ newline); flushed := flushed self |}
  | None => self
  end.

#[export] Instance lines_sink : EventSink LineFile := {| emit := lines_emit |}.

Definition emit_all {S} `{EventSink S} (s : S) (evs : list Event) : S := fold_left emit evs s.

Definition jsonl_lines (evs : list Event) : list string := omap to_json evs.

Definition unlines (ls : list string) : string := foldr (fun l acc => (l +:+ newline) +:+ acc) "" ls.

Lemma append_assoc (a b c : string) : (a +:+ b) +:+ c = a +:+ (b +:+ c).
Proof. induction a as [|x a IH]; [done|]. exact (f_equal (String x) IH). Qed.

Lemma append_nil_r (a : string) : a +:+ "" = a.
Proof. induction a as [|x a IH]; [done|]. exact (f_equal (String x) IH). Qed.

Lemma lines_emit_all s evs :
  written (emit_all s evs) = written s +:+ unlines (jsonl_lines evs).
Proof.
  revert s. induction evs as [|e evs IH]; intros s; cbn; [by rewrite append_nil_r|].
  unfold emit_all in IH. rewrite IH. unfold lines_emit, jsonl_lines. cbn.
  destruct (to_json e); [|done]. cbn. by rewrite !append_assoc.
Qed.

(** ** Reading the log back *)

Fixpoint split_lines_aux (cur : string) (s : string) : list string :=
  match s with
  | EmptyString => []
  | String c s' =>
      if bool_decide (c = "010"%char) then cur :: split_lines_aux "" s'
      else split_lines_aux (cur +:+ String c EmptyString) s'
  end.

(** The complete lines of a text. *)
Definition split_lines (s : string) : list string := split_lines_aux "" s.

Fixpoint no_newline (s : string) : bool :=
  match s with
  | EmptyString => true
  | String c s' => negb (bool_decide (c = "010"%char)) && no_newline s'
  end.

Lemma split_lines_line cur l rest :
  no_newline l = true ->
  split_lines_aux cur ((l +:+ newline) +:+ rest) = (cur +:+ l) :: split_lines_aux "" rest.
Proof.
  revert cur. induction l as [|c l IH]; intros cur Hl.
  - change (("" +:+ newline) +:+ rest) with (String "010"%char rest). cbn [split_lines_aux].
    by rewrite bool_decide_true, append_nil_r.
  - change ((String c l +:+ newline) +:+ rest) with (String c ((l +:+ newline) +:+ rest)).
    cbn [no_newline] in Hl. apply andb_true_iff in Hl as [Hc Hl]. apply negb_true_iff in Hc.
    cbn [split_lines_aux]. rewrite Hc, IH by done. by rewrite append_assoc.
Qed.

Lemma split_unlines ls : Forall (fun l => no_newline l = true) ls -> split_lines (unlines ls) = ls.
Proof.
  unfold split_lines. induction 1 as [|l ls Hl HF IH]; [done|].
  cbn [unlines foldr]. rewrite split_lines_line by done. fold (unlines ls). by rewrite IH.
Qed.

(** The specified file holds one line per event that
    serializes, in emission order and nothing else; as JSON text has no raw
    line break, splitting the flushed file into lines gives the serialized
    events back. *)
Theorem jsonl_one_line_per_event evs :
  (forall e json, to_json e = Some json -> no_newline json = true) ->
  split_lines (flushed (lines_flush (emit_all lines_create evs))) = jsonl_lines evs.
Proof.
  intros Hj. cbn [flushed lines_flush]. rewrite lines_emit_all.
  change (written lines_create +:+ unlines (jsonl_lines evs)) with (unlines (jsonl_lines evs)).
  apply split_unlines, Forall_forall. intros l Hl. unfold jsonl_lines in Hl.
  apply list_elem_of_omap in Hl as (e & _ & He). by eapply Hj.
Qed.
End Jsonl.

(** ** Witness *)

Definition sample_event (seq : Z) : Event :=
  {| ts_unix_nanos := 0; ev_seq := seq; ev_op := Read; ev_ino := 100; ev_offset := 0; ev_len := 4096;
     ev_outcome := OutcomeOk; ev_errno := None; ev_queue_wait_us := 1; ev_injected_latency_us := 42;
     ev_bandwidth_delay_us := 3; ev_total_duration_us := 50 |}.

(** A stand-in serializer: the decimal sequence number. *)
Definition seq_json (e : Event) : option string :=
  match decide (ev_seq e < 10) with
  | left _ => Some (if ev_seq e =? 1 then "1" else "2")
  | right _ => None
  end.

Lemma seq_json_line e json : seq_json e = Some json -> no_newline json = true.
Proof. unfold seq_json. intros. by repeat case_match; simplify_eq. Qed.

Lemma jsonl_one_line_per_event_witness :
  split_lines (flushed (lines_flush (emit_all (H := lines_sink seq_json) lines_create
    [sample_event 1; sample_event 11; sample_event 2]))) = ["1"; "2"].
Proof.
  exact (jsonl_one_line_per_event seq_json [sample_event 1; sample_event 11; sample_event 2] seq_json_line).
Defined.
