(* ===== verification/LogWriter.v ===== *)
(** * The log file's writer

    [JsonlEventSink] of [fusecraft-core/src/events/mod.rs] writes through a
    [BufWriter<File>] and ignores the results of its writes. This file models
    the buffer and the answers of the operating system: without failing writes
    the file is the one that the file Events specifies; with them,
    lines and line breaks are lost, and the final [flush] does not tell. *)

From stdpp Require Import base list numbers strings.
From Stdlib Require Import ZArith Lia Ascii.

From S2P Require Import Prelude Op Events.

(** ** Pieces of a text *)

(** The first [n] bytes, and the others. *)
Fixpoint split_at (n : nat) (s : string) : string * string :=
  match n, s with
  | S n, String c s => let (a, b) := split_at n s in (String c a, b)
  | _, _ => ("", s)
  end.

Lemma split_at_app n s : (split_at n s).1 +:+ (split_at n s).2 = s.
Proof.
  revert n. induction s as [|c s IH]; intros [|n]; try done. cbn. specialize (IH n).
  destruct (split_at n s) as [a b]. exact (f_equal (String c) IH).
Qed.

Lemma length_append (a b : string) : String.length (a +:+ b) = (String.length a + String.length b)%nat.
Proof. induction a as [|c a IH]; [done|]. exact (f_equal S IH). Qed.

(** [a] is the beginning of [b]. *)
Definition begins (a b : string) : Prop := exists x, b = a +:+ x.

Lemma begins_refl a : begins a a.
Proof. exists "". by rewrite append_nil_r. Qed.

Lemma begins_trans a b c : begins a b -> begins b c -> begins a c.
Proof. intros [x ->] [y ->]. exists (x +:+ y). by rewrite append_assoc. Qed.

#[export] Instance begins_preorder : PreOrder begins.
Proof. split; [exact begins_refl|exact begins_trans]. Qed.

Lemma begins_append a b : begins a (a +:+ b).
Proof. by exists b. Qed.

(** ** The file *)

(** What a [write] on the file answers: the number of bytes it took (taking
    none is the error [WriteZero]), that it was interrupted, or an error. *)
Inductive WriteAnswer : Type :=
| Wrote (n : nat)
| Interrupted
| Failed.

(** [JsonlEventSink]: the file's bytes, the buffer, and the answers still to
    come; when there are none left, writes take everything. *)
Record Writer : Type := { disk : string; buffered : string; answers_left : list WriteAnswer }.

(** [write] in a loop until everything is written, as in [flush_buf] of
    [BufWriter] and in the default [write_all]: whether it was, what was not,
    the file and the other answers. *)
Fixpoint write_loop (os : list WriteAnswer) (file rest : string) : bool * string * string * list WriteAnswer :=
  if bool_decide (rest = "") then (true, "", file, os) else
  match os with
  | [] => (true, "", file +:+ rest, [])
  | Wrote 0 :: os | Failed :: os => (false, rest, file, os)
  | Wrote n :: os => let (a, b) := split_at n rest in write_loop os (file +:+ a) b
  | Interrupted :: os => write_loop os file rest
  end.

Section Buffer.
(** The capacity of the buffer, which the standard library chooses. *)
Context (capacity : nat).

Definition spare_capacity (w : Writer) : nat := (capacity - String.length (buffered w))%nat.

(** [BufWriter::flush_buf]: what could not be written stays in the buffer. *)
Definition flush_buf (w : Writer) : bool * Writer :=
  let '(ok, rest, file, os) := write_loop (answers_left w) (disk w) (buffered w) in
  (ok, {| disk := file; buffered := rest; answers_left := os |}).

Definition append_buf (w : Writer) (s : string) : Writer :=
  {| disk := disk w; buffered := buffered w +:+ s; answers_left := answers_left w |}.

(** [BufWriter::write_all] *)
Definition write_all (w : Writer) (s : string) : bool * Writer :=
  if bool_decide (String.length s < spare_capacity w)%nat then (true, append_buf w s)
  else
    let (ok, w) := if bool_decide (spare_capacity w < String.length s)%nat then flush_buf w else (true, w) in
    if negb ok then (false, w)
    else if bool_decide (capacity <= String.length s)%nat then
      let '(ok, _, file, os) := write_loop (answers_left w) (disk w) s in
      (ok, {| disk := file; buffered := buffered w; answers_left := os |})
    else (true, append_buf w s).

(** [writeln!(w, "{json}")]: two pieces, the second only after the first. *)
Definition writeln (w : Writer) (json : string) : bool * Writer :=
  let (ok, w) := write_all w json in
  if ok then write_all w newline else (false, w).

(** [BufWriter::flush]; flushing the file itself does nothing. *)
Definition writer_flush (w : Writer) : bool * Writer := flush_buf w.

Definition writer_create (os : list WriteAnswer) : Writer := {| disk := ""; buffered := ""; answers_left := os |}.

Section Sink.
Context (to_json : Event -> option string).

(** The result of [writeln!] is ignored. *)
Definition writer_emit (w : Writer) (event : Event) : Writer :=
  match to_json event with
  | Some json => (writeln w json).2
  | None => w
  end.

#[local] Instance writer_sink : EventSink Writer := {| emit := writer_emit |}.
End Sink.
End Buffer.

(** ** Facts *)

(** Short writes and interruptions do no harm. *)
Definition harmless (a : WriteAnswer) : Prop :=
  match a with Wrote 0 | Failed => False | _ => True end.

(** What the file will hold if the buffer can be written. *)
Definition accepted (w : Writer) : string := disk w +:+ buffered w.

Lemma write_loop_spec os file rest :
  let '(ok, rest', file', os') := write_loop os file rest in
  file' +:+ rest' = file +:+ rest /\ begins file file' /\ (String.length rest' <= String.length rest)%nat /\
  (ok = true -> rest' = "") /\ (Forall harmless os -> ok = true /\ Forall harmless os').
Proof.
  revert file rest. induction os as [|a os IH]; intros file rest; cbn [write_loop]; case_bool_decide as Hr.
  - subst. by split_and!.
  - split_and!; [by rewrite append_nil_r|apply begins_append|cbn; lia|done|done].
  - subst. by split_and!.
  - destruct a as [[|n]| |].
    + split_and!; try done. by intros [[] _]%Forall_cons.
    + pose proof (split_at_app (S n) rest) as E. destruct (split_at (S n) rest) as [x y] eqn:Es. cbn [fst snd] in E.
      specialize (IH (file +:+ x) y). destruct (write_loop os (file +:+ x) y) as [[[ok rest'] file'] os'].
      destruct IH as (H1 & H2 & H3 & H4 & H5). rewrite append_assoc, E in H1. split_and!; [exact H1| | |exact H4|].
      * etrans; [apply begins_append|exact H2].
      * rewrite <- E, length_append. lia.
      * intros [_ Hos]%Forall_cons. by apply H5.
    + specialize (IH file rest). destruct (write_loop os file rest) as [[[ok rest'] file'] os'].
      destruct IH as (H1 & H2 & H3 & H4 & H5). split_and!; try done. intros [_ Hos]%Forall_cons. by apply H5.
    + split_and!; try done. by intros [[] _]%Forall_cons.
Qed.

(** *** The buffer *)

Section BufferFacts.
Context (capacity : nat).

Abbreviation write := (write_all capacity).

Definition fits (w : Writer) : Prop := (String.length (buffered w) <= capacity)%nat.

(** From [w] to [w'], having accepted [s]: the file only grows, the buffer
    stays within its capacity, and where nothing fails nothing will. *)
Record takes (s : string) (w w' : Writer) : Prop := {
  takes_accepted : accepted w' = accepted w +:+ s;
  takes_grows : begins (disk w) (disk w');
  takes_fits : fits w -> fits w';
  takes_harmless : Forall harmless (answers_left w) -> Forall harmless (answers_left w')
}.

Lemma takes_refl w : takes "" w w.
Proof. split; try done. by rewrite append_nil_r. Qed.

Lemma takes_trans s s' w1 w2 w3 : takes s w1 w2 -> takes s' w2 w3 -> takes (s +:+ s') w1 w3.
Proof.
  intros [A1 A2 A3 A4] [B1 B2 B3 B4]. split; [|by etrans|by auto|by auto].
  by rewrite B1, A1, append_assoc.
Qed.

Lemma flush_buf_spec w :
  takes "" w (flush_buf w).2 /\ ((flush_buf w).1 = true -> buffered (flush_buf w).2 = "") /\
  (Forall harmless (answers_left w) -> (flush_buf w).1 = true).
Proof.
  unfold flush_buf. pose proof (write_loop_spec (answers_left w) (disk w) (buffered w)) as Hl.
  destruct (write_loop _ _ _) as [[[ok rest] file] os]. destruct Hl as (H1 & H2 & H3 & H4 & H5).
  cbn [fst snd]. split_and!; [split|exact H4|by intros; apply H5]; cbn [disk buffered answers_left].
  - unfold accepted. cbn [disk buffered]. by rewrite append_nil_r.
  - exact H2.
  - unfold fits. cbn [buffered]. lia.
  - intros Hh. by apply H5.
Qed.

Lemma append_takes w s : (String.length s <= spare_capacity capacity w)%nat -> takes s w (append_buf w s).
Proof.
  unfold spare_capacity. intros Hs. split; cbn; try done.
  - unfold accepted. cbn. by rewrite append_assoc.
  - unfold fits. cbn. rewrite length_append. lia.
Qed.

Lemma write_all_spec w s :
  fits w ->
  exists p, takes p w (write w s).2 /\ begins p s /\ ((write w s).1 = true -> p = s) /\
    ((write w s).1 = false -> (String.length s < capacity)%nat -> p = "") /\
    (Forall harmless (answers_left w) -> (write w s).1 = true).
Proof.
  intros Hf. unfold write_all. case_bool_decide as Hlt.
  { exists s. cbn. split_and!; try done. apply append_takes. lia. }
  set (fl := if bool_decide _ then flush_buf w else (true, w)).
  assert (Hfl : takes "" w fl.2 /\ (fl.1 = true -> (String.length s < capacity -> String.length s <= spare_capacity capacity fl.2)%nat
    /\ (capacity <= String.length s -> buffered fl.2 = "")%nat) /\ (Forall harmless (answers_left w) -> fl.1 = true)).
  { unfold fl. case_bool_decide as Hsp.
    - pose proof (flush_buf_spec w) as (H1 & H2 & H3). split_and!; [exact H1| |exact H3]. intros Hok.
      apply H2 in Hok. unfold spare_capacity. rewrite Hok. cbn. split; [lia|done].
    - cbn. split_and!; [apply takes_refl| |done]. intros _. unfold spare_capacity, fits in *. split; [lia|].
      intros Hc. assert (E : String.length (buffered w) = 0%nat) by lia. by destruct (buffered w). }
  destruct Hfl as (Ht & Hroom & Hh). destruct fl as [[] w1]; cbn [fst snd negb] in *.
  - destruct (Hroom eq_refl) as [Happ Hdirect]. case_bool_decide as Hc.
    + pose proof (write_loop_spec (answers_left w1) (disk w1) s) as Hl.
      destruct (write_loop _ _ _) as [[[ok rest] file] os]. destruct Hl as (H1 & H2 & H3 & H4 & H5). cbn [fst snd].
      destruct H2 as [p ->]. exists p. rewrite append_assoc in H1.
      assert (Hps : p +:+ rest = s) by (by apply (inj (String.app (disk w1)))).
      split_and!; [|by exists rest| |lia|].
      * change p with ("" +:+ p). eapply takes_trans; [exact Ht|]. split; cbn.
        -- unfold accepted. cbn. by rewrite Hdirect, !append_nil_r.
        -- apply begins_append.
        -- done.
        -- intros Hos. by apply H5.
      * intros Hok. apply H4 in Hok as ->. by rewrite <- Hps, append_nil_r.
      * intros Hos. apply H5. by apply (takes_harmless _ _ _ Ht).
    + exists s. cbn. split_and!; try done. change s with ("" +:+ s). eapply takes_trans; [exact Ht|].
      apply append_takes, Happ. lia.
  - exists "". split; [exact Ht|]. split; [by exists s|]. split_and!; [done|done|]. intros Hos. by specialize (Hh Hos).
Qed.

(** What became of an event. *)
Inductive Fate : Type :=
| Written
| Unterminated
| Dropped.

Definition fate_text (json : string) (f : Fate) : string :=
  match f with Written => json +:+ newline | Unterminated => json | Dropped => "" end.

Context (roomy : (1 < capacity)%nat).

(** A line is accepted, loses its line break or is dropped, never cut. *)
Lemma writeln_spec w json :
  fits w -> (String.length json < capacity)%nat ->
  exists f, takes (fate_text json f) w (writeln capacity w json).2.
Proof.
  intros Hf Hj. unfold writeln. pose proof (write_all_spec w json Hf) as (p & Ht & _ & Hok & Hfail & _).
  destruct (write w json) as [[] w1]; cbn [fst snd] in *.
  - rewrite (Hok eq_refl) in Ht.
    pose proof (write_all_spec w1 newline (takes_fits _ _ _ Ht Hf)) as (q & Hq & _ & Hok' & Hfail' & _).
    pose proof (takes_trans _ _ _ _ _ Ht Hq) as Hboth. destruct (write w1 newline) as [[] w2]; cbn [fst snd] in *.
    + rewrite (Hok' eq_refl) in Hboth. by exists Written.
    + rewrite (Hfail' eq_refl roomy), append_nil_r in Hboth. by exists Unterminated.
  - rewrite (Hfail eq_refl Hj) in Ht. by exists Dropped.
Qed.

(** Without failing writes, however long it is, it is accepted. *)
Lemma writeln_harmless w json :
  fits w -> Forall harmless (answers_left w) -> takes (json +:+ newline) w (writeln capacity w json).2.
Proof.
  intros Hf Hos. unfold writeln. pose proof (write_all_spec w json Hf) as (p & Ht & _ & Hok & _ & Hh).
  specialize (Hh Hos). destruct (write w json) as [b w1]; cbn [fst snd] in *. subst b. rewrite (Hok eq_refl) in Ht.
  pose proof (write_all_spec w1 newline (takes_fits _ _ _ Ht Hf)) as (q & Hq & _ & Hok' & _ & Hh').
  rewrite (Hok' (Hh' (takes_harmless _ _ _ Ht Hos))) in Hq. by eapply takes_trans.
Qed.

Context (to_json : Event -> option string).

#[local] Instance writer : EventSink Writer := writer_sink capacity to_json.

(** The text of a run, given the fate of every event that serializes. *)
Definition fates_text (evs : list Event) (fates : list Fate) : string :=
  foldr String.app "" (zip_with fate_text (omap to_json evs) fates).

Lemma emit_all_fates w evs :
  fits w -> (forall e json, to_json e = Some json -> (String.length json < capacity)%nat) ->
  exists fates, length fates = length (omap to_json evs) /\ takes (fates_text evs fates) w (emit_all w evs).
Proof.
  intros Hf Hshort. revert w Hf. induction evs as [|e evs IH]; intros w Hf.
  { exists []. split; [done|]. apply takes_refl. }
  unfold emit_all, fates_text in *. cbn [fold_left omap list_omap].
  change (emit w e) with (writer_emit capacity to_json w e). unfold writer_emit.
  destruct (to_json e) as [json|] eqn:Ej; [|by apply IH].
  destruct (writeln_spec w json Hf (Hshort e json Ej)) as (f & Ht).
  destruct (IH _ (takes_fits _ _ _ Ht Hf)) as (fs & Hlen & Hts). exists (f :: fs).
  split; [cbn; by rewrite <- Hlen|]. cbn [zip_with foldr]. by eapply takes_trans.
Qed.

Lemma emit_all_harmless w evs :
  fits w -> Forall harmless (answers_left w) -> takes (unlines (jsonl_lines to_json evs)) w (emit_all w evs).
Proof.
  revert w. induction evs as [|e evs IH]; intros w Hf Hos; [apply takes_refl|].
  unfold emit_all, jsonl_lines in *. cbn [fold_left omap list_omap].
  change (emit w e) with (writer_emit capacity to_json w e). unfold writer_emit.
  destruct (to_json e) as [json|]; [|by apply IH]. pose proof (writeln_harmless w json Hf Hos) as Ht.
  cbn [unlines foldr]. eapply takes_trans; [exact Ht|]. apply IH.
  - by apply (takes_fits _ _ _ Ht).
  - by apply (takes_harmless _ _ _ Ht).
Qed.
End BufferFacts.

(** A run without failing writes, and its flush. *)
Lemma run_flush capacity to_json os evs :
  Forall harmless os ->
  let w := emit_all (H := writer_sink capacity to_json) (writer_create os) evs in
  accepted w = unlines (jsonl_lines to_json evs) /\ fits capacity w /\
  (writer_flush w).1 = true /\ disk (writer_flush w).2 = unlines (jsonl_lines to_json evs).
Proof.
  intros Hos. cbn zeta. set (w := emit_all _ _).
  assert (Ht : takes capacity (unlines (jsonl_lines to_json evs)) (writer_create os) w)
    by (apply emit_all_harmless; [unfold fits; cbn; lia|exact Hos]).
  assert (Ea : accepted w = unlines (jsonl_lines to_json evs)) by apply (takes_accepted _ _ _ _ Ht).
  destruct (flush_buf_spec capacity w) as (Hf & Hempty & Hok).
  assert (Hokw : (flush_buf w).1 = true) by (apply Hok, (takes_harmless _ _ _ _ Ht), Hos).
  split_and!; [exact Ea| |exact Hokw|].
  - apply (takes_fits _ _ _ _ Ht). unfold fits. cbn. lia.
  - pose proof (takes_accepted _ _ _ _ Hf) as E. unfold accepted at 1 in E.
    rewrite (Hempty Hokw), !append_nil_r in E. unfold writer_flush. by rewrite E.
Qed.

(** ** Properties *)

(** C28: the buffer is invisible: as long as writes to the file do not fail,
    however short they are and however often they are interrupted, whatever
    the capacity of the buffer, the sink has accepted after any run of events
    exactly what the specified sink of the file Events has written, of which
    at most a buffer is not in the file yet; and the final flush succeeds and
    leaves the file of that sink. *)
Theorem log_writer_refines capacity to_json os evs :
  Forall harmless os ->
  let w := emit_all (H := writer_sink capacity to_json) (writer_create os) evs in
  let s := emit_all (H := lines_sink to_json) lines_create evs in
  accepted w = written s /\ (String.length (buffered w) <= capacity)%nat /\
  (writer_flush w).1 = true /\ disk (writer_flush w).2 = flushed (lines_flush s).
Proof.
  intros Hos. cbn zeta. cbn [flushed lines_flush]. rewrite lines_emit_all.
  change (written lines_create +:+ ?x) with x. by apply run_flush.
Qed.

(** C29: whatever the operating system answers, each event is written whole
    and in order, loses only its line break, or is dropped; the file is at any
    time the beginning of the text accepted so far, and all of it once
    [flush] reports success. *)
Theorem log_writer_errors capacity to_json os evs :
  (1 < capacity)%nat -> (forall e json, to_json e = Some json -> (String.length json < capacity)%nat) ->
  let w := emit_all (H := writer_sink capacity to_json) (writer_create os) evs in
  exists fates, length fates = length (jsonl_lines to_json evs) /\
    begins (disk w) (fates_text to_json evs fates) /\
    ((writer_flush w).1 = true -> disk (writer_flush w).2 = fates_text to_json evs fates).
Proof.
  intros Hcap Hshort. cbn zeta. set (w := emit_all _ _).
  destruct (emit_all_fates capacity Hcap to_json (writer_create os) evs) as (fates & Hlen & Ht);
    [unfold fits; cbn; lia|exact Hshort|]. exists fates.
  assert (Ea : accepted w = fates_text to_json evs fates) by apply (takes_accepted _ _ _ _ Ht). split_and!; [exact Hlen|exists (buffered w); by rewrite <- Ea|].
  destruct (flush_buf_spec capacity w) as (Hf & Hempty & _). intros Hok.
  pose proof (takes_accepted _ _ _ _ Hf) as E. unfold accepted at 1 in E.
  rewrite (Hempty Hok), !append_nil_r in E. unfold writer_flush. by rewrite E, Ea.
Qed.

(** A line break can be lost while the flush reports success: when an event
    fills the buffer exactly and the next write fails, the following event
    continues its line. *)
Theorem line_break_lost capacity to_json w os e1 e2 json1 json2 :
  (1 < capacity)%nat -> to_json e1 = Some json1 -> to_json e2 = Some json2 ->
  (String.length json1 < capacity)%nat -> String.length (buffered w +:+ json1) = capacity ->
  answers_left w = Failed :: os -> Forall harmless os ->
  let w' := writer_flush (emit_all (H := writer_sink capacity to_json) w [e1; e2]) in
  w'.1 = true /\ disk w'.2 = accepted w +:+ json1 +:+ json2 +:+ newline.
Proof.
  intros Hcap E1 E2 Hlen Hfull Hos Hos'. cbn zeta. rewrite length_append in Hfull.
  assert (Hgo : (writeln capacity w json1).2 =
    {| disk := disk w; buffered := buffered w +:+ json1; answers_left := os |}).
  { unfold writeln, write_all at 1, spare_capacity. rewrite !bool_decide_false by lia. cbn [negb]. unfold write_all, spare_capacity. cbn [buffered append_buf].
    rewrite length_append, bool_decide_false by (cbn; lia).
    rewrite bool_decide_true by (cbn; lia). unfold flush_buf. cbn [answers_left buffered disk append_buf].
    rewrite Hos. cbn [write_loop]. rewrite bool_decide_false; [done|].
    intros En. apply (f_equal String.length) in En. rewrite length_append in En. cbn in En. lia. }
  change (emit_all _ _) with (writer_emit capacity to_json (writer_emit capacity to_json w e1) e2).
  unfold writer_emit. rewrite E1, E2, Hgo. set (w1 := {| disk := _ |}).
  assert (Hf : fits capacity w1) by (unfold fits; cbn; rewrite length_append; lia).
  pose proof (writeln_harmless capacity w1 json2 Hf Hos') as Ht.
  destruct (flush_buf_spec capacity (writeln capacity w1 json2).2) as (Hfl & Hempty & Hok).
  specialize (Hok (takes_harmless _ _ _ _ Ht Hos')). split; [exact Hok|].
  pose proof (takes_accepted _ _ _ _ Hfl) as E. rewrite (takes_accepted _ _ _ _ Ht) in E.
  unfold accepted at 1 in E. rewrite (Hempty Hok), !append_nil_r in E. unfold writer_flush. rewrite E.
  unfold accepted. cbn [disk buffered w1]. by rewrite !append_assoc.
Qed.

(** ** Witnesses *)

(** A serializer that makes lines of any length. *)
Fixpoint letters (n : nat) : string := match n with O => "" | S n => String "a"%char (letters n) end.

Definition demo_json (e : Event) : option string := Some (letters (Z.to_nat (ev_len e))).

Definition event_of_len (n : Z) : Event :=
  {| ts_unix_nanos := 0; ev_seq := 0; ev_op := Read; ev_ino := 100; ev_offset := 0; ev_len := n;
     ev_outcome := OutcomeOk; ev_errno := None; ev_queue_wait_us := 1; ev_injected_latency_us := 42;
     ev_bandwidth_delay_us := 3; ev_total_duration_us := 50 |}.

Lemma log_writer_refines_witness :
  split_lines (disk (writer_flush (emit_all (H := writer_sink 8 seq_json)
    (writer_create [Interrupted; Wrote 1; Wrote 2]) [sample_event 1; sample_event 2; sample_event 2; sample_event 1;
     sample_event 2; sample_event 2; sample_event 1])).2) = ["1"; "2"; "2"; "1"; "2"; "2"; "1"].
Proof.
  destruct (log_writer_refines 8 seq_json [Interrupted; Wrote 1; Wrote 2]
    [sample_event 1; sample_event 2; sample_event 2; sample_event 1; sample_event 2; sample_event 2; sample_event 1])
    as (_ & _ & _ & E); [by repeat constructor|].
  rewrite E. by vm_compute.
Defined.

Lemma letters_length n : String.length (letters n) = n.
Proof. induction n as [|n IH]; [done|]. exact (f_equal S IH). Qed.

Lemma log_writer_errors_witness :
  let w := emit_all (H := writer_sink 8 seq_json) (writer_create [Wrote 3; Failed])
    [sample_event 1; sample_event 2; sample_event 2; sample_event 1; sample_event 2; sample_event 1] in
  (writer_flush w).1 = true /\
  exists fates, fates <> replicate 6 Written /\ disk (writer_flush w).2 =
    fates_text seq_json [sample_event 1; sample_event 2; sample_event 2; sample_event 1; sample_event 2; sample_event 1] fates.
Proof.
  cbn zeta. split; [by vm_compute|].
  destruct (log_writer_errors 8 seq_json [Wrote 3; Failed]
    [sample_event 1; sample_event 2; sample_event 2; sample_event 1; sample_event 2; sample_event 1])
    as (fates & _ & _ & E); [lia| |].
  - unfold seq_json. intros e json Hj. repeat case_match; simplify_eq; cbn; lia.
  - exists fates. assert (Hok : (writer_flush (emit_all (H := writer_sink 8 seq_json) (writer_create [Wrote 3; Failed])
      [sample_event 1; sample_event 2; sample_event 2; sample_event 1; sample_event 2; sample_event 1])).1 = true)
      by (by vm_compute). specialize (E Hok). split; [|exact E]. intros ->. vm_compute in E. discriminate.
Defined.

(** Eight kilobytes, as the standard library chooses. *)
Definition DEFAULT_BUF_SIZE : nat := Z.to_nat 8192.

Definition nearly_full : Writer :=
  {| disk := ""; buffered := letters (Z.to_nat 8000); answers_left := [Failed] |}.

Lemma line_break_lost_witness :
  (writer_flush (emit_all (H := writer_sink DEFAULT_BUF_SIZE demo_json) nearly_full
     [event_of_len 192; event_of_len 5])).1 = true.
Proof.
  refine (proj1 (line_break_lost DEFAULT_BUF_SIZE demo_json nearly_full [] (event_of_len 192) (event_of_len 5)
    (letters (Z.to_nat 192)) (letters (Z.to_nat 5)) _ eq_refl eq_refl _ _ eq_refl _));
    unfold DEFAULT_BUF_SIZE; [lia| | |by constructor].
  - rewrite letters_length. lia.
  - cbn [buffered nearly_full]. rewrite length_append, !letters_length. lia.
Defined.
