(* ===== verification/Engine.v ===== *)
(** * The simulation engine

    [fusecraft-core/src/engine/mod.rs] and [context.rs]. The stages of
    [SimEngine::run_op] are functions on the engine; [run_op] composes them for
    a call that is not made to wait by other threads. The body of a request is
    a function on a world [W] that stands for whatever the closure can change.
    Clock readings are arguments. *)

From stdpp Require Import base list numbers gmap strings.
From Stdlib Require Import ZArith Lia Bool.

From S2P Require Import Prelude Word Float Binary64 Time Op Concurrency Config SampleKey Sampler.
From S2P Require Import Bandwidth Metrics Events.

Local Open Scope Z_scope.

(** ** [context.rs] *)

Record OpContext : Type := {
  ctx_op : FsOp;
  ctx_ino : Z;
  ctx_offset : Z;
  ctx_len : Z;
  ctx_requested_len : Z
}.

Definition metadata (op : FsOp) (ino : Z) : OpContext :=
  {| ctx_op := op; ctx_ino := ino; ctx_offset := 0; ctx_len := 0; ctx_requested_len := 0 |}.

Definition data (op : FsOp) (ino offset len : Z) : OpContext :=
  {| ctx_op := op; ctx_ino := ino; ctx_offset := offset; ctx_len := len; ctx_requested_len := len |}.

Definition with_requested_len (self : OpContext) (requested_len : Z) : OpContext :=
  {| ctx_op := ctx_op self; ctx_ino := ctx_ino self; ctx_offset := ctx_offset self;
     ctx_len := ctx_len self; ctx_requested_len := requested_len |}.

(** ** State *)

Record OpResources : Type := {
  policy : OpPolicy;
  limiter : BlockingLimiter;
  base_bw : option BandwidthLimiter;
  large_bw : option BandwidthLimiter
}.

Record SimEngine (ES H : Type) : Type := {
  eng_seed : Z;
  resources : gmap FsOp OpResources;
  eng_seq : Z;
  events : ES;
  eng_metrics : HistogramRecorder H
}.
Arguments Build_SimEngine {ES H}.
Arguments eng_seed {ES H}.
Arguments resources {ES H}.
Arguments eng_seq {ES H}.
Arguments events {ES H}.
Arguments eng_metrics {ES H}.

(** Which limiter [select_tier] returns a reference to. *)
Inductive Tier : Type := BaseTier | LargeTier.

Definition tier_bandwidth (res : OpResources) (t : Tier) : option BandwidthLimiter :=
  match t with BaseTier => base_bw res | LargeTier => large_bw res end.

Definition set_tier_bandwidth (res : OpResources) (t : Tier) (bw : BandwidthLimiter) : OpResources :=
  match t with
  | BaseTier => {| policy := policy res; limiter := limiter res; base_bw := Some bw; large_bw := large_bw res |}
  | LargeTier => {| policy := policy res; limiter := limiter res; base_bw := base_bw res; large_bw := Some bw |}
  end.

Definition set_limiter (res : OpResources) (l : BlockingLimiter) : OpResources :=
  {| policy := policy res; limiter := l; base_bw := base_bw res; large_bw := large_bw res |}.

Definition select_tier (res : OpResources) (op : FsOp) (requested_len : Z)
    : LatencyProfile * list FaultRule * Tier :=
  let base := (latency (policy res), faults (policy res), BaseTier) in
  if is_data_op op then
    match size_tier (policy res) with
    | Some tier =>
        if threshold_bytes tier <? requested_len
        then (large_latency (large tier), large_faults (large tier), LargeTier)
        else base
    | None => base
    end
  else base.

(** The resources of one operation; [now] and [now'] are the clock readings of
    the two bucket constructions. *)
Definition build_resources (policy : OpPolicy) (now now' : Instant) : OpResources :=
  {| policy := policy;
     limiter := Concurrency.new (concurrency_cap policy) (Config.queue_cap policy);
     base_bw := option_map (fun b => bw_new b now) (bandwidth policy);
     large_bw :=
       match size_tier policy with
       | Some t => option_map (fun b => bw_new b now') (Config.large_bandwidth (large t))
       | None => None
       end |}.

(** One reading per stage of a call. *)
Record Clock : Type := {
  t_start : Instant;
  t_acquire : Instant;
  t_reserve : Instant;
  t_end : Instant;
  t_unix : Z
}.

(** The call, from its first statement on. *)
Record OpFrame : Type := {
  fr_ctx : OpContext;
  fr_start : Instant;
  fr_seq : Z
}.

(** What steps 2 and 3 of the lifecycle draw. *)
Record Drawn : Type := {
  drawn_fault : option Z;
  drawn_latency_us : Z;
  drawn_bandwidth_delay : Duration
}.

(** How a call ends: with its result, blocked in the limiter's queue, or with a
    panic that unwinds through the guard. *)
Inductive run_end (T E W : Type) : Type :=
| RunReturns (r : result T FsError) (eng : E) (w : W)
| RunBlocks (eng : E)
| RunPanics (eng : E) (w : W).
Arguments RunReturns {T E W}.
Arguments RunBlocks {T E W}.
Arguments RunPanics {T E W}.

(** [d.as_micros() as u64] *)
Definition micros_u64 (d : Duration) : Z := wrap64 (as_micros d).

Definition outcome_of {T} (r : result T FsError) : Outcome * option Z :=
  match r with
  | Ok _ => (OutcomeOk, None)
  | Err e => (OutcomeError, Some (as_errno e))
  end.

Section Engine.
Context {R : Type} `{Rng R} `{Libm} {ES : Type} `{EventSink ES} {HI : Type} `{Histogram HI}.

Abbreviation engine := (SimEngine ES HI).

Definition set_resources (self : engine) (op : FsOp) (res : OpResources) : engine :=
  {| eng_seed := eng_seed self; resources := <[op := res]> (resources self); eng_seq := eng_seq self;
     events := events self; eng_metrics := eng_metrics self |}.

Definition set_events (self : engine) (evs : ES) : engine :=
  {| eng_seed := eng_seed self; resources := resources self; eng_seq := eng_seq self;
     events := evs; eng_metrics := eng_metrics self |}.

Definition set_metrics (self : engine) (m : HistogramRecorder HI) : engine :=
  {| eng_seed := eng_seed self; resources := resources self; eng_seq := eng_seq self;
     events := events self; eng_metrics := m |}.

Definition engine_new (config : Config) (sink : ES) (nows : FsOp -> Instant * Instant) : engine :=
  {| eng_seed := seed config;
     resources := list_to_map ((fun op =>
       (op, build_resources (default default_OpPolicy (ops config !! op)) (nows op).1 (nows op).2)) <$> ALL);
     eng_seq := 0;
     events := sink;
     eng_metrics := recorder_new |}.

(** [SimEngine::seed] and [SimEngine::metrics], a handle to the shared
    recorder. *)
Definition engine_seed (self : engine) : Z := eng_seed self.
Definition engine_metrics (self : engine) : HistogramRecorder HI := eng_metrics self.

(** ** The stages of [run_op] *)

(** [seq.fetch_add(1)] *)
Definition begin_op (self : engine) (ctx : OpContext) (now : Instant) : OpFrame * engine :=
  ({| fr_ctx := ctx; fr_start := now; fr_seq := eng_seq self |},
   {| eng_seed := eng_seed self; resources := resources self; eng_seq := wrapping_add (eng_seq self) 1;
      events := events self; eng_metrics := eng_metrics self |}).

Definition emit_event (self : engine) (f : OpFrame) (outcome : Outcome) (errno : option Z)
    (queue_wait_us injected_latency_us bandwidth_delay_us total_duration_us unix : Z) : engine :=
  set_events self (emit (events self)
    {| ts_unix_nanos := now_unix_nanos unix;
       ev_seq := fr_seq f;
       ev_op := ctx_op (fr_ctx f);
       ev_ino := ctx_ino (fr_ctx f);
       ev_offset := ctx_offset (fr_ctx f);
       ev_len := ctx_len (fr_ctx f);
       ev_outcome := outcome;
       ev_errno := errno;
       ev_queue_wait_us := queue_wait_us;
       ev_injected_latency_us := injected_latency_us;
       ev_bandwidth_delay_us := bandwidth_delay_us;
       ev_total_duration_us := total_duration_us |}).

Definition record_metric (self : engine) (op : FsOp) (total_us : Z) (is_error : bool) : engine :=
  set_metrics self (record (eng_metrics self) op total_us is_error).

(** Step 1, the rejected case. *)
Definition reject_op {T} (self : engine) (f : OpFrame) (err : FsError) (clk : Clock)
    : result T FsError * engine :=
  let errno := as_errno err in
  let total_us := micros_u64 (duration_since (t_end clk) (fr_start f)) in
  let self := emit_event self f OutcomeError (Some errno) 0 0 0 total_us (t_unix clk) in
  let self := record_metric self (ctx_op (fr_ctx f)) total_us true in
  (Err (Errno errno), self).

Definition sample_key (self : engine) (f : OpFrame) : SampleKey :=
  {| key_seed := eng_seed self; key_op := ctx_op (fr_ctx f); key_ino := ctx_ino (fr_ctx f);
     key_offset := ctx_offset (fr_ctx f); key_len := Z.min (ctx_len (fr_ctx f)) U32_MAX;
     key_seq := fr_seq f |}.

(** Steps 2 and 3: sampling and the bandwidth reservation. *)
Definition draw_op (self : engine) (res : OpResources) (f : OpFrame) (now : Instant) : Drawn * engine :=
  let '(latency_profile, rules, tier) :=
    select_tier res (ctx_op (fr_ctx f)) (ctx_requested_len (fr_ctx f)) in
  let key := sample_key self f in
  let fault_errno := sample_fault (R := R) rules key in
  let latency_us := sample_latency_us (R := R) latency_profile key in
  match tier_bandwidth res tier with
  | Some bw =>
      if is_data_op (ctx_op (fr_ctx f)) then
        let (delay, bw') := reserve bw (ctx_len (fr_ctx f)) now in
        ({| drawn_fault := fault_errno; drawn_latency_us := latency_us; drawn_bandwidth_delay := delay |},
         set_resources self (ctx_op (fr_ctx f)) (set_tier_bandwidth res tier bw'))
      else
        ({| drawn_fault := fault_errno; drawn_latency_us := latency_us;
            drawn_bandwidth_delay := DURATION_ZERO |}, self)
  | None =>
      ({| drawn_fault := fault_errno; drawn_latency_us := latency_us;
          drawn_bandwidth_delay := DURATION_ZERO |}, self)
  end.

(** Step 4: how long the thread sleeps. *)
Definition sleep_for (d : Drawn) : outcome Duration :=
  duration_add (from_micros (drawn_latency_us d)) (drawn_bandwidth_delay d).

(** Step 5. *)
Definition exec_body {T W} (fault_errno : option Z) (body : W -> result T FsError * W) (w : W)
    : result T FsError * W :=
  match fault_errno with
  | Some errno => (Err (Errno errno), w)
  | None => body w
  end.

(** Step 6. *)
Definition finish_op {T} (self : engine) (f : OpFrame) (queue_wait : Duration) (d : Drawn)
    (r : result T FsError) (clk : Clock) : engine :=
  let total_us := micros_u64 (duration_since (t_end clk) (fr_start f)) in
  let (outcome, errno) := outcome_of r in
  let self := emit_event self f outcome errno (micros_u64 queue_wait) (drawn_latency_us d)
                (micros_u64 (drawn_bandwidth_delay d)) total_us (t_unix clk) in
  record_metric self (ctx_op (fr_ctx f)) total_us
    match outcome with OutcomeError => true | OutcomeOk => false end.

(** Step 7, also on unwinding: the guard's [drop]. *)
Definition drop_guard (self : engine) (op : FsOp) : engine :=
  match resources self !! op with
  | Some res => set_resources self op (set_limiter res (release (limiter res)))
  | None => self
  end.

(** Steps 2 to 7, holding the guard. *)
Definition run_admitted {T W} (self : engine) (res : OpResources) (f : OpFrame) (queue_wait : Duration)
    (body : W -> result T FsError * W) (w : W) (clk : Clock) : run_end T engine W :=
  let op := ctx_op (fr_ctx f) in
  let (d, self) := draw_op self res f (t_reserve clk) in
  match sleep_for d with
  | Panic => RunPanics (drop_guard self op) w
  | Returns _ =>
      let (r, w) := exec_body (drawn_fault d) body w in
      RunReturns r (drop_guard (finish_op self f queue_wait d r clk) op) w
  end.

Definition run_op {T W} (self : engine) (ctx : OpContext) (body : W -> result T FsError * W) (w : W)
    (clk : Clock) : run_end T engine W :=
  let (f, self) := begin_op self ctx (t_start clk) in
  match resources self !! ctx_op ctx with
  | None => RunPanics self w
  | Some res =>
      let (entered, lim') := acquire_enter (limiter res) (t_acquire clk) in
      let res := set_limiter res lim' in
      let self := set_resources self (ctx_op ctx) res in
      match entered with
      | Fails err => let (r, self) := reject_op self f err clk in RunReturns r self w
      | Guard queue_wait => run_admitted self res f queue_wait body w clk
      | Waits _ _ => RunBlocks self
      | Panics => RunPanics self w
      end
  end.
End Engine.

(** [SimEngine::new_without_events] *)
Definition new_without_events {HI} `{Histogram HI} (config : Config) (nows : FsOp -> Instant * Instant)
    : SimEngine NullEventSink HI := engine_new config (tt : NullEventSink) nows.

(** ** Construction *)

Section EngineFacts.
Context {R : Type} `{Rng R} `{Libm} {ES : Type} `{EventSink ES} {HI : Type} `{Histogram HI}.

Abbreviation engine := (SimEngine ES HI).

Lemma engine_new_resources config (sink : ES) nows op :
  resources (engine_new (HI := HI) config sink nows) !! op =
  Some (build_resources (default default_OpPolicy (ops config !! op)) (nows op).1 (nows op).2).
Proof.
  cbn [resources engine_new]. apply elem_of_list_to_map_1.
  - rewrite <- list_fmap_compose. change (NoDup (id <$> ALL)). rewrite list_fmap_id. apply ALL_NoDup.
  - apply list_elem_of_fmap. exists op. split; [done|apply ALL_complete].
Qed.

(** Every operation has resources: the [expect] of [run_op] never fails. *)
Definition registered (self : engine) : Prop := forall op, is_Some (resources self !! op).

Lemma engine_new_registered config (sink : ES) nows : registered (engine_new (HI := HI) config sink nows).
Proof. intros op. rewrite engine_new_resources. by eexists. Qed.

Lemma set_resources_registered (self : engine) op res :
  registered self -> registered (set_resources self op res).
Proof.
  intros Hr op'. cbn. destruct (decide (op = op')) as [->|];
    [rewrite lookup_insert_eq|rewrite lookup_insert_ne by done]; eauto.
Qed.

(** ** What drawing does *)

(** The tier's profile and rules for a frame. *)
Definition frame_tier (res : OpResources) (f : OpFrame) : LatencyProfile * list FaultRule * Tier :=
  select_tier res (ctx_op (fr_ctx f)) (ctx_requested_len (fr_ctx f)).

Lemma draw_op_values (self : engine) res f now :
  drawn_fault (draw_op (R := R) self res f now).1 =
    sample_fault (R := R) (frame_tier res f).1.2 (sample_key self f) /\
  drawn_latency_us (draw_op (R := R) self res f now).1 =
    sample_latency_us (R := R) (frame_tier res f).1.1 (sample_key self f).
Proof.
  unfold draw_op, frame_tier. destruct (select_tier _ _ _) as [[p rs] t]. cbn [fst snd].
  destruct (tier_bandwidth res t); [|done]. destruct (is_data_op _); [|done].
  by destruct (reserve _ _ _).
Qed.

Definition same_but_resources (e e' : engine) : Prop :=
  eng_seed e' = eng_seed e /\ eng_seq e' = eng_seq e /\ events e' = events e /\
  eng_metrics e' = eng_metrics e.

Lemma draw_op_engine (self : engine) res f now :
  resources self !! ctx_op (fr_ctx f) = Some res ->
  same_but_resources self (draw_op (R := R) self res f now).2 /\
  exists res', resources (draw_op (R := R) self res f now).2 =
                 <[ctx_op (fr_ctx f) := res']> (resources self) /\
               limiter res' = limiter res /\ policy res' = policy res.
Proof.
  intros Hres.
  assert (Hid : exists res', resources self = <[ctx_op (fr_ctx f) := res']> (resources self) /\
                             limiter res' = limiter res /\ policy res' = policy res)
    by (exists res; by rewrite insert_id).
  unfold draw_op. destruct (select_tier _ _ _) as [[p rs] t].
  destruct (tier_bandwidth res t) as [bw|]; [|done]. destruct (is_data_op _); [|done].
  destruct (reserve _ _ _) as [d bw']. cbn. split; [done|].
  exists (set_tier_bandwidth res t bw'). by destruct t.
Qed.

(** Metadata operations and operations without a profile are not throttled. *)
Lemma draw_op_no_delay (self : engine) res f now :
  is_data_op (ctx_op (fr_ctx f)) = false \/ tier_bandwidth res (frame_tier res f).2 = None ->
  drawn_bandwidth_delay (draw_op (R := R) self res f now).1 = DURATION_ZERO.
Proof.
  unfold draw_op, frame_tier. destruct (select_tier _ _ _) as [[p rs] t]. cbn [snd].
  intros [E|E]; [rewrite E|rewrite E; done]. by destruct (tier_bandwidth res t).
Qed.

(** ** A call that holds the guard *)

(** The event a completed call emits. *)
Definition completion_event {T} (f : OpFrame) (queue_wait : Duration) (d : Drawn)
    (r : result T FsError) (clk : Clock) : Event :=
  {| ts_unix_nanos := now_unix_nanos (t_unix clk); ev_seq := fr_seq f; ev_op := ctx_op (fr_ctx f);
     ev_ino := ctx_ino (fr_ctx f); ev_offset := ctx_offset (fr_ctx f); ev_len := ctx_len (fr_ctx f);
     ev_outcome := (outcome_of r).1; ev_errno := (outcome_of r).2;
     ev_queue_wait_us := micros_u64 queue_wait;
     ev_injected_latency_us := drawn_latency_us d;
     ev_bandwidth_delay_us := micros_u64 (drawn_bandwidth_delay d);
     ev_total_duration_us := micros_u64 (duration_since (t_end clk) (fr_start f)) |}.

Lemma finish_op_eq {T} (self : engine) f queue_wait d (r : result T FsError) clk :
  finish_op self f queue_wait d r clk =
  record_metric (set_events self (emit (events self) (completion_event f queue_wait d r clk)))
    (ctx_op (fr_ctx f)) (micros_u64 (duration_since (t_end clk) (fr_start f))) (negb (is_ok r)).
Proof. unfold finish_op, completion_event, emit_event. by destruct r. Qed.

(** The engine after a guard of [op] was dropped, a completed call's event and
    sample recorded: [entered] is the engine when the guard was granted. *)
Lemma run_admitted_spec {T W} (self : engine) res f queue_wait (body : W -> result T FsError * W) w clk :
  resources self !! ctx_op (fr_ctx f) = Some res ->
  let d := (draw_op (R := R) self res f (t_reserve clk)).1 in
  match run_admitted (R := R) self res f queue_wait body w clk with
  | RunReturns r eng w' =>
      (exists t, sleep_for d = Returns t) /\
      (r, w') = exec_body (drawn_fault d) body w /\
      events eng = emit (events self) (completion_event f queue_wait d r clk) /\
      eng_metrics eng = record (eng_metrics self) (ctx_op (fr_ctx f))
        (micros_u64 (duration_since (t_end clk) (fr_start f))) (negb (is_ok r)) /\
      eng_seq eng = eng_seq self /\ eng_seed eng = eng_seed self /\
      exists res', resources eng = <[ctx_op (fr_ctx f) := res']> (resources self) /\
        limiter res' = release (limiter res) /\ policy res' = policy res
  | RunBlocks _ => False
  | RunPanics eng w' =>
      sleep_for d = Panic /\ w' = w /\
      events eng = events self /\ eng_metrics eng = eng_metrics self /\
      eng_seq eng = eng_seq self /\ eng_seed eng = eng_seed self /\
      exists res', resources eng = <[ctx_op (fr_ctx f) := res']> (resources self) /\
        limiter res' = release (limiter res) /\ policy res' = policy res
  end.
Proof.
  intros Hres. cbn zeta. unfold run_admitted.
  destruct (draw_op_engine self res f (t_reserve clk) Hres)
    as ((Hseed & Hseq & Hev & Hmet) & res' & Hr' & Hl & Hp).
  destruct (draw_op self res f (t_reserve clk)) as [d e1]. cbn [fst snd] in *.
  assert (Hdrop : forall e : engine, resources e = resources e1 ->
    drop_guard e (ctx_op (fr_ctx f)) =
    set_resources e (ctx_op (fr_ctx f)) (set_limiter res' (release (limiter res)))).
  { intros e He. unfold drop_guard. by rewrite He, Hr', lookup_insert_eq, Hl. }
  destruct (sleep_for d) as [t|] eqn:Es.
  - destruct (exec_body (drawn_fault d) body w) as [r w'] eqn:Eb.
    rewrite finish_op_eq, Hdrop by done. cbn. rewrite Hev, Hmet, Hr', insert_insert_eq.
    split_and!; eauto.
  - rewrite Hdrop by done. cbn. rewrite Hr', insert_insert_eq. split_and!; eauto.
Qed.

(** ** The whole call *)

Definition frame_of (self : engine) (ctx : OpContext) (clk : Clock) : OpFrame :=
  {| fr_ctx := ctx; fr_start := t_start clk; fr_seq := eng_seq self |}.

(** The key of the call's draws does not depend on anything but the seed, the
    call's context and its sequence number. *)
Definition call_key (self : engine) (ctx : OpContext) : SampleKey :=
  {| key_seed := eng_seed self; key_op := ctx_op ctx; key_ino := ctx_ino ctx;
     key_offset := ctx_offset ctx; key_len := Z.min (ctx_len ctx) U32_MAX; key_seq := eng_seq self |}.

Definition call_fault (self : engine) (res : OpResources) (ctx : OpContext) : option Z :=
  sample_fault (R := R) (select_tier res (ctx_op ctx) (ctx_requested_len ctx)).1.2 (call_key self ctx).

Definition call_latency (self : engine) (res : OpResources) (ctx : OpContext) : Z :=
  sample_latency_us (R := R) (select_tier res (ctx_op ctx) (ctx_requested_len ctx)).1.1 (call_key self ctx).

(** [run_op] unfolded once: which of its three ends a call reaches. *)
Lemma run_op_cases {T W} (self : engine) ctx (body : W -> result T FsError * W) w clk res :
  resources self !! ctx_op ctx = Some res ->
  run_op (R := R) self ctx body w clk =
  let '(entered, lim') := acquire_enter (limiter res) (t_acquire clk) in
  let res' := set_limiter res lim' in
  let self' := set_resources (begin_op self ctx (t_start clk)).2 (ctx_op ctx) res' in
  match entered with
  | Fails err =>
      RunReturns (Err (Errno (as_errno err)))
        (reject_op (T := T) self' (frame_of self ctx clk) err clk).2 w
  | Guard queue_wait => run_admitted (R := R) self' res' (frame_of self ctx clk) queue_wait body w clk
  | Waits _ _ => RunBlocks self'
  | Panics => RunPanics self' w
  end.
Proof.
  intros Hres. unfold run_op, begin_op. cbn [resources fst snd]. rewrite Hres.
  by destruct (acquire_enter (limiter res) (t_acquire clk)) as [[] lim'].
Qed.
End EngineFacts.

(** ** The three ends of a call *)

Lemma acquire_enter_ends l now :
  match acquire_enter l now with
  | (Guard q, l') => q = DURATION_ZERO /\ cap l <> 0 /\ inflight (state l) < cap l /\
                     l' = set_state l (admit_now (state l))
  | (Fails err, l') => err = Errno EAGAIN /\ l' = set_state l (reject (state l)) /\
      (cap l = 0 \/ cap l <= inflight (state l) /\ Concurrency.queue_cap l <= queued (state l))
  | (Waits start dl, l') => l' = set_state l (enqueue (state l))
  | (Panics, _) => False
  end.
Proof.
  unfold acquire_enter. destruct (Z.eqb_spec (cap l) 0); [auto|].
  destruct (Z.ltb_spec (inflight (state l)) (cap l)); [done|].
  destruct (Z.leb_spec (Concurrency.queue_cap l) (queued (state l))); auto.
Qed.

Section EngineEnds.
Context {R : Type} `{Rng R} `{Libm} {ES : Type} `{EventSink ES} {HI : Type} `{Histogram HI}.

Abbreviation engine := (SimEngine ES HI).

(** The drawn values of an admitted call, in terms of the engine it started
    from. *)
Definition call_drawn (self : engine) (res : OpResources) (ctx : OpContext) (clk : Clock) : Drawn :=
  (draw_op (R := R)
     (set_resources (begin_op self ctx (t_start clk)).2 (ctx_op ctx)
        (set_limiter res (set_state (limiter res) (admit_now (state (limiter res))))))
     (set_limiter res (set_state (limiter res) (admit_now (state (limiter res)))))
     (frame_of self ctx clk) (t_reserve clk)).1.

Lemma call_drawn_values self res ctx clk :
  drawn_fault (call_drawn self res ctx clk) = call_fault (R := R) self res ctx /\
  drawn_latency_us (call_drawn self res ctx clk) = call_latency (R := R) self res ctx.
Proof. unfold call_drawn. split; apply draw_op_values. Qed.

(** The single account of [run_op] the properties below read off. *)
Inductive run_op_end {T W} (self : engine) (ctx : OpContext) (body : W -> result T FsError * W)
    (w : W) (clk : Clock) (res : OpResources) : run_end T engine W -> Prop :=
| end_rejected eng :
    cap (limiter res) = 0 \/ cap (limiter res) <= inflight (state (limiter res)) /\
      Concurrency.queue_cap (limiter res) <= queued (state (limiter res)) ->
    events eng = emit (events self)
      {| ts_unix_nanos := now_unix_nanos (t_unix clk); ev_seq := eng_seq self; ev_op := ctx_op ctx;
         ev_ino := ctx_ino ctx; ev_offset := ctx_offset ctx; ev_len := ctx_len ctx;
         ev_outcome := OutcomeError; ev_errno := Some EAGAIN; ev_queue_wait_us := 0;
         ev_injected_latency_us := 0; ev_bandwidth_delay_us := 0;
         ev_total_duration_us := micros_u64 (duration_since (t_end clk) (t_start clk)) |} ->
    eng_metrics eng = record (eng_metrics self) (ctx_op ctx)
      (micros_u64 (duration_since (t_end clk) (t_start clk))) true ->
    eng_seq eng = wrapping_add (eng_seq self) 1 ->
    eng_seed eng = eng_seed self ->
    resources eng = <[ctx_op ctx := set_limiter res (set_state (limiter res) (reject (state (limiter res))))]>
                      (resources self) ->
    run_op_end self ctx body w clk res (RunReturns (Err (Errno EAGAIN)) eng w)
| end_completed r eng w' res' t :
    inflight (state (limiter res)) < cap (limiter res) ->
    sleep_for (call_drawn self res ctx clk) = Returns t ->
    (r, w') = exec_body (call_fault (R := R) self res ctx) body w ->
    events eng = emit (events self)
      (completion_event (frame_of self ctx clk) DURATION_ZERO (call_drawn self res ctx clk) r clk) ->
    eng_metrics eng = record (eng_metrics self) (ctx_op ctx)
      (micros_u64 (duration_since (t_end clk) (t_start clk))) (negb (is_ok r)) ->
    eng_seq eng = wrapping_add (eng_seq self) 1 ->
    eng_seed eng = eng_seed self ->
    resources eng = <[ctx_op ctx := res']> (resources self) ->
    limiter res' = release (set_state (limiter res) (admit_now (state (limiter res)))) ->
    policy res' = policy res ->
    run_op_end self ctx body w clk res (RunReturns r eng w')
| end_panicked eng res' :
    inflight (state (limiter res)) < cap (limiter res) ->
    sleep_for (call_drawn self res ctx clk) = Panic ->
    events eng = events self ->
    eng_metrics eng = eng_metrics self ->
    resources eng = <[ctx_op ctx := res']> (resources self) ->
    limiter res' = release (set_state (limiter res) (admit_now (state (limiter res)))) ->
    policy res' = policy res ->
    run_op_end self ctx body w clk res (RunPanics eng w)
| end_blocked eng :
    run_op_end self ctx body w clk res (RunBlocks eng).

Lemma run_op_ends {T W} (self : engine) ctx (body : W -> result T FsError * W) w clk res :
  resources self !! ctx_op ctx = Some res ->
  run_op_end self ctx body w clk res (run_op (R := R) self ctx body w clk).
Proof.
  intros Hres. rewrite (run_op_cases self ctx body w clk res Hres).
  pose proof (acquire_enter_ends (limiter res) (t_acquire clk)) as Hends.
  destruct (acquire_enter (limiter res) (t_acquire clk)) as [entered lim']. cbn zeta.
  destruct entered as [q|err|start dl|]; [..|done].
  - destruct Hends as (-> & _ & Hlt & ->).
    set (res1 := set_limiter res _). set (e1 := set_resources _ _ res1).
    assert (Hres1 : resources e1 !! ctx_op (fr_ctx (frame_of self ctx clk)) = Some res1)
      by apply lookup_insert_eq.
    pose proof (run_admitted_spec e1 res1 (frame_of self ctx clk) DURATION_ZERO body w clk Hres1) as Hspec.
    cbn zeta in Hspec.
    change (draw_op e1 res1 (frame_of self ctx clk) (t_reserve clk)).1
      with (call_drawn self res ctx clk) in Hspec.
    destruct (run_admitted e1 res1 (frame_of self ctx clk) DURATION_ZERO body w clk) as [r eng w'|?|eng w'].
    + destruct Hspec as ((t & Ht) & Hb & Hev & Hm & Hsq & Hsd & res' & Hr & Hl & Hp).
      rewrite (proj1 (call_drawn_values self res ctx clk)) in Hb.
      cbn in Hr. rewrite insert_insert_eq in Hr. by eapply end_completed.
    + done.
    + destruct Hspec as (Ht & -> & Hev & Hm & Hsq & Hsd & res' & Hr & Hl & Hp).
      cbn in Hr. rewrite insert_insert_eq in Hr. by eapply end_panicked.
  - destruct Hends as (-> & -> & Hcond). by apply end_rejected.
  - apply end_blocked.
Qed.
End EngineEnds.

(** ** Latencies never overflow the sleep on their own *)

Definition tier_max_us (res : OpResources) : Prop :=
  is_u64 (max_us (latency (policy res))) /\
  match size_tier (policy res) with
  | Some t => is_u64 (max_us (large_latency (large t)))
  | None => True
  end.

Lemma select_tier_max_us res op len : tier_max_us res -> is_u64 (max_us (select_tier res op len).1.1).
Proof.
  unfold tier_max_us, select_tier. intros [H1 H2]. destruct (is_data_op op); [|done].
  destruct (size_tier (policy res)); [|done]. by case_match.
Qed.

Lemma sleep_for_no_delay d :
  is_u64 (drawn_latency_us d) -> drawn_bandwidth_delay d = DURATION_ZERO ->
  exists t, sleep_for d = Returns t.
Proof.
  unfold sleep_for. intros Hl ->. rewrite duration_add_zero_r by (by apply from_micros_duration). eauto.
Qed.

Lemma release_admit_counts l :
  counters_ok l -> inflight (state l) < cap l ->
  inflight (state (release (set_state l (admit_now (state l))))) = inflight (state l) /\
  queued (state (release (set_state l (admit_now (state l))))) = queued (state l).
Proof.
  unfold counters_ok, is_u64. intros Hok Hlt. cbn.
  rewrite wrapping_add_small, wrapping_sub_small by lia. lia.
Qed.

(** ** Properties *)

(** The tail of [run_op] on two engines that agree on the call's resources. *)
Ltac isolated :=
  destruct (sleep_for _); [|done]; destruct (exec_body _ _ _) as [r w']; rewrite ?finish_op_eq; unfold drop_guard; cbn;
  rewrite !lookup_insert_eq; cbn; rewrite !lookup_insert_eq;
  (split_and!; first [done|intros; by rewrite !lookup_insert_ne]).

Section EngineProperties.
Context {R : Type} `{Rng R} `{Libm} {ES : Type} `{EventSink ES} {HI : Type} `{Histogram HI}.

Abbreviation engine := (SimEngine ES HI).

Lemma run_op_body_cases {T W} (self : engine) ctx (body : W -> result T FsError * W) w clk res r eng w' :
  resources self !! ctx_op ctx = Some res -> counters_ok (limiter res) ->
  run_op (R := R) self ctx body w clk = RunReturns r eng w' ->
  if inflight (state (limiter res)) <? cap (limiter res) then
    match call_fault (R := R) self res ctx with
    | Some errno => r = Err (Errno errno) /\ w' = w
    | None => (r, w') = body w
    end
  else r = Err (Errno EAGAIN) /\ w' = w.
Proof.
  intros Hres Hok E. pose proof (run_op_ends (R := R) self ctx body w clk res Hres) as Hends.
  rewrite E in Hends. unfold counters_ok in Hok.
  inversion Hends as [eng0 Hc|r0 eng0 w0 res' t Hlt Hs Hb| |]; subst.
  - destruct (Z.ltb_spec (inflight (state (limiter res))) (cap (limiter res))); [lia|done].
  - destruct (Z.ltb_spec (inflight (state (limiter res))) (cap (limiter res))); [|lia].
    unfold exec_body in Hb. case_match; [by simplify_eq|done].
Qed.

(** A call that is admitted and returns: its event, and where its result comes
    from. *)
Lemma run_op_admitted {T W} (self : engine) ctx (body : W -> result T FsError * W) w clk res r eng w' :
  resources self !! ctx_op ctx = Some res -> counters_ok (limiter res) ->
  inflight (state (limiter res)) < cap (limiter res) ->
  run_op (R := R) self ctx body w clk = RunReturns r eng w' ->
  (r, w') = exec_body (call_fault (R := R) self res ctx) body w /\
  events eng = emit (events self)
    (completion_event (frame_of self ctx clk) DURATION_ZERO (call_drawn (R := R) self res ctx clk) r clk).
Proof.
  intros Hres Hok Hlt E. pose proof (run_op_ends (R := R) self ctx body w clk res Hres) as Hends.
  rewrite E in Hends. unfold counters_ok in Hok. inversion Hends; subst; [lia|done].
Qed.

(** C1: every call that returns, admitted, faulted or rejected, hands exactly one
    event to the sink and exactly one sample to the recorder; they carry the
    call's own sequence number and context, and agree with the returned
    result on success, errno and duration. *)
Theorem run_op_one_event {T W} (self : engine) ctx (body : W -> result T FsError * W) w clk r eng w' :
  run_op (R := R) self ctx body w clk = RunReturns r eng w' ->
  exists ev,
    events eng = emit (events self) ev /\
    ev_seq ev = eng_seq self /\ ev_op ev = ctx_op ctx /\ ev_ino ev = ctx_ino ctx /\
    ev_offset ev = ctx_offset ctx /\ ev_len ev = ctx_len ctx /\
    (ev_outcome ev, ev_errno ev) = outcome_of r /\
    eng_metrics eng = record (eng_metrics self) (ctx_op ctx) (ev_total_duration_us ev) (negb (is_ok r)).
Proof.
  intros E. destruct (resources self !! ctx_op ctx) as [res|] eqn:Hres;
    [|unfold run_op in E; cbn in E; by rewrite Hres in E].
  pose proof (run_op_ends (R := R) self ctx body w clk res Hres) as Hends. rewrite E in Hends.
  inversion Hends; subst; eexists; (split; [eassumption|]); cbn; split_and!; try done.
  by destruct r.
Qed.

(** A call leaves its limiter as it found it: once it has returned or
    unwound from a panic, the slot it took is free again and nothing is
    left in the queue. *)
Theorem run_op_releases_slot {T W} (self : engine) ctx (body : W -> result T FsError * W) w clk res :
  resources self !! ctx_op ctx = Some res -> counters_ok (limiter res) ->
  match run_op (R := R) self ctx body w clk with
  | RunReturns _ eng _ | RunPanics eng _ =>
      exists res', resources eng !! ctx_op ctx = Some res' /\
        inflight (state (limiter res')) = inflight (state (limiter res)) /\
        queued (state (limiter res')) = queued (state (limiter res))
  | RunBlocks _ => True
  end.
Proof.
  intros Hres Hok. destruct (run_op_ends (R := R) self ctx body w clk res Hres) as
    [eng Hc Hev Hm Hsq Hsd Hr|r eng w' res' t Hlt Hs Hb Hev Hm Hsq Hsd Hr Hl Hp
    |eng res' Hlt Hs Hev Hm Hr Hl Hp|]; [..|done]; rewrite Hr.
  - eexists. split; [apply lookup_insert_eq|done].
  - exists res'. split; [apply lookup_insert_eq|]. rewrite Hl. by apply release_admit_counts.
  - exists res'. split; [apply lookup_insert_eq|]. rewrite Hl. by apply release_admit_counts.
Qed.

(** The body runs exactly when the call is admitted and no fault is drawn: a
    drawn fault returns its errno and a rejection EAGAIN, both with the
    world untouched; otherwise the body's own result is returned. *)
Theorem run_op_body {T W} (self : engine) ctx (body : W -> result T FsError * W) w clk res r eng w' :
  resources self !! ctx_op ctx = Some res -> counters_ok (limiter res) ->
  run_op (R := R) self ctx body w clk = RunReturns r eng w' ->
  if inflight (state (limiter res)) <? cap (limiter res) then
    match call_fault (R := R) self res ctx with
    | Some errno => r = Err (Errno errno) /\ w' = w
    | None => (r, w') = body w
    end
  else r = Err (Errno EAGAIN) /\ w' = w.
Proof. apply run_op_body_cases. Qed.

(** Calls of different operations do not interfere: the result, the world
    and the drawn values of a call depend on no other operation's
    resources, and it changes none of them. *)
Theorem run_op_isolated {T W} (e1 e2 : engine) ctx (body : W -> result T FsError * W) w clk :
  eng_seed e1 = eng_seed e2 -> eng_seq e1 = eng_seq e2 ->
  resources e1 !! ctx_op ctx = resources e2 !! ctx_op ctx ->
  match run_op (R := R) e1 ctx body w clk, run_op (R := R) e2 ctx body w clk with
  | RunReturns r1 e1' w1, RunReturns r2 e2' w2 =>
      r1 = r2 /\ w1 = w2 /\ resources e1' !! ctx_op ctx = resources e2' !! ctx_op ctx /\
      forall op, op <> ctx_op ctx -> resources e1' !! op = resources e1 !! op
  | RunBlocks _, RunBlocks _ => True
  | RunPanics _ w1, RunPanics _ w2 => w1 = w2
  | _, _ => False
  end.
Proof.
  intros Hseed Hseq Hres. unfold run_op, begin_op. cbn [resources].
  rewrite Hres. destruct (resources e2 !! ctx_op ctx) as [res|] eqn:E2; [|done].
  destruct (acquire_enter (limiter res) (t_acquire clk)) as [[q|err|start dl|] lim']; try done.
  - unfold run_admitted, draw_op, sample_key. cbn [fr_ctx fr_start fr_seq eng_seed set_resources].
    rewrite Hseed, Hseq. destruct (select_tier _ _ _) as [[p rs] t].
    destruct (tier_bandwidth _ t) as [bw|];
      [destruct (is_data_op _); [destruct (reserve bw _ _) as [delay bw']; isolated|isolated]|isolated].
  - cbn. rewrite !lookup_insert_eq. split_and!; try done. intros op Hop. by rewrite lookup_insert_ne.
Qed.

(** Replay: two calls with the same seed, context, sequence number and
    policy that are both admitted return the same result and the same
    injected latency, whatever the clock readings, the state of the
    limiters, the buckets, the sink and the metrics. *)
Theorem run_op_replay {T W} (e1 e2 : engine) ctx (body : W -> result T FsError * W) w
    clk1 clk2 res1 res2 r1 r2 e1' e2' w1 w2 :
  eng_seed e1 = eng_seed e2 -> eng_seq e1 = eng_seq e2 ->
  resources e1 !! ctx_op ctx = Some res1 -> resources e2 !! ctx_op ctx = Some res2 ->
  policy res1 = policy res2 ->
  counters_ok (limiter res1) -> inflight (state (limiter res1)) < cap (limiter res1) ->
  counters_ok (limiter res2) -> inflight (state (limiter res2)) < cap (limiter res2) ->
  run_op (R := R) e1 ctx body w clk1 = RunReturns r1 e1' w1 ->
  run_op (R := R) e2 ctx body w clk2 = RunReturns r2 e2' w2 ->
  r1 = r2 /\ w1 = w2 /\
  exists ev1 ev2, events e1' = emit (events e1) ev1 /\ events e2' = emit (events e2) ev2 /\
    ev_injected_latency_us ev1 = ev_injected_latency_us ev2 /\ ev_errno ev1 = ev_errno ev2.
Proof.
  intros Hseed Hseq Hres1 Hres2 Hpol Hok1 Hlt1 Hok2 Hlt2 E1 E2.
  assert (Htier : forall op len, select_tier res1 op len = select_tier res2 op len)
    by (intros; unfold select_tier; by rewrite Hpol).
  assert (Hf : call_fault (R := R) e1 res1 ctx = call_fault (R := R) e2 res2 ctx)
    by (unfold call_fault, call_key; by rewrite Htier, Hseed, Hseq).
  assert (Hl : call_latency (R := R) e1 res1 ctx = call_latency (R := R) e2 res2 ctx)
    by (unfold call_latency, call_key; by rewrite Htier, Hseed, Hseq).
  pose proof (run_op_ends (R := R) e1 ctx body w clk1 res1 Hres1) as Ends1.
  pose proof (run_op_ends (R := R) e2 ctx body w clk2 res2 Hres2) as Ends2.
  rewrite E1 in Ends1. rewrite E2 in Ends2. unfold counters_ok in *.
  inversion Ends1 as [? Hc1|? ? ? ? ? _ _ Hb1 Hev1| |]; subst; [exfalso; lia|].
  inversion Ends2 as [? Hc2|? ? ? ? ? _ _ Hb2 Hev2| |]; subst; [exfalso; lia|].
  rewrite Hf, <- Hb2 in Hb1. simplify_eq. split; [done|]. split; [done|].
  eexists _, _. split; [exact Hev1|]. split; [exact Hev2|]. cbn.
  by rewrite !(proj2 (call_drawn_values _ _ _ _)).
Qed.

(** C37: the requested length decides too: two calls on engines of one seed and
    number and one policy with a size tier, that agree on operation, inode,
    offset and length and so on the sampling key, but request lengths on the two
    sides of the threshold, are told apart by nothing that their events say of
    their contexts, and yet the one gets the latency and the fault that the base
    policy draws under the key, the other those of the large tier. *)
Theorem key_does_not_decide {T W} (e1 e2 : engine) ctx n m tier (body1 body2 : W -> result T FsError * W) w1 w2
    clk1 clk2 res1 res2 r1 r2 e1' e2' w1' w2' :
  is_data_op (ctx_op ctx) = true -> size_tier (policy res1) = Some tier -> n <= threshold_bytes tier < m ->
  eng_seed e1 = eng_seed e2 -> eng_seq e1 = eng_seq e2 ->
  resources e1 !! ctx_op ctx = Some res1 -> resources e2 !! ctx_op ctx = Some res2 -> policy res1 = policy res2 ->
  counters_ok (limiter res1) -> inflight (state (limiter res1)) < cap (limiter res1) ->
  counters_ok (limiter res2) -> inflight (state (limiter res2)) < cap (limiter res2) ->
  run_op (R := R) e1 (with_requested_len ctx n) body1 w1 clk1 = RunReturns r1 e1' w1' ->
  run_op (R := R) e2 (with_requested_len ctx m) body2 w2 clk2 = RunReturns r2 e2' w2' ->
  let key := call_key e1 ctx in
  exists ev1 ev2, events e1' = emit (events e1) ev1 /\ events e2' = emit (events e2) ev2 /\
    ev_seq ev1 = ev_seq ev2 /\ ev_op ev1 = ev_op ev2 /\ ev_ino ev1 = ev_ino ev2 /\
    ev_offset ev1 = ev_offset ev2 /\ ev_len ev1 = ev_len ev2 /\
    ev_injected_latency_us ev1 = sample_latency_us (R := R) (latency (policy res1)) key /\
    ev_injected_latency_us ev2 = sample_latency_us (R := R) (large_latency (large tier)) key /\
    (forall errno, sample_fault (R := R) (faults (policy res1)) key = Some errno -> r1 = Err (Errno errno)) /\
    (forall errno, sample_fault (R := R) (large_faults (large tier)) key = Some errno -> r2 = Err (Errno errno)).
Proof.
  intros Hdata Htier [Hn Hm] Hseed Hseq Hres1 Hres2 Hpol Hok1 Hlt1 Hok2 Hlt2 E1 E2. cbn zeta.
  destruct (run_op_admitted e1 (with_requested_len ctx n) _ _ _ _ _ _ _ Hres1 Hok1 Hlt1 E1) as [Hr1 Hev1].
  destruct (run_op_admitted e2 (with_requested_len ctx m) _ _ _ _ _ _ _ Hres2 Hok2 Hlt2 E2) as [Hr2 Hev2].
  assert (T1 : select_tier res1 (ctx_op ctx) n = (latency (policy res1), faults (policy res1), BaseTier)).
  { unfold select_tier. rewrite Hdata, Htier. by rewrite (proj2 (Z.ltb_ge _ _)). }
  assert (T2 : select_tier res2 (ctx_op ctx) m = (large_latency (large tier), large_faults (large tier), LargeTier)).
  { unfold select_tier. rewrite <- Hpol, Hdata, Htier. by rewrite (proj2 (Z.ltb_lt _ _)). }
  assert (Hkey : call_key e2 ctx = call_key e1 ctx) by (unfold call_key; by rewrite Hseed, Hseq).
  eexists _, _. split; [exact Hev1|]. split; [exact Hev2|].
  cbn [completion_event frame_of fr_seq fr_ctx ev_seq ev_op ev_ino ev_offset ev_len ev_injected_latency_us].
  rewrite !(proj2 (call_drawn_values _ _ _ _)). unfold call_latency, call_fault in *.
  change (call_key e1 (with_requested_len ctx n)) with (call_key e1 ctx) in *.
  change (call_key e2 (with_requested_len ctx m)) with (call_key e2 ctx) in *.
  cbn [with_requested_len ctx_op ctx_requested_len ctx_ino ctx_offset ctx_len] in *. rewrite T1, T2, Hkey in *.
  cbn [fst snd] in *. split_and!; try done; intros errno E; [rewrite E in Hr1|rewrite E in Hr2]; by simplify_eq/=.
Qed.

(** C35: [run_op] panics only where the injected latency and the bandwidth delay
    add up to more than the longest [Duration]; such a call reports
    nothing: no event and no sample. Without a bandwidth profile it cannot
    happen. *)
Theorem run_op_panics {T W} (self : engine) ctx (body : W -> result T FsError * W) w clk res :
  resources self !! ctx_op ctx = Some res -> tier_max_us res ->
  (forall eng w', run_op (R := R) self ctx body w clk = RunPanics eng w' ->
     DURATION_MAX < from_micros (call_latency (R := R) self res ctx)
                    + drawn_bandwidth_delay (call_drawn (R := R) self res ctx clk) /\
     events eng = events self /\ eng_metrics eng = eng_metrics self) /\
  (tier_bandwidth res (select_tier res (ctx_op ctx) (ctx_requested_len ctx)).2 = None ->
   forall eng w', run_op (R := R) self ctx body w clk <> RunPanics eng w').
Proof.
  intros Hres Hmax.
  assert (Hpanic : forall eng w', run_op (R := R) self ctx body w clk = RunPanics eng w' ->
    sleep_for (call_drawn (R := R) self res ctx clk) = Panic /\
    events eng = events self /\ eng_metrics eng = eng_metrics self).
  { intros eng w' E. pose proof (run_op_ends (R := R) self ctx body w clk res Hres) as Hends.
    rewrite E in Hends. by inversion Hends; subst. }
  split.
  - intros eng w' E. destruct (Hpanic eng w' E) as (Hs & Hev & Hm). split_and!; [|done..].
    unfold sleep_for, duration_add in Hs. rewrite (proj2 (call_drawn_values _ _ _ _)) in Hs.
    case_match eqn:El; [done|]. apply Z.leb_gt in El. exact El.
  - intros Hbw eng w' E. destruct (Hpanic eng w' E) as (Hs & _).
    destruct (sleep_for_no_delay (call_drawn (R := R) self res ctx clk)) as [t Ht]; [..|congruence].
    + rewrite (proj2 (call_drawn_values _ _ _ _)). unfold call_latency.
      pose proof (select_tier_max_us res (ctx_op ctx) (ctx_requested_len ctx) Hmax) as Hu.
      pose proof (sample_latency_le_max_raw (R := R) _ (call_key self ctx) Hu) as Hle.
      unfold is_u64 in *. lia.
    + apply draw_op_no_delay. right. unfold frame_tier. cbn [fr_ctx frame_of].
      unfold select_tier, set_limiter in *. cbn [policy] in *. repeat case_match; done.
Qed.
End EngineProperties.

(** Size tiers route on the requested length: the large tier is taken exactly
    by reads and writes that ask for more than the threshold, whatever was
    readable, and every other call uses the base policy. *)
Theorem select_tier_routes res ctx requested :
  (select_tier res (ctx_op ctx) (ctx_requested_len (with_requested_len ctx requested))).2 =
  match size_tier (policy res) with
  | Some tier =>
      if is_data_op (ctx_op ctx) && (threshold_bytes tier <? requested) then LargeTier else BaseTier
  | None => BaseTier
  end.
Proof.
  unfold select_tier. cbn. destruct (is_data_op (ctx_op ctx)); [|by destruct (size_tier _)].
  destruct (size_tier (policy res)) as [tier|]; [|done]. by destruct (threshold_bytes tier <? requested).
Qed.

(** ** Witnesses *)

(** A fixed latency of [us] microseconds. *)
Definition fixed_latency (us : Z) : LatencyProfile :=
  {| base_us := us; lognormal_median_us := f64_zero; lognormal_sigma := f64_zero;
     pareto_weight := f64_zero; pareto_xm_us := f64_one; pareto_alpha := f64_one; max_us := 1000 |}.

(** Reads always fail with EIO after 7 microseconds; large reads take 9 and
    succeed. *)
Definition demo_policy : OpPolicy :=
  {| concurrency_cap := 2; Config.queue_cap := 0; latency := fixed_latency 7; bandwidth := None;
     faults := [{| rule_op := Read; rule_errno := EIO; rule_rate := f64_one |}];
     size_tier := Some {| threshold_bytes := 100; large := {| large_latency := fixed_latency 9;
       Config.large_bandwidth := None; large_faults := [] |} |} |}.

Definition demo_config : Config :=
  {| seed := 42; mount := default_MountConfig; files := default_FilesConfig;
     ops := {[Read := demo_policy]}; Config.metrics := default_MetricsConfig |}.

Definition demo_engine : SimEngine (list Event) (list Z) :=
  engine_new demo_config [] (fun _ => (0, 0)).

Definition demo_clock : Clock :=
  {| t_start := 0; t_acquire := 10; t_reserve := 20; t_end := 9000; t_unix := 1700000000 |}.

(** The body counts its runs in the world. *)
Definition demo_body (w : Z) : result Z FsError * Z := (Ok 11, w + 1).

Definition demo_run (ctx : OpContext) (clk : Clock) : run_end Z (SimEngine (list Event) (list Z)) Z :=
  run_op (R := unit) demo_engine ctx demo_body 0 clk.

Definition demo_eng (ctx : OpContext) (clk : Clock) : SimEngine (list Event) (list Z) :=
  match demo_run ctx clk with RunReturns _ e _ => e | RunBlocks e => e | RunPanics e _ => e end.

Definition small_read : OpContext := data Read 100 0 64.
Definition large_read : OpContext := data Read 100 0 4096.

Definition demo_res : OpResources := build_resources demo_policy 0 0.

Lemma demo_registered : resources demo_engine !! ctx_op small_read = Some demo_res.
Proof. by vm_compute. Qed.

Lemma demo_limiter_ok : counters_ok (limiter demo_res).
Proof. unfold counters_ok, is_u64. cbn. lia. Qed.

(** A run is known by its result and world: its engine need not be normalized. *)
Lemma demo_run_returns ctx clk r w :
  match demo_run ctx clk with RunReturns r _ w => Some (r, w) | _ => None end = Some (r, w) ->
  demo_run ctx clk = RunReturns r (demo_eng ctx clk) w.
Proof. unfold demo_eng. by destruct (demo_run ctx clk) as [r' e w'| |]; [intros [= -> ->]|..]. Qed.

Lemma demo_small_run : demo_run small_read demo_clock =
  RunReturns (Err (Errno EIO)) (demo_eng small_read demo_clock) 0.
Proof. apply demo_run_returns. by vm_compute. Qed.

Lemma demo_large_run clk : clk = demo_clock \/ clk = {| t_start := 5; t_acquire := 6; t_reserve := 7; t_end := 8; t_unix := 0 |} ->
  demo_run large_read clk = RunReturns (Ok 11) (demo_eng large_read clk) 1.
Proof. intros [->| ->]; apply demo_run_returns; by vm_compute. Qed.

Lemma run_op_one_event_witness :
  exists ev, events (demo_eng small_read demo_clock) = [ev] /\ ev_errno ev = Some EIO /\ ev_op ev = Read.
Proof.
  destruct (run_op_one_event (R := unit) demo_engine small_read demo_body 0 demo_clock
    (Err (Errno EIO)) (demo_eng small_read demo_clock) 0 demo_small_run)
    as (ev & Hev & _ & Hop & _ & _ & _ & Hout & _).
  exists ev. split; [exact Hev|]. split; [|exact Hop]. by injection Hout.
Defined.

Lemma run_op_releases_slot_witness :
  exists res', resources (demo_eng small_read demo_clock) !! Read = Some res' /\
    inflight (state (limiter res')) = 0.
Proof.
  pose proof (run_op_releases_slot (R := unit) demo_engine small_read demo_body 0 demo_clock demo_res
    demo_registered demo_limiter_ok) as Hw.
  change (run_op (R := unit) demo_engine small_read demo_body 0 demo_clock)
    with (demo_run small_read demo_clock) in Hw.
  rewrite demo_small_run in Hw. destruct Hw as (res' & Hr & Hi & _). exists res'. by split.
Defined.

(** The fault keeps the body of the small read from running; the large read's
    tier has no faults. *)
Lemma run_op_body_witness :
  call_fault (R := unit) demo_engine demo_res small_read = Some EIO /\
  (Ok 11, 1) = demo_body 0.
Proof.
  pose proof (run_op_body (R := unit) demo_engine small_read demo_body 0 demo_clock demo_res
    (Err (Errno EIO)) (demo_eng small_read demo_clock) 0 demo_registered demo_limiter_ok demo_small_run) as Hs.
  pose proof (run_op_body (R := unit) demo_engine large_read demo_body 0 demo_clock demo_res
    (Ok 11) (demo_eng large_read demo_clock) 1 demo_registered demo_limiter_ok
    (demo_large_run demo_clock (or_introl eq_refl))) as Hl.
  split; [by vm_compute|exact Hl].
Defined.

Lemma run_op_isolated_witness :
  resources (demo_eng small_read demo_clock) !! Write = resources demo_engine !! Write.
Proof.
  pose proof (run_op_isolated (R := unit) demo_engine demo_engine small_read demo_body 0 demo_clock
    eq_refl eq_refl eq_refl) as Hw.
  change (run_op (R := unit) demo_engine small_read demo_body 0 demo_clock)
    with (demo_run small_read demo_clock) in Hw.
  rewrite demo_small_run in Hw. destruct Hw as (_ & _ & _ & Hop). by apply Hop.
Defined.

Definition other_clock : Clock :=
  {| t_start := 5; t_acquire := 6; t_reserve := 7; t_end := 8; t_unix := 0 |}.

Lemma run_op_replay_witness :
  exists ev1 ev2, events (demo_eng large_read demo_clock) = [ev1] /\
    events (demo_eng large_read other_clock) = [ev2] /\
    ev_injected_latency_us ev1 = ev_injected_latency_us ev2.
Proof.
  destruct (run_op_replay (R := unit) demo_engine demo_engine large_read demo_body 0 demo_clock other_clock
    demo_res demo_res (Ok 11) (Ok 11) (demo_eng large_read demo_clock) (demo_eng large_read other_clock) 1 1
    eq_refl eq_refl demo_registered demo_registered eq_refl demo_limiter_ok eq_refl demo_limiter_ok eq_refl
    (demo_large_run demo_clock (or_introl eq_refl)) (demo_large_run other_clock (or_intror eq_refl)))
    as (_ & _ & ev1 & ev2 & H1 & H2 & Hl & _).
  exists ev1, ev2. split; [exact H1|]. by split.
Defined.

(** The same read, asked for with 64 and with 4096 bytes, under a configuration
    that [validate] accepts: it takes 7 microseconds and fails, or takes 9. *)
Lemma key_does_not_decide_witness :
  validate (fun _ => "") demo_config [(Read, demo_policy)] = Ok tt /\
  exists ev1 ev2, events (demo_eng (with_requested_len small_read 64) demo_clock) = [ev1] /\
    events (demo_eng (with_requested_len small_read 4096) demo_clock) = [ev2] /\
    ev_seq ev1 = ev_seq ev2 /\ ev_len ev1 = ev_len ev2 /\
    ev_injected_latency_us ev1 = 7 /\ ev_injected_latency_us ev2 = 9.
Proof.
  split; [by vm_compute|].
  destruct (key_does_not_decide (R := unit) demo_engine demo_engine small_read 64 4096
    {| threshold_bytes := 100; large := {| large_latency := fixed_latency 9; Config.large_bandwidth := None; large_faults := [] |} |}
    demo_body demo_body 0 0 demo_clock demo_clock demo_res demo_res (Err (Errno EIO)) (Ok 11)
    (demo_eng (with_requested_len small_read 64) demo_clock) (demo_eng (with_requested_len small_read 4096) demo_clock) 0 1)
    as (ev1 & ev2 & H1 & H2 & Hseq & _ & _ & _ & Hlen & Hl1 & Hl2 & _);
    [reflexivity|reflexivity|by split|reflexivity|reflexivity|exact demo_registered|exact demo_registered|reflexivity
    |exact demo_limiter_ok|reflexivity|exact demo_limiter_ok|reflexivity| | |].
  - apply demo_run_returns. by vm_compute.
  - apply demo_run_returns. by vm_compute.
  - exists ev1, ev2. split_and!; [exact H1|exact H2|exact Hseq|exact Hlen|rewrite Hl1; by vm_compute|rewrite Hl2; by vm_compute].
Defined.

Lemma demo_max_us : tier_max_us demo_res.
Proof. by split. Qed.

Lemma run_op_panics_witness :
  demo_run small_read demo_clock <> RunPanics demo_engine 0.
Proof.
  exact (proj2 (run_op_panics (R := unit) demo_engine small_read demo_body 0 demo_clock demo_res
    demo_registered demo_max_us) eq_refl demo_engine 0).
Defined.

(** A bandwidth profile of 2^-1074 bytes per second, the least positive rate. *)
Definition crawl_policy : OpPolicy :=
  {| concurrency_cap := 2; Config.queue_cap := 0; latency := fixed_latency 1;
     bandwidth := Some {| bytes_per_sec := S754_finite false 1 (-1074); burst_bytes := 0 |};
     faults := []; size_tier := None |}.

Definition crawl_config : Config :=
  {| seed := 42; mount := default_MountConfig; files := default_FilesConfig;
     ops := {[Read := crawl_policy]}; Config.metrics := default_MetricsConfig |}.

Definition crawl_run : run_end Z (SimEngine (list Event) (list Z)) Z :=
  run_op (R := unit) (engine_new crawl_config [] (fun _ => (0, 0))) small_read demo_body 0 demo_clock.

(** C36: a configuration that [validate] accepts can make [run_op] panic: at a tiny
    bandwidth the delay saturates at [Duration::MAX], the injected latency is
    added to it, and the call ends without event, sample or reply. *)
Theorem run_op_overflow_panics (fmt : f64 -> string) :
  validate fmt crawl_config [(Read, crawl_policy)] = Ok tt /\
  exists eng, run_op (R := unit) (engine_new (HI := list Z) crawl_config ([] : list Event) (fun _ => (0, 0)))
                small_read demo_body 0 demo_clock = RunPanics eng 0 /\
    events eng = [] /\ eng_metrics eng = ∅.
Proof.
  split; [by vm_compute|].
  assert (E : match crawl_run with RunPanics e w => Some (events e, bool_decide (eng_metrics e = ∅), w) | _ => None end
              = Some ([], true, 0)) by by vm_compute.
  unfold crawl_run in E. destruct (run_op _ _ _ _ _) as [|e|e w]; [done..|].
  injection E as Hev Hm%bool_decide_eq_true ->. by exists e.
Qed.
