(* ===== verification/EngineSteps.v ===== *)
(** * Concurrent calls of the engine

    [SimEngine::run_op] for any number of threads at once. Each call is a
    sequence of the stages of the file Engine, one atomic step per access to
    shared state: the sequence counter, the limiter's critical sections, the
    bucket, the sink, the recorder. [estep] interleaves them. Every step
    projects, for every operation, to at most one step of that operation's
    limiter, so the limiter's invariants hold in the running engine. *)

From stdpp Require Import base list numbers gmap.
From Stdlib Require Import ZArith Lia Bool.

From S2P Require Import Prelude Word Float Binary64 Time Op Concurrency Config SampleKey Sampler.
From S2P Require Import Bandwidth Metrics Events Engine.

Local Open Scope Z_scope.

Section Phases.
Context {T W : Type}.

(** A call in progress: its frame and its closure. *)
Record Running : Type := {
  run_frame : OpFrame;
  run_body : W -> result T FsError * W
}.

(** Where a thread is in [run_op]. *)
Inductive op_phase : Type :=
| Ready
| Entering (c : Running)
| Queued (c : Running) (start : Instant)
| Notified (c : Running) (start : Instant)
| Rejected (c : Running) (err : FsError)
| RejectEmitted (c : Running) (err : FsError) (total_us : Z)
| Granted (c : Running) (queue_wait : Duration)
| Sleeping (c : Running) (queue_wait : Duration) (d : Drawn)
| Finished (c : Running) (queue_wait : Duration) (d : Drawn) (r : result T FsError)
| Emitted (c : Running) (queue_wait : Duration) (total_us : Z) (r : result T FsError)
| Recorded (c : Running) (queue_wait : Duration) (r : result T FsError)
| Unwinding (c : Running) (queue_wait : Duration)
| Panicked (c : Running).

Definition run_op_of (c : Running) : FsOp := ctx_op (fr_ctx (run_frame c)).

(** [notify_one] on the condition variable of one operation's limiter. *)
Inductive notify_op (op : FsOp) : list op_phase -> list op_phase -> Prop :=
| notify_op_none ts :
    (forall i c start, ts !! i = Some (Queued c start) -> run_op_of c <> op) -> notify_op op ts ts
| notify_op_some ts i c start :
    ts !! i = Some (Queued c start) -> run_op_of c = op ->
    notify_op op ts (<[i := Notified c start]> ts).

(** After the section of [acquire] that a call of [acquire_enter] or
    [acquire_wake] ends. *)
Definition after_section (c : Running) (r : section_end) : op_phase :=
  match r with
  | Guard w => Granted c w
  | Fails e => Rejected c e
  | Waits start _ => Queued c start
  | Panics => Panicked c
  end.

(** The thread as its operation's limiter sees it. *)
Definition lim_phase (op : FsOp) (p : op_phase) : phase :=
  match p with
  | Ready | Entering _ | Rejected _ _ | RejectEmitted _ _ _ | Panicked _ => Idle
  | Queued c start => if decide (run_op_of c = op) then Asleep start None else Idle
  | Notified c start => if decide (run_op_of c = op) then Woken start None false else Idle
  | Granted c w | Sleeping c w _ | Finished c w _ _ | Emitted c w _ _ | Recorded c w _ | Unwinding c w =>
      if decide (run_op_of c = op) then Holding w else Idle
  end.

(** The sequence number of a call that has not emitted its event. *)
Definition silent_seq (p : op_phase) : list Z :=
  match p with
  | Entering c | Queued c _ | Notified c _ | Rejected c _ | Granted c _ | Sleeping c _ _
  | Finished c _ _ _ | Unwinding c _ | Panicked c => [fr_seq (run_frame c)]
  | Ready | RejectEmitted _ _ _ | Emitted _ _ _ _ | Recorded _ _ _ => []
  end.

(** The sample a call has still to record after its event. *)
Definition owed_sample (p : op_phase) : list sample :=
  match p with
  | RejectEmitted c _ total => [(run_op_of c, total, true)]
  | Emitted c _ total r => [(run_op_of c, total, negb (is_ok r))]
  | _ => []
  end.

(** What [run_op] is about to return. *)
Definition call_result (p : op_phase) : option (result T FsError) :=
  match p with
  | Recorded _ _ r => Some r
  | RejectEmitted _ err _ => Some (Err (Errno (as_errno err)))
  | _ => None
  end.
End Phases.

Arguments Running : clear implicits.
Arguments op_phase : clear implicits.

Section Steps.
Context {R : Type} `{Rng R} `{Libm} {ES : Type} `{EventSink ES} {HI : Type} `{Histogram HI}.
Context {T W : Type}.

Abbreviation engine := (SimEngine ES HI).

(** The shared state; [begun], [log] and [samples] record the history: the
    calls begun, the events emitted and the samples recorded, in order. *)
Record Shared : Type := {
  eng : engine;
  world : W;
  ops_in : list (op_phase T W);
  begun : Z;
  log : list Event;
  samples : list sample
}.

Definition set_thread (s : Shared) (e : engine) (i : nat) (p : op_phase T W) : Shared :=
  {| eng := e; world := world s; ops_in := <[i := p]> (ops_in s); begun := begun s;
     log := log s; samples := samples s |}.

Definition set_threads (s : Shared) (e : engine) (ts : list (op_phase T W)) : Shared :=
  {| eng := e; world := world s; ops_in := ts; begun := begun s; log := log s; samples := samples s |}.

Definition with_event (s : Shared) (i : nat) (p : op_phase T W) (ev : Event) : Shared :=
  {| eng := set_events (eng s) (emit (events (eng s)) ev); world := world s;
     ops_in := <[i := p]> (ops_in s); begun := begun s; log := log s ++ [ev]; samples := samples s |}.

Definition with_sample (s : Shared) (i : nat) (p : op_phase T W) (x : sample) : Shared :=
  {| eng := record_metric (eng s) (sample_op x) (sample_us x) (sample_err x); world := world s;
     ops_in := <[i := p]> (ops_in s); begun := begun s; log := log s; samples := samples s ++ [x] |}.

(** The event of a rejected call. *)
Definition rejection_event (f : OpFrame) (err : FsError) (total_us unix : Z) : Event :=
  {| ts_unix_nanos := now_unix_nanos unix; ev_seq := fr_seq f; ev_op := ctx_op (fr_ctx f);
     ev_ino := ctx_ino (fr_ctx f); ev_offset := ctx_offset (fr_ctx f); ev_len := ctx_len (fr_ctx f);
     ev_outcome := OutcomeError; ev_errno := Some (as_errno err); ev_queue_wait_us := 0;
     ev_injected_latency_us := 0; ev_bandwidth_delay_us := 0; ev_total_duration_us := total_us |}.

(** The labels are those of the limiter: only [e_begin] starts a call. *)
Inductive estep : label -> Shared -> Shared -> Prop :=
| e_begin s i ctx body now f e :
    ops_in s !! i = Some Ready -> begin_op (eng s) ctx now = (f, e) ->
    estep Call s {| eng := e; world := world s;
               ops_in := <[i := Entering {| run_frame := f; run_body := body |}]> (ops_in s);
               begun := begun s + 1; log := log s; samples := samples s |}
| e_acquire s i c res now r l :
    ops_in s !! i = Some (Entering c) -> resources (eng s) !! run_op_of c = Some res ->
    acquire_enter (limiter res) now = (r, l) ->
    estep Settle s (set_thread s (set_resources (eng s) (run_op_of c) (set_limiter res l)) i (after_section c r))
| e_spurious s i c start :
    ops_in s !! i = Some (Queued c start) ->
    estep Spurious s (set_thread s (eng s) i (Notified c start))
| e_wake s i c start res now r l :
    ops_in s !! i = Some (Notified c start) -> resources (eng s) !! run_op_of c = Some res ->
    acquire_wake (limiter res) start now = (r, l) ->
    estep Settle s (set_thread s (set_resources (eng s) (run_op_of c) (set_limiter res l)) i (after_section c r))
| e_reject_emit s i c err now unix :
    ops_in s !! i = Some (Rejected c err) ->
    estep Settle s (with_event s i
      (RejectEmitted c err (micros_u64 (duration_since now (fr_start (run_frame c)))))
      (rejection_event (run_frame c) err (micros_u64 (duration_since now (fr_start (run_frame c)))) unix))
| e_reject_record s i c err total :
    ops_in s !! i = Some (RejectEmitted c err total) ->
    estep Settle s (with_sample s i Ready (run_op_of c, total, true))
| e_draw s i c w res now d e :
    ops_in s !! i = Some (Granted c w) -> resources (eng s) !! run_op_of c = Some res ->
    draw_op (R := R) (eng s) res (run_frame c) now = (d, e) ->
    estep Settle s (set_thread s e i
      match sleep_for d with Returns _ => Sleeping c w d | Panic => Unwinding c w end)
| e_execute s i c w d r w' :
    ops_in s !! i = Some (Sleeping c w d) -> exec_body (drawn_fault d) (run_body c) (world s) = (r, w') ->
    estep Settle s {| eng := eng s; world := w'; ops_in := <[i := Finished c w d r]> (ops_in s);
               begun := begun s; log := log s; samples := samples s |}
| e_emit s i c w d r clk :
    ops_in s !! i = Some (Finished c w d r) ->
    estep Settle s (with_event s i
      (Emitted c w (micros_u64 (duration_since (t_end clk) (fr_start (run_frame c)))) r)
      (completion_event (run_frame c) w d r clk))
| e_record s i c w total r :
    ops_in s !! i = Some (Emitted c w total r) ->
    estep Settle s (with_sample s i (Recorded c w r) (run_op_of c, total, negb (is_ok r)))
| e_return s i c w r ts :
    ops_in s !! i = Some (Recorded c w r) -> notify_op (run_op_of c) (<[i := Ready]> (ops_in s)) ts ->
    estep Settle s (set_threads s (drop_guard (eng s) (run_op_of c)) ts)
| e_unwind s i c w ts :
    ops_in s !! i = Some (Unwinding c w) ->
    notify_op (run_op_of c) (<[i := Panicked c]> (ops_in s)) ts ->
    estep Settle s (set_threads s (drop_guard (eng s) (run_op_of c)) ts).

Definition esteps : Shared -> Shared -> Prop := steps (fun s s' => exists a, estep a s s').

(** An engine just built, with [n] idle threads. *)
Definition e_initial (config : Config) (sink : ES) (nows : FsOp -> Instant * Instant) (w : W) (n : nat) : Shared :=
  {| eng := engine_new config sink nows; world := w; ops_in := replicate n Ready; begun := 0;
     log := []; samples := [] |}.

(** ** The limiter of one operation *)

Definition limiter_of (s : Shared) (op : FsOp) (l : BlockingLimiter) : Prop :=
  exists res, resources (eng s) !! op = Some res /\ limiter res = l.

Definition project (op : FsOp) (l : BlockingLimiter) (n : Z) (s : Shared) : System :=
  {| lim := l; threads := lim_phase op <$> ops_in s; calls := n |}.
End Steps.

Arguments Shared : clear implicits.

(** ** Refinement of the limiter *)

Section Simulation.
Context {R : Type} `{Rng R} `{Libm} {ES : Type} `{EventSink ES} {HI : Type} `{Histogram HI}.
Context {T W : Type}.

Abbreviation shared := (Shared ES HI T W).
Abbreviation threads_of := (list (op_phase T W)).

Lemma notify_op_same op (ts ts' : threads_of) :
  notify_op op ts ts' -> notify_one (lim_phase op <$> ts) (lim_phase op <$> ts').
Proof.
  intros [ts0 Hno|ts0 i c start Hi Hop].
  - apply notify_none, count_zero. intros i p Hp.
    apply list_lookup_fmap_Some in Hp as (q & -> & Hq).
    destruct q; cbn; try done; try (case_decide; try done; by apply Hno in Hq).
  - rewrite list_fmap_insert. cbn [lim_phase]. rewrite decide_True by done.
    apply (notify_some _ _ start None). rewrite list_lookup_fmap, Hi. cbn. by rewrite decide_True.
Qed.

Lemma notify_op_other op op' (ts ts' : threads_of) :
  notify_op op ts ts' -> op' <> op -> lim_phase op' <$> ts' = lim_phase op' <$> ts.
Proof.
  intros [|ts0 i c start Hi Hop] Hne; [done|].
  rewrite list_fmap_insert. apply list_insert_id. rewrite list_lookup_fmap, Hi. cbn.
  by rewrite !decide_False by congruence.
Qed.

(** A thread that stays in the same phase for a limiter leaves it as it was. *)
Lemma project_stay op l n (ts : threads_of) i p p' :
  ts !! i = Some p -> lim_phase op p' = lim_phase op p ->
  {| lim := l; threads := lim_phase op <$> <[i := p']> ts; calls := n |} =
  {| lim := l; threads := lim_phase op <$> ts; calls := n |}.
Proof.
  intros Hi E. f_equal. rewrite list_fmap_insert, E. apply list_insert_id.
  by rewrite list_lookup_fmap, Hi.
Qed.

Lemma lim_phase_lookup op (ts : threads_of) i p :
  ts !! i = Some p -> (lim_phase op <$> ts) !! i = Some (lim_phase op p).
Proof. intros Hi. by rewrite list_lookup_fmap, Hi. Qed.

(** The phase after a section of [acquire]. *)
Lemma after_enter_phase op (c : Running T W) l now r l' :
  acquire_enter l now = (r, l') ->
  lim_phase op (after_section c r) = if decide (run_op_of c = op) then phase_after r else Idle.
Proof.
  unfold acquire_enter. intros E. repeat case_match; simplify_eq; cbn; repeat case_decide; done.
Qed.

Lemma after_wake_phase op (c : Running T W) l start now r l' :
  acquire_wake l start now = (r, l') ->
  lim_phase op (after_section c r) = if decide (run_op_of c = op) then phase_after r else Idle.
Proof. unfold acquire_wake. intros E. repeat case_match; simplify_eq; cbn; repeat case_decide; done. Qed.

Definition sim_step (s s' : shared) : Prop :=
  forall op l n, limiter_of s op l ->
  exists l' n', limiter_of s' op l' /\
    (project op l n s = project op l' n' s' \/
     exists a, lstep a (project op l n s) (project op l' n' s')).

(** Steps that touch neither the limiters nor a thread's phase in them. *)
Lemma sim_stay (s s' : shared) i p p' :
  ops_in s !! i = Some p -> ops_in s' = <[i := p']> (ops_in s) ->
  (forall op, lim_phase op p' = lim_phase op p) ->
  (forall op l, limiter_of s op l -> limiter_of s' op l) -> sim_step s s'.
Proof.
  intros Hi Hops Hp Hl op l n Hlim. exists l, n. split; [by apply Hl|left].
  unfold project. rewrite Hops. symmetry. by eapply project_stay.
Qed.

(** A section of [acquire] on one limiter. *)
Lemma sim_section (s : shared) i p (c : Running T W) res r l :
  ops_in s !! i = Some p -> resources (eng s) !! run_op_of c = Some res ->
  (forall op, op <> run_op_of c -> lim_phase op p = Idle) ->
  (forall op, lim_phase op (after_section c r) = if decide (run_op_of c = op) then phase_after r else Idle) ->
  (forall n, exists n' a, lstep a (project (run_op_of c) (limiter res) n s)
     {| lim := l; threads := <[i := phase_after r]> (lim_phase (run_op_of c) <$> ops_in s); calls := n' |}) ->
  sim_step s (set_thread s (set_resources (eng s) (run_op_of c) (set_limiter res l)) i (after_section c r)).
Proof.
  intros Hi Hres Hidle Hphase Hstep op l0 n (res0 & Hr0 & <-).
  destruct (decide (run_op_of c = op)) as [<-|Hne].
  - assert (res0 = res) as -> by congruence. destruct (Hstep n) as (n' & a & Hs).
    exists l, n'. split; [exists (set_limiter res l); split; [apply lookup_insert_eq|done]|].
    right. exists a. unfold project at 2. cbn [ops_in set_thread].
    rewrite list_fmap_insert, Hphase, decide_True by done. exact Hs.
  - exists (limiter res0), n. split.
    + exists res0. split; [|done]. cbn. by rewrite lookup_insert_ne.
    + left. unfold project. cbn [ops_in set_thread]. symmetry. eapply project_stay; [exact Hi|].
      rewrite Hphase, decide_False by done. by rewrite Hidle by done.
Qed.

(** Dropping a guard, on return or on unwinding. *)
Lemma sim_release (s : shared) i p p' (c : Running T W) w ts :
  ops_in s !! i = Some p ->
  (forall op, lim_phase op p = if decide (run_op_of c = op) then Holding w else Idle) ->
  (forall op, lim_phase op p' = Idle) ->
  notify_op (run_op_of c) (<[i := p']> (ops_in s)) ts ->
  sim_step s (set_threads s (drop_guard (eng s) (run_op_of c)) ts).
Proof.
  intros Hi Hp Hp' Hn op l n (res & Hres & <-). unfold drop_guard.
  destruct (decide (run_op_of c = op)) as [<-|Hne].
  - rewrite Hres. exists (release (limiter res)), n. split.
    + eexists. split; [apply lookup_insert_eq|done].
    + right. exists Settle. unfold project. cbn [ops_in set_threads]. refine (step_release {| lim := limiter res; threads := lim_phase (run_op_of c) <$> ops_in s; calls := n |} i w _ _ _).
      * cbn [threads]. rewrite (lim_phase_lookup _ _ _ _ Hi), Hp. by rewrite decide_True.
      * cbn [threads]. apply notify_op_same in Hn. by rewrite list_fmap_insert, Hp' in Hn.
  - exists (limiter res), n. split.
    + exists res. split; [|done]. cbn. case_match; [|done]. cbn. by rewrite lookup_insert_ne.
    + left. unfold project. cbn [ops_in set_threads]. f_equal.
      rewrite (notify_op_other _ _ _ _ Hn) by done. rewrite list_fmap_insert, Hp'. symmetry.
      apply list_insert_id. rewrite (lim_phase_lookup _ _ _ _ Hi), Hp. by rewrite decide_False.
Qed.

Lemma estep_sim a (s s' : shared) : estep (R := R) a s s' -> sim_step s s'.
Proof.
  destruct 1 as [s i ctx body now f e Hi E|s i c res now r l Hi Hres E|s i c start Hi
                |s i c start res now r l Hi Hres E|s i c err now unix Hi|s i c err total Hi
                |s i c w res now d e Hi Hres E|s i c w d r w' Hi E|s i c w d r clk Hi|s i c w total r Hi
                |s i c w r ts Hi Hn|s i c w ts Hi Hn].
  - eapply sim_stay; [exact Hi|done|done|]. unfold begin_op in E. simplify_eq. by intros.
  - eapply sim_section; [exact Hi|done|done|intros; by eapply after_enter_phase|].
    intros n. exists (n + 1), Call. refine (step_acquire (project (run_op_of c) (limiter res) n s) i now r l _ E).
    by apply (lim_phase_lookup (run_op_of c)) in Hi.
  - intros op l n Hl. exists l, n. split; [done|]. unfold project. cbn [ops_in set_thread].
    destruct (decide (run_op_of c = op)) as [Hop|Hne].
    + right. exists Spurious. rewrite list_fmap_insert. cbn [lim_phase]. rewrite decide_True by done.
      refine (step_spurious {| lim := l; threads := lim_phase op <$> ops_in s; calls := n |} i start None _). cbn. rewrite (lim_phase_lookup _ _ _ _ Hi). cbn. by rewrite decide_True.
    + left. symmetry. eapply project_stay; [exact Hi|]. cbn. by rewrite !decide_False.
  - eapply sim_section; [exact Hi|done| |intros; by eapply after_wake_phase|].
    { intros op Hne. cbn. by rewrite decide_False. }
    intros n. exists n, Settle. refine (step_wake (project (run_op_of c) (limiter res) n s) i start false now r l _ E).
    apply (lim_phase_lookup (run_op_of c)) in Hi. cbn in Hi. by rewrite decide_True in Hi.
  - by eapply sim_stay.
  - by eapply sim_stay.
  - pose proof (draw_op_engine (R := R) (eng s) res (run_frame c) now Hres) as (_ & res' & Hr & Hl & _).
    rewrite E in Hr. cbn [snd] in Hr. eapply sim_stay; [exact Hi|done|by intros; destruct (sleep_for d)|].
    intros op l (res0 & Hr0 & <-). cbn [eng set_thread]. unfold limiter_of. cbn [eng set_thread]. rewrite Hr.
    destruct (decide (ctx_op (fr_ctx (run_frame c)) = op)) as [<-|Hne].
    + exists res'. split; [apply lookup_insert_eq|]. unfold run_op_of in Hres. congruence.
    + exists res0. by rewrite lookup_insert_ne.
  - by eapply sim_stay.
  - by eapply sim_stay.
  - by eapply sim_stay.
  - by eapply (sim_release s i _ Ready c w).
  - by eapply (sim_release s i _ (Panicked c) c w).
Qed.
End Simulation.

(** ** History *)

(** The sample that goes with an event. *)
Definition sample_of_event (e : Event) : sample :=
  (ev_op e, ev_total_duration_us e, match ev_outcome e with OutcomeError => true | OutcomeOk => false end).

Definition policy_of (config : Config) (op : FsOp) : OpPolicy := default default_OpPolicy (ops config !! op).

Section History.
Context {R : Type} `{Rng R} `{Libm} {ES : Type} `{EventSink ES} {HI : Type} `{Histogram HI}.
Context {T W : Type}.

Abbreviation shared := (Shared ES HI T W).

(** The sink and the recorder hold what was emitted and recorded; every call
    begun has emitted its event or will, and every event emitted has its sample
    recorded or owed. *)
Record history (sink : ES) (s : shared) : Prop := {
  hist_begun : 0 <= begun s;
  hist_seq : eng_seq (eng s) = wrap64 (begun s);
  hist_seqs : (ev_seq <$> log s) ++ (ops_in s ≫= silent_seq) ≡ₚ wrap64 <$> seqZ 0 (begun s);
  hist_samples : samples s ++ (ops_in s ≫= owed_sample) ≡ₚ sample_of_event <$> log s;
  hist_sink : events (eng s) = fold_left emit (log s) sink;
  hist_metrics : eng_metrics (eng s) = record_all recorder_new (samples s)
}.

(** Steps that record nothing. *)
Definition same_history (s s' : shared) : Prop :=
  same_but_resources (eng s) (eng s') /\ begun s' = begun s /\ log s' = log s /\ samples s' = samples s /\
  ops_in s' ≫= silent_seq = ops_in s ≫= silent_seq /\ ops_in s' ≫= owed_sample = ops_in s ≫= owed_sample.

Lemma history_same sink (s s' : shared) : same_history s s' -> history sink s -> history sink s'.
Proof.
  intros ((_ & E1 & E2 & E3) & E4 & E5 & E6 & E7 & E8) [H1' H2' H3' H4' H5' H6'].
  split; rewrite ?E1, ?E2, ?E3, ?E4, ?E5, ?E6, ?E7, ?E8; done.
Qed.

(** A step of one thread that has the same in flight before and after. *)
Lemma same_history_thread (s : shared) e w i p p' :
  ops_in s !! i = Some p -> same_but_resources (eng s) e ->
  silent_seq p' = silent_seq p -> owed_sample p' = owed_sample p ->
  same_history s {| eng := e; world := w; ops_in := <[i := p']> (ops_in s); begun := begun s;
                    log := log s; samples := samples s |}.
Proof.
  intros Hi He Hs Ho. split; [done|]. cbn [begun log samples ops_in]. split_and!; try done.
  - by apply bind_insert_same with p.
  - by apply bind_insert_same with p.
Qed.

Lemma notify_op_history op (ts ts' : list (op_phase T W)) :
  notify_op op ts ts' ->
  ts' ≫= silent_seq = ts ≫= silent_seq /\ ts' ≫= owed_sample = ts ≫= owed_sample.
Proof.
  intros [|ts0 i c start Hi _]; [done|]. by split; eapply bind_insert_same.
Qed.

Lemma drop_guard_same (e : SimEngine ES HI) op : same_but_resources e (drop_guard e op).
Proof. unfold drop_guard. by case_match. Qed.

Lemma same_history_release (s : shared) i p p' op ts :
  ops_in s !! i = Some p -> silent_seq p' = silent_seq p -> owed_sample p' = owed_sample p ->
  notify_op op (<[i := p']> (ops_in s)) ts ->
  same_history s (set_threads s (drop_guard (eng s) op) ts).
Proof.
  intros Hi Hs Ho [N1 N2]%notify_op_history. split; [apply drop_guard_same|].
  cbn [begun log samples ops_in set_threads]. rewrite N1, N2. split_and!; try done.
  - by apply bind_insert_same with p.
  - by apply bind_insert_same with p.
Qed.

Lemma after_section_history (c : Running T W) r :
  silent_seq (after_section c r) = [fr_seq (run_frame c)] /\ owed_sample (after_section c r) = [].
Proof. by destruct r. Qed.

Lemma seqZ_snoc n : 0 <= n -> wrap64 <$> seqZ 0 (n + 1) = (wrap64 <$> seqZ 0 n) ++ [wrap64 n].
Proof. intros Hn. by rewrite seqZ_app, fmap_app by lia. Qed.

(** The call emits its event: its number moves from the calls in flight to the
    log, and the sample of the event becomes owed. *)
Lemma history_event sink (s : shared) i p p' ev :
  ops_in s !! i = Some p -> silent_seq p = [ev_seq ev] -> silent_seq p' = [] ->
  owed_sample p = [] -> owed_sample p' = [sample_of_event ev] ->
  history sink s -> history sink (with_event s i p' ev).
Proof.
  intros Hi Hp Hp' Ho Ho' [H1' H2' H3' H4' H5' H6'].
  pose proof (bind_insert silent_seq _ _ _ p' Hi) as Bs. pose proof (bind_insert owed_sample _ _ _ p' Hi) as Bo.
  rewrite Hp, Hp' in Bs. rewrite Ho, Ho' in Bo. cbn [app] in Bs, Bo.
  split; cbn [eng ops_in begun log samples with_event eng_seq events eng_metrics set_events]; try done.
  - rewrite fmap_app, <- H3'. cbn [fmap list_fmap]. by rewrite <- (assoc_L (++)), <- Bs.
  - rewrite Bo, fmap_app. cbn [fmap list_fmap]. rewrite <- H4'.
    by rewrite (Permutation_app_comm (samples s ++ _)), <- Permutation_middle.
  - by rewrite H5', fold_left_app.
Qed.

(** The call records its sample. *)
Lemma history_sample sink (s : shared) i p p' x :
  ops_in s !! i = Some p -> silent_seq p = [] -> silent_seq p' = [] ->
  owed_sample p = [x] -> owed_sample p' = [] ->
  history sink s -> history sink (with_sample s i p' x).
Proof.
  intros Hi Hp Hp' Ho Ho' [H1' H2' H3' H4' H5' H6'].
  pose proof (bind_insert owed_sample _ _ _ p' Hi) as Bo. rewrite Ho, Ho' in Bo. cbn [app] in Bo.
  split; cbn [eng ops_in begun log samples with_sample]; try done.
  - rewrite (bind_insert_same silent_seq _ _ _ _ Hi) by congruence. done.
  - rewrite <- H4', <- Bo, <- (assoc_L (++)). done.
  - unfold record_metric. cbn. rewrite H6', record_all_snoc. done.
Qed.

Lemma history_step sink a (s s' : shared) : estep (R := R) a s s' -> history sink s -> history sink s'.
Proof.
  destruct 1 as [s i ctx body now f e Hi E|s i c res now r l Hi Hres E|s i c start Hi
                |s i c start res now r l Hi Hres E|s i c err now unix Hi|s i c err total Hi
                |s i c w res now d e Hi Hres E|s i c w d r w' Hi E|s i c w d r clk Hi|s i c w total r Hi
                |s i c w r ts Hi Hn|s i c w ts Hi Hn].
  - unfold begin_op in E. simplify_eq. intros [H1' H2' H3' H4' H5' H6'].
    match goal with |- context [<[i := ?p']> (ops_in s)] => pose proof (bind_insert silent_seq _ _ _ p' Hi) as Bs end.
    cbn [silent_seq app run_frame fr_seq] in Bs.
    split; cbn [eng ops_in begun log samples eng_seq events eng_metrics]; try done; try lia.
    + rewrite H2'. unfold wrapping_add, wrap64. by rewrite Z.add_mod_idemp_l.
    + rewrite seqZ_snoc, <- H3', Bs, H2' by done. by rewrite (Permutation_app_comm _ [_]), <- Permutation_middle.
    + by rewrite (bind_insert_same owed_sample _ _ _ _ Hi).
  - destruct (after_section_history c r). by apply history_same, (same_history_thread s _ _ i (Entering c)).
  - by apply history_same, (same_history_thread s _ _ i (Queued c start)).
  - destruct (after_section_history c r). by apply history_same, (same_history_thread s _ _ i (Notified c start)).
  - by eapply history_event.
  - by eapply history_sample.
  - pose proof (draw_op_engine (R := R) (eng s) res (run_frame c) now Hres) as (Hsame & _).
    rewrite E in Hsame. apply history_same, (same_history_thread s _ _ i (Granted c w)); [done|done| |];
      by destruct (sleep_for d).
  - by apply history_same, (same_history_thread s _ _ i (Sleeping c w d)).
  - eapply history_event; [exact Hi|done|done|done|]. cbn. unfold sample_of_event. cbn. by destruct r.
  - by eapply history_sample.
  - by eapply history_same, (same_history_release s i (Recorded c w r) Ready).
  - by eapply history_same, (same_history_release s i (Unwinding c w) (Panicked c)).
Qed.

Lemma history_distinct sink (s : shared) :
  history sink s -> begun s <= 2 ^ 64 -> NoDup ((ev_seq <$> log s) ++ (ops_in s ≫= silent_seq)).
Proof.
  intros [Hb _ Hseqs _ _ _] Hle. rewrite Hseqs. apply NoDup_fmap_2_strong; [|apply NoDup_seqZ].
  intros x y Hx%elem_of_seqZ Hy%elem_of_seqZ. rewrite !wrap64_small by (unfold is_u64; lia). done.
Qed.

(** ** Limits *)

(** Every operation has a limiter, in the invariant of the file Concurrency
    with the bounds of the configuration. *)
Definition limits (config : Config) (s : shared) : Prop :=
  forall op, exists l n, limiter_of s op l /\
    inv (concurrency_cap (policy_of config op)) (Config.queue_cap (policy_of config op)) (project op l n s).

Definition config_words (config : Config) : Prop :=
  forall op, is_u64 (concurrency_cap (policy_of config op)) /\ is_u64 (Config.queue_cap (policy_of config op)).

Lemma limits_step config a (s s' : shared) :
  config_words config -> estep (R := R) a s s' -> limits config s -> limits config s'.
Proof.
  intros Hw Hs Hl op. destruct (Hl op) as (l & n & Hlim & Hinv), (Hw op) as [Hc Hq].
  destruct (estep_sim _ _ _ Hs op l n Hlim) as (l' & n' & Hlim' & Hp). exists l', n'. split; [exact Hlim'|].
  destruct Hp as [<-|[b Hb]]; [exact Hinv|]. by eapply inv_step.
Qed.

Context (config : Config) (sink : ES) (nows : FsOp -> Instant * Instant) (w : W).

Definition engine_reachable (s : shared) : Prop :=
  exists n, esteps (R := R) (e_initial config sink nows w n) s.

Lemma e_initial_limits n : config_words config -> limits config (e_initial config sink nows w n).
Proof.
  intros Hw op. destruct (Hw op) as [Hc Hq].
  exists (Concurrency.new (concurrency_cap (policy_of config op)) (Config.queue_cap (policy_of config op))), 0.
  split; [eexists; split; [apply engine_new_resources|done]|].
  unfold project. cbn [ops_in e_initial]. rewrite fmap_replicate. by apply inv_initial.
Qed.

Lemma e_initial_history n : history sink (e_initial config sink nows w n).
Proof.
  assert (Hnil : forall B (f : op_phase T W -> list B), f Ready = [] -> replicate n Ready ≫= f = []).
  { intros B f Hf. apply bind_nil. intros i x [-> _]%lookup_replicate. exact Hf. }
  split; cbn [begun eng log samples ops_in e_initial]; rewrite ?Hnil by done; try done.
Qed.

Lemma reachable_limits s : config_words config -> engine_reachable s -> limits config s.
Proof.
  intros Hw [n Hn]. eapply (steps_invariant _ (limits config)); [|by apply e_initial_limits|exact Hn].
  intros s1 s2 Hl [a Ha]. by eapply limits_step.
Qed.

Lemma reachable_history s : engine_reachable s -> history sink s.
Proof.
  intros [n Hn]. eapply (steps_invariant _ (history sink)); [|by apply e_initial_history|exact Hn].
  intros s1 s2 Hl [a Ha]. by eapply history_step.
Qed.

(** ** Progress *)

Definition at_rest (p : op_phase T W) : Prop := p = Ready \/ exists c, p = Panicked c.

(** Work left in a call: every step but a new call and a spurious wake-up lowers
    the sum, although a returning call may wake another one. *)
Definition call_work (p : op_phase T W) : Z :=
  match p with
  | Ready | Panicked _ => 0
  | RejectEmitted _ _ _ => 1
  | Rejected _ _ => 2
  | Recorded _ _ _ | Unwinding _ _ => 3
  | Emitted _ _ _ _ => 4
  | Finished _ _ _ _ => 5
  | Sleeping _ _ _ => 6
  | Granted _ _ => 7
  | Queued _ _ => 8
  | Notified _ _ => 9
  | Entering _ => 10
  end.

Lemma call_work_nonneg ts : 0 <= total call_work ts.
Proof. apply total_nonneg. by intros []. Qed.

Lemma after_section_work c r : call_work (after_section c r) <= 8.
Proof. by destruct r. Qed.

Lemma notify_op_work op ts ts' : notify_op op ts ts' -> total call_work ts' <= total call_work ts + 1.
Proof. intros [|ts0 i c start Hi _]; [lia|]. rewrite (total_insert _ _ _ _ _ Hi). cbn. lia. Qed.

Lemma settle_call_work (s s' : shared) :
  estep (R := R) Settle s s' -> total call_work (ops_in s') < total call_work (ops_in s).
Proof.
  inversion 1 as [|? i c res now r l Hi Hres E|
                |? i c start res now r l Hi Hres E|? i c err now unix Hi|? i c err tot Hi
                |? i c qw res now d e Hi Hres E|? i c qw d r w' Hi E|? i c qw d r clk Hi|? i c qw tot r Hi
                |? i c qw r ts Hi Hn|? i c qw ts Hi Hn]; subst;
    cbn [ops_in set_thread set_threads with_event with_sample];
    try (rewrite (total_insert _ _ _ _ _ Hi)).
  1,2: pose proof (after_section_work c r); cbn [call_work]; lia.
  3: destruct (sleep_for d).
  all: cbn [call_work]; try lia.
  all: apply notify_op_work in Hn; rewrite (total_insert _ _ _ _ _ Hi) in Hn; cbn [call_work] in Hn; lia.
Qed.

Lemma notify_op_total op (ts : list (op_phase T W)) : exists ts', notify_op op ts ts'.
Proof.
  set (P := fun p => is_asleep (lim_phase (T := T) (W := W) op p)).
  destruct (Z.eq_dec (count P ts) 0) as [E|E].
  - exists ts. apply notify_op_none. intros i c start Hi Hop.
    pose proof (count_zero_inv P ts i _ E Hi) as Hp. unfold P in Hp. cbn in Hp. by rewrite decide_True in Hp.
  - pose proof (count_nonneg P ts). destruct (count_pos_exists P ts ltac:(lia)) as (i & p & Hi & Hp).
    unfold P in Hp. destruct p; cbn in Hp; try case_decide; try done. eexists. by eapply notify_op_some.
Qed.

Definition parked (p : op_phase T W) : bool :=
  match p with Ready | Panicked _ | Queued _ _ => true | _ => false end.

(** A thread that is neither at rest nor asleep can take its next step. *)
Lemma busy_steps (s : shared) i p :
  (forall op, exists res, resources (eng s) !! op = Some res) ->
  ops_in s !! i = Some p -> parked p = false -> exists s', estep (R := R) Settle s s'.
Proof.
  intros Hreg Hi Hp. destruct p as [|c|c start|c start|c err|c err us|c qw|c qw d|c qw d r|c qw us r|c qw r|c qw|c];
    try done.
  - destruct (Hreg (run_op_of c)) as [res Hres].
    destruct (acquire_enter (limiter res) 0) as [r l] eqn:E. eexists. by eapply e_acquire.
  - destruct (Hreg (run_op_of c)) as [res Hres].
    destruct (acquire_wake (limiter res) start 0) as [r l] eqn:E. eexists. by eapply e_wake.
  - eexists. by apply (e_reject_emit s i c err 0 0).
  - eexists. by eapply e_reject_record.
  - destruct (Hreg (run_op_of c)) as [res Hres].
    destruct (draw_op (R := R) (eng s) res (run_frame c) 0) as [d e] eqn:E. eexists. by eapply e_draw.
  - destruct (exec_body (drawn_fault d) (run_body c) (world s)) as [r w'] eqn:E. eexists. by eapply e_execute.
  - eexists. apply (e_emit s i c qw d r {| t_start := 0; t_acquire := 0; t_reserve := 0; t_end := 0; t_unix := 0 |}).
    exact Hi.
  - eexists. by eapply e_record.
  - destruct (notify_op_total (run_op_of c) (<[i := Ready]> (ops_in s))) as [ts Hts]. eexists. by eapply e_return.
  - destruct (notify_op_total (run_op_of c) (<[i := Panicked c]> (ops_in s))) as [ts Hts].
    eexists. by eapply e_unwind.
Qed.

(** Threads that are all parked are at rest: a limiter with no guard and no
    thread on its way has no sleepers. *)
Lemma parked_rest (s : shared) :
  (forall op, 0 < concurrency_cap (policy_of config op)) -> limits config s ->
  (forall i p, ops_in s !! i = Some p -> parked p = true) ->
  forall i p, ops_in s !! i = Some p -> at_rest p.
Proof.
  intros Hcap Hl Hall i p Hi. pose proof (Hall i p Hi) as Hp. unfold at_rest.
  destruct p as [| |c start| | | | | | | | | |c]; try done; eauto.
  destruct (Hl (run_op_of c)) as (l & n & _ & Hinv). specialize (Hcap (run_op_of c)).
  assert (Hnone : forall P : phase -> bool, (forall st d, P (Asleep st d) = false) -> P Idle = false ->
    count P (lim_phase (run_op_of c) <$> ops_in s) = 0).
  { intros P Ha Hidle. apply count_zero. intros j q Hj.
    apply list_lookup_fmap_Some in Hj as (q' & -> & Hq'). pose proof (Hall _ _ Hq') as Hq.
    destruct q'; try done; cbn; try case_decide; done. }
  pose proof (count_lookup_pos is_asleep _ _ _ (lim_phase_lookup (run_op_of c) _ _ _ Hi)) as Hpos.
  cbn [lim_phase] in Hpos. rewrite decide_True in Hpos by done. specialize (Hpos eq_refl).
  destruct Hinv as [_ _ Hin _ _ _ Hwake _]. cbn [lim threads project] in *.
  rewrite (Hnone is_holding) in Hin by done. rewrite (Hnone is_woken) in Hwake by done. lia.
Qed.

Lemma settle_esteps n (s s' : shared) :
  nsteps (estep (R := R) Settle) n s s' -> Z.of_nat n + total call_work (ops_in s') <= total call_work (ops_in s).
Proof. induction 1 as [s|n s1 s2 s3 H1' _ IH]; [lia|]. apply settle_call_work in H1'. lia. Qed.

Lemma engine_reachable_settle n (s s' : shared) :
  engine_reachable s -> nsteps (estep (R := R) Settle) n s s' -> engine_reachable s'.
Proof.
  intros [k Hk] Hn. exists k. eapply steps_trans; [exact Hk|]. clear Hk.
  induction Hn as [s|n s1 s2 s3 H1' _ IH]; [apply steps_refl|]. eapply steps_cons; eauto.
Qed.

(** ** Properties *)

(** C14: however calls of [run_op] interleave, the limiter of every operation
    counts its calls: [inflight] is the number of threads between admission
    and the drop of their guard and at most [concurrency_cap], [queued] is the
    number of threads waiting and at most [queue_cap], and while a thread
    sleeps beside a free slot another one is on its way to take it. *)
Theorem engine_limits_hold s op :
  config_words config -> engine_reachable s ->
  exists l, limiter_of s op l /\
    let in_phase P := count (fun p => P (lim_phase op p)) (ops_in s) in
    inflight (state l) = in_phase is_holding /\
    inflight (state l) <= concurrency_cap (policy_of config op) /\
    queued (state l) = in_phase is_asleep + in_phase is_woken /\
    queued (state l) <= Config.queue_cap (policy_of config op) /\
    (0 < in_phase is_asleep ->
     concurrency_cap (policy_of config op) - inflight (state l) <= in_phase is_woken).
Proof.
  intros Hw Hr. destruct (reachable_limits s Hw Hr op) as (l & n & Hl & Hinv). exists l. split; [exact Hl|].
  assert (Hcr : count is_crashed (lim_phase op <$> ops_in s) = 0).
  { apply count_zero. intros i p (q & -> & _)%list_lookup_fmap_Some. by destruct q; cbn; try case_decide. }
  destruct Hinv as [_ _ Hin Hqu Hle Hle' Hwake _]. cbn [lim threads project] in *.
  rewrite Hcr, Z.add_0_r in Hqu. cbn zeta. rewrite <- (count_fmap _ is_holding), <- (count_fmap _ is_asleep), <- (count_fmap _ is_woken).
  split_and!; [exact Hin|exact Hle|exact Hqu|exact Hle'|]. clear - Hwake. intros. lia.
Qed.

(** C12: the calls in progress and the events emitted carry distinct sequence
    numbers, as long as the engine has begun at most 2^64 calls; and when
    every thread is idle, each call begun has emitted one event and recorded
    that event's operation, duration and outcome once, the sink and the
    recorder having been given exactly those. *)
Theorem engine_accounts s :
  engine_reachable s ->
  (begun s <= 2 ^ 64 -> NoDup ((ev_seq <$> log s) ++ (ops_in s ≫= silent_seq))) /\
  ((forall i p, ops_in s !! i = Some p -> p = Ready) ->
   (ev_seq <$> log s) ≡ₚ wrap64 <$> seqZ 0 (begun s) /\
   samples s ≡ₚ sample_of_event <$> log s) /\
  events (eng s) = fold_left emit (log s) sink /\
  eng_metrics (eng s) = record_all recorder_new (samples s).
Proof.
  intros Hr. pose proof (reachable_history s Hr) as Hh. destruct (Hh) as [_ _ Hseqs Hsam Hsink Hmet].
  split_and!; try done.
  - by apply history_distinct with sink.
  - intros Hidle. assert (Hnil : forall B (f : op_phase T W -> list B), f Ready = [] -> ops_in s ≫= f = []).
    { intros B f Hf. apply bind_nil. intros i p Hi. by rewrite (Hidle i p Hi). }
    rewrite Hnil, app_nil_r in Hseqs, Hsam by done. done.
Qed.

(** C13: calls complete: where every operation has a slot, from any state the
    threads can reach, without new calls and spurious wake-ups, every schedule
    stops within [call_work] steps, and it stops only where each thread is
    idle or has panicked: no thread is left in the queue, asleep or with a
    guard. *)
Theorem engine_calls_complete s n s' :
  config_words config -> (forall op, 0 < concurrency_cap (policy_of config op)) ->
  engine_reachable s -> nsteps (estep (R := R) Settle) n s s' ->
  Z.of_nat n <= total call_work (ops_in s) /\
  ((forall s'', ~ estep (R := R) Settle s' s'') ->
   forall i p, ops_in s' !! i = Some p -> at_rest p).
Proof.
  intros Hw Hcap Hr Hn. split.
  - pose proof (settle_esteps _ _ _ Hn). pose proof (call_work_nonneg (ops_in s')). lia.
  - intros Hstuck. pose proof (reachable_limits s' Hw (engine_reachable_settle _ _ _ Hr Hn)) as Hl.
    apply parked_rest; [exact Hcap|exact Hl|]. intros i p Hi. destruct (parked p) eqn:Hp; [done|].
    destruct (busy_steps s' i p) as [s'' Hs]; [|done|done|by destruct (Hstuck s'')].
    intros op. destruct (Hl op) as (l & k & (res & Hres & _) & _). eauto.
Qed.

(** ** One call alone *)

(** From [s], thread [i] can reach phase [p], the others standing still. *)
Definition runs_to (s : shared) (i : nat) (e : SimEngine ES HI) (w' : W) (p : op_phase T W) : Prop :=
  exists s', esteps (R := R) s s' /\ eng s' = e /\ world s' = w' /\ ops_in s' = <[i := p]> (ops_in s).

Lemma runs_to_cons a (s1 s2 : shared) i e w' p q :
  estep (R := R) a s1 s2 -> ops_in s2 = <[i := q]> (ops_in s1) -> runs_to s2 i e w' p -> runs_to s1 i e w' p.
Proof.
  intros Ha Hops (s' & Hs & He & Hw & Hp). exists s'. split; [by eapply steps_cons; [exists a|]|].
  split_and!; try done. by rewrite Hp, Hops, list_insert_insert_eq.
Qed.

Lemma runs_to_nil (s : shared) i p : ops_in s !! i = Some p -> runs_to s i (eng s) (world s) p.
Proof. intros Hi. exists s. split_and!; try done; [apply steps_refl|]. by rewrite list_insert_id. Qed.

(** From [s], thread [i] can return [r], the others standing still. *)
Definition returns_from (s : shared) (i : nat) (r : result T FsError) (e : SimEngine ES HI) (w' : W) : Prop :=
  exists s1 s2 p, esteps (R := R) s s1 /\ ops_in s1 = <[i := p]> (ops_in s) /\ call_result p = Some r /\
    estep (R := R) Settle s1 s2 /\ eng s2 = e /\ world s2 = w' /\ ops_in s2 = <[i := Ready]> (ops_in s).

Lemma returns_from_cons a (s1 s2 : shared) i r e w' q :
  estep (R := R) a s1 s2 -> ops_in s2 = <[i := q]> (ops_in s1) -> returns_from s2 i r e w' -> returns_from s1 i r e w'.
Proof.
  intros Ha Hops (s3 & s4 & p & Hs & E1 & Hp & Hr & He & Hw & E2). exists s3, s4, p.
  split; [by eapply steps_cons; [exists a|]|]. rewrite E1, E2, Hops, !list_insert_insert_eq. by split_and!.
Qed.

Lemma returns_from_nil (s s' : shared) i p r e w' :
  ops_in s !! i = Some p -> call_result p = Some r -> estep (R := R) Settle s s' ->
  ops_in s' = <[i := Ready]> (ops_in s) -> eng s' = e -> world s' = w' -> returns_from s i r e w'.
Proof.
  intros Hi Hp Hs E He Hw. exists s, s', p. split_and!; try done; [apply steps_refl|]. by rewrite list_insert_id.
Qed.

Definition nobody_queued (s : shared) (op : FsOp) : Prop :=
  forall i c start, ops_in s !! i = Some (Queued c start) -> run_op_of c <> op.

(** Dropping the guard when nobody is queued wakes nobody. *)
Lemma notify_op_insert (s : shared) i p op :
  nobody_queued s op -> (forall c start, p <> Queued c start) ->
  notify_op op (<[i := p]> (ops_in s)) (<[i := p]> (ops_in s)).
Proof.
  intros Hn Hp. apply notify_op_none. intros j c start.
  intros [(-> & E & _)|[_ Hj]]%list_lookup_insert_Some; [by destruct (Hp c start)|by eapply Hn].
Qed.

(** From admission to the return or the unwinding. *)
Lemma run_admitted_as_steps (s : shared) i (c : Running T W) res qw clk :
  ops_in s !! i = Some (Granted c qw) -> nobody_queued s (run_op_of c) ->
  resources (eng s) !! run_op_of c = Some res ->
  match run_admitted (R := R) (eng s) res (run_frame c) qw (run_body c) (world s) clk with
  | RunReturns r e w' => returns_from s i r e w'
  | RunPanics e w' => runs_to s i e w' (Panicked c)
  | RunBlocks _ => False
  end.
Proof.
  intros Hi Hn Hres. assert (Hlt : (i < length (ops_in s))%nat) by (by eapply lookup_lt_Some).
  assert (Hat : forall p (ts : list (op_phase T W)), length ts = length (ops_in s) -> <[i := p]> ts !! i = Some p).
  { intros p ts E. apply list_lookup_insert_eq. lia. }
  unfold run_admitted. destruct (draw_op (R := R) (eng s) res (run_frame c) (t_reserve clk)) as [d e] eqn:Ed.
  destruct (sleep_for d) as [t|] eqn:Et; [destruct (exec_body _ _ _) as [r w'] eqn:Ex|].
  all: pose proof (e_draw s i c qw res (t_reserve clk) d e Hi Hres Ed) as Hdraw; rewrite Et in Hdraw.
  - eapply returns_from_cons; [exact Hdraw|done|].
    eapply returns_from_cons; [by eapply e_execute; [by apply Hat|exact Ex]|done|].
    eapply returns_from_cons; [apply (e_emit _ i c qw d r clk), Hat; cbn; by rewrite ?length_insert|done|].
    eapply returns_from_cons; [eapply e_record; apply Hat; cbn; by rewrite ?length_insert|done|].
    rewrite finish_op_eq.
    eapply returns_from_nil; [apply Hat; cbn; by rewrite ?length_insert|reflexivity| |..].
    + eapply e_return; [apply Hat; cbn; by rewrite ?length_insert|].
      cbn [ops_in with_sample with_event set_thread]. rewrite !list_insert_insert_eq. by apply notify_op_insert.
    + cbn. by rewrite !list_insert_insert_eq.
    + reflexivity.
    + reflexivity.
  - eapply runs_to_cons; [exact Hdraw|done|]. eapply runs_to_cons; [eapply e_unwind; [by apply Hat|]|done|].
    { cbn [ops_in set_thread]. rewrite !list_insert_insert_eq. by apply notify_op_insert. }
    refine (runs_to_nil _ i _ _). cbn. rewrite !list_insert_insert_eq. by apply Hat.
Qed.

(** The two models of [run_op] agree: a call that other threads do not
    interfere with is one schedule of the engine's steps. With nobody queued on
    its operation, the steps lead to the very engine and world that [run_op]
    computes, the thread having returned the same result, or being queued, or
    dead from a panic. *)
Theorem run_op_as_steps (s : shared) i ctx (body : W -> result T FsError * W) clk :
  (forall op, exists res, resources (eng s) !! op = Some res) ->
  ops_in s !! i = Some Ready -> nobody_queued s (ctx_op ctx) ->
  match run_op (R := R) (eng s) ctx body (world s) clk with
  | RunReturns r e w' => returns_from s i r e w'
  | RunBlocks e => exists c start, runs_to s i e (world s) (Queued c start)
  | RunPanics e w' => exists c, runs_to s i e w' (Panicked c)
  end.
Proof.
  intros Hreg Hi Hn. assert (Hlt : (i < length (ops_in s))%nat) by (by eapply lookup_lt_Some).
  assert (Hat : forall p (ts : list (op_phase T W)), length ts = length (ops_in s) -> <[i := p]> ts !! i = Some p).
  { intros p ts E. apply list_lookup_insert_eq. lia. }
  unfold run_op. destruct (begin_op (eng s) ctx (t_start clk)) as [f e0] eqn:Eb.
  assert (Hf : fr_ctx f = ctx /\ resources e0 = resources (eng s)) by (unfold begin_op in Eb; by simplify_eq).
  destruct Hf as [Hctx Hres0], (Hreg (ctx_op ctx)) as [res Hres]. rewrite Hres0, Hres.
  set (c := {| run_frame := f; run_body := body |}).
  assert (Hop : run_op_of c = ctx_op ctx) by (unfold run_op_of; cbn; by rewrite Hctx).
  destruct (acquire_enter (limiter res) (t_acquire clk)) as [r l] eqn:Ea. cbn zeta.
  set (s2 := set_thread {| eng := e0; world := world s; ops_in := <[i := Entering c]> (ops_in s);
                           begun := begun s + 1; log := log s; samples := samples s |}
               (set_resources e0 (run_op_of c) (set_limiter res l)) i (after_section c r)).
  assert (Hbegin : exists s1, estep (R := R) Call s s1 /\ ops_in s1 = <[i := Entering c]> (ops_in s) /\
    estep (R := R) Settle s1 s2 /\ ops_in s2 = <[i := after_section c r]> (ops_in s1)).
  { eexists. split_and!; [by apply (e_begin s i ctx body (t_start clk) f e0)|done| |reflexivity].
    eapply e_acquire; [by apply Hat| |exact Ea]. cbn [eng]. by rewrite Hop, Hres0. }
  destruct Hbegin as (s1 & Hs1 & E1 & Hs2 & E2).
  assert (Hgo : forall e w' p, runs_to s2 i e w' p -> runs_to s i e w' p)
    by (intros; do 2 (eapply runs_to_cons; [eassumption..|]); done).
  assert (Hret : forall r e w', returns_from s2 i r e w' -> returns_from s i r e w')
    by (intros; do 2 (eapply returns_from_cons; [eassumption..|]); done).
  assert (Hi2 : ops_in s2 !! i = Some (after_section c r)) by (apply Hat; cbn; by rewrite length_insert).
  rewrite <- Hop. destruct r as [qw|err|start dl|]; cbn [after_section] in Hi2.
  - assert (Hn2 : nobody_queued s2 (run_op_of c)).
    { intros j c' start. cbn [ops_in s2 set_thread]. rewrite list_insert_insert_eq.
      intros [(-> & E & _)|[_ Hj]]%list_lookup_insert_Some; [done|]. rewrite Hop. by eapply Hn. }
    assert (Hres2 : resources (eng s2) !! run_op_of c = Some (set_limiter res l)) by apply lookup_insert_eq.
    pose proof (run_admitted_as_steps s2 i c (set_limiter res l) qw clk Hi2 Hn2 Hres2) as Hrun.
    change (world s2) with (world s) in Hrun. cbn [eng s2 set_thread run_frame run_body c] in Hrun.
    destruct (run_admitted _ _ _ _ _ _ _); [by apply Hret|done|eexists; by apply Hgo].
  - cbn [reject_op]. apply Hret.
    eapply returns_from_cons; [apply (e_reject_emit s2 i c err (t_end clk) (t_unix clk) Hi2)|done|].
    eapply returns_from_nil; [apply Hat; cbn; by rewrite ?length_insert|reflexivity| |..].
    + eapply e_reject_record. apply Hat. cbn. by rewrite ?length_insert.
    + reflexivity.
    + reflexivity.
    + reflexivity.
  - exists c, start. apply Hgo. exact (runs_to_nil s2 i _ Hi2).
  - exists c. apply Hgo. exact (runs_to_nil s2 i _ Hi2).
Qed.
End History.

(** ** Witnesses

    Two threads on the engine of the file Engine's examples; the first makes a
    small read. *)

Abbreviation demo_shared := (Shared (list Event) (list Z) Z Z).

Definition demo_start : demo_shared :=
  e_initial demo_config [] (fun _ => (0, 0)) 0 2.

Definition demo_call : Running Z Z :=
  {| run_frame := {| fr_ctx := small_read; fr_start := 0; fr_seq := 0 |}; run_body := demo_body |}.

Definition demo_reached : demo_shared -> Prop :=
  engine_reachable (R := unit) demo_config [] (fun _ => (0, 0)) 0.

Lemma demo_words : config_words demo_config.
Proof. intros []; vm_compute; done. Qed.

Lemma demo_caps op : 0 < concurrency_cap (policy_of demo_config op).
Proof. by destruct op. Qed.

(** The read has its guard. *)
Lemma demo_granted :
  exists s : demo_shared, demo_reached s /\ ops_in s = [Granted demo_call 0; Ready] /\ world s = 0 /\
    events (eng s) = [] /\ exists res, resources (eng s) !! Read = Some res.
Proof.
  eexists. split_and!; [exists 2%nat|..].
  - eapply steps_cons; [eexists; by apply (e_begin demo_start 0 small_read demo_body 0)|].
    eapply steps_cons; [|apply steps_refl]. eexists.
    eapply (e_acquire _ 0 demo_call demo_res 10); [done|by vm_compute|reflexivity].
  - done.
  - done.
  - done.
  - eexists. by vm_compute.
Qed.

(** The read is over. *)
Lemma demo_complete :
  exists s : demo_shared, demo_reached s /\ ops_in s = [Ready; Ready] /\ begun s = 1.
Proof.
  eexists. split_and!; [exists 2%nat|..].
  - eapply steps_cons; [eexists; by apply (e_begin demo_start 0 small_read demo_body 0)|].
    eapply steps_cons; [eexists; eapply (e_acquire _ 0 demo_call demo_res 10); [done|by vm_compute|reflexivity]|].
    eapply steps_cons; [eexists; eapply (e_draw (R := unit) _ 0 demo_call 0 _ 20); [done|by vm_compute|reflexivity]|].
    eapply steps_cons; [eexists; eapply (e_execute _ 0); [by vm_compute|reflexivity]|].
    eapply steps_cons; [eexists; eapply (e_emit _ 0 _ _ _ _ demo_clock); reflexivity|].
    eapply steps_cons; [eexists; eapply (e_record _ 0); reflexivity|].
    eapply steps_cons; [eexists; eapply (e_return _ 0); [reflexivity|]|apply steps_refl].
    apply notify_op_none. intros [|[|i]] c start Hi; by vm_compute in Hi.
  - done.
  - done.
Qed.

Lemma engine_limits_hold_witness :
  exists (s : demo_shared) l, limiter_of s Read l /\ ops_in s = [Granted demo_call 0; Ready] /\ inflight (state l) = 1.
Proof.
  destruct demo_granted as (s & Hr & Hops & _).
  destruct (engine_limits_hold (R := unit) demo_config [] (fun _ => (0, 0)) 0 s Read demo_words Hr)
    as (l & Hl & Hin & _).
  exists s, l. split; [exact Hl|]. split; [exact Hops|]. rewrite Hin, Hops. reflexivity.
Defined.

Lemma engine_accounts_witness :
  exists s : demo_shared, (ev_seq <$> log s) ≡ₚ [0] /\ samples s ≡ₚ sample_of_event <$> log s.
Proof.
  destruct demo_complete as (s & Hr & Hops & Hb).
  destruct (engine_accounts (R := unit) demo_config [] (fun _ => (0, 0)) 0 s Hr) as (_ & Hidle & _).
  exists s. destruct Hidle as [H1 H2].
  - rewrite Hops. intros [|[|i]] p Hp; by simplify_eq/=.
  - rewrite Hb in H1. split; [exact H1|exact H2].
Defined.

Lemma engine_calls_complete_witness :
  exists s : demo_shared, ops_in s = [Ready; Ready] /\
    forall i p, ops_in s !! i = Some p -> at_rest p.
Proof.
  destruct demo_complete as (s & Hr & Hops & _). exists s. split; [exact Hops|].
  apply (engine_calls_complete (R := unit) demo_config [] (fun _ => (0, 0)) 0 s 0 s demo_words demo_caps Hr
           (nsteps_O _ s)).
  intros s'' Hs. inversion Hs; subst;
    match goal with Hi : ops_in _ !! ?i = Some _ |- _ => rewrite Hops in Hi; destruct i as [|[|]]; by simplify_eq/= end.
Defined.

Lemma run_op_as_steps_witness :
  exists r, returns_from (R := unit) demo_start 0 r (demo_eng small_read demo_clock) 0.
Proof.
  assert (Hq : nobody_queued demo_start (ctx_op small_read)).
  { intros [|[|i]] c start Hi; by simplify_eq/=. }
  pose proof (run_op_as_steps (R := unit) demo_start 0 small_read demo_body demo_clock
    (fun op => engine_new_registered demo_config [] (fun _ => (0, 0)) op) eq_refl Hq) as Hrun.
  change (run_op (R := unit) (eng demo_start) small_read demo_body (world demo_start) demo_clock)
    with (demo_run small_read demo_clock) in Hrun.
  rewrite demo_small_run in Hrun. eexists. exact Hrun.
Defined.
