(* ===== verification/EngineDecisions.v ===== *)
(** * What the engine decides

    The determinism contract of [fusecraft-core/src/engine/mod.rs] and
    [sampler/key.rs] for calls that interleave: whichever schedule the threads
    follow, the fault and the latency of a call are a function of the
    configuration, the call's context and its sequence number. A call
    of an operation without a bandwidth profile never panics. *)

From stdpp Require Import base list numbers gmap strings.
From Stdlib Require Import ZArith Lia Bool.

From S2P Require Import Prelude Word Float Binary64 Time Op Concurrency Config SampleKey Sampler.
From S2P Require Import Bandwidth Metrics Events Engine EngineSteps.

Local Open Scope Z_scope.

(** ** The function *)

Section Decided.
Context {R : Type} `{Rng R} `{Libm}.
Context (config : Config).

Definition decision_key (ctx : OpContext) (seq : Z) : SampleKey :=
  {| key_seed := seed config; key_op := ctx_op ctx; key_ino := ctx_ino ctx; key_offset := ctx_offset ctx;
     key_len := Z.min (ctx_len ctx) U32_MAX; key_seq := seq |}.

Definition decided_tier (ctx : OpContext) : LatencyProfile * list FaultRule * Tier :=
  select_tier (build_resources (policy_of config (ctx_op ctx)) 0 0) (ctx_op ctx) (ctx_requested_len ctx).

Definition decided_fault (ctx : OpContext) (seq : Z) : option Z :=
  sample_fault (R := R) (decided_tier ctx).1.2 (decision_key ctx seq).

Definition decided_latency (ctx : OpContext) (seq : Z) : Z :=
  sample_latency_us (R := R) (decided_tier ctx).1.1 (decision_key ctx seq).
End Decided.

Lemma select_tier_policy res res' op len :
  policy res = policy res' -> select_tier res op len = select_tier res' op len.
Proof. unfold select_tier. by intros ->. Qed.

(** The errnos that the rules of a policy can inject into an operation. *)
Definition policy_rules (p : OpPolicy) : list FaultRule :=
  faults p ++ match size_tier p with Some t => large_faults (large t) | None => [] end.

Definition configured_errno (config : Config) (op : FsOp) (errno : Z) : Prop :=
  exists r, r ∈ policy_rules (policy_of config op) /\ rule_op r = op /\ rule_errno r = errno.

Lemma select_tier_rules res op len r :
  r ∈ (select_tier res op len).1.2 -> r ∈ policy_rules (policy res).
Proof.
  unfold select_tier, policy_rules. rewrite elem_of_app. destruct (is_data_op op); [|by left].
  destruct (size_tier (policy res)); [|by left]. destruct (_ <? _); [by right|by left].
Qed.

Lemma decided_fault_configured {R} `{Rng R} `{Libm} config ctx seq errno :
  decided_fault (R := R) config ctx seq = Some errno -> configured_errno config (ctx_op ctx) errno.
Proof.
  unfold decided_fault, sample_fault. intros (n & r & Hr & He & _)%first_fault_spec.
  apply list_elem_of_lookup_2, list_elem_of_filter in Hr as [Hop Hr]. exists r. split_and!; [|exact Hop|exact He].
  by apply select_tier_rules in Hr.
Qed.

(** ** The invariant *)

Section Decisions.
Context {R : Type} `{Rng R} `{Libm} {ES : Type} `{EventSink ES} {HI : Type} `{Histogram HI}.
Context {T W : Type}.
Context (config : Config).

Abbreviation shared := (Shared ES HI T W).
Abbreviation fault_of := (decided_fault (R := R) config).
Abbreviation latency_of := (decided_latency (R := R) config).

(** A drawn fault is the result; without one, the result is the closure's. *)
Definition result_decided (c : Running T W) (r : result T FsError) : Prop :=
  match fault_of (fr_ctx (run_frame c)) (fr_seq (run_frame c)) with
  | Some errno => r = Err (Errno errno)
  | None => exists w, r = (run_body c w).1
  end.

Definition drawn_decided (c : Running T W) (d : Drawn) : Prop :=
  drawn_fault d = fault_of (fr_ctx (run_frame c)) (fr_seq (run_frame c)) /\
  drawn_latency_us d = latency_of (fr_ctx (run_frame c)) (fr_seq (run_frame c)).

Definition phase_decided (p : op_phase T W) : Prop :=
  match p with
  | Rejected _ err | RejectEmitted _ err _ => err = Errno EAGAIN
  | Sleeping c _ d => drawn_decided c d
  | Finished c _ d r => drawn_decided c d /\ result_decided c r
  | Emitted c _ _ r | Recorded c _ r => result_decided c r
  | _ => True
  end.

(** An event tells of a rejection, or of the decision for its call. *)
Definition rejection (ev : Event) : Prop :=
  ev_outcome ev = OutcomeError /\ ev_errno ev = Some EAGAIN /\ ev_injected_latency_us ev = 0 /\
  ev_bandwidth_delay_us ev = 0.

Definition of_context (ev : Event) (ctx : OpContext) : Prop :=
  ev_op ev = ctx_op ctx /\ ev_ino ev = ctx_ino ctx /\ ev_offset ev = ctx_offset ctx /\ ev_len ev = ctx_len ctx.

Definition event_decided (ev : Event) : Prop :=
  exists ctx, of_context ev ctx /\
    (rejection ev \/
     ev_injected_latency_us ev = latency_of ctx (ev_seq ev) /\
     (forall errno, fault_of ctx (ev_seq ev) = Some errno ->
      ev_outcome ev = OutcomeError /\ ev_errno ev = Some errno)).

Record decided (s : shared) : Prop := {
  dec_seed : eng_seed (eng s) = seed config;
  dec_policy : forall op res, resources (eng s) !! op = Some res -> policy res = policy_of config op;
  dec_phase : forall i p, ops_in s !! i = Some p -> phase_decided p;
  dec_log : Forall event_decided (log s)
}.

(** One resource replaced by one with the same policy. *)
Lemma policy_kept (e : SimEngine ES HI) op res res' :
  (forall op res, resources e !! op = Some res -> policy res = policy_of config op) ->
  resources e !! op = Some res -> policy res' = policy res ->
  forall op' r, (<[op := res']> (resources e)) !! op' = Some r -> policy r = policy_of config op'.
Proof.
  intros Hp Hres E op' r [[<- <-]|[_ Hr]]%lookup_insert_Some; [rewrite E|]; by apply Hp.
Qed.

Lemma phases_insert (ts : list (op_phase T W)) i p' :
  (forall i p, ts !! i = Some p -> phase_decided p) -> phase_decided p' ->
  forall j p, <[i := p']> ts !! j = Some p -> phase_decided p.
Proof. intros Hts Hp' j p [(-> & -> & _)|[_ Hj]]%list_lookup_insert_Some; [done|by eapply Hts]. Qed.

Lemma phases_notify op (ts ts' : list (op_phase T W)) :
  notify_op op ts ts' -> (forall i p, ts !! i = Some p -> phase_decided p) ->
  forall i p, ts' !! i = Some p -> phase_decided p.
Proof. intros [|ts0 i c start Hi _] Hts; [exact Hts|]. by apply phases_insert. Qed.

Lemma after_section_decided (c : Running T W) l now r l' :
  acquire_enter l now = (r, l') -> phase_decided (after_section c r).
Proof.
  intros E. pose proof (acquire_enter_ends l now) as Hends. rewrite E in Hends.
  destruct r; cbn; try done. by destruct Hends.
Qed.

Lemma after_wake_decided (c : Running T W) l start now r l' :
  acquire_wake l start now = (r, l') -> phase_decided (after_section c r).
Proof. unfold acquire_wake. intros E. by case_match; simplify_eq. Qed.

Lemma acquire_policy res (l : BlockingLimiter) : policy (set_limiter res l) = policy res.
Proof. done. Qed.

Lemma draw_decided (s : shared) (c : Running T W) res now d e :
  decided s -> resources (eng s) !! run_op_of c = Some res ->
  draw_op (R := R) (eng s) res (run_frame c) now = (d, e) -> drawn_decided c d.
Proof.
  intros Hd Hres E. pose proof (draw_op_values (R := R) (eng s) res (run_frame c) now) as [Hf Hl].
  rewrite E in Hf, Hl. cbn [fst] in Hf, Hl. unfold drawn_decided, decided_fault, decided_latency.
  rewrite Hf, Hl. unfold frame_tier, decided_tier, sample_key, decision_key.
  rewrite (dec_seed _ Hd), (select_tier_policy res (build_resources (policy_of config (run_op_of c)) 0 0)).
  - done.
  - cbn [policy build_resources]. by apply (dec_policy _ Hd).
Qed.

Lemma exec_decided (c : Running T W) d w r w' :
  drawn_decided c d -> exec_body (drawn_fault d) (run_body c) w = (r, w') -> result_decided c r.
Proof.
  intros [Hf _] E. unfold result_decided. rewrite <- Hf. unfold exec_body in E.
  destruct (drawn_fault d); [by simplify_eq|]. exists w. by rewrite E.
Qed.

Lemma rejection_decided (c : Running T W) us unix :
  event_decided (rejection_event (run_frame c) (Errno EAGAIN) us unix).
Proof. exists (fr_ctx (run_frame c)). split; [done|]. by left. Qed.

Lemma completion_decided (c : Running T W) qw d r clk :
  drawn_decided c d -> result_decided c r -> event_decided (completion_event (run_frame c) qw d r clk).
Proof.
  intros [_ Hl] Hr. exists (fr_ctx (run_frame c)). split; [done|]. right. split; [exact Hl|].
  intros errno E. unfold result_decided in Hr. cbn [ev_seq completion_event] in E. rewrite E in Hr. by subst r.
Qed.

Lemma drop_guard_policy (e : SimEngine ES HI) op :
  (forall op res, resources e !! op = Some res -> policy res = policy_of config op) ->
  forall op' res, resources (drop_guard e op) !! op' = Some res -> policy res = policy_of config op'.
Proof.
  intros Hp. unfold drop_guard. case_match eqn:E; [|exact Hp]. by eapply policy_kept.
Qed.

Lemma decided_step a (s s' : shared) : estep (R := R) a s s' -> decided s -> decided s'.
Proof.
  destruct 1 as [s i ctx body now f e Hi E|s i c res now r l Hi Hres E|s i c start Hi
                |s i c start res now r l Hi Hres E|s i c err now unix Hi|s i c err us Hi
                |s i c w res now d e Hi Hres E|s i c w d r w' Hi E|s i c w d r clk Hi|s i c w us r Hi
                |s i c w r ts Hi Hn|s i c w ts Hi Hn];
    intros Hd; pose proof (dec_phase _ Hd _ _ Hi) as Hp; pose proof Hd as [Hseed Hpol Hph Hlog];
    (split; cbn [eng ops_in log set_thread set_threads with_event with_sample];
      [try exact Hseed|try exact Hpol|try (by apply phases_insert)|try exact Hlog]).
  - unfold begin_op in E. by simplify_eq.
  - unfold begin_op in E. by simplify_eq.
  - by eapply policy_kept.
  - apply phases_insert; [exact Hph|]. by eapply after_section_decided.
  - by eapply policy_kept.
  - apply phases_insert; [exact Hph|]. by eapply after_wake_decided.
  - cbn in Hp. subst err. apply Forall_app_2; [exact Hlog|]. by apply Forall_singleton, rejection_decided.
  - pose proof (draw_op_engine (R := R) (eng s) res (run_frame c) now Hres) as ((Hs & _) & _).
    rewrite E in Hs. cbn in Hs. congruence.
  - pose proof (draw_op_engine (R := R) (eng s) res (run_frame c) now Hres) as (_ & res' & Hr & _ & Hpr).
    rewrite E in Hr. cbn [snd] in Hr. rewrite Hr. by eapply policy_kept.
  - apply phases_insert; [exact Hph|]. pose proof (draw_decided s c res now d e Hd Hres E) as Hdr.
    by destruct (sleep_for d).
  - apply phases_insert; [exact Hph|]. cbn. split; [exact Hp|]. by eapply exec_decided.
  - apply phases_insert; [exact Hph|]. apply Hp.
  - apply Forall_app_2; [exact Hlog|]. apply Forall_singleton. destruct Hp. by apply completion_decided.
  - unfold drop_guard. by case_match.
  - by apply drop_guard_policy.
  - eapply phases_notify; [exact Hn|]. by apply phases_insert.
  - unfold drop_guard. by case_match.
  - by apply drop_guard_policy.
  - eapply phases_notify; [exact Hn|]. by apply phases_insert.
Qed.

Context (sink : ES) (nows : FsOp -> Instant * Instant) (w0 : W).

Abbreviation reachable_engine := (engine_reachable (R := R) (T := T) config sink nows w0).

Lemma initial_decided n : decided (e_initial config sink nows w0 n : shared).
Proof.
  split; cbn [eng ops_in log e_initial]; [done| | |done].
  - intros op res. rewrite engine_new_resources. by intros [= <-].
  - by intros i p [-> _]%lookup_replicate.
Qed.

Lemma reachable_decided s : reachable_engine s -> decided s.
Proof.
  intros [n Hn]. eapply (steps_invariant _ decided); [|by apply initial_decided|exact Hn].
  intros s1 s2 Hd [a Ha]. by eapply decided_step.
Qed.

(** ** Properties *)

(** C15: determinism under concurrency: however the calls interleave, the event
    of a call that was admitted carries the latency, and the errno of the
    fault if one is drawn, that the configuration, the call's context and its
    sequence number determine; the call's result is that errno, or what its
    closure returns when no fault is drawn. Rejected calls say EAGAIN and no
    delay. *)
Theorem engine_decisions s :
  reachable_engine s ->
  Forall event_decided (log s) /\
  forall i c w r, ops_in s !! i = Some (Recorded c w r) -> result_decided c r.
Proof.
  intros Hr. destruct (reachable_decided s Hr) as [_ _ Hph Hlog]. split; [exact Hlog|].
  intros i c w r Hi. exact (Hph i _ Hi).
Qed.
End Decisions.

(** Replay: in two runs of the same configuration, under whatever
    schedules, clocks and sinks, the events of two calls with the same
    operation, inode, offset, length and sequence number carry the same
    latency, unless one of the calls was rejected; this for the operations
    without a size tier, whose decisions the requested length cannot change. *)
Theorem engine_replay {R} `{Rng R} `{Libm} {ES} `{EventSink ES} {HI} `{Histogram HI} {T W} config
    (sink1 sink2 : ES) nows1 nows2 (w1 w2 : W) (s1 s2 : Shared ES HI T W) ev1 ev2 :
  engine_reachable (R := R) config sink1 nows1 w1 s1 -> engine_reachable (R := R) config sink2 nows2 w2 s2 ->
  ev1 ∈ log s1 -> ev2 ∈ log s2 -> size_tier (policy_of config (ev_op ev1)) = None ->
  ev_op ev1 = ev_op ev2 -> ev_ino ev1 = ev_ino ev2 -> ev_offset ev1 = ev_offset ev2 ->
  ev_len ev1 = ev_len ev2 -> ev_seq ev1 = ev_seq ev2 ->
  rejection ev1 \/ rejection ev2 \/ ev_injected_latency_us ev1 = ev_injected_latency_us ev2.
Proof.
  intros Hr1 Hr2 Hin1 Hin2 Htier Eop Eino Eoff Elen Eseq.
  pose proof (dec_log _ _ (reachable_decided _ _ _ _ _ Hr1)) as Hl1.
  pose proof (dec_log _ _ (reachable_decided _ _ _ _ _ Hr2)) as Hl2.
  rewrite Forall_forall in Hl1, Hl2.
  destruct (Hl1 _ Hin1) as (c1 & (A1 & A2 & A3 & A4) & [Hrej|[E1 _]]); [by left|].
  destruct (Hl2 _ Hin2) as (c2 & (B1 & B2 & B3 & B4) & [Hrej|[E2 _]]); [by right; left|].
  right. right. rewrite E1, E2. unfold decided_latency, decision_key, decided_tier, select_tier.
  cbn [policy build_resources]. rewrite A1 in Htier.
  replace (ctx_op c2) with (ctx_op c1) by congruence. rewrite Htier.
  replace (ctx_ino c2) with (ctx_ino c1) by congruence. replace (ctx_offset c2) with (ctx_offset c1) by congruence.
  replace (ctx_len c2) with (ctx_len c1) by congruence. replace (ev_seq ev2) with (ev_seq ev1) by congruence.
  by destruct (is_data_op (ctx_op c1)).
Qed.

(** ** Calls without a bandwidth profile *)

(** Somewhere in the policy there is a bandwidth profile. *)
Definition throttled (p : OpPolicy) : bool :=
  match bandwidth p with Some _ => true | None => false end ||
  match size_tier p with
  | Some t => match large_bandwidth (large t) with Some _ => true | None => false end
  | None => false
  end.

(** The latency bounds are in the range of their type. *)
Definition latency_words (p : OpPolicy) : Prop :=
  is_u64 (max_us (latency p)) /\
  match size_tier p with Some t => is_u64 (max_us (large_latency (large t))) | None => True end.

(** No policy limits the bandwidth, and the latency bounds are words. *)
Definition unthrottled_policy (p : OpPolicy) : Prop :=
  bandwidth p = None /\ is_u64 (max_us (latency p)) /\
  match size_tier p with
  | Some t => large_bandwidth (large t) = None /\ is_u64 (max_us (large_latency (large t)))
  | None => True
  end.

Lemma throttled_spec p : latency_words p -> throttled p = false <-> unthrottled_policy p.
Proof.
  unfold latency_words, throttled, unthrottled_policy. destruct (bandwidth p), (size_tier p) as [t|];
    [..|destruct (large_bandwidth (large t))|]; naive_solver.
Qed.

Section NoPanic.
Context {R : Type} `{Rng R} `{Libm} {ES : Type} `{EventSink ES} {HI : Type} `{Histogram HI}.
Context {T W : Type}.
Context (config : Config) (sink : ES) (nows : FsOp -> Instant * Instant) (w0 : W).

Abbreviation shared := (Shared ES HI T W).

Definition unthrottled : Prop := forall op, unthrottled_policy (policy_of config op).

Definition unthrottled_res (res : OpResources) : Prop :=
  tier_max_us res /\ base_bw res = None /\ large_bw res = None.

Context (op : FsOp).

(** No panic in a call of [op]. *)
Definition spared (p : op_phase T W) : Prop :=
  match p with Unwinding c _ | Panicked c => run_op_of c <> op | _ => True end.

Record calm (s : shared) : Prop := {
  calm_resources : forall res, resources (eng s) !! op = Some res -> unthrottled_res res;
  calm_phases : forall i p, ops_in s !! i = Some p -> spared p
}.

Lemma draw_unthrottled (e : SimEngine ES HI) res f now :
  unthrottled_res res -> exists t, sleep_for (draw_op (R := R) e res f now).1 = Returns t /\
                                   (draw_op (R := R) e res f now).2 = e.
Proof.
  intros (Hmax & Hb & Hl).
  assert (Hnone : forall t, tier_bandwidth res t = None) by (by intros []).
  destruct (sleep_for_no_delay (draw_op (R := R) e res f now).1) as [t Ht].
  - rewrite (proj2 (draw_op_values (R := R) e res f now)).
    pose proof (select_tier_max_us res (ctx_op (fr_ctx f)) (ctx_requested_len (fr_ctx f)) Hmax) as Hu.
    pose proof (sample_latency_le_max_raw (R := R) _ (sample_key e f) Hu). unfold frame_tier, is_u64 in *. lia.
  - apply draw_op_no_delay. by right.
  - exists t. split; [exact Ht|]. unfold draw_op. destruct (select_tier _ _ _) as [[p rs] tr].
    by rewrite Hnone.
Qed.

Lemma calm_resources_insert (e : SimEngine ES HI) op' res' :
  (forall res, resources e !! op = Some res -> unthrottled_res res) -> (op' = op -> unthrottled_res res') ->
  forall r, <[op' := res']> (resources e) !! op = Some r -> unthrottled_res r.
Proof. intros He Hres r [[-> <-]|[_ Hr]]%lookup_insert_Some; [by apply Hres|by apply He]. Qed.

Lemma calm_drop_guard (e : SimEngine ES HI) op' :
  (forall res, resources e !! op = Some res -> unthrottled_res res) ->
  forall res, resources (drop_guard e op') !! op = Some res -> unthrottled_res res.
Proof.
  intros He. unfold drop_guard. case_match eqn:E; [|exact He]. apply calm_resources_insert; [exact He|].
  intros ->. exact (He _ E).
Qed.

Lemma calm_phases_insert (ts : list (op_phase T W)) i p' :
  (forall i p, ts !! i = Some p -> spared p) -> spared p' -> forall j p, <[i := p']> ts !! j = Some p -> spared p.
Proof. intros Hts Hp' j p [(-> & -> & _)|[_ Hj]]%list_lookup_insert_Some; [done|by eapply Hts]. Qed.

Lemma calm_notify op' (ts ts' : list (op_phase T W)) :
  notify_op op' ts ts' -> (forall i p, ts !! i = Some p -> spared p) -> forall i p, ts' !! i = Some p -> spared p.
Proof. intros [|ts0 i c start Hi _] Hts; [exact Hts|]. by apply calm_phases_insert. Qed.

(** A draw: the call of [op] gets no delay. *)
Lemma calm_draw (s : shared) (c : Running T W) res now d e :
  calm s -> resources (eng s) !! run_op_of c = Some res -> draw_op (R := R) (eng s) res (run_frame c) now = (d, e) ->
  (forall r, resources e !! op = Some r -> unthrottled_res r) /\
  (run_op_of c = op -> exists t, sleep_for d = Returns t).
Proof.
  intros [Hr _] Hres E. destruct (decide (run_op_of c = op)) as [Eop|Hne].
  - rewrite Eop in Hres. destruct (draw_unthrottled (eng s) res (run_frame c) now (Hr _ Hres)) as (t & Ht & He).
    rewrite E in Ht, He. cbn in Ht, He. subst e. split; [exact Hr|]. by exists t.
  - pose proof (draw_op_engine (R := R) (eng s) res (run_frame c) now Hres) as (_ & res' & Hr' & _).
    rewrite E in Hr'. cbn [snd] in Hr'. rewrite Hr'. split; [|done]. by apply calm_resources_insert.
Qed.

Lemma calm_step a (s s' : shared) : estep (R := R) a s s' -> calm s -> calm s'.
Proof.
  destruct 1 as [s i ctx body now f e Hi E|s i c res now r l Hi Hres E|s i c start Hi
                |s i c start res now r l Hi Hres E|s i c err now unix Hi|s i c err us Hi
                |s i c w res now d e Hi Hres E|s i c w d r w' Hi E|s i c w d r clk Hi|s i c w us r Hi
                |s i c w r ts Hi Hn|s i c w ts Hi Hn];
    intros Hc; pose proof Hc as [Hr Hp]; pose proof (Hp _ _ Hi) as Hi';
    (split; cbn [eng ops_in set_thread set_threads with_event with_sample];
      [try exact Hr|try (by apply calm_phases_insert)]).
  - unfold begin_op in E. by simplify_eq.
  - apply calm_resources_insert; [exact Hr|]. intros Eop. rewrite Eop in Hres. exact (Hr _ Hres).
  - apply calm_phases_insert; [exact Hp|]. pose proof (acquire_enter_ends (limiter res) now) as Hends.
    rewrite E in Hends. by destruct r.
  - apply calm_resources_insert; [exact Hr|]. intros Eop. rewrite Eop in Hres. exact (Hr _ Hres).
  - apply calm_phases_insert; [exact Hp|]. unfold acquire_wake in E. case_match; by simplify_eq.
  - by apply (calm_draw s c res now d e Hc Hres E).
  - apply calm_phases_insert; [exact Hp|]. destruct (calm_draw s c res now d e Hc Hres E) as [_ Ht].
    destruct (sleep_for d) eqn:Es; [done|]. cbn. intros Eop. by destruct (Ht Eop).
  - by apply calm_drop_guard.
  - eapply calm_notify; [exact Hn|]. by apply calm_phases_insert.
  - by apply calm_drop_guard.
  - eapply calm_notify; [exact Hn|]. by apply calm_phases_insert.
Qed.

Lemma reachable_calm s :
  unthrottled_policy (policy_of config op) -> engine_reachable (R := R) config sink nows w0 s -> calm s.
Proof.
  intros Hu [n Hn]. eapply (steps_invariant _ calm); [|clear Hn|exact Hn].
  { intros s1 s2 Hc [a Ha]. by eapply calm_step. }
  split; cbn [eng ops_in e_initial].
  - intros res. rewrite engine_new_resources. intros [= <-]. destruct Hu as (Hb & Hm & Ht).
    unfold policy_of in *. unfold unthrottled_res, tier_max_us. cbn.
    destruct (size_tier _) as [t|]; [destruct Ht as [Hlb Hlm]|]; rewrite ?Hb, ?Hlb; done.
  - by intros i p [-> _]%lookup_replicate.
Qed.
End NoPanic.

(** ** Witnesses *)

Lemma demo_logged :
  exists s : demo_shared, demo_reached s /\ exists ev, log s = [ev] /\ ev_op ev = Read.
Proof.
  eexists. split; [exists 2%nat|].
  - eapply steps_cons; [eexists; by apply (e_begin demo_start 0 small_read demo_body 0)|].
    eapply steps_cons; [eexists; eapply (e_acquire _ 0 demo_call demo_res 10); [done|by vm_compute|reflexivity]|].
    eapply steps_cons; [eexists; eapply (e_draw (R := unit) _ 0 demo_call 0 _ 20); [done|by vm_compute|reflexivity]|].
    eapply steps_cons; [eexists; eapply (e_execute _ 0); [by vm_compute|reflexivity]|].
    eapply steps_cons; [eexists; eapply (e_emit _ 0 _ _ _ _ demo_clock); reflexivity|apply steps_refl].
  - eexists. split; reflexivity.
Qed.

Lemma engine_decisions_witness :
  exists s : demo_shared, length (log s) = 1%nat /\ Forall (event_decided (R := unit) demo_config) (log s).
Proof.
  destruct demo_logged as (s & Hr & ev & Hlog & _). exists s. split; [by rewrite Hlog|].
  exact (proj1 (engine_decisions (R := unit) demo_config [] (fun _ => (0, 0)) 0 s Hr)).
Defined.

(** Reads take 7 microseconds, without a size tier. *)
Definition plain_policy : OpPolicy :=
  {| concurrency_cap := 2; Config.queue_cap := 0; latency := fixed_latency 7; bandwidth := None;
     faults := []; size_tier := None |}.

Definition plain_config : Config :=
  {| seed := 42; mount := default_MountConfig; files := default_FilesConfig;
     ops := {[Read := plain_policy]}; Config.metrics := default_MetricsConfig |}.

Definition plain_call (start : Instant) : Running Z Z :=
  {| run_frame := {| fr_ctx := small_read; fr_start := start; fr_seq := 0 |}; run_body := demo_body |}.

(** The same read at two times, on an engine with [n + 1] threads. *)
Lemma plain_logged (n : nat) (start : Instant) :
  exists s : demo_shared, engine_reachable (R := unit) plain_config [] (fun _ => (0, 0)) 0 s /\
    exists ev, log s = [ev] /\ ev_op ev = Read /\ ev_ino ev = 100 /\ ev_offset ev = 0 /\ ev_len ev = 64 /\
      ev_seq ev = 0 /\ ev_errno ev = None.
Proof.
  eexists. split; [exists (S n)|].
  - eapply steps_cons; [eexists; by apply (e_begin (e_initial plain_config [] (fun _ => (0, 0)) 0 (S n)) 0 small_read demo_body start)|].
    eapply steps_cons; [eexists; eapply (e_acquire _ 0 (plain_call start) (build_resources plain_policy 0 0) 10);
      [done|by vm_compute|reflexivity]|].
    eapply steps_cons; [eexists; eapply (e_draw (R := unit) _ 0 (plain_call start) 0 _ 20); [done|by vm_compute|reflexivity]|].
    eapply steps_cons; [eexists; eapply (e_execute _ 0); [by vm_compute|reflexivity]|].
    eapply steps_cons; [eexists; eapply (e_emit _ 0 _ _ _ _ demo_clock); reflexivity|apply steps_refl].
  - eexists. split_and!; reflexivity.
Qed.

Lemma engine_replay_witness :
  exists (s1 s2 : demo_shared) ev1 ev2, log s1 = [ev1] /\ log s2 = [ev2] /\
    ev_injected_latency_us ev1 = ev_injected_latency_us ev2.
Proof.
  destruct (plain_logged 0 0) as (s1 & Hr1 & ev1 & Hl1 & Hop1 & Hino1 & Hoff1 & Hlen1 & Hseq1 & Hok1).
  destruct (plain_logged 3 5000) as (s2 & Hr2 & ev2 & Hl2 & Hop2 & Hino2 & Hoff2 & Hlen2 & Hseq2 & Hok2).
  exists s1, s2, ev1, ev2. split; [exact Hl1|]. split; [exact Hl2|].
  destruct (engine_replay (R := unit) plain_config [] [] (fun _ => (0, 0)) (fun _ => (0, 0)) 0 0 s1 s2 ev1 ev2 Hr1 Hr2)
    as [(_ & E & _)|[(_ & E & _)|E]]; try congruence;
    rewrite ?Hl1, ?Hl2; try (apply list_elem_of_singleton; reflexivity).
  rewrite Hop1. reflexivity.
Defined.
