(* ===== verification/EngineTiming.v ===== *)
(** * How long calls take

    The engine's steps of the file EngineSteps under a clock: a timed step is
    a step whose readings are those of a monotonic clock, and in which
    [thread::sleep] returns no earlier than it was asked to. Under every
    schedule, a call is held for at least its wait for a slot, its injected
    latency and its bandwidth delay, and its event says so; with threads that
    run within a given time of being ready, for little more. *)

From stdpp Require Import base list numbers gmap functions.
From Stdlib Require Import ZArith Lia Bool.

From S2P Require Import Prelude Word Float Rounding Binary64 Time Op Concurrency Config SampleKey Sampler.
From S2P Require Import Bandwidth Metrics Events Engine EngineSteps EngineDecisions.

Local Open Scope Z_scope.

(** Delays are not negative, whatever the bucket. *)
Lemma try_from_secs_f64_nonneg x d : try_from_secs_f64 x = Some d -> 0 <= d.
Proof.
  unfold try_from_secs_f64. destruct x as [| | |[] m e]; try done; [by intros [= <-]|].
  case_match; [done|]. case_match; intros [= <-]; [|apply rne_nonneg; unfold NANOS_PER_SEC; lia].
  pose proof (pow2_pos e ltac:(lia)). unfold NANOS_PER_SEC. lia.
Qed.

Lemma wait_for_deficit_nonneg bw x : 0 <= wait_for_deficit bw x.
Proof.
  unfold wait_for_deficit. destruct (try_from_secs_f64 _) eqn:E; [by eapply try_from_secs_f64_nonneg|].
  unfold DURATION_MAX, NANOS_PER_SEC. lia.
Qed.

Lemma reserve_nonneg bw n now : 0 <= (reserve bw n now).1.
Proof. unfold reserve. repeat (case_match; try done). apply wait_for_deficit_nonneg. Qed.

Lemma draw_op_delay {R} `{Rng R} `{Libm} {ES} `{EventSink ES} {HI} `{Histogram HI} (e : SimEngine ES HI) res f now :
  0 <= drawn_bandwidth_delay (draw_op (R := R) e res f now).1.
Proof.
  unfold draw_op. destruct (select_tier _ _ _) as [[p rs] t]. case_match; [|done]. case_match; [|done].
  pose proof (reserve_nonneg b (ctx_len (fr_ctx f)) now). by destruct (reserve _ _ _).
Qed.

(** ** Phases, and the moves between them *)

Section Timing.
Context {R : Type} `{Rng R} `{Libm} {ES : Type} `{EventSink ES} {HI : Type} `{Histogram HI}.
Context {T W : Type}.

Abbreviation shared := (Shared ES HI T W).

(** What a step of a thread, or of the thread that wakes it, can do to its
    phase. *)
Inductive move : op_phase T W -> op_phase T W -> Prop :=
| move_stay p : move p p
| move_begin c : move Ready (Entering c)
| move_admit c : move (Entering c) (Granted c DURATION_ZERO)
| move_enqueue c start : move (Entering c) (Queued c start)
| move_reject c err : move (Entering c) (Rejected c err)
| move_notify c start : move (Queued c start) (Notified c start)
| move_wait c start : move (Notified c start) (Queued c start)
| move_wake c start w : 0 <= w -> move (Notified c start) (Granted c w)
| move_reject_emit c err total : move (Rejected c err) (RejectEmitted c err total)
| move_reject_record c err total : move (RejectEmitted c err total) Ready
| move_sleep c w d : 0 <= drawn_bandwidth_delay d -> move (Granted c w) (Sleeping c w d)
| move_overflow c w : move (Granted c w) (Unwinding c w)
| move_execute c w d r : move (Sleeping c w d) (Finished c w d r)
| move_emit c w d r total : move (Finished c w d r) (Emitted c w total r)
| move_record c w total r : move (Emitted c w total r) (Recorded c w r)
| move_return c w r : move (Recorded c w r) Ready
| move_unwind c w : move (Unwinding c w) (Panicked c).

Definition moves (ts ts' : list (op_phase T W)) : Prop :=
  forall j p', ts' !! j = Some p' -> exists p, ts !! j = Some p /\ move p p'.

Lemma moves_insert ts i p p' : ts !! i = Some p -> move p p' -> moves ts (<[i := p']> ts).
Proof.
  intros Hi Hm j q [(<- & <- & _)|[_ Hj]]%list_lookup_insert_Some; [by exists p|exists q; by split; [|constructor]].
Qed.

(** The thread that returns and the one it wakes. *)
Lemma moves_notify op (ts ts' : list (op_phase T W)) i p p' :
  ts !! i = Some p -> move p p' -> (forall c start, p' <> Queued c start) ->
  notify_op op (<[i := p']> ts) ts' -> moves ts ts'.
Proof.
  intros Hi Hm Hq Hn. inversion Hn as [ts1 Hno|ts1 k c start Hk _]; subst.
  - by eapply moves_insert.
  - intros j q [(<- & <- & _)|[_ Hj]]%list_lookup_insert_Some; [|by eapply moves_insert].
    exists (Queued c start). split; [|constructor].
    apply list_lookup_insert_Some in Hk as [(-> & E & _)|[_ Hk]]; [|done]. by apply Hq in E.
Qed.

Lemma after_section_move (c : Running T W) l now : move (Entering c) (after_section c (acquire_enter l now).1).
Proof.
  pose proof (acquire_enter_ends l now) as He. destruct (acquire_enter l now) as [[w|e|start dl|] l']; cbn; try constructor.
  - destruct He as [-> _]. constructor.
  - done.
Qed.

Lemma after_wake_move (c : Running T W) l start now : move (Notified c start) (after_section c (acquire_wake l start now).1).
Proof. unfold acquire_wake. case_match; cbn; constructor. apply duration_since_nonneg. Qed.

Lemma estep_moves a (s s' : shared) : estep (R := R) a s s' -> moves (ops_in s) (ops_in s').
Proof.
  destruct 1 as [s i ctx body now f e Hi E|s i c res now r l Hi Hres E|s i c start Hi
                |s i c start res now r l Hi Hres E|s i c err now unix Hi|s i c err us Hi
                |s i c w res now d e Hi Hres E|s i c w d r w' Hi E|s i c w d r clk Hi|s i c w us r Hi
                |s i c w r ts Hi Hn|s i c w ts Hi Hn]; cbn [ops_in set_thread set_threads with_event with_sample];
    first [eapply moves_notify; [exact Hi|constructor|done|exact Hn]
          |eapply moves_insert; [exact Hi|]; try constructor].
  - pose proof (after_section_move c (limiter res) now) as Hm. by rewrite E in Hm.
  - pose proof (after_wake_move c (limiter res) start now) as Hm. by rewrite E in Hm.
  - pose proof (draw_op_delay (R := R) (eng s) res (run_frame c) now) as Hd. rewrite E in Hd.
    destruct (sleep_for d); by constructor.
Qed.

Lemma micros_u64_nonneg d : 0 <= micros_u64 d.
Proof. unfold micros_u64, wrap64. apply Z.mod_pos_bound. lia. Qed.

(** The event of a step, if it emits one. *)
Lemma estep_event a (s s' : shared) :
  estep (R := R) a s s' ->
  log s' = log s \/
  (exists i (c : Running T W) err total unix, ops_in s !! i = Some (Rejected c err) /\
    ops_in s' !! i = Some (RejectEmitted c err total) /\ 0 <= total /\
    log s' = log s ++ [rejection_event (run_frame c) err total unix]) \/
  exists i (c : Running T W) w d r clk total, ops_in s !! i = Some (Finished c w d r) /\
    ops_in s' !! i = Some (Emitted c w total r) /\ total = ev_total_duration_us (completion_event (run_frame c) w d r clk) /\
    log s' = log s ++ [completion_event (run_frame c) w d r clk].
Proof.
  destruct 1; try (by left); right; [left|right];
    match goal with Hi : ops_in _ !! _ = Some _ |- _ => pose proof (lookup_lt_Some _ _ _ Hi) end;
    repeat eexists; try eassumption; cbn [ops_in with_event]; try (by apply list_lookup_insert_eq).
  apply micros_u64_nonneg.
Qed.

(** ** Time *)

(** The state, the time, and for each thread when its sleep is over. *)
Record Timed : Type := { at_time : Instant; st : shared; wake_at : nat -> Instant }.

(** What the clock of a step at time [t] has to do with a thread's phases;
    [u] and [u'] are its wake-up times before and after. *)
Definition reads (t u u' : Instant) (p p' : op_phase T W) : Prop :=
  match p, p' with
  | Ready, Entering c => fr_start (run_frame c) = t
  | Entering _, Queued _ start => start = t
  | Notified _ start, Granted _ w => w = duration_since t start
  | Granted _ _, Sleeping _ _ d => exists dur, sleep_for d = Returns dur /\ u' = t + dur
  | Sleeping _ _ _, Finished _ _ _ _ => u <= t
  | Rejected c _, RejectEmitted _ _ total => total = micros_u64 (duration_since t (fr_start (run_frame c)))
  | Finished c _ _ _, Emitted _ _ total _ => total = micros_u64 (duration_since t (fr_start (run_frame c)))
  | Sleeping _ _ _, Sleeping _ _ _ => u' = u
  | _, _ => True
  end.

Definition tstep (x y : Timed) : Prop :=
  at_time x <= at_time y /\ (exists a, estep (R := R) a (st x) (st y)) /\
  forall i p p', ops_in (st x) !! i = Some p -> ops_in (st y) !! i = Some p' ->
    reads (at_time y) (wake_at x i) (wake_at y i) p p'.

(** ** The invariant *)

(** The time a call has been held, from its first reading to now. *)
Definition held (t u : Instant) (p : op_phase T W) : Prop :=
  match p with
  | Entering c | Rejected c _ => 0 <= fr_start (run_frame c) <= t
  | Queued c start | Notified c start => 0 <= fr_start (run_frame c) <= start /\ start <= t
  | Granted c w => 0 <= fr_start (run_frame c) /\ 0 <= w /\ fr_start (run_frame c) + w <= t
  | Sleeping c w d =>
      0 <= fr_start (run_frame c) /\ 0 <= w /\ 0 <= drawn_bandwidth_delay d /\
      fr_start (run_frame c) + w + (from_micros (drawn_latency_us d) + drawn_bandwidth_delay d) <= u
  | Finished c w d r =>
      0 <= fr_start (run_frame c) /\ 0 <= w /\ 0 <= drawn_bandwidth_delay d /\
      fr_start (run_frame c) + w + (from_micros (drawn_latency_us d) + drawn_bandwidth_delay d) <= t
  | _ => True
  end.

Definition event_held (ev : Event) : Prop :=
  ev_queue_wait_us ev + ev_injected_latency_us ev + ev_bandwidth_delay_us ev <= ev_total_duration_us ev.

Record holds (x : Timed) : Prop := {
  hold_start : 0 <= at_time x;
  hold_phases : forall i p, ops_in (st x) !! i = Some p -> held (at_time x) (wake_at x i) p;
  hold_log : Forall event_held (log (st x))
}.

Lemma sleep_for_returns d dur :
  sleep_for d = Returns dur -> dur = from_micros (drawn_latency_us d) + drawn_bandwidth_delay d.
Proof. unfold sleep_for, duration_add. case_match; [|done]. by intros [= <-]. Qed.

Lemma held_later t t' u p : t <= t' -> held t u p -> held t' u p.
Proof. destruct p; cbn; lia. Qed.

Lemma held_move t t' u u' p p' :
  0 <= t -> t <= t' -> held t u p -> move p p' -> reads t' u u' p p' -> held t' u' p'.
Proof.
  intros Hpos Ht Hp Hm Hr. destruct Hm; cbn in *; unfold duration_since, DURATION_ZERO in *; try done; try lia.
  - destruct p; cbn in *; try done; try lia.
  - destruct Hr as (dur & E & ->). apply sleep_for_returns in E as ->. lia.
Qed.

(** A whole number of microseconds that fits its word, and the parts of a sum. *)
Lemma micros_u64_le d : 0 <= d -> micros_u64 d <= d / 1000.
Proof. intros Hd. unfold micros_u64, as_micros, wrap64. apply Z.mod_le; [apply Z.div_pos; lia|lia]. Qed.

Lemma micros_u64_exact d : 0 <= d < 2 ^ 64 * 1000 -> micros_u64 d = d / 1000.
Proof.
  intros Hd. unfold micros_u64, as_micros. apply wrap64_small. unfold is_u64.
  split; [apply Z.div_pos; lia|]. apply Z.div_lt_upper_bound; lia.
Qed.

Lemma completion_held (c : Running T W) w d r clk t u :
  held t u (Finished c w d r) -> t < 2 ^ 64 * 1000 ->
  ev_total_duration_us (completion_event (run_frame c) w d r clk) = micros_u64 (duration_since t (fr_start (run_frame c))) ->
  event_held (completion_event (run_frame c) w d r clk).
Proof.
  cbn [held]. intros (Hs & Hw & Hd & Hle) Ht E. unfold event_held. rewrite E.
  cbn [ev_queue_wait_us ev_injected_latency_us ev_bandwidth_delay_us completion_event].
  pose proof (micros_u64_le w Hw) as H1'. pose proof (micros_u64_le _ Hd) as H2'.
  unfold from_micros in Hle. unfold duration_since.
  rewrite (micros_u64_exact (Z.max _ _)) by lia.
  set (l := drawn_latency_us d) in *. set (b := drawn_bandwidth_delay d) in *.
  set (f := fr_start (run_frame c)) in *.
  assert ((w + l * 1000 + b) / 1000 <= Z.max 0 (t - f) / 1000) by (apply Z.div_le_mono; lia).
  assert (w / 1000 + l + b / 1000 <= (w + l * 1000 + b) / 1000).
  { apply Z.div_le_lower_bound; [lia|]. pose proof (Z.mul_div_le w 1000 ltac:(lia)).
    pose proof (Z.mul_div_le b 1000 ltac:(lia)). lia. }
  lia.
Qed.

Lemma holds_step x y : at_time y < 2 ^ 64 * 1000 -> tstep x y -> holds x -> holds y.
Proof.
  intros Hb (Ht & (a & Hs) & Hr) [H0' Hp Hl].
  assert (Hph : forall i p', ops_in (st y) !! i = Some p' -> held (at_time y) (wake_at y i) p').
  { intros i p' Hi. destruct (estep_moves a _ _ Hs i p' Hi) as (p & Hi' & Hm).
    eapply held_move; [exact H0'|exact Ht|by apply Hp|exact Hm|by apply Hr]. }
  split; [lia|exact Hph|].
  destruct (estep_event a _ _ Hs) as [->|[(i & c & err & us & unix & _ & _ & Hus & ->)|(i & c & w & d & r & clk & total & Hi & Hi' & Et & ->)]];
    [exact Hl|apply Forall_app_2; [exact Hl|]; apply Forall_singleton..].
  - exact Hus.
  - pose proof (Hr i _ _ Hi Hi') as Htot. cbn in Htot. subst total.
    eapply (completion_held c w d r clk (at_time y) (wake_at x i)); [|exact Hb|done].
    eapply held_later; [exact Ht|by apply Hp].
Qed.

(** ** Prompt threads

    How much longer: the scheduler runs a thread within [delta] of the moment
    it could go on, a sleeping thread within [delta] of the end of its sleep. *)

Context (delta : Duration).

(** A timed state, and when each thread has come into its phase. *)
Record Prompt : Type := { timed : Timed; since : nat -> Instant }.

(** A thread in phase [p] since [a], with wake-up time [u], moves at time [t];
    there is no limit on the time in the queue. *)
Definition on_time (t a u : Instant) (p : op_phase T W) : Prop :=
  match p with
  | Ready | Queued _ _ | Notified _ _ | Panicked _ => True
  | Sleeping _ _ _ => t <= u + delta
  | _ => t <= a + delta
  end.

Definition pstep (x y : Prompt) : Prop :=
  tstep (timed x) (timed y) /\
  forall i p p', ops_in (st (timed x)) !! i = Some p -> ops_in (st (timed y)) !! i = Some p' ->
    (p' = p -> since y i = since x i) /\
    (p' <> p -> since y i = at_time (timed y) /\ on_time (at_time (timed y)) (since x i) (wake_at (timed x) i) p).

(** The time a call may have taken so far: its waits, and [delta] for each of
    its steps. *)
Definition timely (a u : Instant) (p : op_phase T W) : Prop :=
  let start c := fr_start (run_frame (T := T) (W := W) c) in
  let waits w d := w + (from_micros (drawn_latency_us d) + drawn_bandwidth_delay d) in
  match p with
  | Entering c => a <= start c
  | Queued c qs | Notified c qs => qs <= start c + delta
  | Rejected c _ => a <= start c + delta
  | Granted c w => a <= start c + w + delta
  | Sleeping c w d => u <= start c + waits w d + 2 * delta
  | Finished c w d _ => a <= start c + waits w d + 3 * delta
  | _ => True
  end.

(** At most [4 delta] more than the waits; two microseconds are lost where the
    waits are rounded down. *)
Definition event_prompt (ev : Event) : Prop :=
  1000 * ev_total_duration_us ev <=
  1000 * (ev_queue_wait_us ev + ev_injected_latency_us ev + ev_bandwidth_delay_us ev) + 4 * delta + 1998.

Record prompt (x : Prompt) : Prop := {
  prompt_phases : forall i p, ops_in (st (timed x)) !! i = Some p -> timely (since x i) (wake_at (timed x) i) p;
  prompt_log : Forall event_prompt (log (st (timed x)))
}.

Lemma timely_move t t' a u a' u' p p' :
  0 <= delta -> held t u p -> timely a u p -> move p p' -> reads t' u u' p p' ->
  (p' = p -> a' = a) -> (p' <> p -> a' = t' /\ on_time t' a u p) -> timely a' u' p'.
Proof.
  intros Hd Hh Hp Hm Hr Hstay Hmove.
  destruct Hm; try (destruct (Hmove ltac:(done)) as [-> Hon]); cbn in *; unfold duration_since, DURATION_ZERO in *;
    try done; try lia.
  - specialize (Hstay eq_refl) as ->. destruct p; cbn in *; try done. lia.
  - destruct Hr as (dur & E & ->). apply sleep_for_returns in E as ->. lia.
Qed.

Lemma micros_rest d : 0 <= d < 2 ^ 64 * 1000 -> d <= 1000 * micros_u64 d + 999.
Proof. intros Hd. rewrite micros_u64_exact by done. pose proof (Z.mod_pos_bound d 1000). pose proof (Z.div_mod d 1000). lia. Qed.

Lemma completion_prompt (c : Running T W) w d r clk t a u :
  0 <= drawn_latency_us d -> held t u (Finished c w d r) -> timely a u (Finished c w d r) -> t <= a + delta ->
  t < 2 ^ 64 * 1000 ->
  ev_total_duration_us (completion_event (run_frame c) w d r clk) = micros_u64 (duration_since t (fr_start (run_frame c))) ->
  event_prompt (completion_event (run_frame c) w d r clk).
Proof.
  cbn [held timely]. intros Hlat (Hs & Hw & Hb & Hle) Ha Ht Hbound E. unfold event_prompt. rewrite E.
  cbn [ev_queue_wait_us ev_injected_latency_us ev_bandwidth_delay_us completion_event].
  unfold from_micros, duration_since in *.
  pose proof (micros_rest w ltac:(lia)). pose proof (micros_rest (drawn_bandwidth_delay d) ltac:(lia)).
  rewrite (micros_u64_exact (Z.max _ _)) by lia.
  pose proof (Z.mul_div_le (Z.max 0 (t - fr_start (run_frame c))) 1000 ltac:(lia)). lia.
Qed.

Lemma rejection_prompt (c : Running T W) err t a u unix :
  0 <= delta -> held t u (Rejected c err) -> timely a u (Rejected c err) -> t <= a + delta -> t < 2 ^ 64 * 1000 ->
  event_prompt (rejection_event (run_frame c) err (micros_u64 (duration_since t (fr_start (run_frame c)))) unix).
Proof.
  cbn [held timely]. intros Hd Hs Ha Ht Hbound. unfold event_prompt.
  cbn [ev_queue_wait_us ev_injected_latency_us ev_bandwidth_delay_us ev_total_duration_us rejection_event].
  unfold duration_since. rewrite micros_u64_exact by lia.
  pose proof (Z.mul_div_le (Z.max 0 (t - fr_start (run_frame c))) 1000 ltac:(lia)). lia.
Qed.

Lemma prompt_step x y :
  0 <= delta -> at_time (timed y) < 2 ^ 64 * 1000 ->
  (forall i c w d r, ops_in (st (timed x)) !! i = Some (Finished c w d r) -> 0 <= drawn_latency_us d) ->
  pstep x y -> holds (timed x) -> prompt x -> prompt y.
Proof.
  intros Hd Hb Hlat [(Ht & (a & Hs) & Hr) Hpr] [H0' Hp Hl] [Hq Hql].
  assert (Hlater : forall i p, ops_in (st (timed x)) !! i = Some p -> held (at_time (timed y)) (wake_at (timed x) i) p)
    by (intros; eapply held_later; [exact Ht|by apply Hp]).
  split.
  - intros i p' Hi. destruct (estep_moves a _ _ Hs i p' Hi) as (p & Hi' & Hm). destruct (Hpr i p p' Hi' Hi) as [Hstay Hmove].
    eapply timely_move; [exact Hd|by apply Hp|by apply Hq|exact Hm|by apply Hr|exact Hstay|exact Hmove].
  - destruct (estep_event a _ _ Hs) as [->|[(i & c & err & total & unix & Hi & Hi' & _ & ->)|(i & c & w & d & r & clk & total & Hi & Hi' & Et & ->)]];
      [exact Hql|apply Forall_app_2; [exact Hql|]; apply Forall_singleton..];
      pose proof (Hr i _ _ Hi Hi') as Htot; destruct (proj2 (Hpr i _ _ Hi Hi') ltac:(done)) as [_ Hon]; cbn in Htot, Hon; subst total.
    + eapply rejection_prompt; [exact Hd|by apply Hlater|by apply Hq|exact Hon|exact Hb].
    + eapply completion_prompt; [by eapply Hlat|by apply Hlater|by apply Hq|exact Hon|exact Hb|done].
Qed.

(** ** Timed runs *)

Context (config : Config) (sink : ES) (nows : FsOp -> Instant * Instant) (w0 : W).

(** From an engine just built, at time [t0], with nobody asleep. *)
Definition timed_start (n : nat) (t0 : Instant) : Timed :=
  {| at_time := t0; st := e_initial config sink nows w0 n; wake_at := fun _ => t0 |}.

Definition timed_reachable (x : Timed) : Prop :=
  exists n t0, 0 <= t0 /\ steps tstep (timed_start n t0) x.

Lemma timed_steps x y : steps tstep x y -> at_time x <= at_time y /\ esteps (R := R) (st x) (st y).
Proof.
  induction 1 as [x|x y z (Ht & Hs & _) _ [IHt IHs]]; [split; [lia|apply steps_refl]|].
  split; [lia|]. by eapply steps_cons.
Qed.

Lemma timed_holds x y : steps tstep x y -> at_time y < 2 ^ 64 * 1000 -> holds x -> holds y.
Proof.
  induction 1 as [x|x y z Hxy Hyz IH]; [done|]. intros Hb Hx.
  apply IH; [done|]. pose proof (proj1 (timed_steps _ _ Hyz)). eapply holds_step; [|done|done]. lia.
Qed.

Lemma timed_reachable_holds x : timed_reachable x -> at_time x < 2 ^ 64 * 1000 -> holds x.
Proof.
  intros (n & t0 & H0' & Hn) Hb. eapply timed_holds; [exact Hn|exact Hb|].
  split; cbn; [done| |constructor]. by intros i p [-> _]%lookup_replicate.
Qed.

(** Runs with prompt threads. *)
Definition prompt_start (n : nat) (t0 : Instant) : Prompt := {| timed := timed_start n t0; since := fun _ => t0 |}.

Definition prompt_reachable (x : Prompt) : Prop :=
  exists n t0, 0 <= t0 /\ steps pstep (prompt_start n t0) x.

(** The latency bounds of the configuration are words. *)
Definition latencies_typed : Prop := forall op, tier_max_us (build_resources (policy_of config op) 0 0).

Lemma decided_latency_nonneg ctx seq : latencies_typed -> 0 <= decided_latency (R := R) config ctx seq.
Proof.
  intros Hty. unfold decided_latency, decided_tier.
  apply sample_latency_le_max_raw, select_tier_max_us, Hty.
Qed.

Lemma finished_latency (s : shared) i c w d r :
  latencies_typed -> engine_reachable (R := R) config sink nows w0 s -> ops_in s !! i = Some (Finished c w d r) ->
  0 <= drawn_latency_us d.
Proof.
  intros Hty Hr Hi. pose proof (dec_phase _ _ (reachable_decided _ _ _ _ s Hr) i _ Hi) as [[_ ->] _].
  by apply decided_latency_nonneg.
Qed.

Lemma prompt_timed x y : steps pstep x y -> steps tstep (timed x) (timed y).
Proof. induction 1 as [x|x y z [Hs _] _ IH]; [apply steps_refl|by eapply steps_cons]. Qed.

Lemma prompt_reachable_timed x : prompt_reachable x -> timed_reachable (timed x).
Proof. intros (n & t0 & Ht0 & Hn). exists n, t0. split; [done|]. by apply (prompt_timed _ _ Hn). Qed.

Lemma prompt_runs x y :
  0 <= delta -> latencies_typed -> steps pstep x y -> at_time (timed y) < 2 ^ 64 * 1000 ->
  engine_reachable (R := R) config sink nows w0 (st (timed x)) -> holds (timed x) -> prompt x -> prompt y.
Proof.
  intros Hd Hty. induction 1 as [x|x y z Hxy Hyz IH]; [done|]. intros Hb Hreach Hx Hp.
  pose proof (proj1 (timed_steps _ _ (prompt_timed _ _ Hyz))) as Hle.
  assert (Hstep : tstep (timed x) (timed y)) by apply Hxy.
  apply IH; [done| | |].
  - destruct Hreach as [n Hn], Hstep as (_ & Hs & _). exists n. eapply steps_trans; [exact Hn|]. by apply steps_one.
  - eapply holds_step; [|exact Hstep|exact Hx]. lia.
  - eapply prompt_step; [exact Hd|lia| |exact Hxy|exact Hx|exact Hp]. intros. by eapply finished_latency.
Qed.

Lemma prompt_reachable_prompt x :
  0 <= delta -> latencies_typed -> prompt_reachable x -> at_time (timed x) < 2 ^ 64 * 1000 -> prompt x.
Proof.
  intros Hd Hty (n & t0 & Ht0 & Hn) Hb. eapply prompt_runs; [exact Hd|exact Hty|exact Hn|exact Hb| | |].
  - exists n. apply steps_refl.
  - split; cbn; [done| |constructor]. by intros i p [-> _]%lookup_replicate.
  - split; cbn; [|constructor]. by intros i p [-> _]%lookup_replicate.
Qed.

(** ** Properties *)

(** C17: callers wait: under every schedule of a monotonic clock, in which
    sleeping takes at least the requested time, the duration that an event
    reports covers the wait for a slot, the injected latency and the bandwidth
    delay that it reports, faulted calls included; a call that is about to
    reply has been held that long. This for the first 2^64 microseconds of
    the clock, after which a duration may wrap around. *)
Theorem engine_holds_callers x :
  timed_reachable x -> at_time x < 2 ^ 64 * 1000 ->
  engine_reachable (R := R) config sink nows w0 (st x) /\
  Forall event_held (log (st x)) /\
  forall i c w d r, ops_in (st x) !! i = Some (Finished c w d r) ->
    w + from_micros (drawn_latency_us d) + drawn_bandwidth_delay d <= at_time x - fr_start (run_frame c).
Proof.
  intros Hr Hb. pose proof (timed_reachable_holds x Hr Hb) as [_ Hp Hl].
  destruct Hr as (n & t0 & _ & Hn). apply timed_steps in Hn as [_ Hn].
  split; [by exists n|]. split; [exact Hl|]. intros i c w d r Hi.
  pose proof (Hp i _ Hi) as Hh. cbn in Hh. lia.
Qed.

(** C18: callers wait no longer than that: when the scheduler runs every thread
    within [delta] of the moment it can go on, sleepers included, the duration
    that an event reports exceeds the wait for a slot, the injected latency
    and the bandwidth delay that it reports by at most four times [delta] and
    the two microseconds lost in rounding; a rejected call reports no more
    than this surplus. *)
Theorem engine_releases_callers x :
  0 <= delta -> latencies_typed -> prompt_reachable x -> at_time (timed x) < 2 ^ 64 * 1000 ->
  engine_reachable (R := R) config sink nows w0 (st (timed x)) /\
  Forall (fun ev => event_held ev /\ event_prompt ev) (log (st (timed x))) /\
  forall i c w d r, ops_in (st (timed x)) !! i = Some (Finished c w d r) ->
    since x i - fr_start (run_frame c) <= w + from_micros (drawn_latency_us d) + drawn_bandwidth_delay d + 3 * delta.
Proof.
  intros Hd Hty Hr Hb. pose proof (prompt_reachable_prompt x Hd Hty Hr Hb) as [Hp Hl].
  apply prompt_reachable_timed in Hr. pose proof (timed_reachable_holds _ Hr Hb) as [_ _ Hh].
  destruct Hr as (n & t0 & _ & Hn). apply timed_steps in Hn as [_ Hn].
  split; [by exists n|]. split; [by apply Forall_and|].
  intros i c w d r Hi. pose proof (Hp i _ Hi) as Hh'. cbn in Hh'. lia.
Qed.
End Timing.

(** ** Witness *)

(** What is drawn for the read: seven microseconds. *)
Definition plain_drawn : Drawn :=
  {| drawn_fault := None; drawn_latency_us := 7; drawn_bandwidth_delay := DURATION_ZERO |}.

Ltac draws := rewrite (surjective_pairing (draw_op _ _ _ _)); apply f_equal2; [by vm_compute|reflexivity].

(** One step at time [t], by the only thread. *)
Ltac timed_step t u tac :=
  refine (steps_cons _ _ {| at_time := t; st := _; wake_at := fun _ => u |} _ _ _);
  [split; [cbn; lia|split; [eexists; tac|intros [|i] p p' Hp Hp'; cbn in Hp, Hp'; simplify_eq; try done]]|].

Abbreviation timed_demo := (Timed (ES := list Event) (HI := list Z) (T := Z) (W := Z)).

(** A read that sleeps for seven microseconds, from 0 to 7020 ns. *)
Lemma timed_logged :
  exists x : timed_demo, timed_reachable (R := unit) plain_config [] (fun _ => (0, 0)) 0 x /\
    at_time x = 7020 /\ exists ev, log (st x) = [ev] /\ ev_injected_latency_us ev = 7 /\ ev_total_duration_us ev = 7.
Proof.
  eexists. split; [exists 1%nat, 0; split; [lia|]|].
  - timed_step 0 0 ltac:(by apply (e_begin (e_initial plain_config [] (fun _ => (0, 0)) 0 1) 0 small_read demo_body 0)).
    timed_step 10 0 ltac:(eapply (e_acquire _ 0 (plain_call 0) (build_resources plain_policy 0 0) 10);
      [done|by vm_compute|reflexivity]).
    timed_step 20 7020 ltac:(eapply (e_draw (R := unit) _ 0 (plain_call 0) 0 _ 20 plain_drawn); [done|by vm_compute|draws]).
    { eexists. split; by vm_compute. }
    timed_step 7020 7020 ltac:(eapply (e_execute _ 0); [by vm_compute|reflexivity]).
    timed_step 7020 7020 ltac:(eapply (e_emit _ 0 _ _ _ _ {| t_start := 0; t_acquire := 0; t_reserve := 0; t_end := 7020; t_unix := 1 |}); reflexivity).
    apply steps_refl.
  - split; [done|]. eexists. split_and!; reflexivity.
Qed.

Lemma engine_holds_callers_witness :
  exists (x : timed_demo) ev, log (st x) = [ev] /\ ev_injected_latency_us ev = 7 /\ event_held ev.
Proof.
  destruct timed_logged as (x & Hr & Ht & ev & Hlog & Hl & _). exists x, ev.
  split; [exact Hlog|]. split; [exact Hl|].
  assert (Hb : at_time x < 2 ^ 64 * 1000) by (rewrite Ht; reflexivity).
  pose proof (proj1 (proj2 (engine_holds_callers (R := unit) plain_config [] (fun _ => (0, 0)) 0 x Hr Hb))) as HF.
  rewrite Hlog in HF. apply (Forall_singleton event_held). exact HF.
Defined.

(** The same read on a machine that runs threads within 20 ns. *)
Abbreviation prompt_demo := (Prompt (ES := list Event) (HI := list Z) (T := Z) (W := Z)).

Ltac prompt_step_at t u tac :=
  refine (steps_cons _ _ {| timed := {| at_time := t; st := _; wake_at := fun _ => u |}; since := fun _ => t |} _ _ _);
  [split;
    [split; [cbn; lia|split; [eexists; tac|intros [|i] p p' Hp Hp'; cbn in Hp, Hp'; simplify_eq; try done]]
    |intros [|i] p p' Hp Hp'; cbn in Hp, Hp'; simplify_eq; (split; [intros; by simplify_eq|intros _; split; [done|by vm_compute]])]|].

Lemma prompt_logged :
  exists x : prompt_demo, prompt_reachable (R := unit) 20 plain_config [] (fun _ => (0, 0)) 0 x /\
    at_time (timed x) = 7030 /\ exists ev, log (st (timed x)) = [ev] /\ ev_injected_latency_us ev = 7.
Proof.
  eexists. split; [exists 1%nat, 0; split; [lia|]|].
  - prompt_step_at 0 0 ltac:(by apply (e_begin (e_initial plain_config [] (fun _ => (0, 0)) 0 1) 0 small_read demo_body 0)).
    prompt_step_at 10 0 ltac:(eapply (e_acquire _ 0 (plain_call 0) (build_resources plain_policy 0 0) 10);
      [done|by vm_compute|reflexivity]).
    prompt_step_at 20 7020 ltac:(eapply (e_draw (R := unit) _ 0 (plain_call 0) 0 _ 20 plain_drawn); [done|by vm_compute|draws]).
    { eexists. split; by vm_compute. }
    prompt_step_at 7030 7020 ltac:(eapply (e_execute _ 0); [by vm_compute|reflexivity]).
    prompt_step_at 7030 7020 ltac:(eapply (e_emit _ 0 _ _ _ _ {| t_start := 0; t_acquire := 0; t_reserve := 0; t_end := 7030; t_unix := 1 |}); reflexivity).
    apply steps_refl.
  - split; [done|]. eexists. split; reflexivity.
Qed.

Lemma engine_releases_callers_witness :
  exists (x : prompt_demo) ev, log (st (timed x)) = [ev] /\ ev_injected_latency_us ev = 7 /\ event_prompt 20 ev.
Proof.
  destruct prompt_logged as (x & Hr & Ht & ev & Hlog & Hl). exists x, ev.
  split; [exact Hlog|]. split; [exact Hl|].
  assert (Hb : at_time (timed x) < 2 ^ 64 * 1000) by (rewrite Ht; reflexivity).
  pose proof (proj1 (proj2 (engine_releases_callers (R := unit) 20 plain_config [] (fun _ => (0, 0)) 0 x
    ltac:(lia) ltac:(by intros []; vm_compute) Hr Hb))) as HF.
  rewrite Hlog in HF. apply (Forall_singleton (fun ev => event_held ev /\ event_prompt 20 ev)) in HF. apply HF.
Defined.
