(* ===== verification/FaultFs.v ===== *)
(** * The FUSE adapter

    [fusecraft-fuser/src/lib.rs] and [reply_helpers.rs]. A handler is a
    function from the filesystem and the request to the reply it sends (or the
    engine's blocking or panic). The [fuser] crate is outside the repository:
    its error conversion and its directory reply buffer are parameters. *)

From stdpp Require Import base list numbers gmap strings.
From Stdlib Require Import ZArith Lia Bool.

From S2P Require Import Prelude Word Float Time Op Config Text Concurrency SampleKey Sampler Bandwidth.
From S2P Require Import Metrics Events Content Namespace Engine.

Local Open Scope Z_scope.

(** ** [reply_helpers.rs] *)

Inductive FileType : Type := Directory | RegularFile.

Definition file_type (k : FileKind) : FileType :=
  match k with Dir => Directory | File => RegularFile end.

Record FileAttr : Type := {
  fa_ino : Z;
  fa_size : Z;
  fa_blocks : Z;
  fa_atime : SystemTime;
  fa_mtime : SystemTime;
  fa_ctime : SystemTime;
  fa_crtime : SystemTime;
  fa_kind : FileType;
  fa_perm : Z;
  fa_nlink : Z;
  fa_uid : Z;
  fa_gid : Z;
  fa_rdev : Z;
  fa_blksize : Z;
  fa_flags : Z
}.

Definition UNIX_EPOCH : SystemTime := 0.

(** [a.div_ceil(b)] *)
Definition div_ceil (a b : Z) : Z := a / b + (if a mod b =? 0 then 0 else 1).

Definition attr_from_spec (spec : FileAttrSpec) : FileAttr :=
  {| fa_ino := attr_ino spec; fa_size := attr_size spec; fa_blocks := div_ceil (attr_size spec) 512;
     fa_atime := attr_mtime spec; fa_mtime := attr_mtime spec; fa_ctime := attr_mtime spec;
     fa_crtime := UNIX_EPOCH; fa_kind := file_type (attr_kind spec);
     fa_perm := attr_mode spec mod 2 ^ 16; fa_nlink := attr_nlink spec;
     fa_uid := attr_uid spec; fa_gid := attr_gid spec; fa_rdev := 0; fa_blksize := 4096; fa_flags := 0 |}.

(** ** [lib.rs] *)

Definition DEFAULT_ATTR_TTL : Duration := 1 * NANOS_PER_SEC.
Definition DEFAULT_ENTRY_TTL : Duration := 1 * NANOS_PER_SEC.

(** [fuser::ReplyDirectory]: [add] returns [true] when the entry did not fit. *)
Class ReplyDirectory (D : Type) : Type := {
  dir_add : D -> Z -> Z -> FileType -> string -> bool * D
}.

(** The collector of the [readdir] closure accepts everything. *)
Definition Collector : Type := list DirEntry.

#[export] Instance collector_sink : DirSink Collector :=
  {| push := fun self ino offset kind name =>
       (true, self ++ [{| ent_ino := ino; ent_off := offset; ent_kind := kind; ent_name := name |}]) |}.

Section FaultFs.
Context {R : Type} `{Rng R} `{Libm} {ES : Type} `{EventSink ES} {HI : Type} `{Histogram HI}.
Context {N : Type} `{NamespaceModel N} {C : Type} `{ContentModel C} {D : Type} `{ReplyDirectory D}.

(** [fuser::Errno] and its [from_i32]. *)
Context {Errno' : Type} (from_i32 : Z -> Errno').

Definition errno_to_fuser (errno : Z) : Errno' := from_i32 errno.

Record FaultFs : Type := {
  fs_engine : SimEngine ES HI;
  namespace : N;
  content : C;
  attr_ttl : Duration;
  entry_ttl : Duration
}.

Definition fs_new (engine : SimEngine ES HI) (ns : N) (c : C) : FaultFs :=
  {| fs_engine := engine; namespace := ns; content := c;
     attr_ttl := DEFAULT_ATTR_TTL; entry_ttl := DEFAULT_ENTRY_TTL |}.

Definition with_ttls (self : FaultFs) (attr_ttl entry_ttl : Duration) : FaultFs :=
  {| fs_engine := fs_engine self; namespace := namespace self; content := content self;
     attr_ttl := attr_ttl; entry_ttl := entry_ttl |}.

Inductive Reply : Type :=
| ReplyEntry (ttl : Duration) (a : FileAttr) (generation : Z)
| ReplyAttr (ttl : Duration) (a : FileAttr)
| ReplyOpened (fh flags : Z)
| ReplyData (bytes : list Z)
| ReplyWritten (n : Z)
| ReplyOk
| ReplyDir (d : D)
| ReplyStatfs (blocks bfree bavail files ffree bsize namelen frsize : Z)
| ReplyError (e : Errno').

(** A handler sends one reply, or its thread waits in a limiter's queue, or
    panics. *)
Inductive handled : Type :=
| Replied (r : Reply) (fs : FaultFs)
| HandlerBlocks (fs : FaultFs)
| HandlerPanics (fs : FaultFs).

Definition set_engine (self : FaultFs) (e : SimEngine ES HI) : FaultFs :=
  {| fs_engine := e; namespace := namespace self; content := content self;
     attr_ttl := attr_ttl self; entry_ttl := entry_ttl self |}.

Definition reply_result {T} (r : result T FsError) (ok : T -> Reply) : Reply :=
  match r with
  | Ok x => ok x
  | Err e => ReplyError (errno_to_fuser (as_errno e))
  end.

(** [match self.engine.run_op(ctx, body) { .. }]: the bodies read immutable
    models and leave nothing behind. *)
Definition respond {T} (self : FaultFs) (ctx : OpContext) (body : result T FsError) (ok : T -> Reply)
    (clk : Clock) : handled :=
  match run_op (R := R) (W := unit) (fs_engine self) ctx (fun w => (body, w)) tt clk with
  | RunReturns r e _ => Replied (reply_result r ok) (set_engine self e)
  | RunBlocks e => HandlerBlocks (set_engine self e)
  | RunPanics e _ => HandlerPanics (set_engine self e)
  end.

(** *** The closures *)

Definition lookup_body (self : FaultFs) (parent : Z) (name : string) : result FileAttrSpec FsError :=
  (let? ino := ok_or (lookup_child (namespace self) parent name) (Errno ENOENT) in
   let? spec := ok_or (attr (namespace self) ino) (Errno ENOENT) in
   Ok spec)%fc.

Definition getattr_body (self : FaultFs) (ino : Z) : result FileAttrSpec FsError :=
  ok_or (attr (namespace self) ino) (Errno ENOENT).

(** How much of a read is there. *)
Definition readable_len (self : FaultFs) (ino offset size : Z) : Z :=
  let requested := size in
  let file_len := file_len (content self) ino in
  if file_len <=? offset then 0 else Z.min (file_len - offset) requested.

Definition read_body (self : FaultFs) (ino offset readable : Z) : result (list Z) FsError :=
  if readable =? 0 then Ok []
  else Ok (read_at (content self) ino offset (replicate (Z.to_nat readable) 0)).

Definition write_body (self : FaultFs) (ino offset : Z) (data : list Z) : result Z FsError :=
  result_map wrap32 (write_at (content self) ino offset data).

Definition readdir_body (self : FaultFs) (ino offset : Z) : result (list DirEntry) FsError :=
  let (r, entries) := readdir (namespace self) ino offset ([] : Collector) in
  (let? _ := r in Ok entries)%fc.

Definition access_body (self : FaultFs) (ino : Z) : result unit FsError :=
  ok_or (option_map (fun _ => tt) (attr (namespace self) ino)) (Errno ENOENT).

(** The loop over the collected entries: stops when the buffer is full. *)
Fixpoint reply_entries (entries : list DirEntry) (reply : D) : D :=
  match entries with
  | [] => reply
  | e :: rest =>
      let (full, reply) := dir_add reply (ent_ino e) (ent_off e) (file_type (ent_kind e)) (ent_name e) in
      if full then reply else reply_entries rest reply
  end.

(** *** The handlers *)

Definition handle_lookup (self : FaultFs) (parent : Z) (name : string) (clk : Clock) : handled :=
  respond self (metadata Lookup parent) (lookup_body self parent name)
    (fun spec => ReplyEntry (entry_ttl self) (attr_from_spec spec) 0) clk.

Definition handle_getattr (self : FaultFs) (ino : Z) (clk : Clock) : handled :=
  respond self (metadata GetAttr ino) (getattr_body self ino)
    (fun spec => ReplyAttr (attr_ttl self) (attr_from_spec spec)) clk.

Definition handle_open (self : FaultFs) (ino : Z) (clk : Clock) : handled :=
  respond self (metadata Open ino) (Ok tt) (fun _ => ReplyOpened 0 0) clk.

Definition handle_read (self : FaultFs) (ino offset size : Z) (clk : Clock) : handled :=
  let readable := readable_len self ino offset size in
  let ctx := with_requested_len (data Read ino offset readable) size in
  respond self ctx (read_body self ino offset readable) ReplyData clk.

Definition handle_write (self : FaultFs) (ino offset : Z) (data : list Z) (clk : Clock) : handled :=
  let data_len := Z.of_nat (length data) in
  respond self (Engine.data Write ino offset data_len) (write_body self ino offset data) ReplyWritten clk.

Definition handle_flush (self : FaultFs) (ino : Z) (clk : Clock) : handled :=
  respond self (metadata Flush ino) (Ok tt) (fun _ => ReplyOk) clk.

Definition handle_release (self : FaultFs) (ino : Z) (clk : Clock) : handled :=
  respond self (metadata Release ino) (Ok tt) (fun _ => ReplyOk) clk.

Definition handle_fsync (self : FaultFs) (ino : Z) (clk : Clock) : handled :=
  respond self (metadata Fsync ino) (Ok tt) (fun _ => ReplyOk) clk.

Definition handle_readdir (self : FaultFs) (ino offset : Z) (reply : D) (clk : Clock) : handled :=
  respond self (metadata Readdir ino) (readdir_body self ino offset)
    (fun entries => ReplyDir (reply_entries entries reply)) clk.

Definition handle_statfs (self : FaultFs) (ino : Z) (clk : Clock) : handled :=
  respond self (metadata Statfs ino) (Ok tt)
    (fun _ => ReplyStatfs 1000000 1000000 1000000 1000000 1000000 4096 255 4096) clk.

Definition handle_access (self : FaultFs) (ino : Z) (clk : Clock) : handled :=
  respond self (metadata Access ino) (access_body self ino) (fun _ => ReplyOk) clk.

(** *** Dispatch *)

Inductive Request : Type :=
| ReqLookup (parent : Z) (name : string)
| ReqGetAttr (ino : Z)
| ReqOpen (ino : Z)
| ReqRead (ino offset size : Z)
| ReqWrite (ino offset : Z) (data : list Z)
| ReqFlush (ino : Z)
| ReqRelease (ino : Z)
| ReqFsync (ino : Z)
| ReqReaddir (ino offset : Z) (reply : D)
| ReqStatfs (ino : Z)
| ReqAccess (ino : Z).

Definition handle (self : FaultFs) (req : Request) (clk : Clock) : handled :=
  match req with
  | ReqLookup parent name => handle_lookup self parent name clk
  | ReqGetAttr ino => handle_getattr self ino clk
  | ReqOpen ino => handle_open self ino clk
  | ReqRead ino offset size => handle_read self ino offset size clk
  | ReqWrite ino offset data => handle_write self ino offset data clk
  | ReqFlush ino => handle_flush self ino clk
  | ReqRelease ino => handle_release self ino clk
  | ReqFsync ino => handle_fsync self ino clk
  | ReqReaddir ino offset reply => handle_readdir self ino offset reply clk
  | ReqStatfs ino => handle_statfs self ino clk
  | ReqAccess ino => handle_access self ino clk
  end.
End FaultFs.

Arguments FaultFs : clear implicits.
Arguments Request : clear implicits.
Arguments Reply : clear implicits.
Arguments handled : clear implicits.

(** ** What a handler replies *)

Section HandlerFacts.
Context {R : Type} `{Rng R} `{Libm} {ES : Type} `{EventSink ES} {HI : Type} `{Histogram HI}.
Context {N : Type} `{NamespaceModel N} {C : Type} `{ContentModel C} {D : Type} `{ReplyDirectory D}.
Context {Errno' : Type} (from_i32 : Z -> Errno').

Abbreviation fault_fs := (FaultFs ES HI N C).
Abbreviation request := (Request D).
Abbreviation reply := (Reply D Errno').

(** The context each handler passes to the engine. *)
Definition req_ctx (self : fault_fs) (req : request) : OpContext :=
  match req with
  | ReqLookup parent _ => metadata Lookup parent
  | ReqGetAttr ino => metadata GetAttr ino
  | ReqOpen ino => metadata Open ino
  | ReqRead ino offset size =>
      with_requested_len (data Read ino offset (readable_len self ino offset size)) size
  | ReqWrite ino offset bytes => data Write ino offset (Z.of_nat (length bytes))
  | ReqFlush ino => metadata Flush ino
  | ReqRelease ino => metadata Release ino
  | ReqFsync ino => metadata Fsync ino
  | ReqReaddir ino _ _ => metadata Readdir ino
  | ReqStatfs ino => metadata Statfs ino
  | ReqAccess ino => metadata Access ino
  end.

(** The specification: the reply of a filesystem without faults, limits or
    delays. *)
Definition ideal (self : fault_fs) (req : request) : reply :=
  match req with
  | ReqLookup parent name =>
      match lookup_child (namespace self) parent name with
      | Some ino =>
          match attr (namespace self) ino with
          | Some spec => ReplyEntry (entry_ttl self) (attr_from_spec spec) 0
          | None => ReplyError (from_i32 ENOENT)
          end
      | None => ReplyError (from_i32 ENOENT)
      end
  | ReqGetAttr ino =>
      match attr (namespace self) ino with
      | Some spec => ReplyAttr (attr_ttl self) (attr_from_spec spec)
      | None => ReplyError (from_i32 ENOENT)
      end
  | ReqOpen _ => ReplyOpened 0 0
  | ReqRead ino offset size =>
      let n := readable_len self ino offset size in
      ReplyData (if n =? 0 then [] else read_at (content self) ino offset (replicate (Z.to_nat n) 0))
  | ReqWrite ino offset bytes =>
      match write_at (content self) ino offset bytes with
      | Ok n => ReplyWritten (wrap32 n)
      | Err e => ReplyError (from_i32 (as_errno e))
      end
  | ReqFlush _ | ReqRelease _ | ReqFsync _ => ReplyOk
  | ReqReaddir ino offset d =>
      match readdir (namespace self) ino offset ([] : Collector) with
      | (Ok _, entries) => ReplyDir (reply_entries entries d)
      | (Err e, _) => ReplyError (from_i32 (as_errno e))
      end
  | ReqStatfs _ => ReplyStatfs 1000000 1000000 1000000 1000000 1000000 4096 255 4096
  | ReqAccess ino =>
      match attr (namespace self) ino with
      | Some _ => ReplyOk
      | None => ReplyError (from_i32 ENOENT)
      end
  end.

Lemma respond_spec {T} (self : fault_fs) ctx (body : result T FsError) (ok : T -> reply) clk res r fs' :
  resources (fs_engine self) !! ctx_op ctx = Some res -> counters_ok (limiter res) ->
  respond (R := R) from_i32 self ctx body ok clk = Replied r fs' ->
  r = (if inflight (state (limiter res)) <? cap (limiter res) then
         match call_fault (R := R) (fs_engine self) res ctx with
         | Some errno => ReplyError (from_i32 errno)
         | None => reply_result from_i32 body ok
         end
       else ReplyError (from_i32 EAGAIN)) /\
  namespace fs' = namespace self /\ content fs' = content self.
Proof.
  intros Hres Hok. unfold respond.
  destruct (run_op (fs_engine self) ctx _ tt clk) as [r' e w'| |] eqn:E; [|done..].
  intros [= <- <-]. split; [|done].
  pose proof (run_op_body_cases (fs_engine self) ctx _ tt clk res _ _ _ Hres Hok E) as Hb.
  destruct (_ <? _); [|by destruct Hb as [-> _]].
  destruct (call_fault _ _ _); [by destruct Hb as [-> _]|by simplify_eq].
Qed.

(** The handlers are [respond] on the request's context and closure. *)
Lemma handle_cases (self : fault_fs) req clk res r fs' :
  resources (fs_engine self) !! ctx_op (req_ctx self req) = Some res -> counters_ok (limiter res) ->
  handle (R := R) from_i32 self req clk = Replied r fs' ->
  r = (if inflight (state (limiter res)) <? cap (limiter res) then
         match call_fault (R := R) (fs_engine self) res (req_ctx self req) with
         | Some errno => ReplyError (from_i32 errno)
         | None => ideal self req
         end
       else ReplyError (from_i32 EAGAIN)) /\
  namespace fs' = namespace self /\ content fs' = content self.
Proof.
  intros Hres Hok Hh.
  assert (Hgen : forall T (body : result T FsError) (ok : T -> reply),
    reply_result from_i32 body ok = ideal self req ->
    respond (R := R) from_i32 self (req_ctx self req) body ok clk = Replied r fs' ->
    r = (if inflight (state (limiter res)) <? cap (limiter res) then
           match call_fault (R := R) (fs_engine self) res (req_ctx self req) with
           | Some errno => ReplyError (from_i32 errno)
           | None => ideal self req
           end
         else ReplyError (from_i32 EAGAIN)) /\
    namespace fs' = namespace self /\ content fs' = content self).
  { intros T body ok <- Hr. by apply (respond_spec self _ body ok clk). }
  destruct req; cbn [handle] in Hh; (eapply Hgen; [|exact Hh]); cbn [ideal]; try done;
    unfold lookup_body, getattr_body, read_body, write_body, readdir_body, access_body, ok_or;
    repeat case_match; simplify_eq/=; done.
Qed.
End HandlerFacts.

(** ** Directory paging *)

Definition page_entry (e : DirEntry) : Z * Z * FileType * string :=
  (ent_ino e, ent_off e, file_type (ent_kind e), ent_name e).

(** The buffer's content: [add] appends the entry, or reports it full and leaves
    it. *)
Class ReplyDirectoryLaws (D : Type) `{ReplyDirectory D} : Type := {
  dir_entries : D -> list (Z * Z * FileType * string);
  dir_add_entries : forall d ino off ft name,
    dir_entries (dir_add d ino off ft name).2 =
    if (dir_add d ino off ft name).1 then dir_entries d else dir_entries d ++ [(ino, off, ft, name)]
}.

Section Paging.
Context {ES HI : Type} {N : Type} `{NamespaceLaws N} {C : Type} {D : Type} `{ReplyDirectoryLaws D}.

Abbreviation fault_fs := (FaultFs ES HI N C).

Lemma collector_all (sink : Collector) es : push_all sink es = sink ++ es.
Proof.
  revert sink. induction es as [|e es IH]; intros sink; [by rewrite app_nil_r|].
  cbn [push_all push collector_sink]. rewrite IH, <- app_assoc. by destruct e.
Qed.

Lemma reply_entries_prefix es d :
  exists k, dir_entries (reply_entries es d) = dir_entries d ++ (page_entry <$> take k es) /\
    (forall e, head es = Some e ->
       (dir_add d (ent_ino e) (ent_off e) (file_type (ent_kind e)) (ent_name e)).1 = false -> (0 < k)%nat).
Proof.
  revert d. induction es as [|e es IH]; intros d; [by exists 0%nat; rewrite app_nil_r|].
  cbn [reply_entries head].
  pose proof (dir_add_entries d (ent_ino e) (ent_off e) (file_type (ent_kind e)) (ent_name e)) as Hadd.
  destruct (dir_add d _ _ _ _) as [[] d'] eqn:E; cbn [fst snd] in Hadd.
  - exists 0%nat. rewrite Hadd, app_nil_r. split; [done|]. intros e' [= <-]. by rewrite E.
  - destruct (IH d') as (k & Hk & _). exists (S k). rewrite Hk, Hadd, <- app_assoc. split; [done|lia].
Qed.

(** One page, as a client sees it: the entries of the reply of an undisturbed
    [readdir]. *)
Definition dir_page (self : fault_fs) (ino offset : Z) (fresh : D) : option (list (Z * Z * FileType * string)) :=
  match readdir_body self ino offset with
  | Ok es => Some (dir_entries (reply_entries es fresh))
  | Err _ => None
  end.

(** The client's loop: ask again from the last cookie until a page is empty. *)
Fixpoint list_directory (fuel : nat) (self : fault_fs) (ino offset : Z) (fresh : D)
    : option (list (Z * Z * FileType * string)) :=
  match fuel with
  | O => None
  | S fuel' =>
      match dir_page self ino offset fresh with
      | None => None
      | Some page =>
          match list.last page with
          | None => Some []
          | Some (_, off, _, _) =>
              match list_directory fuel' self ino off fresh with
              | Some rest => Some (page ++ rest)
              | None => None
              end
          end
      end
  end.

Lemma dir_page_listing self ino offset fresh es :
  ns_wf (namespace self) -> 0 <= offset -> listing (namespace self) ino = Some es ->
  dir_page self ino offset fresh = Some (dir_entries (reply_entries (after offset es) fresh)).
Proof.
  intros Hwf Ho Hl. unfold dir_page, readdir_body. rewrite readdir_listing by done.
  rewrite Hl, collector_all. done.
Qed.

Lemma last_take_split {A} (l : list A) k x :
  list.last (take k l) = Some x -> exists pre, take k l = pre ++ [x] /\ l = pre ++ x :: drop k l.
Proof.
  intros Hx. apply last_Some in Hx as [pre Hpre]. exists pre. split; [done|].
  rewrite <- (take_drop k l) at 1. by rewrite Hpre, <- app_assoc.
Qed.

(** A page ends at the last entry that fitted: what follows its cookie are the
    entries that did not. *)
Lemma page_resume es offset fresh i off ft nm :
  increasing 0 es -> dir_entries fresh = [] ->
  list.last (dir_entries (reply_entries (after offset es) fresh)) = Some (i, off, ft, nm) ->
  dir_entries (reply_entries (after offset es) fresh) ++ (page_entry <$> after off es) =
    page_entry <$> after offset es /\
  offset < off /\ (length (after off es) < length (after offset es))%nat.
Proof.
  intros Hinc Hempty. destruct (reply_entries_prefix (after offset es) fresh) as (k & -> & _). rewrite Hempty. cbn [app].
  rewrite fmap_last. destruct (list.last (take k (after offset es))) as [e|] eqn:Elast; [|done]. intros [= <- <- <- <-].
  destruct (last_take_split _ _ _ Elast) as (pre & Hpre & Hsplit).
  pose proof (increasing_resume _ _ _ _ _ _ Hinc Hsplit) as Hres. rewrite Hres. split_and!.
  - by rewrite <- fmap_app, take_drop.
  - assert (He : e ∈ after offset es) by (rewrite Hsplit; apply elem_of_app; right; left).
    by apply list_elem_of_filter in He as [He _].
  - apply (f_equal length) in Hsplit. rewrite length_app in Hsplit. cbn [length] in Hsplit. lia.
Qed.

(** A buffer that takes an entry stays empty only at the end. *)
Lemma page_empty es offset fresh :
  dir_entries fresh = [] ->
  (forall e, (dir_add fresh (ent_ino e) (ent_off e) (file_type (ent_kind e)) (ent_name e)).1 = false) ->
  dir_entries (reply_entries (after offset es) fresh) = [] -> after offset es = [].
Proof.
  intros Hempty Hroom. destruct (reply_entries_prefix (after offset es) fresh) as (k & -> & Hpos). rewrite Hempty.
  destruct (after offset es) as [|e rest]; [done|]. specialize (Hpos e eq_refl (Hroom e)). by destruct k; [lia|].
Qed.

Lemma list_directory_after fuel self ino offset fresh es :
  ns_wf (namespace self) -> 0 <= offset -> listing (namespace self) ino = Some es ->
  dir_entries fresh = [] ->
  (forall e, (dir_add fresh (ent_ino e) (ent_off e) (file_type (ent_kind e)) (ent_name e)).1 = false) ->
  (length (after offset es) < fuel)%nat ->
  list_directory fuel self ino offset fresh = Some (page_entry <$> after offset es).
Proof.
  intros Hwf Ho Hl Hempty Hroom. revert offset Ho.
  induction fuel as [|fuel IH]; intros offset Ho Hlen; [lia|]. cbn [list_directory].
  rewrite (dir_page_listing _ _ _ _ es) by done.
  destruct (list.last (dir_entries (reply_entries (after offset es) fresh))) as [[[[i off] ft] nm]|] eqn:Elast.
  - pose proof (listing_increasing _ _ _ Hwf Hl) as Hinc.
    destruct (page_resume _ _ _ _ _ _ _ Hinc Hempty Elast) as (Happ & Hoff & Hless).
    rewrite IH by lia. by rewrite Happ.
  - apply last_None in Elast. by rewrite (page_empty _ _ _ Hempty Hroom Elast).
Qed.
End Paging.

(** ** Properties *)

Section FaultFsProperties.
Context {R : Type} `{Rng R} `{Libm} {ES : Type} `{EventSink ES} {HI : Type} `{Histogram HI}.
Context {N : Type} `{NamespaceModel N} {C : Type} `{ContentModel C} {D : Type} `{ReplyDirectory D}.
Context {Errno' : Type} (from_i32 : Z -> Errno').

(** C2: every handler refines the ideal filesystem: with a free slot and no drawn
    fault the reply is exactly the one a filesystem without faults and
    limits would send; a drawn fault is replied as its errno, and a full
    limiter as EAGAIN. The models are never changed. *)
Theorem handle_refines_ideal (self : FaultFs ES HI N C) (req : Request D) clk res r fs' :
  resources (fs_engine self) !! ctx_op (req_ctx self req) = Some res -> counters_ok (limiter res) ->
  handle (R := R) from_i32 self req clk = Replied r fs' ->
  r = (if inflight (state (limiter res)) <? cap (limiter res) then
         match call_fault (R := R) (fs_engine self) res (req_ctx self req) with
         | Some errno => ReplyError (from_i32 errno)
         | None => ideal from_i32 self req
         end
       else ReplyError (from_i32 EAGAIN)) /\
  namespace fs' = namespace self /\ content fs' = content self.
Proof. apply handle_cases. Qed.

(** A read returns exactly the bytes from the offset to the end of the file
    or of the request, whichever comes first, and none past the end: the
    content's bytes, whatever the reply buffer held. *)
Theorem read_reply_length `{!ContentModelLaws C} (self : FaultFs ES HI N C) ino offset size :
  0 <= offset -> 0 <= size ->
  exists bytes, ideal from_i32 self (ReqRead (D := D) ino offset size) = ReplyData bytes /\
    Z.of_nat (length bytes) = Z.max 0 (Z.min (offset + size) (file_len (content self) ino) - offset) /\
    forall buf, length buf = length bytes -> read_at (content self) ino offset buf = bytes.
Proof.
  intros Ho Hs. cbn [ideal]. eexists. split; [done|].
  assert (Hn : readable_len self ino offset size =
               Z.max 0 (Z.min (offset + size) (file_len (content self) ino) - offset)).
  { unfold readable_len. destruct (Z.leb_spec (file_len (content self) ino) offset); lia. }
  rewrite <- Hn. destruct (Z.eqb_spec (readable_len self ino offset size) 0) as [E|Hne].
  - rewrite E. split; [done|]. intros buf Hb. apply nil_length_inv. by rewrite read_at_length.
  - rewrite read_at_length, length_replicate. split; [lia|].
    intros buf Hb. apply read_at_fills. by rewrite Hb, length_replicate.
Qed.
End FaultFsProperties.

Section PagingProperties.
Context {ES HI : Type} {N : Type} `{NamespaceLaws N} {C : Type} {D : Type} `{ReplyDirectoryLaws D}.

(** C23: paging is complete: a client that keeps calling [readdir] with the cookie
    of the last entry it got, into reply buffers of any size that hold at
    least one entry, receives every entry of the directory exactly once and
    in order, and stops. *)
Theorem readdir_paging_complete (self : FaultFs ES HI N C) ino fresh es :
  ns_wf (namespace self) -> listing (namespace self) ino = Some es ->
  dir_entries fresh = [] ->
  (forall e, (dir_add fresh (ent_ino e) (ent_off e) (file_type (ent_kind e)) (ent_name e)).1 = false) ->
  list_directory (S (length es)) self ino 0 fresh = Some (page_entry <$> es).
Proof.
  intros Hwf Hl Hempty Hroom.
  rewrite (list_directory_after (S (length es)) self ino 0 fresh es); try done.
  - by rewrite (increasing_after 0) by (done || by eapply listing_increasing).
  - apply Nat.lt_succ_r. apply length_filter.
Qed.
End PagingProperties.

Section FsyncProperties.
Context {R : Type} `{RngLaws R} `{Libm} {ES : Type} `{EventSink ES} {HI : Type} `{Histogram HI}.
Context {N : Type} `{NamespaceModel N} {D : Type} `{ReplyDirectory D}.
Context {Errno' : Type} (from_i32 : Z -> Errno').

(** Fsync-isolated faults: with a certain ENOSPC rule on [fsync] and none on
    [write], every admitted write acknowledges its full length and every
    admitted fsync of the same inode replies ENOSPC. *)
Theorem fsync_fault_isolated (self : FaultFs ES HI N DeterministicContent.t) ino offset bytes clk clk'
    resW resF rate rW fsW rF fsF :
  resources (fs_engine self) !! Write = Some resW -> faults (policy resW) = [] ->
  size_tier (policy resW) = None -> counters_ok (limiter resW) ->
  inflight (state (limiter resW)) < cap (limiter resW) ->
  resources (fs_engine self) !! Fsync = Some resF ->
  faults (policy resF) = [{| rule_op := Fsync; rule_errno := ENOSPC; rule_rate := rate |}] ->
  f64_le f64_one rate = true -> counters_ok (limiter resF) ->
  inflight (state (limiter resF)) < cap (limiter resF) ->
  Z.of_nat (length bytes) < 2 ^ 32 ->
  handle (R := R) (D := D) from_i32 self (ReqWrite ino offset bytes) clk = Replied rW fsW ->
  handle (R := R) (D := D) from_i32 self (ReqFsync ino) clk' = Replied rF fsF ->
  rW = ReplyWritten (Z.of_nat (length bytes)) /\ rF = ReplyError (from_i32 ENOSPC).
Proof.
  intros HW HfW HtW HokW HltW HF HfF Hrate HokF HltF Hlen EW EF.
  apply (handle_cases from_i32 self _ _ resW) in EW as [-> _]; [|done..].
  apply (handle_cases from_i32 self _ _ resF) in EF as [-> _]; [|done..].
  apply Z.ltb_lt in HltW, HltF. rewrite HltW, HltF. split.
  - unfold call_fault, select_tier. cbn [req_ctx data ctx_op is_data_op]. rewrite HtW, HfW. cbn.
    unfold wrap32. by rewrite Z.mod_small by lia.
  - unfold call_fault, select_tier. cbn [req_ctx metadata ctx_op is_data_op fst snd]. rewrite HfF.
    by rewrite sample_fault_certain.
Qed.
End FsyncProperties.

(** ** Witnesses *)

(** A reply buffer of two entries. *)
Definition two_slots : Type := list (Z * Z * FileType * string).

#[export] Instance two_slots_reply : ReplyDirectory two_slots :=
  {| dir_add := fun d ino off ft name =>
       if (length d <? 2)%nat then (false, d ++ [(ino, off, ft, name)]) else (true, d) |}.

#[export] Instance two_slots_laws : ReplyDirectoryLaws two_slots.
Proof.
  refine {| dir_entries := fun d => d |}. intros d ino off ft name.
  unfold dir_add, two_slots_reply. by destruct (length d <? 2)%nat.
Defined.

Definition fsync_policy : OpPolicy :=
  {| concurrency_cap := 2; Config.queue_cap := 0; latency := fixed_latency 7; bandwidth := None;
     faults := [{| rule_op := Fsync; rule_errno := ENOSPC; rule_rate := f64_one |}]; size_tier := None |}.

Definition fsync_config : Config :=
  {| seed := 42; mount := default_MountConfig; files := default_FilesConfig;
     ops := {[Fsync := fsync_policy]}; Config.metrics := default_MetricsConfig |}.

Definition demo_fs : FaultFs (list Event) (list Z) FlatObjectNamespace.t DeterministicContent.t :=
  fs_new (engine_new fsync_config [] (fun _ => (0, 0))) five_files (DeterministicContent.new 42 4096).

Abbreviation demo_handle := (handle (R := unit) (D := two_slots) (fun e : Z => e) demo_fs).

Definition demo_after (req : Request two_slots) :
    FaultFs (list Event) (list Z) FlatObjectNamespace.t DeterministicContent.t :=
  match demo_handle req demo_clock with
  | Replied _ fs | HandlerBlocks fs | HandlerPanics fs => fs
  end.

(** A handled request is known by its reply. *)
Lemma demo_replied req r :
  match demo_handle req demo_clock with Replied r _ => Some r | _ => None end = Some r ->
  demo_handle req demo_clock = Replied r (demo_after req).
Proof. unfold demo_after. by destruct (demo_handle req demo_clock); [intros [= ->]|..]. Qed.

Lemma policy_limiter_ok p : is_u64 (concurrency_cap p) -> is_u64 (Config.queue_cap p) ->
  counters_ok (limiter (build_resources p 0 0)).
Proof. unfold counters_ok, is_u64. cbn. lia. Qed.

Lemma demo_resources op :
  resources (fs_engine demo_fs) !! op =
  Some (build_resources (match op with Fsync => fsync_policy | _ => default_OpPolicy end) 0 0).
Proof.
  change (fs_engine demo_fs) with (engine_new (HI := list Z) fsync_config ([] : list Event) (fun _ => (0, 0))).
  rewrite engine_new_resources. by destruct op.
Qed.

Lemma demo_default_ok : counters_ok (limiter (build_resources default_OpPolicy 0 0)).
Proof. by apply policy_limiter_ok; vm_compute. Qed.

Lemma demo_fsync_ok : counters_ok (limiter (build_resources fsync_policy 0 0)).
Proof. by apply policy_limiter_ok; vm_compute. Qed.

Lemma demo_getattr_run :
  demo_handle (ReqGetAttr 7) demo_clock = Replied (ReplyError ENOENT) (demo_after (ReqGetAttr 7)).
Proof. apply demo_replied. by vm_compute. Qed.

Lemma demo_write_run :
  demo_handle (ReqWrite 100 0 [1; 2; 3]) demo_clock =
  Replied (ReplyWritten 3) (demo_after (ReqWrite 100 0 [1; 2; 3])).
Proof. apply demo_replied. by vm_compute. Qed.

Lemma demo_fsync_run :
  demo_handle (ReqFsync 100) demo_clock = Replied (ReplyError ENOSPC) (demo_after (ReqFsync 100)).
Proof. apply demo_replied. by vm_compute. Qed.

Lemma handle_refines_ideal_witness :
  ideal (fun e : Z => e) demo_fs (ReqGetAttr (D := two_slots) 7) = ReplyError ENOENT /\
  (inflight (state (limiter (build_resources default_OpPolicy 0 0))) <? 128) = true.
Proof.
  pose proof (handle_refines_ideal (R := unit) (fun e : Z => e) demo_fs (ReqGetAttr 7) demo_clock
    (build_resources default_OpPolicy 0 0) (ReplyError ENOENT) (demo_after (ReqGetAttr 7))
    (demo_resources GetAttr) demo_default_ok demo_getattr_run) as [Hr _].
  split; [symmetry; exact Hr|reflexivity].
Defined.

Lemma read_reply_length_witness :
  exists bytes, ideal (fun e : Z => e) demo_fs (ReqRead (D := two_slots) 100 4000 200) = ReplyData bytes /\
    Z.of_nat (length bytes) = 96.
Proof.
  destruct (read_reply_length (D := two_slots) (fun e : Z => e) demo_fs 100 4000 200) as (bytes & Hi & Hl & _);
    [lia|lia|]. exists bytes. by split.
Defined.

Lemma readdir_paging_complete_witness :
  exists es, list_directory 8 demo_fs FlatObjectNamespace.OBJECTS_INO 0 ([] : two_slots) = Some (page_entry <$> es) /\
    length es = 7%nat.
Proof.
  eexists. split.
  - refine (readdir_paging_complete demo_fs FlatObjectNamespace.OBJECTS_INO ([] : two_slots) _ five_files_wf eq_refl eq_refl _).
    by intros.
  - by vm_compute.
Defined.

Lemma fsync_fault_isolated_witness :
  exists rW fsW rF fsF,
    demo_handle (ReqWrite 100 0 [1; 2; 3]) demo_clock = Replied rW fsW /\
    demo_handle (ReqFsync 100) demo_clock = Replied rF fsF /\
    rW = ReplyWritten 3 /\ rF = ReplyError ENOSPC.
Proof.
  do 4 eexists. split; [exact demo_write_run|]. split; [exact demo_fsync_run|].
  exact (fsync_fault_isolated (R := unit) (fun e : Z => e) demo_fs 100 0 [1; 2; 3] demo_clock demo_clock
    (build_resources default_OpPolicy 0 0) (build_resources fsync_policy 0 0) f64_one _ _ _ _
    (demo_resources Write) eq_refl eq_refl demo_default_ok eq_refl (demo_resources Fsync) eq_refl eq_refl
    demo_fsync_ok eq_refl eq_refl demo_write_run demo_fsync_run).
Defined.
