(* ===== verification/Serving.v ===== *)
(** * Requests on many threads

    The handlers of [fusecraft-fuser/src/lib.rs] when the kernel's requests
    are served by any number of threads at once: a thread takes a request,
    follows the steps of [run_op] of the file EngineSteps with the handler's
    context and closure, and sends the reply when [run_op] returns. However
    the threads interleave, every reply is the ideal filesystem's, the drawn
    errno, or EAGAIN, and every request is answered once, unless its thread
    panics, which takes a bandwidth profile. *)

From stdpp Require Import base list numbers gmap strings.
From Stdlib Require Import ZArith Lia Bool.

From S2P Require Import Prelude Word Float Binary64 Time Op Concurrency Config SampleKey Sampler.
From S2P Require Import Content Namespace Bandwidth Metrics Events Engine EngineSteps EngineDecisions FaultFs.

Local Open Scope Z_scope.

(** ** A handler as one closure *)

Section Closures.
Context {R : Type} `{Rng R} `{Libm} {ES : Type} `{EventSink ES} {HI : Type} `{Histogram HI}.
Context {N : Type} `{NamespaceModel N} {C : Type} `{ContentModel C} {D : Type} `{ReplyDirectory D}.
Context {Errno' : Type} (from_i32 : Z -> Errno').

Abbreviation fault_fs := (FaultFs ES HI N C).
Abbreviation request := (Request D).
Abbreviation reply := (Reply D Errno').

(** The closure a handler passes to [run_op], with what the handler makes of
    its value. *)
Definition req_body (self : fault_fs) (req : request) : result reply FsError :=
  match req with
  | ReqLookup parent name =>
      result_map (fun spec => ReplyEntry (entry_ttl self) (attr_from_spec spec) 0) (lookup_body self parent name)
  | ReqGetAttr ino => result_map (fun spec => ReplyAttr (attr_ttl self) (attr_from_spec spec)) (getattr_body self ino)
  | ReqOpen _ => Ok (ReplyOpened 0 0)
  | ReqRead ino offset size =>
      result_map ReplyData (read_body self ino offset (readable_len self ino offset size))
  | ReqWrite ino offset bytes => result_map ReplyWritten (write_body self ino offset bytes)
  | ReqFlush _ | ReqRelease _ | ReqFsync _ => Ok ReplyOk
  | ReqReaddir ino offset d =>
      result_map (fun entries => ReplyDir (reply_entries entries d)) (readdir_body self ino offset)
  | ReqStatfs _ => Ok (ReplyStatfs 1000000 1000000 1000000 1000000 1000000 4096 255 4096)
  | ReqAccess ino => result_map (fun _ => ReplyOk) (access_body self ino)
  end.

(** [run_op] does not look at the value of its closure. *)
Definition end_map {T U E W} (f : T -> U) (r : run_end T E W) : run_end U E W :=
  match r with
  | RunReturns r e w => RunReturns (result_map f r) e w
  | RunBlocks e => RunBlocks e
  | RunPanics e w => RunPanics e w
  end.

Lemma run_op_map {T U} (f : T -> U) (e : SimEngine ES HI) ctx (body : result T FsError) clk :
  run_op (R := R) (W := unit) e ctx (fun w => (result_map f body, w)) tt clk =
  end_map f (run_op (R := R) (W := unit) e ctx (fun w => (body, w)) tt clk).
Proof.
  unfold run_op. destruct (begin_op e ctx (t_start clk)) as [fr e1].
  destruct (resources e1 !! ctx_op ctx); [|done]. destruct (acquire_enter _ _) as [[] l]; [|done..].
  unfold run_admitted. destruct (draw_op _ _ _ _) as [d e2]. destruct (sleep_for d); [|done].
  unfold exec_body. destruct (drawn_fault d); [done|]. cbn [end_map]. unfold finish_op, outcome_of.
  by destruct body.
Qed.

Lemma handle_closure (self : fault_fs) req clk :
  handle (R := R) from_i32 self req clk =
  respond (R := R) from_i32 self (req_ctx self req) (req_body self req) (fun r => r) clk.
Proof.
  assert (Hgen : forall T (body : result T FsError) (ok : T -> reply) ctx,
    respond (R := R) from_i32 self ctx body ok clk =
    respond (R := R) from_i32 self ctx (result_map ok body) (fun r => r) clk).
  { intros T body ok ctx. unfold respond. rewrite run_op_map.
    by destruct (run_op _ _ _ _ _) as [[]| |]. }
  destruct req; cbn [handle req_body req_ctx]; unfold handle_lookup, handle_getattr, handle_open, handle_read,
    handle_write, handle_flush, handle_release, handle_fsync, handle_readdir, handle_statfs, handle_access;
    by rewrite Hgen.
Qed.

Lemma req_body_ideal (self : fault_fs) (req : request) :
  reply_result from_i32 (req_body self req) (fun r => r) = ideal from_i32 self req.
Proof.
  destruct req; cbn [ideal req_body]; try done;
    unfold lookup_body, getattr_body, read_body, write_body, readdir_body, access_body, ok_or;
    repeat case_match; simplify_eq/=; done.
Qed.
End Closures.

(** ** The server *)

Section Phases.
Context {T W : Type}.

(** The call a thread is in. *)
Definition phase_call (p : op_phase T W) : option (Running T W) :=
  match p with
  | Ready => None
  | Entering c | Queued c _ | Notified c _ | Rejected c _ | RejectEmitted c _ _ | Granted c _ | Sleeping c _ _
  | Finished c _ _ _ | Emitted c _ _ _ | Recorded c _ _ | Unwinding c _ | Panicked c => Some c
  end.

(** What an event tells of its call, but for the durations: the number, the
    context and the result. *)
Definition EventKey : Type := Z * FsOp * Z * Z * Z * Outcome * option Z.

Definition event_key (ev : Event) : EventKey :=
  (ev_seq ev, ev_op ev, ev_ino ev, ev_offset ev, ev_len ev, ev_outcome ev, ev_errno ev).

Definition call_key {X} (seq : Z) (ctx : OpContext) (r : result X FsError) : EventKey :=
  (seq, ctx_op ctx, ctx_ino ctx, ctx_offset ctx, ctx_len ctx, (outcome_of r).1, (outcome_of r).2).

Definition frame_key {X} (f : OpFrame) (r : result X FsError) : EventKey := call_key (fr_seq f) (fr_ctx f) r.

(** What a thread has told the sink of a call it has not returned from. *)
Definition told (p : op_phase T W) : list EventKey :=
  match p with
  | RejectEmitted c err _ => [frame_key (X := T) (run_frame c) (Err err)]
  | Emitted c _ _ r | Recorded c _ r => [frame_key (run_frame c) r]
  | _ => []
  end.

Lemma told_result p c r :
  phase_call p = Some c -> call_result p = Some r -> told p = [frame_key (run_frame c) r].
Proof. destruct p; try done; cbn; by intros [= ->] [= <-]. Qed.

Lemma told_after_section (c : Running T W) r : told (after_section c r) = [].
Proof. by destruct r. Qed.

Lemma told_notify op (ts ts' : list (op_phase T W)) : notify_op op ts ts' -> ts' ≫= told = ts ≫= told.
Proof. intros [|ts0 i c start Hi _]; [done|]. by eapply bind_insert_same. Qed.
End Phases.

Section Server.
Context {R : Type} `{Rng R} `{Libm} {ES : Type} `{EventSink ES} {HI : Type} `{Histogram HI}.
Context {N : Type} `{NamespaceModel N} {C : Type} `{ContentModel C} {D : Type} `{ReplyDirectory D}.
Context {Errno' : Type} (from_i32 : Z -> Errno').

Abbreviation fault_fs := (FaultFs ES HI N C).
Abbreviation request := (Request D).
Abbreviation reply := (Reply D Errno').
Abbreviation shared := (Shared ES HI reply unit).

(** The models and lifetimes of the filesystem; its engine is the shared one. *)
Context (fs : fault_fs).

Record Answer : Type := {
  ans_req : request;
  ans_seq : Z;
  ans_result : result reply FsError
}.

Definition ans_reply (a : Answer) : reply := reply_result from_i32 (ans_result a) (fun r => r).

(** What an event should say of an answered request. *)
Definition answer_key (a : Answer) : EventKey :=
  call_key (ans_seq a) (req_ctx fs (ans_req a)) (ans_result a).

(** The engine's threads, the request each of them works on, and the history:
    requests received and replies sent, in order. *)
Record Server : Type := {
  threads_of : shared;
  jobs : gmap nat request;
  received : list request;
  answers : list Answer
}.

Inductive sstep : label -> Server -> Server -> Prop :=
| s_request s i req now f e js rs out :
    ops_in s !! i = Some Ready -> begin_op (eng s) (req_ctx fs req) now = (f, e) ->
    sstep Call {| threads_of := s; jobs := js; received := rs; answers := out |}
      {| threads_of :=
           {| eng := e; world := world s;
              ops_in := <[i := Entering {| run_frame := f; run_body := fun w => (req_body fs req, w) |}]> (ops_in s);
              begun := begun s + 1; log := log s; samples := samples s |};
         jobs := <[i := req]> js; received := rs ++ [req]; answers := out |}
| s_work a s s' js rs out :
    estep (R := R) a s s' -> a <> Call ->
    (forall i p, ops_in s !! i = Some p -> is_Some (call_result p) -> ops_in s' !! i = Some p) ->
    sstep a {| threads_of := s; jobs := js; received := rs; answers := out |}
      {| threads_of := s'; jobs := js; received := rs; answers := out |}
| s_reply s s' i p c r req js rs out :
    estep (R := R) Settle s s' ->
    ops_in s !! i = Some p -> phase_call p = Some c -> call_result p = Some r -> ops_in s' !! i = Some Ready ->
    js !! i = Some req ->
    sstep Settle {| threads_of := s; jobs := js; received := rs; answers := out |}
      {| threads_of := s'; jobs := delete i js; received := rs;
         answers := out ++ [{| ans_req := req; ans_seq := fr_seq (run_frame c);
                               ans_result := r |}] |}.

Definition s_initial (config : Config) (sink : ES) (nows : FsOp -> Instant * Instant) (n : nat) : Server :=
  {| threads_of := e_initial config sink nows tt n; jobs := ∅; received := []; answers := [] |}.

Definition server_reachable (config : Config) (sink : ES) (nows : FsOp -> Instant * Instant) (sv : Server) : Prop :=
  exists n, steps (fun sv sv' => exists a, sstep a sv sv') (s_initial config sink nows n) sv.

(** The requests not answered yet. *)
Definition pending (sv : Server) : list request := (map_to_list (jobs sv)).*2.

(** ** The server runs the engine *)

Lemma sstep_estep a sv sv' : sstep a sv sv' -> estep (R := R) a (threads_of sv) (threads_of sv').
Proof. destruct 1; cbn [threads_of]; try done. by apply (e_begin s i (req_ctx fs req) _ now). Qed.

(** Steps on other threads leave a call alone but for a notification. *)
Lemma notify_op_call op (ts ts' : list (op_phase reply unit)) j p' :
  notify_op op ts ts' -> ts' !! j = Some p' ->
  exists p, ts !! j = Some p /\ phase_call p' = phase_call p /\ (is_Some (call_result p) -> p' = p).
Proof.
  intros [ts0 _|ts0 i c start Hi _] Hj; [by exists p'|].
  apply list_lookup_insert_Some in Hj as [(<- & <- & _)|[_ Hj]]; [|by exists p'].
  exists (Queued c start). split_and!; [done|done|]. by intros [r Hr].
Qed.

Lemma notify_op_keeps op (ts ts' : list (op_phase reply unit)) (i : nat) (p : op_phase reply unit) :
  notify_op op ts ts' -> ts !! i = Some p -> (forall c start, p <> Queued c start) -> ts' !! i = Some p.
Proof.
  intros [ts0 _|ts0 k c start Hk _] Hi Hp; [done|]. destruct (decide (k = i)) as [->|Hne].
  - simplify_eq. by destruct (Hp c start).
  - by rewrite list_lookup_insert_ne.
Qed.

(** A thread that leaves its call, and the notification it may give. *)
Lemma leave_call op (ts ts' : list (op_phase reply unit)) (i : nat) (p p' : op_phase reply unit) :
  ts !! i = Some p -> notify_op op (<[i := p']> ts) ts' -> (forall c start, p' <> Queued c start) ->
  ts' !! i = Some p' /\
  forall j q', j <> i -> ts' !! j = Some q' ->
    exists q, ts !! j = Some q /\ phase_call q' = phase_call q /\ (is_Some (call_result q) -> q' = q).
Proof.
  intros Hi Hn Hp'. split.
  - eapply notify_op_keeps; [exact Hn| |exact Hp']. apply list_lookup_insert_eq. by eapply lookup_lt_Some.
  - intros j q' Hj Hq'. destruct (notify_op_call _ _ _ _ _ Hn Hq') as (q & Hq & Hrest).
    rewrite list_lookup_insert_ne in Hq by done. by exists q.
Qed.

Lemma after_section_call (c : Running reply unit) r : phase_call (after_section c r) = Some c.
Proof. by destruct r. Qed.

(** What the threads have told, when one of them moves. *)
Lemma told_insert (ts : list (op_phase reply unit)) i p p' :
  ts !! i = Some p -> (<[i := p']> ts ≫= told) ++ told p ≡ₚ (ts ≫= told) ++ told p'.
Proof. intros Hi. rewrite !(Permutation_app_comm (_ ≫= _)). by apply bind_insert. Qed.

(** A step that starts no call moves one thread: it stays in its call and tells
    what the step emits, or leaves its call with a result. *)
Lemma estep_calls a (s s' : shared) :
  estep (R := R) a s s' -> a <> Call ->
  exists i p p' evs, ops_in s !! i = Some p /\ ops_in s' !! i = Some p' /\ log s' = log s ++ evs /\
    (ops_in s' ≫= told) ++ told p ≡ₚ (ops_in s ≫= told) ++ told p' /\
    (phase_call p' = phase_call p /\ call_result p = None /\ p' <> Ready /\ told p' = told p ++ (event_key <$> evs)
     \/ p' = Ready /\ is_Some (call_result p) /\ is_Some (phase_call p) /\ a = Settle /\ evs = []) /\
    forall j q', j <> i -> ops_in s' !! j = Some q' ->
      exists q, ops_in s !! j = Some q /\ phase_call q' = phase_call q /\ (is_Some (call_result q) -> q' = q).
Proof.
  intros Hs Hne. destruct Hs as [s i ctx body now f e Hi E|s i c res now r l Hi Hres E|s i c start Hi
                |s i c start res now r l Hi Hres E|s i c err now unix Hi|s i c err us Hi
                |s i c w res now d e Hi Hres E|s i c w d r w' Hi E|s i c w d r clk Hi|s i c w us r Hi
                |s i c w r ts Hi Hn|s i c w ts Hi Hn]; [done|..];
    (exists i; do 2 eexists; pose proof (lookup_lt_Some _ _ _ Hi) as Hlt;
     cbn [ops_in log set_thread set_threads with_event with_sample];
     match goal with
     | |- context [log s ++ [?ev]] => exists [ev]
     | _ => exists []; rewrite app_nil_r
     end; split; [exact Hi|]).
  1-9: split; [by apply list_lookup_insert_eq|]; split; [done|]; split; [by apply told_insert|]; split;
    [|intros j q' Hj; rewrite list_lookup_insert_ne by done; intros Hq; by exists q'].
  10-11: pose proof Hn as Htold%told_notify; rewrite Htold;
    (destruct (leave_call _ _ _ _ _ _ Hi Hn) as [Hi' Hj]; [done|]);
    (split; [exact Hi'|]); (split; [done|]); (split; [by apply told_insert|]); (split; [|exact Hj]).
  - left. rewrite after_section_call, told_after_section. by destruct r.
  - by left.
  - left. rewrite after_section_call, told_after_section. by destruct r.
  - by left.
  - right. split_and!; [done|by eexists|by eexists|done|done].
  - left. by destruct (sleep_for d).
  - by left.
  - by left.
  - by left.
  - right. split_and!; [done|by eexists|by eexists|done|done].
  - by left.
Qed.

(** A step after which every result is still to be returned: no thread changes
    its call, and the log grows by what is told. *)
Lemma estep_stays a (s s' : shared) :
  estep (R := R) a s s' -> a <> Call ->
  (forall i p, ops_in s !! i = Some p -> is_Some (call_result p) -> ops_in s' !! i = Some p) ->
  (forall j q', ops_in s' !! j = Some q' -> exists q, ops_in s !! j = Some q /\ phase_call q' = phase_call q) /\
  forall out : list EventKey, event_key <$> log s ≡ₚ out ++ (ops_in s ≫= told) ->
    event_key <$> log s' ≡ₚ out ++ (ops_in s' ≫= told).
Proof.
  intros Hst Hne Hkeep.
  destruct (estep_calls _ _ _ Hst Hne) as (i & p & p' & evs & Hi & Hi' & Elog & Htold & Hcase & Hothers).
  destruct Hcase as [(E & _ & _ & Et)|(-> & Hsome & _)]; [split|].
  - intros j q' Hq'. destruct (decide (j = i)) as [->|Hji]; [exists p; by simplify_eq|].
    destruct (Hothers j q' Hji Hq') as (q & Hq & Eq & _). by exists q.
  - intros out Hlog. rewrite Elog, fmap_app, Hlog, <- (assoc_L (++)). f_equiv.
    apply (Permutation_app_inv_r (told p)). rewrite Htold, Et, <- (assoc_L (++)). f_equiv. apply Permutation_app_comm.
  - pose proof (Hkeep i p Hi Hsome). simplify_eq. by destruct Hsome.
Qed.

(** A step by which thread [i] returns: the other threads keep their calls, and
    what it returns has been told. *)
Lemma estep_returns (s s' : shared) i p c r :
  estep (R := R) Settle s s' -> ops_in s !! i = Some p -> phase_call p = Some c -> call_result p = Some r ->
  ops_in s' !! i = Some Ready ->
  (forall j q', j <> i -> ops_in s' !! j = Some q' -> exists q, ops_in s !! j = Some q /\ phase_call q' = phase_call q) /\
  forall out : list EventKey, event_key <$> log s ≡ₚ out ++ (ops_in s ≫= told) ->
    event_key <$> log s' ≡ₚ (out ++ [frame_key (run_frame c) r]) ++ (ops_in s' ≫= told).
Proof.
  intros Hst Hi Hc Hres Hi'.
  destruct (estep_calls _ _ _ Hst ltac:(done)) as (k & q & q' & evs & Hk & Hk' & Elog & Htold & Hcase & Hothers).
  assert (k = i) as ->.
  { destruct (decide (i = k)) as [->|Hne]; [done|]. destruct (Hothers i Ready Hne Hi') as (p0 & Hp0 & _ & Heq).
    simplify_eq. rewrite <- Heq in Hres by eauto. done. }
  assert (q' = Ready) as -> by congruence. assert (q = p) as -> by congruence. split.
  - intros j q1 Hji Hq1. destruct (Hothers j q1 Hji Hq1) as (q0 & Hq0 & E & _). by exists q0.
  - intros out Hlog. destruct Hcase as [(_ & Hnone & _)|(_ & _ & _ & _ & ->)]; [congruence|].
    rewrite app_nil_r in Elog, Htold. rewrite Elog, Hlog, <- Htold, (told_result p c r Hc Hres), <- (assoc_L (++)).
    f_equiv. apply Permutation_app_comm.
Qed.

Lemma estep_length a (s s' : shared) : estep (R := R) a s s' -> length (ops_in s') = length (ops_in s).
Proof.
  assert (Hn : forall op (ts ts' : list (op_phase reply unit)), notify_op op ts ts' -> length ts' = length ts).
  { intros op ts ts' [|]; [done|apply length_insert]. }
  destruct 1; cbn; rewrite ?length_insert; try done;
    match goal with Hnot : notify_op _ _ _ |- _ => apply Hn in Hnot; by rewrite length_insert in Hnot end.
Qed.

Lemma estep_threads a (s s' : shared) i :
  estep (R := R) a s s' -> is_Some (ops_in s !! i) -> is_Some (ops_in s' !! i).
Proof. intros Hs%estep_length. rewrite !lookup_lt_is_Some. by rewrite Hs. Qed.

(** ** The invariant *)

Context (config : Config) (sink : ES) (nows : FsOp -> Instant * Instant).

(** The replies a request may get under a sequence number. *)
Definition allowed (seq : Z) (req : request) (r : reply) : Prop :=
  r = ReplyError (from_i32 EAGAIN) \/
  r = match decided_fault (R := R) config (req_ctx fs req) seq with
      | Some errno => ReplyError (from_i32 errno)
      | None => ideal from_i32 fs req
      end.

Definition answer_ok (a : Answer) : Prop := allowed (ans_seq a) (ans_req a) (ans_reply a).

(** A thread in a call works on its request; an idle one has none. *)
Definition works_on (job : option request) (p : op_phase reply unit) : Prop :=
  match phase_call p with
  | None => job = None
  | Some c => exists req, job = Some req /\ fr_ctx (run_frame c) = req_ctx fs req /\
                run_body c = (fun w => (req_body fs req, w))
  end.

Record serves (sv : Server) : Prop := {
  srv_engine : engine_reachable (R := R) config sink nows tt (threads_of sv);
  srv_jobs : forall i p, ops_in (threads_of sv) !! i = Some p -> works_on (jobs sv !! i) p;
  srv_threads : forall i, is_Some (jobs sv !! i) -> is_Some (ops_in (threads_of sv) !! i);
  srv_received : received sv ≡ₚ (ans_req <$> answers sv) ++ pending sv;
  srv_answers : Forall answer_ok (answers sv);
  srv_log : event_key <$> log (threads_of sv) ≡ₚ (answer_key <$> answers sv) ++ (ops_in (threads_of sv) ≫= told)
}.

Lemma engine_reachable_step a (s s' : shared) :
  engine_reachable (R := R) config sink nows tt s -> estep (R := R) a s s' ->
  engine_reachable (R := R) config sink nows tt s'.
Proof. intros [n Hn] Hs. exists n. eapply steps_trans; [exact Hn|]. apply steps_one. by exists a. Qed.

(** What a call returns answers its request. *)
Lemma returned_ok (s : shared) i p c r req :
  engine_reachable (R := R) config sink nows tt s ->
  ops_in s !! i = Some p -> phase_call p = Some c -> call_result p = Some r -> works_on (Some req) p ->
  answer_ok {| ans_req := req; ans_seq := fr_seq (run_frame c); ans_result := r |}.
Proof.
  intros Hr Hi Hc Hres Hw. pose proof (dec_phase _ _ (reachable_decided _ _ _ _ _ Hr) i p Hi) as Hp.
  unfold works_on in Hw. rewrite Hc in Hw. destruct Hw as (req' & [= <-] & Hctx & Hbody).
  unfold answer_ok, allowed, ans_reply. cbn [ans_result ans_req ans_seq].
  destruct p; try done; cbn in Hc, Hres, Hp; simplify_eq.
  - by left.
  - right. unfold result_decided in Hp. rewrite Hctx, Hbody in Hp. destruct (decided_fault _ _ _).
    + by subst.
    + destruct Hp as [w ->]. apply req_body_ideal.
Qed.

Lemma pending_insert js i req :
  js !! i = None -> (map_to_list (<[i := req]> js : gmap nat request)).*2 ≡ₚ req :: (map_to_list js).*2.
Proof. intros Hi. by rewrite map_to_list_insert. Qed.

Lemma pending_delete js i req :
  js !! i = Some req -> (map_to_list js).*2 ≡ₚ req :: (map_to_list (delete i js : gmap nat request)).*2.
Proof. intros Hi. by rewrite <- (map_to_list_delete js i req Hi). Qed.

Lemma works_on_call job p p' : phase_call p' = phase_call p -> works_on job p -> works_on job p'.
Proof. unfold works_on. by intros ->. Qed.

Lemma serves_step a sv sv' : serves sv -> sstep a sv sv' -> serves sv'.
Proof.
  intros [Hr Hj Ht Hrec Ha Hlog] Hs. pose proof (sstep_estep _ _ _ Hs) as He.
  pose proof (engine_reachable_step _ _ _ Hr He) as Hr'.
  destruct Hs as [s i req now f e js rs out Hi Hb|a s s' js rs out Hst Hne Hkeep|s s' i p c r req js rs out Hst Hi Hc Hres Hi' Hreq];
    split; unfold pending in *; cbn [threads_of jobs received answers] in *; try assumption.
  - intros j p [(<- & <- & _)|[Hne Hp]]%list_lookup_insert_Some; [|rewrite lookup_insert_ne by done; by apply Hj].
    exists req. rewrite lookup_insert_eq. unfold begin_op in Hb. by simplify_eq.
  - intros j Hx. apply (estep_threads _ _ _ j He). destruct (decide (i = j)) as [<-|Hne]; [by exists Ready|].
    rewrite lookup_insert_ne in Hx by done. by apply Ht.
  - rewrite pending_insert by apply (Hj i Ready Hi). rewrite Permutation_app_comm, Hrec. cbn. apply Permutation_middle.
  - cbn [log ops_in]. by rewrite (bind_insert_same told _ _ _ _ Hi).
  - intros j q' Hq'. destruct (proj1 (estep_stays _ _ _ Hst Hne Hkeep) j q' Hq') as (q & Hq & E).
    eapply works_on_call; [exact E|by apply Hj].
  - intros j Hx. eapply estep_threads; [exact Hst|]. by apply Ht.
  - by apply (estep_stays _ _ _ Hst Hne Hkeep).
  - intros j q' Hq'. destruct (decide (j = i)) as [->|Hji].
    + assert (q' = Ready) as -> by congruence. apply lookup_delete_eq.
    + rewrite lookup_delete_ne by done.
      destruct (proj1 (estep_returns _ _ _ _ _ _ Hst Hi Hc Hres Hi') j q' Hji Hq') as (q & Hq & E).
      eapply works_on_call; [exact E|by apply Hj].
  - intros j [x [_ Hx]%lookup_delete_Some]. eapply estep_threads; [exact Hst|]. apply Ht. by exists x.
  - rewrite Hrec, (pending_delete _ _ _ Hreq), fmap_app, <- (assoc_L (++)). done.
  - apply Forall_app. split; [exact Ha|]. apply Forall_singleton. apply (returned_ok s i p c r req Hr Hi Hc Hres).
    rewrite <- Hreq. by apply Hj.
  - pose proof (Hj i p Hi) as Hw. unfold works_on in Hw. rewrite Hc, Hreq in Hw. destruct Hw as (req' & [= <-] & Hctx & _).
    rewrite fmap_app. cbn [fmap list_fmap]. unfold answer_key at 2. cbn [ans_seq ans_req ans_result]. rewrite <- Hctx.
    by apply (estep_returns _ _ _ _ _ _ Hst Hi Hc Hres Hi').
Qed.

Lemma reachable_serves sv : server_reachable config sink nows sv -> serves sv.
Proof.
  intros [n Hn]. eapply (steps_invariant _ serves); [|clear Hn|exact Hn].
  { intros sv1 sv2 Hs [a Ha]. by eapply serves_step. }
  split; unfold pending; cbn [threads_of jobs received answers s_initial].
  - exists n. apply steps_refl.
  - by intros i p [-> _]%lookup_replicate.
  - by intros i [x Hx].
  - by rewrite map_to_list_empty.
  - done.
  - symmetry. apply Permutation_nil_r, bind_nil. by intros i p [-> _]%lookup_replicate.
Qed.

(** ** The specification the server implements

    A filesystem that has no threads, engine or clock: it is asked, and later
    replies to one of the requests it was asked, with a reply that is allowed. *)

Record Ideal : Type := { asked : list request; replied : list (request * reply) }.

Inductive ideal_step : Ideal -> Ideal -> Prop :=
| ideal_ask req l out : ideal_step {| asked := l; replied := out |} {| asked := l ++ [req]; replied := out |}
| ideal_reply l1 l2 req seq r out :
    allowed seq req r ->
    ideal_step {| asked := l1 ++ req :: l2; replied := out |} {| asked := l1 ++ l2; replied := out ++ [(req, r)] |}.

Definition ideal_start : Ideal := {| asked := []; replied := [] |}.

(** The requests in work, in any order, and the replies sent, in theirs. *)
Definition implements (sv : Server) (sp : Ideal) : Prop :=
  asked sp ≡ₚ pending sv /\ replied sp = (fun a => (ans_req a, ans_reply a)) <$> answers sv.

Lemma implements_step a sv sv' sp :
  serves sv -> sstep a sv sv' -> implements sv sp ->
  exists sp', (sp' = sp \/ ideal_step sp sp') /\ implements sv' sp'.
Proof.
  intros Hs Hst [Hask Hrep]. pose proof (srv_answers _ (serves_step _ _ _ Hs Hst)) as Hok.
  unfold implements, pending in *.
  destruct Hst as [s i req now f e js rs out Hi Hb|a s s' js rs out Hst Hne Hkeep|s s' i p c r req js rs out Hst Hi Hc Hres Hi' Hreq];
    cbn [jobs answers] in *; destruct sp as [l sent]; cbn [asked replied] in *.
  - exists {| asked := l ++ [req]; replied := sent |}. split; [right; constructor|]. split; [|exact Hrep]. cbn [asked].
    rewrite pending_insert by apply (srv_jobs _ Hs i Ready Hi). by rewrite Hask, Permutation_app_comm.
  - exists {| asked := l; replied := sent |}. split; [by left|done].
  - rewrite (pending_delete _ _ _ Hreq) in Hask.
    assert (Hin : req ∈ l) by (rewrite Hask; apply elem_of_cons; by left).
    apply list_elem_of_split in Hin as (l1 & l2 & ->).
    apply Forall_app in Hok as [_ Hok]. rewrite Forall_singleton in Hok.
    eexists. split; [right; by apply (ideal_reply l1 l2 req _ _ sent Hok)|]. split; cbn [asked replied].
    + apply (Permutation_cons_inv (a := req)). rewrite <- Hask. apply Permutation_middle.
    + by rewrite Hrep, fmap_app.
Qed.

Lemma reachable_implements sv :
  server_reachable config sink nows sv -> exists sp, steps ideal_step ideal_start sp /\ implements sv sp.
Proof.
  intros [n Hn].
  refine (proj2 (steps_invariant _ (fun sv => serves sv /\ exists sp, steps ideal_step ideal_start sp /\ implements sv sp)
    _ _ _ _ Hn)).
  - intros sv1 sv2 (Hs & sp & Hsp & Him) [a Ha]. split; [by eapply serves_step|].
    destruct (implements_step _ _ _ _ Hs Ha Him) as (sp' & [->|Hstep] & Him'); [by exists sp|].
    exists sp'. split; [|done]. eapply steps_trans; [exact Hsp|by apply steps_one].
  - split; [apply reachable_serves; exists n; apply steps_refl|]. exists ideal_start.
    split; [apply steps_refl|]. split; [|done]. unfold pending. cbn. by rewrite map_to_list_empty.
Qed.

(** Answers carry distinct numbers. *)
Lemma answers_distinct sv :
  serves sv -> begun (threads_of sv) <= 2 ^ 64 -> NoDup (ans_seq <$> answers sv).
Proof.
  intros Hs Hle. pose proof (history_distinct _ _ (reachable_history _ _ _ _ _ (srv_engine _ Hs)) Hle) as Hnd.
  apply NoDup_app in Hnd as [Hnd _].
  set (key_seq := fun k : EventKey => let '(n, _, _, _, _, _, _) := k in n).
  rewrite (list_fmap_ext ev_seq (key_seq ∘ event_key)) in Hnd by done.
  rewrite list_fmap_compose, (srv_log _ Hs), fmap_app, <- list_fmap_compose in Hnd.
  by apply NoDup_app in Hnd as [Hnd _].
Qed.

(** Every step of the engine that starts no call is a step of the server. *)
Lemma estep_sstep sv (s' : shared) :
  serves sv -> estep (R := R) Settle (threads_of sv) s' -> exists sv', sstep Settle sv sv'.
Proof.
  destruct sv as [s js rs out]. intros [_ Hj _ _ _] Hs. cbn [threads_of jobs] in *.
  destruct (estep_calls _ _ _ Hs ltac:(done)) as (i & p & p' & evs & Hi & Hi' & Elog & Htold & Hcase & Hothers).
  destruct Hcase as [(_ & Hnone & _)|(-> & [r Hr] & [c Hc] & _)].
  - eexists. apply (s_work Settle s s'); [exact Hs|done|]. intros j q Hq Hsome.
    destruct (decide (j = i)) as [->|Hji].
    + assert (q = p) as -> by congruence. rewrite Hnone in Hsome. by destruct Hsome.
    + destruct (estep_threads _ _ _ j Hs (mk_is_Some _ _ Hq)) as [q' Hq'].
      destruct (Hothers j q' Hji Hq') as (q0 & Hq0 & _ & Heq). assert (q0 = q) as -> by congruence.
      by rewrite <- (Heq Hsome).
  - pose proof (Hj i p Hi) as Hw. unfold works_on in Hw. rewrite Hc in Hw. destruct Hw as (req & Hreq & _).
    eexists. by eapply (s_reply s s' i p c r req).
Qed.

Lemma ssteps_esteps n sv sv' :
  nsteps (sstep Settle) n sv sv' ->
  nsteps (estep (R := R) Settle) n (threads_of sv) (threads_of sv') /\ received sv' = received sv.
Proof.
  induction 1 as [sv|n sv1 sv2 sv3 Hs _ [IH1 IH2]]; [by split; [apply nsteps_O|]|]. split.
  - eapply nsteps_l; [by eapply sstep_estep|exact IH1].
  - rewrite IH2. by inversion Hs.
Qed.

Lemma server_reachable_settle n sv sv' :
  server_reachable config sink nows sv -> nsteps (sstep Settle) n sv sv' -> server_reachable config sink nows sv'.
Proof.
  intros [k Hk] Hn. exists k. eapply steps_trans; [exact Hk|]. clear Hk.
  induction Hn as [|n sv1 sv2 sv3 Hs _ IH]; [apply steps_refl|]. eapply steps_cons; [by exists Settle|exact IH].
Qed.

(** ** Rest *)

Context (words : config_words config) (caps : forall op, 0 < concurrency_cap (policy_of config op)).

(** A server none of whose threads can go on, without new requests and
    spurious wake-ups. *)
Definition stopped (sv : Server) : Prop := forall sv', ~ sstep Settle sv sv'.

Lemma stopped_rest sv :
  server_reachable config sink nows sv -> stopped sv ->
  forall i p, ops_in (threads_of sv) !! i = Some p -> at_rest p.
Proof.
  intros Hr Hstuck. pose proof (reachable_serves _ Hr) as Hs.
  pose proof (reachable_limits config sink nows tt _ words (srv_engine _ Hs)) as Hl.
  apply (parked_rest (HI := HI) config (threads_of sv) caps Hl).
  intros j q Hq. destruct (parked q) eqn:Hp; [done|].
  destruct (busy_steps (R := R) (threads_of sv) j q) as [s'' Hst]; [|done|done|].
  - intros op. destruct (Hl op) as (l & k & (res & Hres & _) & _). eauto.
  - destruct (estep_sstep _ _ Hs Hst) as [sv'' Hsv]. by destruct (Hstuck sv'').
Qed.

Lemma rest_stopped sv :
  (forall i p, ops_in (threads_of sv) !! i = Some p -> parked p = true) -> stopped sv.
Proof.
  intros Hp sv' Hs%sstep_estep. remember Settle as a eqn:Ea. destruct Hs; try done;
    match goal with Hi : ops_in _ !! _ = Some _ |- _ => by apply Hp in Hi end.
Qed.

(** Some schedule stops. *)
Lemma server_can_finish sv :
  server_reachable config sink nows sv -> exists n sv', nsteps (sstep Settle) n sv sv' /\ stopped sv'.
Proof.
  remember (Z.to_nat (total call_work (ops_in (threads_of sv)))) as m eqn:Em. revert sv Em.
  induction m as [m IH] using lt_wf_ind. intros sv Em Hr.
  destruct (decide (Forall (fun p => parked p = true) (ops_in (threads_of sv)))) as [Hall|Hnot].
  - exists 0%nat, sv. split; [apply nsteps_O|]. apply rest_stopped. by apply Forall_lookup.
  - apply not_Forall_Exists in Hnot; [|apply _]. apply Exists_exists in Hnot as (p & (i & Hi)%list_elem_of_lookup & Hp).
    pose proof (reachable_serves _ Hr) as Hs.
    pose proof (reachable_limits config sink nows tt _ words (srv_engine _ Hs)) as Hl.
    destruct (busy_steps (R := R) (threads_of sv) i p) as [s'' Hst]; [|done|by apply not_true_is_false|].
    { intros op. destruct (Hl op) as (l & k & (res & Hres & _) & _). eauto. }
    destruct (estep_sstep _ _ Hs Hst) as [sv1 Hsv]. pose proof (settle_call_work _ _ (sstep_estep _ _ _ Hsv)) as Hlt.
    pose proof (call_work_nonneg (ops_in (threads_of sv1))).
    assert (Hn1 : nsteps (sstep Settle) 1 sv sv1) by (eapply nsteps_l; [exact Hsv|apply nsteps_O]).
    destruct (IH (Z.to_nat (total call_work (ops_in (threads_of sv1)))) ltac:(lia) sv1 eq_refl
      (server_reachable_settle _ _ _ Hr Hn1)) as (n & sv' & Hn & Hstop).
    exists (S n), sv'. split; [by eapply nsteps_l|exact Hstop].
Qed.

(** Idle threads have no request left, and have returned what they told. *)
Lemma idle_answers sv :
  serves sv -> (forall i p, ops_in (threads_of sv) !! i = Some p -> p = Ready) ->
  received sv ≡ₚ ans_req <$> answers sv /\
  event_key <$> log (threads_of sv) ≡ₚ answer_key <$> answers sv.
Proof.
  intros Hs Hready. split.
  2: { rewrite (srv_log _ Hs), bind_nil, app_nil_r; [done|]. intros i p Hi. by rewrite (Hready i p Hi). }
  rewrite (srv_received _ Hs). unfold pending.
  replace (jobs sv) with (∅ : gmap nat request); [by rewrite map_to_list_empty, app_nil_r|].
  symmetry. apply map_empty. intros i. destruct (jobs sv !! i) as [req|] eqn:E; [|done].
  destruct (srv_threads _ Hs i (mk_is_Some _ _ E)) as [p Hp]. pose proof (srv_jobs _ Hs i p Hp) as Hjob.
  rewrite (Hready i p Hp) in Hjob. cbn in Hjob. congruence.
Qed.

(** Threads at rest: what is not answered is in work on a thread that has
    panicked, in a call of an operation with a bandwidth profile. *)
Lemma stopped_threads sv i p :
  (forall op, latency_words (policy_of config op)) -> server_reachable config sink nows sv -> stopped sv ->
  ops_in (threads_of sv) !! i = Some p ->
  p = Ready \/ exists c, p = Panicked c /\ throttled (policy_of config (run_op_of c)) = true.
Proof.
  intros Hw Hr Hstuck Hi. destruct (stopped_rest sv Hr Hstuck i p Hi) as [->|[c ->]]; [by left|]. right. exists c.
  split; [done|]. apply not_false_is_true. intros Hun%throttled_spec; [|done].
  pose proof (reachable_calm config sink nows tt _ _ Hun (srv_engine _ (reachable_serves _ Hr))) as Hcalm.
  by apply (calm_phases _ _ Hcalm _ _ Hi).
Qed.

Lemma stopped_pending sv :
  (forall op, latency_words (policy_of config op)) -> server_reachable config sink nows sv -> stopped sv ->
  Forall (fun req => throttled (policy_of config (ctx_op (req_ctx fs req))) = true) (pending sv).
Proof.
  intros Hw Hr Hstuck. pose proof (reachable_serves _ Hr) as Hs. unfold pending.
  apply Forall_fmap, Forall_forall. intros [i req] Hin%elem_of_map_to_list. cbn.
  destruct (srv_threads _ Hs i (mk_is_Some _ _ Hin)) as [p Hp]. pose proof (srv_jobs _ Hs i p Hp) as Hjob.
  destruct (stopped_threads sv i p Hw Hr Hstuck Hp) as [->|(c & -> & Hth)]; cbn in Hjob; [congruence|].
  destruct Hjob as (req' & Ereq & Hctx & _). assert (req' = req) as -> by congruence. by rewrite <- Hctx.
Qed.

(** Panicked calls have told the sink nothing. *)
Lemma stopped_log sv :
  server_reachable config sink nows sv -> stopped sv ->
  event_key <$> log (threads_of sv) ≡ₚ answer_key <$> answers sv.
Proof.
  intros Hr Hstuck. rewrite (srv_log _ (reachable_serves _ Hr)), bind_nil, app_nil_r; [done|].
  intros i p Hi. by destruct (stopped_rest sv Hr Hstuck i p Hi) as [->|[c ->]].
Qed.

Lemma stopped_answers sv :
  unthrottled config -> server_reachable config sink nows sv -> stopped sv ->
  (forall i p, ops_in (threads_of sv) !! i = Some p -> p = Ready) /\ received sv ≡ₚ ans_req <$> answers sv /\
  event_key <$> log (threads_of sv) ≡ₚ answer_key <$> answers sv.
Proof.
  intros Hun Hr Hstuck. pose proof (reachable_serves _ Hr) as Hs.
  assert (Hready : forall i p, ops_in (threads_of sv) !! i = Some p -> p = Ready).
  { intros i p Hi. destruct (stopped_rest sv Hr Hstuck i p Hi) as [->|[c ->]]; [done|].
    pose proof (reachable_calm config sink nows tt _ _ (Hun (run_op_of c)) (srv_engine _ Hs)) as Hcalm.
    by destruct (calm_phases _ _ Hcalm _ _ Hi). }
  split; [exact Hready|by apply idle_answers].
Qed.

(** ** Properties *)

(** C3: however the requests of a mounted filesystem interleave on the threads
    that serve them, each reply sent is the one the ideal filesystem sends, or
    the errno of the fault that configuration, request and sequence number
    determine, or EAGAIN; the requests received are, each once, those answered
    and those a thread still works on; the answers carry distinct numbers, up
    to 2^64 of them; and every run is one of the specification, a machine that
    is asked and replies with what is allowed. *)
Theorem server_refines_ideal sv :
  server_reachable config sink nows sv ->
  Forall answer_ok (answers sv) /\ received sv ≡ₚ (ans_req <$> answers sv) ++ pending sv /\
  (begun (threads_of sv) <= 2 ^ 64 -> NoDup (ans_seq <$> answers sv)) /\
  exists sp, steps ideal_step ideal_start sp /\ implements sv sp.
Proof.
  intros Hr. pose proof (reachable_serves sv Hr) as Hs. split_and!; [apply Hs|apply Hs| |by apply reachable_implements].
  by apply answers_distinct.
Qed.

(** C4: every request is answered, or its thread panics: where every operation
    has a slot, from any state the server can reach, without new requests and
    spurious wake-ups, every schedule stops, after at most [call_work] steps.
    When it has stopped, the requests received are, each once, those answered
    and those of threads that have panicked; the panicked calls are of
    operations whose policy has a bandwidth profile, and all other threads are
    idle; the events emitted are, each once, those of the answers: same number,
    operation, inode, offset and length, and the errno that was replied. So
    where no policy has a bandwidth profile every request is answered. *)
Theorem server_answers_all sv n sv' :
  (forall op, latency_words (policy_of config op)) ->
  server_reachable config sink nows sv -> nsteps (sstep Settle) n sv sv' ->
  Z.of_nat n <= total call_work (ops_in (threads_of sv)) /\
  (stopped sv' ->
   (forall i p, ops_in (threads_of sv') !! i = Some p ->
    p = Ready \/ exists c, p = Panicked c /\ throttled (policy_of config (run_op_of c)) = true) /\
   received sv ≡ₚ (ans_req <$> answers sv') ++ pending sv' /\
   Forall (fun req => throttled (policy_of config (ctx_op (req_ctx fs req))) = true) (pending sv') /\
   event_key <$> log (threads_of sv') ≡ₚ answer_key <$> answers sv' /\
   ((forall op, throttled (policy_of config op) = false) -> received sv ≡ₚ ans_req <$> answers sv')).
Proof.
  intros Hw Hr Hn. destruct (ssteps_esteps _ _ _ Hn) as [Hen Erec]. split.
  { pose proof (settle_esteps _ _ _ Hen). pose proof (call_work_nonneg (ops_in (threads_of sv'))). lia. }
  intros Hstuck. rewrite <- Erec. pose proof (server_reachable_settle _ _ _ Hr Hn) as Hr'.
  split_and!; [|apply (srv_received _ (reachable_serves _ Hr'))|by apply stopped_pending|by apply stopped_log|].
  - intros i p. by apply stopped_threads.
  - intros Hun. apply stopped_answers; [|done|done]. intros op. by apply throttled_spec.
Qed.
End Server.

(** ** Witnesses

    Two threads of the filesystem whose fsyncs fail: one takes an fsync, the
    other a write, before either goes on. *)

Abbreviation demo_server := (Server (ES := list Event) (HI := list Z) (D := two_slots) (Errno' := Z)).
Abbreviation demo_step :=
  (fun sv sv' : demo_server => exists a, sstep (R := unit) demo_fs a sv sv').

Definition demo_begin : demo_server := s_initial fsync_config ([] : list Event) (fun _ => (0, 0)) 2.

Lemma demo_taken :
  exists sv : demo_server, server_reachable (R := unit) demo_fs fsync_config [] (fun _ => (0, 0)) sv /\
    received sv = [ReqFsync 100; ReqWrite 100 0 [1; 2; 3]].
Proof.
  eexists. split; [exists 2%nat|].
  - eapply (steps_cons demo_step).
    { exists Call. by apply (s_request _ _ 0 (ReqFsync 100) 0). }
    eapply (steps_cons demo_step); [|apply steps_refl].
    exists Call. by apply (s_request _ _ 1 (ReqWrite 100 0 [1; 2; 3]) 0).
  - done.
Qed.

Lemma fsync_words : config_words fsync_config.
Proof. intros []; vm_compute; done. Qed.

Lemma fsync_caps op : 0 < concurrency_cap (policy_of fsync_config op).
Proof. by destruct op. Qed.

Lemma fsync_unthrottled : unthrottled fsync_config.
Proof. intros []; vm_compute; done. Qed.

Lemma fsync_latency_words op : latency_words (policy_of fsync_config op).
Proof. by destruct op; vm_compute. Qed.

Lemma server_answers_all_witness :
  exists (sv' : demo_server) n, (exists sv, nsteps (sstep (R := unit) demo_fs Settle) n sv sv') /\
    [ReqFsync 100; ReqWrite 100 0 [1; 2; 3]] ≡ₚ ans_req <$> answers sv'.
Proof.
  destruct demo_taken as (sv & Hr & Hrec).
  destruct (server_can_finish (R := unit) (fun e : Z => e) demo_fs fsync_config [] (fun _ => (0, 0))
    fsync_words sv Hr) as (n & sv' & Hn & Hstuck).
  exists sv', n. split; [by exists sv|]. rewrite <- Hrec.
  destruct (server_answers_all (R := unit) (fun e : Z => e) demo_fs fsync_config [] (fun _ => (0, 0))
    fsync_words fsync_caps sv n sv' fsync_latency_words Hr Hn) as [_ Hall].
  destruct (Hall Hstuck) as (_ & _ & _ & _ & Hrecv). apply Hrecv. by intros [].
Defined.

Lemma server_refines_ideal_witness :
  exists sv : demo_server, length (answers sv) = 2%nat /\
    Forall (answer_ok (R := unit) (fun e : Z => e) demo_fs fsync_config) (answers sv).
Proof.
  destruct demo_taken as (sv & Hr & Hrec).
  destruct (server_can_finish (R := unit) (fun e : Z => e) demo_fs fsync_config [] (fun _ => (0, 0))
    fsync_words sv Hr) as (n & sv' & Hn & Hstuck).
  exists sv'. split.
  - rewrite <- (length_fmap ans_req).
    rewrite <- (proj1 (proj2 (stopped_answers (R := unit) (fun e : Z => e) demo_fs fsync_config [] (fun _ => (0, 0))
      fsync_words fsync_caps sv' fsync_unthrottled (server_reachable_settle _ _ _ _ _ _ _ Hr Hn) Hstuck))).
    rewrite (proj2 (ssteps_esteps _ _ _ _ Hn)). by rewrite Hrec.
  - exact (proj1 (server_refines_ideal (R := unit) (fun e : Z => e) demo_fs fsync_config [] (fun _ => (0, 0)) sv'
      (server_reachable_settle _ _ _ _ _ _ _ Hr Hn))).
Defined.
