(* ===== verification/Sessions.v ===== *)
(** * What a client of a mount observes

    The server of the file Serving when its threads fit the slots of every
    operation, as they do on a mount whose fuser session runs one thread: no
    call ever waits or is turned away, so every reply is exactly the one that
    configuration, request and number decide. With one thread the numbers are
    those of the requests' order, and replies and log are a function of the
    requests; a client that lists a directory page by page, beside any other clients,
    gets the listing. *)

From stdpp Require Import base list numbers gmap strings.
From Stdlib Require Import ZArith Lia Bool.

From S2P Require Import Prelude Word Float Binary64 Time Op Concurrency Config SampleKey Sampler.
From S2P Require Import Content Namespace Bandwidth Metrics Events Engine EngineSteps EngineDecisions FaultFs Serving.

Local Open Scope Z_scope.

(** ** Threads that fit the slots *)

Section Uncontended.
Context {R : Type} `{Rng R} `{Libm} {ES : Type} `{EventSink ES} {HI : Type} `{Histogram HI}.
Context {T W : Type} (config : Config).

Abbreviation shared := (Shared ES HI T W).

(** No operation has fewer slots than there are threads. *)
Definition fits (s : shared) : Prop :=
  forall op, Z.of_nat (length (ops_in s)) <= concurrency_cap (policy_of config op).

(** A thread that did not wait for its slot, and has it if it is past the
    limiter. *)
Definition straight (p : op_phase T W) : Prop :=
  match p with
  | Queued _ _ | Notified _ _ | Rejected _ _ | RejectEmitted _ _ _ => False
  | Granted _ w | Sleeping _ w _ | Finished _ w _ _ | Emitted _ w _ _ | Recorded _ w _ | Unwinding _ w =>
      w = DURATION_ZERO
  | Ready | Entering _ | Panicked _ => True
  end.

Record uncontended (s : shared) : Prop := {
  unc_phase : forall i p, ops_in s !! i = Some p -> straight p;
  unc_log : Forall (fun ev => ev_queue_wait_us ev = 0) (log s)
}.

(** A thread that enters the limiter finds a free slot. *)
Lemma slot_free (s : shared) i (c : Running T W) res :
  limits config s -> fits s -> ops_in s !! i = Some (Entering c) -> resources (eng s) !! run_op_of c = Some res ->
  0 <= inflight (state (limiter res)) < cap (limiter res).
Proof.
  intros Hl Hfits Hi Hres. destruct (Hl (run_op_of c)) as (l & n & (res' & Hres' & <-) & Hinv). simplify_eq.
  destruct Hinv as [Hcap _ Hin _ _ _ _ _]. cbn [lim threads project] in *.
  rewrite Hcap, Hin, count_fmap. split; [apply count_nonneg|].
  apply Z.lt_le_trans with (2 := Hfits (run_op_of c)). by eapply count_lt_length.
Qed.

Lemma straight_insert (ts : list (op_phase T W)) i p' :
  (forall i p, ts !! i = Some p -> straight p) -> straight p' ->
  forall j p, <[i := p']> ts !! j = Some p -> straight p.
Proof. intros Hts Hp' j p [(-> & -> & _)|[_ Hj]]%list_lookup_insert_Some; [done|by eapply Hts]. Qed.

Lemma straight_notify op (ts ts' : list (op_phase T W)) :
  (forall i p, ts !! i = Some p -> straight p) -> notify_op op ts ts' -> ts' = ts.
Proof. intros Hts Hn. destruct Hn as [|ts i c start Hi _]; [done|]. by destruct (Hts _ _ Hi). Qed.

Lemma uncontended_step a (s s' : shared) :
  limits config s -> fits s -> estep (R := R) a s s' -> uncontended s -> uncontended s'.
Proof.
  intros Hl Hfits Hs [Hph Hlog]. destruct Hs as [s i ctx body now f e Hi E|s i c res now r l Hi Hres E|s i c start Hi
                |s i c start res now r l Hi Hres E|s i c err now unix Hi|s i c err us Hi
                |s i c w res now d e Hi Hres E|s i c w d r w' Hi E|s i c w d r clk Hi|s i c w us r Hi
                |s i c w r ts Hi Hn|s i c w ts Hi Hn];
    pose proof (Hph _ _ Hi) as Hp; cbn [straight] in Hp; try done;
    split; cbn [ops_in log set_thread set_threads with_event with_sample]; try exact Hlog;
    try (apply straight_insert; [exact Hph|try done]).
  - destruct (slot_free _ _ _ _ Hl Hfits Hi Hres) as [Hnn Hlt]. unfold acquire_enter in E.
    rewrite (proj2 (Z.eqb_neq _ _)), (proj2 (Z.ltb_lt _ _)) in E by lia. by simplify_eq.
  - by destruct (sleep_for d).
  - apply Forall_app. split; [exact Hlog|]. apply Forall_singleton. cbn [ev_queue_wait_us completion_event]. by subst w.
  - apply straight_notify in Hn as ->; by apply straight_insert.
  - apply straight_notify in Hn as ->; by apply straight_insert.
Qed.

Lemma uncontended_initial (sink : ES) nows (w : W) n : uncontended (e_initial config sink nows w n).
Proof. split; [by intros i p [-> _]%lookup_replicate|done]. Qed.
End Uncontended.

(** ** The replies *)

Section Served.
Context {R : Type} `{Rng R} `{Libm} {ES : Type} `{EventSink ES} {HI : Type} `{Histogram HI}.
Context {N : Type} `{NamespaceModel N} {C : Type} `{ContentModel C} {D : Type} `{ReplyDirectory D}.
Context {Errno' : Type} (from_i32 : Z -> Errno').
Context (fs : FaultFs ES HI N C) (config : Config) (sink : ES) (nows : FsOp -> Instant * Instant).
Context (words : config_words config).

Abbreviation server := (Server (ES := ES) (HI := HI) (D := D) (Errno' := Errno')).
Abbreviation answer := (Answer (D := D) (Errno' := Errno')).
Abbreviation reply := (Reply D Errno').
Abbreviation reachable_server := (server_reachable (R := R) fs config sink nows).

(** The reply that a request gets under a number, without a limiter. *)
Definition decided_reply (seq : Z) (req : Request D) : reply :=
  match decided_fault (R := R) config (req_ctx fs req) seq with
  | Some errno => ReplyError (from_i32 errno)
  | None => ideal from_i32 fs req
  end.

Definition exact_answer (a : answer) : Prop := ans_reply from_i32 a = decided_reply (ans_seq a) (ans_req a).

(** Without rules for its operation a request is never refused. *)
Lemma decided_reply_ideal seq req :
  policy_rules (policy_of config (ctx_op (req_ctx fs req))) = [] -> decided_reply seq req = ideal from_i32 fs req.
Proof.
  intros Hnone. unfold decided_reply. destruct (decided_fault _ _ _) as [errno|] eqn:E; [|done].
  apply decided_fault_configured in E as (r & Hr & _). rewrite Hnone in Hr. by apply not_elem_of_nil in Hr.
Qed.

Record exactly (sv : server) : Prop := {
  exa_serves : serves (R := R) from_i32 fs config sink nows sv;
  exa_threads : uncontended (threads_of sv);
  exa_answers : Forall exact_answer (answers sv)
}.

(** What a call that never queued returns. *)
Lemma returned_exact (s : Shared ES HI reply unit) i p c r req :
  engine_reachable (R := R) config sink nows tt s -> straight p ->
  ops_in s !! i = Some p -> phase_call p = Some c -> call_result p = Some r -> works_on fs (Some req) p ->
  exact_answer {| ans_req := req; ans_seq := fr_seq (run_frame c); ans_result := r |}.
Proof.
  intros Hr Hst Hi Hc Hres Hw. pose proof (dec_phase _ _ (reachable_decided _ _ _ _ _ Hr) i p Hi) as Hp.
  unfold works_on in Hw. rewrite Hc in Hw. destruct Hw as (req' & [= <-] & Hctx & Hbody).
  destruct p; try done; cbn in Hc, Hres, Hp; simplify_eq.
  unfold exact_answer, decided_reply, ans_reply. cbn [ans_result ans_req ans_seq].
  unfold result_decided in Hp. rewrite Hctx, Hbody in Hp. destruct (decided_fault _ _ _); [by subst|].
  destruct Hp as [w ->]. apply req_body_ideal.
Qed.

Lemma exactly_step a sv sv' :
  fits config (threads_of sv) -> sstep (R := R) fs a sv sv' -> exactly sv -> exactly sv'.
Proof.
  intros Hfits Hs [Hse Hun Hans]. pose proof (serves_step _ _ _ _ _ _ _ _ Hse Hs) as Hse'.
  pose proof (reachable_limits config sink nows tt _ words (srv_engine _ _ _ _ _ _ Hse)) as Hl.
  pose proof (uncontended_step config _ _ _ Hl Hfits (sstep_estep _ _ _ _ Hs) Hun) as Hun'.
  split; [done|done|]. destruct Hs as [| |s s' i p c r req js rs out Hst Hi Hc Hres Hi' Hreq]; [done..|].
  apply Forall_app. split; [exact Hans|]. apply Forall_singleton.
  apply (returned_exact s i p); [apply (srv_engine _ _ _ _ _ _ Hse)|by apply (unc_phase _ Hun i)|done..|].
  rewrite <- Hreq. by apply (srv_jobs _ _ _ _ _ _ Hse).
Qed.

Lemma sstep_length a (sv sv' : server) :
  sstep (R := R) fs a sv sv' -> length (ops_in (threads_of sv')) = length (ops_in (threads_of sv)).
Proof. intros Hs%sstep_estep. by eapply estep_length. Qed.

Lemma ssteps_length n (sv sv' : server) :
  nsteps (sstep (R := R) fs Settle) n sv sv' -> length (ops_in (threads_of sv')) = length (ops_in (threads_of sv)).
Proof. induction 1 as [|n sv1 sv2 sv3 Hs _ IH]; [done|]. by rewrite IH, (sstep_length _ _ _ Hs). Qed.

(** An invariant of the runs on as many threads. *)
Lemma reachable_on (I : server -> Prop) sv :
  let k := length (ops_in (threads_of sv)) in
  reachable_server sv -> I (s_initial config sink nows k) ->
  (forall a sv1 sv2, length (ops_in (threads_of sv1)) = k -> sstep (R := R) fs a sv1 sv2 -> I sv1 -> I sv2) ->
  I sv.
Proof.
  intros k [n Hn] Hinit Hstep.
  assert (Hk : k = n).
  { unfold k. eapply (steps_invariant _ (fun x : server => length (ops_in (threads_of x)) = n)); [| |exact Hn].
    - intros s1 s2 Hl [a Ha]. by rewrite (sstep_length _ _ _ Ha).
    - apply length_replicate. }
  enough (length (ops_in (threads_of sv)) = k /\ I sv) as [_ HIsv]; [exact HIsv|].
  eapply (steps_invariant _ (fun x : server => length (ops_in (threads_of x)) = k /\ I x)); [| |exact Hn].
  - intros s1 s2 [Hl HI1] [a Ha]. rewrite (sstep_length _ _ _ Ha). split; [done|]. by eapply Hstep.
  - rewrite <- Hk. split; [apply length_replicate|exact Hinit].
Qed.

Lemma initial_serves k : serves (R := R) from_i32 fs config sink nows (s_initial config sink nows k).
Proof. apply reachable_serves. exists k. apply steps_refl. Qed.

Lemma reachable_exactly sv : reachable_server sv -> fits config (threads_of sv) -> exactly sv.
Proof.
  intros Hr Hfits. apply (reachable_on exactly sv Hr).
  - split; [apply initial_serves|apply uncontended_initial|done].
  - intros a sv1 sv2 Hk Hs Hex. eapply exactly_step; [|exact Hs|exact Hex]. unfold fits. by rewrite Hk.
Qed.

(** ** One thread *)

(** The only thread has served all requests but the one it works on, in order
    and under consecutive numbers. *)
Record in_order (sv : server) : Prop := {
  ord_exactly : exactly sv;
  ord_received : received sv = (ans_req <$> answers sv) ++ option_list (jobs sv !! 0%nat);
  ord_begun : begun (threads_of sv) = Z.of_nat (length (received sv));
  ord_seqs : ans_seq <$> answers sv = wrap64 <$> seqZ 0 (Z.of_nat (length (answers sv)));
  ord_call : forall p c, ops_in (threads_of sv) !! 0%nat = Some p -> phase_call p = Some c ->
    fr_seq (run_frame c) = wrap64 (Z.of_nat (length (answers sv)))
}.

Lemma in_order_request s js rs out (req : Request D) now f e :
  let sv := {| threads_of := s; jobs := js; received := rs; answers := out |} in
  in_order sv -> ops_in s !! 0%nat = Some Ready -> begin_op (eng s) (req_ctx fs req) now = (f, e) ->
  rs = ans_req <$> out /\ fr_seq f = wrap64 (Z.of_nat (length out)).
Proof.
  cbn zeta. intros [Hex Hrec Hbeg _ _] Hi Hb. cbn [threads_of jobs received answers] in *.
  pose proof (srv_jobs _ _ _ _ _ _ (exa_serves _ Hex) 0%nat Ready Hi) as Hjob. cbn in Hjob.
  rewrite Hjob, app_nil_r in Hrec. split; [done|].
  pose proof (hist_seq _ _ (reachable_history config sink nows tt _ (srv_engine _ _ _ _ _ _ (exa_serves _ Hex)))) as Hseq.
  cbn [threads_of] in Hseq. unfold begin_op in Hb. simplify_eq. cbn [fr_seq]. rewrite Hseq, Hbeg. by rewrite length_fmap.
Qed.

Lemma estep_begun a (s s' : Shared ES HI reply unit) : estep (R := R) a s s' -> a <> Call -> begun s' = begun s.
Proof. by destruct 1. Qed.

Lemma in_order_step a sv sv' :
  length (ops_in (threads_of sv)) = 1%nat -> fits config (threads_of sv) ->
  sstep (R := R) fs a sv sv' -> in_order sv -> in_order sv'.
Proof.
  intros Hone Hfits Hs Hord. pose proof (exactly_step _ _ _ Hfits Hs (ord_exactly _ Hord)) as Hex.
  assert (Hz : forall i p, ops_in (threads_of sv) !! i = Some p -> i = 0%nat).
  { intros i p Hi%lookup_lt_Some. lia. }
  destruct Hs as [s i req now f e js rs out Hi Hb|a s s' js rs out Hst Hne Hkeep|s s' i p c r req js rs out Hst Hi Hc Hres Hi' Hreq];
    cbn [threads_of] in *; try (pose proof (Hz _ _ Hi); subst i).
  - destruct (in_order_request _ _ _ _ _ _ _ _ Hord Hi Hb) as [-> Hseq]. destruct Hord as [_ _ Hbeg Hsq _].
    cbn [threads_of jobs received answers] in *. split; cbn [threads_of jobs received answers begun ops_in]; try done.
    + by rewrite lookup_insert_eq.
    + rewrite Hbeg, length_app. cbn. lia.
    + intros p c. rewrite list_lookup_insert_eq by (by eapply lookup_lt_Some). intros [= <-] [= <-]. exact Hseq.
  - destruct Hord as [_ Hrec Hbeg Hsq Hcall]. cbn [threads_of jobs received answers] in *.
    split; cbn [threads_of jobs received answers]; try done.
    + by rewrite (estep_begun _ _ _ Hst Hne).
    + intros q c Hq Hc. destruct (proj1 (estep_stays _ _ _ Hst Hne Hkeep) _ _ Hq) as (q0 & Hq0 & E).
      eapply Hcall; [exact Hq0|]. by rewrite <- E.
  - destruct Hord as [_ Hrec Hbeg Hsq Hcall]. cbn [threads_of jobs received answers] in *.
    split; cbn [threads_of jobs received answers]; try done.
    + rewrite lookup_delete_eq, fmap_app, app_nil_r, Hrec, Hreq. done.
    + by rewrite (estep_begun _ _ _ Hst).
    + rewrite fmap_app, Hsq, length_app. cbn [fmap list_fmap ans_seq length]. rewrite (Hcall _ _ Hi Hc).
      rewrite Nat2Z.inj_add. by rewrite seqZ_snoc by lia.
    + intros q c'. rewrite Hi'. by intros [= <-].
Qed.

Lemma reachable_in_order sv :
  reachable_server sv -> length (ops_in (threads_of sv)) = 1%nat -> fits config (threads_of sv) -> in_order sv.
Proof.
  intros Hr Hone Hfits. apply (reachable_on in_order sv Hr); rewrite Hone.
  - split; cbn [threads_of jobs received answers s_initial]; try done; [|by intros p c [= <-]].
    split; [apply initial_serves|apply uncontended_initial|done].
  - intros a sv1 sv2 Hk Hs Hord. eapply in_order_step; [exact Hk| |exact Hs|exact Hord].
    intros op. rewrite Hk. rewrite <- Hone. apply Hfits.
Qed.

(** What an event says besides times: number, context, outcome and errno, the
    wait for a slot and the injected latency. *)
Definition event_facts (ev : Event) : EventKey * Z * Z :=
  (event_key ev, ev_queue_wait_us ev, ev_injected_latency_us ev).

(** What the event of a request says under a number. *)
Definition decided_event (seq : Z) (req : Request D) : EventKey * Z * Z :=
  let r := match decided_fault (R := R) config (req_ctx fs req) seq with
           | Some errno => Err (Errno errno)
           | None => req_body fs req (Errno' := Errno')
           end in
  (call_key seq (req_ctx fs req) r, 0, decided_latency (R := R) config (req_ctx fs req) seq).

Definition mount_events (reqs : list (Request D)) : list (EventKey * Z * Z) :=
  imap (fun k req => decided_event (wrap64 (Z.of_nat k)) req) reqs.

(** Whether a call has emitted its event. *)
Definition emitted (p : op_phase reply unit) : bool :=
  match p with Emitted _ _ _ _ | Recorded _ _ _ => true | _ => false end.

(** The requests that have an event: those answered, and the one whose call has
    emitted it. *)
Definition logged_requests (sv : server) : list (Request D) :=
  (ans_req <$> answers sv) ++
  (if existsb emitted (ops_in (threads_of sv)) then option_list (jobs sv !! 0%nat) else []).

Definition logged (sv : server) : Prop := event_facts <$> log (threads_of sv) = mount_events (logged_requests sv).

(** Without queueing, a step emits the event of a call that is finished, or
    none. *)
Lemma estep_emits a (s s' : Shared ES HI reply unit) :
  estep (R := R) a s s' -> uncontended s -> a <> Call ->
  exists i p p', ops_in s !! i = Some p /\ ops_in s' = <[i := p']> (ops_in s) /\
    ((log s' = log s /\ (emitted p' = emitted p \/ is_Some (call_result p) /\ p' = Ready)) \/
     exists c w d r clk, p = Finished c w d r /\ emitted p' = true /\ log s' = log s ++ [completion_event (run_frame c) w d r clk]).
Proof.
  intros Hs [Hph _] Hne. destruct Hs as [s i ctx body now f e Hi E|s i c res now r l Hi Hres E|s i c start Hi
                |s i c start res now r l Hi Hres E|s i c err now unix Hi|s i c err us Hi
                |s i c w res now d e Hi Hres E|s i c w d r w' Hi E|s i c w d r clk Hi|s i c w us r Hi
                |s i c w r ts Hi Hn|s i c w ts Hi Hn]; [done|..];
    pose proof (Hph _ _ Hi) as Hp; cbn [straight] in Hp; try done;
    try (apply straight_notify in Hn as ->; [|by apply straight_insert]);
    exists i; do 2 eexists; (split; [exact Hi|]); (split; [reflexivity|]).
  - left. split; [done|]. left. by destruct r.
  - left. split; [done|]. left. by destruct (sleep_for d).
  - left. split; [done|]. by left.
  - right. exists c, w, d, r, clk. done.
  - left. split; [done|]. by left.
  - left. split; [done|]. right. split; [by eexists|done].
  - left. split; [done|]. by left.
Qed.

Lemma finished_event s js rs out (req : Request D) c w d r clk :
  let sv := {| threads_of := s; jobs := js; received := rs; answers := out |} in
  in_order sv -> ops_in s = [Finished c w d r] -> js !! 0%nat = Some req ->
  event_facts (completion_event (run_frame c) w d r clk) = decided_event (wrap64 (Z.of_nat (length out))) req.
Proof.
  cbn zeta. intros [Hex _ _ _ Hcall] Hops Hjob. cbn [threads_of jobs answers] in *.
  assert (Hi : ops_in s !! 0%nat = Some (Finished c w d r)) by (by rewrite Hops).
  pose proof (exa_serves _ Hex) as Hse.
  pose proof (dec_phase _ _ (reachable_decided _ _ _ _ _ (srv_engine _ _ _ _ _ _ Hse)) 0%nat _ Hi) as [[_ Hlat] Hres].
  pose proof (srv_jobs _ _ _ _ _ _ Hse 0%nat _ Hi) as (req' & Hreq & Hctx & Hbody). cbn [jobs] in Hreq.
  pose proof (unc_phase _ (exa_threads _ Hex) 0%nat _ Hi) as Hw. cbn [straight] in Hw. simplify_eq.
  pose proof (Hcall _ c Hi eq_refl) as Hseq. unfold result_decided in Hres. rewrite Hctx, Hseq, Hbody in Hres.
  unfold event_facts, decided_event, event_key, call_key, completion_event.
  cbn [ev_seq ev_op ev_ino ev_offset ev_len ev_outcome ev_errno ev_queue_wait_us ev_injected_latency_us].
  rewrite Hlat, Hctx, Hseq. destruct (decided_fault _ _ _); [by subst r|]. destruct Hres as [x Hx]; by rewrite Hx.
Qed.

Lemma mount_events_snoc reqs req :
  mount_events (reqs ++ [req]) = mount_events reqs ++ [decided_event (wrap64 (Z.of_nat (length reqs))) req].
Proof. unfold mount_events. rewrite imap_app. cbn. by rewrite Nat.add_0_r. Qed.

Lemma one_thread_insert (ts : list (op_phase reply unit)) i p p' :
  length ts = 1%nat -> ts !! i = Some p -> i = 0%nat /\ ts = [p] /\ <[i := p']> ts = [p'].
Proof. destruct ts as [|q [|]]; try done. intros _. destruct i as [|[]]; [|done..]. by intros [= ->]. Qed.

Lemma logged_step a sv sv' :
  length (ops_in (threads_of sv)) = 1%nat -> in_order sv -> sstep (R := R) fs a sv sv' -> logged sv -> logged sv'.
Proof.
  intros Hone Hord Hs. pose proof (exa_threads _ (ord_exactly _ Hord)) as Hun. unfold logged, logged_requests.
  destruct Hs as [s i req now f e js rs out Hi Hb|a s s' js rs out Hst Hne Hkeep|s s' i p c r req js rs out Hst Hi Hc Hres Hi' Hreq];
    cbn [threads_of jobs answers log ops_in] in *.
  - destruct (one_thread_insert _ _ _ (Entering {| run_frame := f; run_body := fun w => (req_body fs req, w) |}) Hone Hi)
      as (-> & -> & ->). done.
  - destruct (estep_emits _ _ _ Hst Hun Hne) as (i & p & p' & Hi & Hops & Hcase).
    destruct (one_thread_insert _ _ _ p' Hone Hi) as (-> & Eops & Ep). rewrite Ep in Hops. rewrite Hops, Eops.
    destruct Hcase as [[-> [Ee|[Hsome ->]]]|(c & w & d & r & clk & -> & Ee & ->)].
    + cbn [existsb]. by rewrite Ee.
    + pose proof (Hkeep 0%nat p Hi Hsome) as Hk. rewrite Hops in Hk. injection Hk as <-. by destruct Hsome.
    + cbn [existsb emitted orb]. rewrite Ee, app_nil_r. intros Hlog.
      pose proof (srv_jobs _ _ _ _ _ _ (exa_serves _ (ord_exactly _ Hord)) 0%nat _ Hi) as (req & Hreq & _).
      cbn [jobs] in Hreq. rewrite fmap_app, Hlog, Hreq. cbn [fmap list_fmap].
      rewrite (finished_event _ _ _ _ req _ _ _ _ clk Hord Eops Hreq), <- (length_fmap ans_req). symmetry.
      apply mount_events_snoc.
  - destruct (estep_emits _ _ _ Hst Hun ltac:(done)) as (k & q & q' & Hk & Hops & Hcase).
    destruct (one_thread_insert _ _ _ q' Hone Hk) as (-> & Eops & Ep). rewrite Ep in Hops.
    destruct (one_thread_insert _ _ _ q' Hone Hi) as (-> & _ & _). rewrite Hops in Hi'. injection Hi' as ->.
    rewrite Hops, Eops. rewrite Eops in Hi. injection Hi as ->.
    pose proof (unc_phase _ Hun 0%nat p ltac:(by rewrite Eops)) as Hp.
    destruct p; try done; destruct Hcase as [[-> _]|(? & ? & ? & ? & ? & ? & _)]; try done.
    cbn [existsb emitted orb]. by rewrite Hreq, fmap_app, app_nil_r.
Qed.

Lemma reachable_logged sv :
  reachable_server sv -> length (ops_in (threads_of sv)) = 1%nat -> fits config (threads_of sv) -> logged sv.
Proof.
  intros Hr Hone Hfits. enough (in_order sv /\ logged sv) as [_ Hl]; [exact Hl|].
  apply (reachable_on (fun x => in_order x /\ logged x) sv Hr); rewrite Hone.
  - split; [|done]. apply reachable_in_order; [exists 1%nat; apply steps_refl|done|].
    intros op. specialize (Hfits op). rewrite Hone in Hfits. exact Hfits.
  - intros a sv1 sv2 Hk Hs [Hord Hlog]. split; [|by eapply logged_step].
    eapply in_order_step; [exact Hk| |exact Hs|exact Hord]. intros op. rewrite Hk, <- Hone. apply Hfits.
Qed.

(** One thread can serve any sequence of requests. *)
Lemma serve_all reqs :
  unthrottled config -> (forall op, 0 < concurrency_cap (policy_of config op)) ->
  exists sv : server, reachable_server sv /\ ops_in (threads_of sv) = [Ready] /\ received sv = reqs.
Proof.
  intros Hun Hcaps. induction reqs as [|req reqs IH] using rev_ind.
  { exists (s_initial config sink nows 1). split; [exists 1%nat; apply steps_refl|done]. }
  destruct IH as ([s js rs out] & Hr & Hidle & Hrec). cbn [threads_of received] in *.
  destruct (begin_op (eng s) (req_ctx fs req) 0) as [f e] eqn:Hb.
  pose proof (s_request fs (R := R) s 0%nat req 0 f e js rs out ltac:(by rewrite Hidle) Hb) as Hstep.
  match type of Hstep with sstep _ _ _ ?x => set (sv1 := x) in * end.
  assert (Hr1 : reachable_server sv1).
  { destruct Hr as [k Hk]. exists k. eapply steps_trans; [exact Hk|]. apply steps_one. by exists Call. }
  destruct (server_can_finish from_i32 fs config sink nows words sv1 Hr1) as (n & sv2 & Hn & Hstop).
  destruct (ssteps_esteps _ _ _ _ Hn) as [_ Erec]. exists sv2.
  pose proof (server_reachable_settle _ _ _ _ _ _ _ Hr1 Hn) as Hr2. split; [exact Hr2|].
  destruct (stopped_answers from_i32 fs config sink nows words Hcaps sv2 Hun Hr2 Hstop) as (Hready & _).
  split; [|by rewrite Erec; cbn [received sv1]; rewrite Hrec].
  pose proof (ssteps_length _ _ _ Hn) as Hlen. cbn [threads_of ops_in sv1] in Hlen. rewrite length_insert, Hidle in Hlen.
  destruct (ops_in (threads_of sv2)) as [|p [|]] eqn:E; [done| |done]. f_equal. by apply (Hready 0%nat).
Qed.

(** The replies to a sequence of requests, one after the other. *)
Definition mount_replies (reqs : list (Request D)) : list reply :=
  imap (fun k req => decided_reply (wrap64 (Z.of_nat k)) req) reqs.

Lemma imap_exact (out : list answer) n :
  Forall exact_answer out -> ans_seq <$> out = wrap64 <$> seqZ (Z.of_nat n) (Z.of_nat (length out)) ->
  ans_reply from_i32 <$> out = imap (fun k req => decided_reply (wrap64 (Z.of_nat (n + k))) req) (ans_req <$> out).
Proof.
  intros Hex. revert n. induction Hex as [|a out Ha _ IH]; intros n Hs; [done|].
  cbn [length] in Hs. rewrite seqZ_cons in Hs by lia. cbn [fmap list_fmap] in Hs. injection Hs as Hseq Hs.
  cbn [fmap list_fmap imap]. rewrite Nat.add_0_r, <- Hseq. f_equal; [exact Ha|].
  change (ans_reply from_i32 <$> out = imap (fun k req => decided_reply (wrap64 (Z.of_nat (n + S k))) req) (ans_req <$> out)).
  rewrite (IH (S n)).
  - apply imap_ext. intros k req _. by rewrite Nat.add_succ_comm.
  - refine (eq_trans Hs _). f_equal. f_equal; lia.
Qed.

(** An idle server has answered what it received. *)
Lemma in_order_idle sv : in_order sv -> ops_in (threads_of sv) = [Ready] -> received sv = ans_req <$> answers sv.
Proof.
  intros [Hex Hrec _ _ _] Hidle. pose proof (srv_jobs _ _ _ _ _ _ (exa_serves _ Hex) 0%nat Ready) as Hjob.
  rewrite Hidle in Hjob. by rewrite Hrec, (Hjob eq_refl), app_nil_r.
Qed.

Lemma in_order_replies sv :
  in_order sv ->
  ans_reply from_i32 <$> answers sv = take (length (answers sv)) (mount_replies (received sv)) /\
  (ops_in (threads_of sv) = [Ready] -> ans_reply from_i32 <$> answers sv = mount_replies (received sv)).
Proof.
  intros Hord. pose proof Hord as [Hex Hrec _ Hseq _].
  pose proof (imap_exact (answers sv) 0 (exa_answers _ Hex) Hseq) as Hreplies. rewrite Hreplies. split.
  - rewrite Hrec. unfold mount_replies. rewrite imap_app, take_app_length'; [done|]. by rewrite length_imap, length_fmap.
  - intros Hidle. by rewrite (in_order_idle _ Hord Hidle).
Qed.
End Served.

(** ** Properties *)

Section Properties.
Context {R : Type} `{Rng R} `{Libm} {ES : Type} `{EventSink ES} {HI : Type} `{Histogram HI}.
Context {N : Type} `{NamespaceModel N} {C : Type} `{ContentModel C} {D : Type} `{ReplyDirectory D}.
Context {Errno' : Type} (from_i32 : Z -> Errno').
Context (fs : FaultFs ES HI N C) (config : Config) (sink : ES) (nows : FsOp -> Instant * Instant).
Context (words : config_words config).

Abbreviation server := (Server (ES := ES) (HI := HI) (D := D) (Errno' := Errno')).

(** C7: where no operation has fewer slots than the mount has threads, nobody
    waits and nobody is turned away: however the requests interleave, every
    reply is the errno of the fault that configuration, request and number
    decide, or the ideal filesystem's when there is none, as always for an
    operation without rules; and every event reports an empty queue wait. *)
Theorem served_exactly (sv : server) :
  server_reachable (R := R) fs config sink nows sv -> fits config (threads_of sv) ->
  Forall (exact_answer (R := R) from_i32 fs config) (answers sv) /\
  Forall (fun a => policy_rules (policy_of config (ctx_op (req_ctx fs (ans_req a)))) = [] ->
                   ans_reply from_i32 a = ideal from_i32 fs (ans_req a)) (answers sv) /\
  Forall (fun ev => ev_queue_wait_us ev = 0) (log (threads_of sv)).
Proof.
  intros Hr Hfits. destruct (reachable_exactly (R := R) from_i32 fs config sink nows words sv Hr Hfits) as [_ Hun Hex].
  split_and!; [exact Hex| |apply Hun]. eapply Forall_impl; [exact Hex|]. intros a Ha Hnone.
  rewrite Ha. by apply decided_reply_ideal.
Qed.

(** C5: a mount that serves on one thread is a function of the requests: the
    replies sent are those of [mount_replies] on the requests received, in
    order, and the events of the log are those of [mount_events], whatever the
    clocks, the sink and the scheduler do; so a session that asks the same
    again is answered the same, after the same injected latencies, and two
    logs differ only in their times. *)
Theorem one_thread_deterministic (sv : server) :
  server_reachable (R := R) fs config sink nows sv -> length (ops_in (threads_of sv)) = 1%nat ->
  (forall op, 0 < concurrency_cap (policy_of config op)) ->
  ans_reply from_i32 <$> answers sv =
    take (length (answers sv)) (mount_replies (R := R) from_i32 fs config (received sv)) /\
  (ops_in (threads_of sv) = [Ready] ->
   ans_reply from_i32 <$> answers sv = mount_replies (R := R) from_i32 fs config (received sv) /\
   event_facts <$> log (threads_of sv) = mount_events (R := R) (Errno' := Errno') fs config (received sv)).
Proof.
  intros Hr Hone Hcaps. assert (Hfits : fits config (threads_of sv)).
  { intros op. rewrite Hone. specialize (Hcaps op). lia. }
  pose proof (reachable_in_order (R := R) from_i32 fs config sink nows words sv Hr Hone Hfits) as Hord.
  destruct (in_order_replies _ _ _ _ _ _ Hord) as [Hpre Hall]. split; [exact Hpre|]. intros Hidle.
  split; [by apply Hall|]. rewrite (in_order_idle _ _ _ _ _ _ Hord Hidle).
  pose proof (reachable_logged (R := R) from_i32 fs config sink nows words sv Hr Hone Hfits) as Hlog.
  unfold logged, logged_requests in Hlog. rewrite Hidle, app_nil_r in Hlog. exact Hlog.
Qed.
End Properties.

(** ** A client that lists a directory *)

Section Listing.
Context {R : Type} `{Rng R} `{Libm} {ES : Type} `{EventSink ES} {HI : Type} `{Histogram HI}.
Context {N : Type} `{NamespaceLaws N} {C : Type} `{ContentModel C} {D : Type} `{ReplyDirectoryLaws D}.
Context {Errno' : Type} (from_i32 : Z -> Errno').
Context (fs : FaultFs ES HI N C) (config : Config) (sink : ES) (nows : FsOp -> Instant * Instant).

Abbreviation server := (Server (ES := ES) (HI := HI) (D := D) (Errno' := Errno')).
Abbreviation answer := (Answer (D := D) (Errno' := Errno')).

(** The answer [a] is a page of the directory, from a cookie on. *)
Definition page_of (a : answer) (ino offset : Z) (page : list (Z * Z * FileType * string)) : Prop :=
  exists fresh d, ans_req a = ReqReaddir ino offset fresh /\ ans_reply from_i32 a = ReplyDir d /\ dir_entries d = page.

(** What a client that asks from a cookie on collects, among all answers sent,
    and in how many pages: it goes on from the last cookie of each page, asks
    again as often as it likes after an error, and stops at an empty page. *)
Inductive paged (out : list answer) (ino : Z) : nat -> Z -> list (Z * Z * FileType * string) -> Prop :=
| paged_end a offset :
    a ∈ out -> page_of a ino offset [] -> paged out ino 1 offset []
| paged_on a offset page i off ft nm n rest :
    a ∈ out -> page_of a ino offset page -> list.last page = Some (i, off, ft, nm) ->
    paged out ino n off rest -> paged out ino (S n) offset (page ++ rest).

(** A request for entries: its buffer is empty and takes at least one. *)
Definition can_list (req : Request D) : Prop :=
  match req with
  | ReqReaddir _ _ fresh =>
      dir_entries fresh = [] /\
      forall e, (dir_add fresh (ent_ino e) (ent_off e) (file_type (ent_kind e)) (ent_name e)).1 = false
  | _ => True
  end.

Lemma page_of_listing a ino offset page es :
  answer_ok (R := R) from_i32 fs config a -> can_list (ans_req a) ->
  ns_wf (namespace fs) -> listing (namespace fs) ino = Some es -> 0 <= offset -> page_of a ino offset page ->
  exists fresh, page = dir_entries (reply_entries (after offset es) fresh) /\ can_list (ReqReaddir ino offset fresh).
Proof.
  intros Hok Hcan Hwf Hl Ho (fresh & d & Hreq & Hrep & <-). exists fresh. rewrite <- Hreq. split; [|done].
  unfold answer_ok, allowed in Hok. rewrite Hrep, Hreq in Hok. destruct Hok as [Hok|Hok]; [done|].
  destruct (decided_fault _ _ _); [done|]. cbn [ideal] in Hok. rewrite readdir_listing, Hl, collector_all in Hok by done.
  by injection Hok as ->.
Qed.

(** What such a client has when it stops. *)
Lemma paged_listing (sv : server) ino es n found :
  server_reachable (R := R) fs config sink nows sv -> Forall can_list (ans_req <$> answers sv) ->
  ns_wf (namespace fs) -> listing (namespace fs) ino = Some es ->
  paged (answers sv) ino n 0 found ->
  found = page_entry <$> es /\ (n <= S (length es))%nat.
Proof.
  intros Hr Hcan Hwf Hl Hp. pose proof (listing_increasing _ _ _ Hwf Hl) as Hinc.
  pose proof (srv_answers _ _ _ _ _ _ (reachable_serves (R := R) from_i32 fs config sink nows sv Hr)) as Hok.
  rewrite Forall_fmap in Hcan. rewrite Forall_forall in Hok, Hcan.
  enough (Hgen : forall offset, 0 <= offset -> paged (answers sv) ino n offset found ->
    found = page_entry <$> after offset es /\ (n <= S (length (after offset es)))%nat).
  { rewrite <- (increasing_after 0 es 0 Hinc) by lia. by apply Hgen. }
  clear Hp. intros offset Ho Hp. induction Hp as [a offset Ha Hpage|a offset page i off ft nm n rest Ha Hpage Hlast _ IH];
    (destruct (page_of_listing a ino offset _ es (Hok a Ha) (Hcan a Ha) Hwf Hl Ho Hpage) as (fresh & E & Hempty & Hroom)).
  - rewrite (page_empty es offset fresh Hempty Hroom (eq_sym E)). split; [done|cbn; lia].
  - subst page. destruct (page_resume _ _ _ _ _ _ _ Hinc Hempty Hlast) as (<- & Hoff & Hless).
    destruct IH as [-> Hn]; [lia|]. split; [done|lia].
Qed.
(** C8: listing under load: however the requests of a mount interleave, a
    client that pages through a directory, each time from the last cookie it
    got, and repeats the requests that were refused, ends with every entry of
    the directory once and in order, after at most one page more than there
    are entries. *)
Theorem served_listing (sv : server) ino es n found :
  server_reachable (R := R) fs config sink nows sv -> Forall can_list (ans_req <$> answers sv) ->
  ns_wf (namespace fs) -> listing (namespace fs) ino = Some es ->
  paged (answers sv) ino n 0 found ->
  found = page_entry <$> es /\ (n <= S (length es))%nat.
Proof. apply paged_listing. Qed.
End Listing.

(** ** Witnesses

    The filesystem whose fsyncs fail, one thread, and a client that fsyncs a
    file and lists the root directory. *)

(** The answer with a number. *)
Lemma answer_at {D Errno'} (from_i32 : Z -> Errno') (out : list (Answer (D := D) (Errno' := Errno'))) reqs replies k req rep :
  ans_req <$> out = reqs -> ans_reply from_i32 <$> out = replies ->
  reqs !! k = Some req -> replies !! k = Some rep ->
  exists a, a ∈ out /\ ans_req a = req /\ ans_reply from_i32 a = rep.
Proof.
  intros <- <-. rewrite !list_lookup_fmap. destruct (out !! k) as [a|] eqn:E; [|done]. intros [= <-] [= <-].
  exists a. split; [by eapply list_elem_of_lookup_2|done].
Qed.

Definition list_requests : list (Request two_slots) :=
  [ReqFsync 100; ReqReaddir 1 0 []; ReqReaddir 1 2 []; ReqReaddir 1 3 []].

(** The replies of that session. *)
Definition listed_replies : list (Reply two_slots Z) :=
  [ReplyError ENOSPC;
   ReplyDir [(1, 1, Directory, "."); (1, 2, Directory, "..")]; ReplyDir [(2, 3, Directory, "objects")]; ReplyDir []].

Definition listed (sv : demo_server) : Prop :=
  server_reachable (R := unit) demo_fs fsync_config [] (fun _ => (0, 0)) sv /\
  ops_in (threads_of sv) = [Ready] /\ received sv = list_requests.

Lemma listed_exists : exists sv, listed sv.
Proof.
  exact (serve_all (R := unit) (fun e : Z => e) demo_fs fsync_config [] (fun _ => (0, 0)) fsync_words list_requests
    fsync_unthrottled fsync_caps).
Qed.

Lemma listed_fits sv : listed sv -> fits fsync_config (threads_of sv).
Proof. intros (_ & Hidle & _) op. rewrite Hidle. pose proof (fsync_caps op). cbn [length]. lia. Qed.

Lemma one_thread_deterministic_witness :
  exists sv, listed sv /\ ans_reply (fun e : Z => e) <$> answers sv = listed_replies /\
    (ev_seq <$> log (threads_of sv)) = [0; 1; 2; 3].
Proof.
  destruct listed_exists as [sv Hsv]. exists sv. split; [exact Hsv|]. destruct Hsv as (Hr & Hidle & Hrec).
  destruct (proj2 (one_thread_deterministic (R := unit) (fun e : Z => e) demo_fs fsync_config [] (fun _ => (0, 0))
    fsync_words sv Hr ltac:(by rewrite Hidle) fsync_caps) Hidle) as [Hrep Hlog].
  rewrite Hrec in Hrep, Hlog. split; [rewrite Hrep; by vm_compute|].
  apply (f_equal (fmap (fun x => x.1.1.1.1.1.1.1.1))) in Hlog. rewrite <- list_fmap_compose in Hlog.
  refine (eq_trans Hlog _). by vm_compute.
Defined.

Lemma served_exactly_witness :
  exists sv, listed sv /\ Forall (fun ev => ev_queue_wait_us ev = 0) (log (threads_of sv)) /\
    Forall (exact_answer (R := unit) (fun e : Z => e) demo_fs fsync_config) (answers sv).
Proof.
  destruct listed_exists as [sv Hsv]. exists sv. split; [exact Hsv|].
  destruct (served_exactly (R := unit) (fun e : Z => e) demo_fs fsync_config [] (fun _ => (0, 0)) fsync_words sv
    (proj1 Hsv) (listed_fits sv Hsv)) as (Hex & _ & Hlog). by split.
Defined.

Lemma listed_answers sv :
  listed sv -> ans_req <$> answers sv = list_requests /\ ans_reply (fun e : Z => e) <$> answers sv = listed_replies.
Proof.
  intros Hsv. pose proof Hsv as (Hr & Hidle & Hrec).
  pose proof (reachable_in_order (R := unit) (fun e : Z => e) demo_fs fsync_config [] (fun _ => (0, 0)) fsync_words sv Hr
    ltac:(by rewrite Hidle) (listed_fits sv Hsv)) as Hord. split.
  - by rewrite <- Hrec, (in_order_idle _ _ _ _ _ _ Hord Hidle).
  - rewrite (proj2 (in_order_replies _ _ _ _ _ _ Hord) Hidle), Hrec. by vm_compute.
Qed.

Lemma listed_page sv k ino offset fresh d :
  listed sv -> list_requests !! k = Some (ReqReaddir ino offset fresh) -> listed_replies !! k = Some (ReplyDir d) ->
  exists a, a ∈ answers sv /\ page_of (fun e : Z => e) a ino offset (dir_entries d).
Proof.
  intros Hsv Hreq Hrep. destruct (listed_answers sv Hsv) as [Ereq Erep].
  destruct (answer_at _ _ _ _ _ _ _ Ereq Erep Hreq Hrep) as (a & Ha & Hq & Hp). exists a. split; [done|].
  by exists fresh, d.
Qed.

(** The client finds the three entries in three pages. *)
Lemma served_listing_witness :
  exists sv found, listed sv /\ paged (fun e : Z => e) (answers sv) 1 3 0 found /\
    found = [(1, 1, Directory, "."); (1, 2, Directory, ".."); (2, 3, Directory, "objects")].
Proof.
  destruct listed_exists as [sv Hsv]. exists sv. eexists. split; [exact Hsv|].
  assert (Hp : paged (fun e : Z => e) (answers sv) 1 3 0
    ([(1, 1, Directory, "."); (1, 2, Directory, "..")] ++ [(2, 3, Directory, "objects")] ++ [])).
  { destruct (listed_page sv 1 1 0 [] [(1, 1, Directory, "."); (1, 2, Directory, "..")] Hsv eq_refl eq_refl) as (a1 & Ha1 & Hp1).
    destruct (listed_page sv 2 1 2 [] [(2, 3, Directory, "objects")] Hsv eq_refl eq_refl) as (a2 & Ha2 & Hp2).
    destruct (listed_page sv 3 1 3 [] [] Hsv eq_refl eq_refl) as (a3 & Ha3 & Hp3).
    exact (paged_on _ _ _ a1 0 _ _ 2 _ _ 2 _ Ha1 Hp1 eq_refl
      (paged_on _ _ _ a2 2 _ _ 3 _ _ 1 _ Ha2 Hp2 eq_refl (paged_end _ _ _ a3 3 Ha3 Hp3))). }
  split; [exact Hp|].
  refine (proj1 (served_listing (R := unit) (fun e : Z => e) demo_fs fsync_config [] (fun _ => (0, 0)) sv 1 _ 3 _
    (proj1 Hsv) _ five_files_wf eq_refl Hp)).
  rewrite (proj1 (listed_answers sv Hsv)). by repeat constructor.
Defined.
