(* ===== verification/MountOpts.v ===== *)
(** * Mount options

    [fusecraft-fuser/src/opts.rs] and [mount.rs]. The fields of
    [fuser::Config] that the code leaves at their defaults, and the mount call
    itself, are parameters. *)

From stdpp Require Import base list numbers strings.
From Stdlib Require Import ZArith Lia Bool.

From S2P Require Import Prelude Op Config.

Record FuserMountOptions : Type := {
  opt_fs_name : string;
  opt_subtype : string;
  opt_auto_unmount : bool;
  opt_default_permissions : bool;
  opt_read_only : bool;
  opt_direct_io : bool;
  opt_allow_other : bool
}.

(** The variants of [fuser::MountOption] and [fuser::SessionACL] in use. *)
Inductive MountOption : Type :=
| FSName (name : string)
| Subtype (name : string)
| AutoUnmount
| DefaultPermissions
| RO
| RW
| CUSTOM (option : string).

Inductive SessionACL : Type := ACL_All | ACL_Owner.

#[export] Instance MountOption_eq_dec : EqDecision MountOption.
Proof. solve_decision. Defined.

Record FuserConfig (Rest : Type) : Type := {
  mount_options : list MountOption;
  acl : SessionACL;
  rest : Rest
}.
Arguments Build_FuserConfig {Rest}.
Arguments mount_options {Rest}.
Arguments acl {Rest}.
Arguments rest {Rest}.

Definition from_mount_config (cfg : MountConfig) : FuserMountOptions :=
  {| opt_fs_name := fs_name cfg; opt_subtype := subtype cfg; opt_auto_unmount := auto_unmount cfg;
     opt_default_permissions := default_permissions cfg; opt_read_only := read_only cfg;
     opt_direct_io := direct_io cfg; opt_allow_other := false |}.

(** The pushes onto [mount_options], in order. *)
Definition build_options (self : FuserMountOptions) : list MountOption :=
  let opts := [] in
  let opts := opts ++ [FSName (opt_fs_name self)] in
  let opts := opts ++ [Subtype (opt_subtype self)] in
  let opts := if opt_auto_unmount self && opt_allow_other self then opts ++ [AutoUnmount] else opts in
  let opts := if opt_default_permissions self then opts ++ [DefaultPermissions] else opts in
  let opts := if opt_read_only self then opts ++ [RO] else opts ++ [RW] in
  let opts := if opt_direct_io self then opts ++ [CUSTOM "direct_io"] else opts in
  opts.

Section Mount.
Context {Rest : Type} (fuser_default : Rest).

Definition to_fuser_config (self : FuserMountOptions) : FuserConfig Rest :=
  {| mount_options := build_options self;
     acl := if opt_allow_other self then ACL_All else ACL_Owner;
     rest := fuser_default |}.

Context {Fs Session : Type}.
Context (mount2 : Fs -> string -> FuserConfig Rest -> result unit IoError).
Context (spawn_mount2 : Fs -> string -> FuserConfig Rest -> result Session IoError).

Definition map_io {T} (r : result T IoError) : result T FsError :=
  match r with Ok x => Ok x | Err e => Err (Io e) end.

Definition mount (fs : Fs) (mountpoint : string) (opts : FuserMountOptions) : result unit FsError :=
  map_io (mount2 fs mountpoint (to_fuser_config opts)).

Definition spawn_mount (fs : Fs) (mountpoint : string) (opts : FuserMountOptions) : result Session FsError :=
  (let? session := map_io (spawn_mount2 fs mountpoint (to_fuser_config opts)) in Ok session)%fc.
End Mount.

(** ** Facts *)

(** Membership of a flag in a list of distinct options. *)
Ltac in_options :=
  unfold build_options; cbn; rewrite ?elem_of_cons, ?elem_of_nil; intuition congruence.

Lemma auto_unmount_option o :
  AutoUnmount ∈ build_options o <-> opt_auto_unmount o = true /\ opt_allow_other o = true.
Proof. destruct o as [n s [] [] [] [] []]; in_options. Qed.

Lemma ro_option o : RO ∈ build_options o <-> opt_read_only o = true.
Proof. destruct o as [n s [] [] [] [] []]; in_options. Qed.

Lemma rw_option o : RW ∈ build_options o <-> opt_read_only o = false.
Proof. destruct o as [n s [] [] [] [] []]; in_options. Qed.

Lemma build_options_NoDup o : NoDup (build_options o).
Proof.
  destruct o as [n s [] [] [] [] []]; unfold build_options; cbn;
    repeat (apply NoDup_cons; split; [in_options|]); apply NoDup_nil_2.
Qed.

(** ** Properties *)

(** The kernel is asked for automatic unmounting only together with access for
    other users, which fusermount demands; options built from a configuration
    never allow others, so they never ask for it, whatever [auto_unmount]
    says. Exactly one of the read-only and read-write flags is passed, as
    configured. *)
Theorem mount_options_spec (o : FuserMountOptions) (cfg : MountConfig) :
  (AutoUnmount ∈ build_options o <-> opt_auto_unmount o = true /\ opt_allow_other o = true) /\
  (~ (AutoUnmount ∈ build_options (from_mount_config cfg))) /\
  (RO ∈ build_options o <-> opt_read_only o = true) /\
  (RW ∈ build_options o <-> opt_read_only o = false) /\
  NoDup (build_options o).
Proof.
  split_and!; [apply auto_unmount_option| |apply ro_option|apply rw_option|apply build_options_NoDup].
  rewrite auto_unmount_option. by intros [_ ?].
Qed.
