(* ===== verification/Serde.v ===== *)
(** * Reading and writing configurations

    The [Serialize] and [Deserialize] implementations of the configuration
    types in [fusecraft-core/src/config.rs]: the derived ones as their field
    lists, default functions and renaming attributes say, the hand-written
    ones around the conversions of the file Config. A struct is read from a
    map or, as derived code allows, from a sequence. The data format (TOML, its
    text and its numbers) is outside the repository: a parameter, [Format].
    A document that cannot be read is [None]: which of several errors is
    reported depends on the order in which the format visits the entries. *)

From stdpp Require Import base list numbers strings gmap.
From Stdlib Require Import ZArith Lia Bool.

From S2P Require Import Prelude Word Float Binary64 Op Text Config.

Local Open Scope Z_scope.

(** ** The format

    How a value of the format is read as, and made from, the types that the
    derived code asks for. *)
Class Format (V : Type) : Type := {
  as_u64 : V -> option Z;
  as_f64 : V -> option f64;
  as_bool : V -> option bool;
  as_str : V -> option string;
  as_seq : V -> option (list V);
  as_map : V -> option (list (string * V));
  (** the variant of an enum without data, and a struct of so many fields given
      by their order; a format may refuse elements beyond the last field *)
  as_variant : V -> option string;
  as_fields : nat -> V -> option (list V);
  of_u64 : Z -> option V;
  of_i32 : Z -> V;
  of_f64 : f64 -> V;
  of_bool : bool -> V;
  of_str : string -> V;
  of_seq : list V -> V;
  of_map : list (string * V) -> V;
  of_variant : string -> V
}.

(** What the code relies on in TOML: values, floats that are not finite
    included, are read back as they were written, numbers are in the range of
    their type, a number is not a string, and integers of 63 bits can be
    written. *)
Class FormatLaws (V : Type) `{Format V} : Prop := {
  as_of_u64 n v : of_u64 n = Some v -> as_u64 v = Some n;
  as_of_f64 x : valid x -> as_f64 (of_f64 x) = Some x;
  as_of_bool b : as_bool (of_bool b) = Some b;
  as_of_str s : as_str (of_str s) = Some s;
  as_of_seq l : as_seq (of_seq l) = Some l;
  as_of_map m : NoDup m.*1 -> as_map (of_map m) = Some m;
  as_of_variant s : as_variant (of_variant s) = Some s;
  as_u64_range v n : as_u64 v = Some n -> is_u64 n;
  as_f64_valid v x : as_f64 v = Some x -> valid x;
  as_str_of_i32 n : as_str (of_i32 n) = None;
  of_u64_small n : 0 <= n < 2 ^ 63 -> is_Some (of_u64 n)
}.

Section Serde.
Context {V : Type} `{Format V}.

(** ** Structs *)

Fixpoint get (m : list (string * V)) (k : string) : option V :=
  match m with
  | [] => None
  | (k', v) :: m' => if String.eqb k' k then Some v else get m' k
  end.

(** The entries of a struct: those of a map, or the elements of a sequence under
    the names of the fields, in the order of their declarations. *)
Definition as_struct (names : list string) (v : V) : option (list (string * V)) :=
  match as_map v with
  | Some m => Some m
  | None => zip names <$> as_fields (length names) v
  end.

(** A field without an entry takes [missing]: [Some] of its default function,
    or [None] for a field that has none. *)
Definition field {A} (de : V -> option A) (m : list (string * V)) (name : string) (missing : option A) : option A :=
  match get m name with Some v => de v | None => missing end.

(** An [Option] field: no entry stands for [None]. *)
Definition opt_field {A} (de : V -> option A) (m : list (string * V)) (name : string) : option (option A) :=
  field (fun v => Some <$> de v) m name (Some None).

Definition opt_entry (name : string) (v : option V) : list (string * V) :=
  match v with Some v => [(name, v)] | None => [] end.

(** The value of an [Option] field, if it has one. *)
Definition se_opt {A} (se : A -> option V) (x : option A) : option (option V) :=
  match x with Some y => Some <$> se y | None => Some None end.

(** ** Deserialization *)

Definition de_FsOp (v : V) : option FsOp := s ← as_variant v; op_from_str s.

Definition de_RootLayout (v : V) : option RootLayout :=
  s ← as_variant v; if String.eqb s "flat" then Some Flat else None.

Definition de_WriteMode (v : V) : option WriteMode :=
  s ← as_variant v; if String.eqb s "discard" then Some Discard else None.

Definition de_LatencyProfile (v : V) : option LatencyProfile :=
  m ← as_struct ["base_us"; "lognormal_median_us"; "lognormal_sigma"; "pareto_weight"; "pareto_xm_us";
                 "pareto_alpha"; "max_us"] v;
  base_us ← field as_u64 m "base_us" (Some 0);
  lognormal_median_us ← field as_f64 m "lognormal_median_us" (Some default_lognormal_median);
  lognormal_sigma ← field as_f64 m "lognormal_sigma" (Some default_lognormal_sigma);
  pareto_weight ← field as_f64 m "pareto_weight" (Some f64_zero);
  pareto_xm_us ← field as_f64 m "pareto_xm_us" (Some default_pareto_xm);
  pareto_alpha ← field as_f64 m "pareto_alpha" (Some default_pareto_alpha);
  max_us ← field as_u64 m "max_us" (Some default_max_us);
  Some {| base_us := base_us; lognormal_median_us := lognormal_median_us; lognormal_sigma := lognormal_sigma;
          pareto_weight := pareto_weight; pareto_xm_us := pareto_xm_us; pareto_alpha := pareto_alpha;
          max_us := max_us |}.

Definition de_BandwidthProfileRaw (v : V) : option BandwidthProfileRaw :=
  m ← as_struct ["mib_per_sec"; "burst_bytes"] v;
  mib ← field as_f64 m "mib_per_sec" None;
  burst ← field as_u64 m "burst_bytes" None;
  Some {| mib_per_sec := mib; raw_burst_bytes := burst |}.

Definition de_BandwidthProfile (v : V) : option BandwidthProfile :=
  bandwidth_from_raw <$> de_BandwidthProfileRaw v.

Definition de_FaultRuleRaw (v : V) : option FaultRuleRaw :=
  m ← as_struct ["op"; "errno"; "rate"] v;
  op ← field de_FsOp m "op" None;
  errno ← field as_str m "errno" None;
  rate ← field as_f64 m "rate" None;
  Some {| raw_op := op; raw_errno := errno; raw_rate := rate |}.

Definition de_FaultRule (v : V) : option FaultRule :=
  raw ← de_FaultRuleRaw v;
  match fault_from_raw raw with Ok r => Some r | Err _ => None end.

Definition de_Vec {A} (de : V -> option A) (v : V) : option (list A) := l ← as_seq v; mapM de l.

Definition de_LargeTierPolicy (v : V) : option LargeTierPolicy :=
  m ← as_struct ["latency"; "bandwidth"; "faults"] v;
  latency ← field de_LatencyProfile m "latency" (Some default_LatencyProfile);
  bandwidth ← opt_field de_BandwidthProfile m "bandwidth";
  faults ← field (de_Vec de_FaultRule) m "faults" (Some []);
  Some {| large_latency := latency; large_bandwidth := bandwidth; large_faults := faults |}.

Definition de_SizeTier (v : V) : option SizeTier :=
  m ← as_struct ["threshold_bytes"; "large"] v;
  threshold ← field as_u64 m "threshold_bytes" None;
  large ← field de_LargeTierPolicy m "large" None;
  Some {| threshold_bytes := threshold; large := large |}.

Definition de_OpPolicy (v : V) : option OpPolicy :=
  m ← as_struct ["concurrency_cap"; "queue_cap"; "latency"; "bandwidth"; "faults"; "size_tier"] v;
  concurrency_cap ← field as_u64 m "concurrency_cap" (Some default_concurrency_cap);
  queue_cap ← field as_u64 m "queue_cap" (Some 0);
  latency ← field de_LatencyProfile m "latency" (Some default_LatencyProfile);
  bandwidth ← opt_field de_BandwidthProfile m "bandwidth";
  faults ← field (de_Vec de_FaultRule) m "faults" (Some []);
  size_tier ← opt_field de_SizeTier m "size_tier";
  Some {| concurrency_cap := concurrency_cap; queue_cap := queue_cap; latency := latency;
          bandwidth := bandwidth; faults := faults; size_tier := size_tier |}.

Definition de_MountConfig (v : V) : option MountConfig :=
  m ← as_struct ["fs_name"; "subtype"; "auto_unmount"; "default_permissions"; "read_only"; "direct_io"] v;
  fs_name ← field as_str m "fs_name" (Some default_fs_name);
  subtype ← field as_str m "subtype" (Some default_subtype);
  auto_unmount ← field as_bool m "auto_unmount" (Some default_true);
  default_permissions ← field as_bool m "default_permissions" (Some default_true);
  read_only ← field as_bool m "read_only" (Some false);
  direct_io ← field as_bool m "direct_io" (Some false);
  Some {| fs_name := fs_name; subtype := subtype; auto_unmount := auto_unmount;
          default_permissions := default_permissions; read_only := read_only; direct_io := direct_io |}.

Definition de_FilesConfig (v : V) : option FilesConfig :=
  m ← as_struct ["inode_count"; "file_size_bytes"; "root_layout"; "write_mode"] v;
  inode_count ← field as_u64 m "inode_count" (Some default_inode_count);
  file_size_bytes ← field as_u64 m "file_size_bytes" (Some default_file_size_bytes);
  root_layout ← field de_RootLayout m "root_layout" (Some Flat);
  write_mode ← field de_WriteMode m "write_mode" (Some Discard);
  Some {| inode_count := inode_count; file_size_bytes := file_size_bytes; root_layout := root_layout;
          write_mode := write_mode |}.

Definition de_MetricsConfig (v : V) : option MetricsConfig :=
  m ← as_struct ["jsonl_path"] v;
  jsonl_path ← opt_field as_str m "jsonl_path";
  Some {| jsonl_path := jsonl_path |}.

(** A [HashMap] keyed by operations: every key must name one. *)
Definition de_entry (e : string * V) : option (FsOp * OpPolicy) :=
  op ← op_from_str e.1; p ← de_OpPolicy e.2; Some (op, p).

Definition de_ops (v : V) : option (gmap FsOp OpPolicy) :=
  m ← as_map v; list_to_map <$> mapM de_entry m.

Definition de_Config (v : V) : option Config :=
  m ← as_struct ["seed"; "mount"; "files"; "ops"; "metrics"] v;
  seed ← field as_u64 m "seed" (Some default_seed);
  mount ← field de_MountConfig m "mount" (Some default_MountConfig);
  files ← field de_FilesConfig m "files" (Some default_FilesConfig);
  ops ← field de_ops m "ops" (Some ∅);
  metrics ← field de_MetricsConfig m "metrics" (Some default_MetricsConfig);
  Some {| seed := seed; mount := mount; files := files; ops := ops; metrics := metrics |}.

(** ** Serialization

    It fails when the format cannot represent an integer, and for a path that
    is not UTF-8. *)

Definition se_FsOp (op : FsOp) : V := of_variant (op_as_str op).

Definition se_LatencyProfile (l : LatencyProfile) : option V :=
  base ← of_u64 (base_us l);
  max ← of_u64 (max_us l);
  Some (of_map [("base_us", base); ("lognormal_median_us", of_f64 (lognormal_median_us l));
                ("lognormal_sigma", of_f64 (lognormal_sigma l)); ("pareto_weight", of_f64 (pareto_weight l));
                ("pareto_xm_us", of_f64 (pareto_xm_us l)); ("pareto_alpha", of_f64 (pareto_alpha l));
                ("max_us", max)]).

Definition se_BandwidthProfile (b : BandwidthProfile) : option V :=
  burst ← of_u64 (burst_bytes b);
  Some (of_map [("bytes_per_sec", of_f64 (bytes_per_sec b)); ("burst_bytes", burst)]).

Definition se_FaultRule (r : FaultRule) : V :=
  of_map [("op", se_FsOp (rule_op r)); ("errno", of_i32 (rule_errno r)); ("rate", of_f64 (rule_rate r))].

Definition se_LargeTierPolicy (l : LargeTierPolicy) : option V :=
  latency ← se_LatencyProfile (large_latency l);
  bandwidth ← se_opt se_BandwidthProfile (large_bandwidth l);
  Some (of_map ([("latency", latency)] ++ opt_entry "bandwidth" bandwidth ++
                [("faults", of_seq (se_FaultRule <$> large_faults l))])).

Definition se_SizeTier (t : SizeTier) : option V :=
  threshold ← of_u64 (threshold_bytes t);
  large ← se_LargeTierPolicy (large t);
  Some (of_map [("threshold_bytes", threshold); ("large", large)]).

Definition se_OpPolicy (p : OpPolicy) : option V :=
  cap ← of_u64 (concurrency_cap p);
  queue ← of_u64 (queue_cap p);
  latency ← se_LatencyProfile (latency p);
  bandwidth ← se_opt se_BandwidthProfile (bandwidth p);
  tier ← se_opt se_SizeTier (size_tier p);
  Some (of_map ([("concurrency_cap", cap); ("queue_cap", queue); ("latency", latency)] ++
                opt_entry "bandwidth" bandwidth ++
                [("faults", of_seq (se_FaultRule <$> faults p))] ++ opt_entry "size_tier" tier)).

Definition se_MountConfig (c : MountConfig) : V :=
  of_map [("fs_name", of_str (fs_name c)); ("subtype", of_str (subtype c));
          ("auto_unmount", of_bool (auto_unmount c)); ("default_permissions", of_bool (default_permissions c));
          ("read_only", of_bool (read_only c)); ("direct_io", of_bool (direct_io c))].

Definition se_FilesConfig (c : FilesConfig) : option V :=
  count ← of_u64 (inode_count c);
  size ← of_u64 (file_size_bytes c);
  Some (of_map [("inode_count", count); ("file_size_bytes", size);
                ("root_layout", of_variant match root_layout c with Flat => "flat" end);
                ("write_mode", of_variant match write_mode c with Discard => "discard" end)]).

Definition se_PathBuf (path : string) : option V := of_str <$> to_str path.

Definition se_MetricsConfig (c : MetricsConfig) : option V :=
  path ← se_opt se_PathBuf (jsonl_path c);
  Some (of_map (opt_entry "jsonl_path" path)).

Definition se_entry (e : FsOp * OpPolicy) : option (string * V) :=
  v ← se_OpPolicy e.2; Some (op_as_str e.1, v).

Definition se_ops (m : gmap FsOp OpPolicy) : option V := of_map <$> mapM se_entry (map_to_list m).

Definition se_Config (c : Config) : option V :=
  seed ← of_u64 (seed c);
  files ← se_FilesConfig (files c);
  ops ← se_ops (ops c);
  metrics ← se_MetricsConfig (metrics c);
  Some (of_map [("seed", seed); ("mount", se_MountConfig (mount c)); ("files", files); ("ops", ops);
                ("metrics", metrics)]).
End Serde.

(** ** Types *)

Record latency_typed (l : LatencyProfile) : Prop := {
  lt_base : is_u64 (base_us l);
  lt_median : valid (lognormal_median_us l);
  lt_sigma : valid (lognormal_sigma l);
  lt_weight : valid (pareto_weight l);
  lt_xm : valid (pareto_xm_us l);
  lt_alpha : valid (pareto_alpha l);
  lt_max : is_u64 (max_us l)
}.

Definition bandwidth_typed (b : BandwidthProfile) : Prop := valid (bytes_per_sec b) /\ is_u64 (burst_bytes b).

Definition opt_typed {A} (P : A -> Prop) (x : option A) : Prop := match x with Some y => P y | None => True end.

Definition fault_typed (r : FaultRule) : Prop := valid (rule_rate r).

Record large_typed (l : LargeTierPolicy) : Prop := {
  lg_latency : latency_typed (large_latency l);
  lg_bandwidth : opt_typed bandwidth_typed (large_bandwidth l);
  lg_faults : Forall fault_typed (large_faults l)
}.

Definition tier_typed (t : SizeTier) : Prop := is_u64 (threshold_bytes t) /\ large_typed (large t).

Record policy_typed (p : OpPolicy) : Prop := {
  pt_cap : is_u64 (concurrency_cap p);
  pt_queue : is_u64 (queue_cap p);
  pt_latency : latency_typed (latency p);
  pt_bandwidth : opt_typed bandwidth_typed (bandwidth p);
  pt_faults : Forall fault_typed (faults p);
  pt_tier : opt_typed tier_typed (size_tier p)
}.

(** Every field in the range of its type. *)
Record config_wt (c : Config) : Prop := {
  ct_seed : is_u64 (seed c);
  ct_inode_count : is_u64 (inode_count (files c));
  ct_file_size : is_u64 (file_size_bytes (files c));
  ct_ops : map_Forall (fun _ p => policy_typed p) (ops c)
}.

Lemma default_latency_typed : latency_typed default_LatencyProfile.
Proof. by split; vm_compute. Qed.

Lemma default_policy_typed : policy_typed default_OpPolicy.
Proof. by split; vm_compute. Qed.

(** Opens a deserializer: one equation per field. *)
Ltac open_de E := repeat (apply bind_Some in E as (? & ? & E)); simplify_eq.

Section Typing.
Context {V : Type} `{FormatLaws V}.

Lemma field_typed {A} (P : A -> Prop) (de : V -> option A) m name missing x :
  field de m name missing = Some x -> (forall v y, de v = Some y -> P y) ->
  (forall y, missing = Some y -> P y) -> P x.
Proof. unfold field. case_match; eauto. Qed.

Lemma opt_field_typed {A} (P : A -> Prop) (de : V -> option A) m name x :
  opt_field de m name = Some x -> (forall v y, de v = Some y -> P y) -> opt_typed P x.
Proof.
  intros E Hde. apply (field_typed (opt_typed P)) in E; [exact E| |by intros y [= <-]].
  intros v y Ey. apply fmap_Some in Ey as (z & Ez & ->). by eapply Hde.
Qed.

Lemma de_Vec_typed {A} (P : A -> Prop) (de : V -> option A) v l :
  de_Vec de v = Some l -> (forall v y, de v = Some y -> P y) -> Forall P l.
Proof.
  unfold de_Vec. intros (vs & _ & E)%bind_Some Hde. apply mapM_Some_1 in E.
  induction E; constructor; eauto.
Qed.

(** The range of a field from its deserializer and its default. *)
Ltac typed_field :=
  match goal with
  | E : field _ _ _ _ = Some ?x |- ?P ?x =>
      eapply (field_typed P) in E; [exact E|eauto using as_u64_range, as_f64_valid|intros ? [= <-]; by vm_compute]
  end.

Lemma de_LatencyProfile_typed v l : de_LatencyProfile v = Some l -> latency_typed l.
Proof. unfold de_LatencyProfile. intros E. open_de E. split; cbn; typed_field. Qed.

Lemma f64_1024_valid : valid f64_1024.
Proof. by vm_compute. Qed.

Lemma de_BandwidthProfile_typed v b : de_BandwidthProfile v = Some b -> bandwidth_typed b.
Proof.
  unfold de_BandwidthProfile. intros (raw & E & ->)%fmap_Some. unfold de_BandwidthProfileRaw in E. open_de E.
  split; cbn.
  - apply f64_mul_valid; [apply f64_mul_valid|]; try apply f64_1024_valid.
    eapply (field_typed valid); [eassumption|apply as_f64_valid|done].
  - typed_field.
Qed.

Lemma de_FaultRule_typed v r : de_FaultRule v = Some r -> fault_typed r.
Proof.
  unfold de_FaultRule. intros E. open_de E. unfold de_FaultRuleRaw in *.
  match goal with E : (as_struct _ _ ≫= _) = Some _ |- _ => open_de E end.
  unfold fault_from_raw in *. cbn in *. repeat case_match; simplify_eq. unfold fault_typed. cbn. typed_field.
Qed.

Lemma de_LargeTierPolicy_typed v l : de_LargeTierPolicy v = Some l -> large_typed l.
Proof.
  unfold de_LargeTierPolicy. intros E. open_de E. split; cbn.
  - eapply (field_typed latency_typed); [eassumption|eauto using de_LatencyProfile_typed|].
    intros ? [= <-]. apply default_latency_typed.
  - eapply opt_field_typed; eauto using de_BandwidthProfile_typed.
  - eapply (field_typed (Forall fault_typed)); [eassumption| |by intros ? [= <-]].
    intros. eapply de_Vec_typed; eauto using de_FaultRule_typed.
Qed.

Lemma de_SizeTier_typed v t : de_SizeTier v = Some t -> tier_typed t.
Proof.
  unfold de_SizeTier. intros E. open_de E. split; cbn; [typed_field|].
  eapply (field_typed large_typed); [eassumption|eauto using de_LargeTierPolicy_typed|done].
Qed.

Lemma de_OpPolicy_typed v p : de_OpPolicy v = Some p -> policy_typed p.
Proof.
  unfold de_OpPolicy. intros E. open_de E. split; cbn; [typed_field|typed_field|..].
  - eapply (field_typed latency_typed); [eassumption|eauto using de_LatencyProfile_typed|].
    intros ? [= <-]. apply default_latency_typed.
  - eapply opt_field_typed; eauto using de_BandwidthProfile_typed.
  - eapply (field_typed (Forall fault_typed)); [eassumption| |by intros ? [= <-]].
    intros. eapply de_Vec_typed; eauto using de_FaultRule_typed.
  - eapply opt_field_typed; eauto using de_SizeTier_typed.
Qed.

Lemma de_ops_typed v m : de_ops v = Some m -> map_Forall (fun _ p => policy_typed p) m.
Proof.
  unfold de_ops. intros (es & _ & (l & E & ->)%fmap_Some)%bind_Some.
  assert (Hl : Forall (fun e : FsOp * OpPolicy => policy_typed e.2) l).
  { apply mapM_Some_1 in E. induction E as [|e e' m l Ee _ IH]; constructor; [|exact IH].
    unfold de_entry in Ee. open_de Ee. cbn. by eapply de_OpPolicy_typed. }
  clear E. induction Hl as [|[op p] l Hp _ IH]; [apply map_Forall_empty|].
  cbn [list_to_map foldr]. by apply map_Forall_insert_2.
Qed.

Lemma de_FilesConfig_typed v c :
  de_FilesConfig v = Some c -> is_u64 (inode_count c) /\ is_u64 (file_size_bytes c).
Proof. unfold de_FilesConfig. intros E. open_de E. split; cbn; typed_field. Qed.

Lemma de_Config_typed v c : de_Config v = Some c -> config_wt c.
Proof.
  unfold de_Config. intros E. open_de E.
  match goal with E : field de_FilesConfig _ _ _ = Some ?f |- _ =>
    assert (is_u64 (inode_count f) /\ is_u64 (file_size_bytes f)) as [Hc Hs] end.
  { eapply (field_typed (fun f => is_u64 (inode_count f) /\ is_u64 (file_size_bytes f)));
      [eassumption|eauto using de_FilesConfig_typed|intros ? [= <-]; by vm_compute]. }
  split; cbn; [typed_field|exact Hc|exact Hs|].
  eapply (field_typed (map_Forall (fun _ p => policy_typed p))); [eassumption|eauto using de_ops_typed|].
  intros ? [= <-]. apply map_Forall_empty.
Qed.
End Typing.

(** ** Round trips

    What is written is read back, except where the reader asks for other
    fields than the writer produces: a bandwidth profile is written in bytes
    and read in mebibytes, a fault's errno is written as a number and read as
    a name. *)

Definition readable_triple (b : option BandwidthProfile) (f : list FaultRule) : bool :=
  match b, f with None, [] => true | _, _ => false end.

Definition readable_large (l : LargeTierPolicy) : bool := readable_triple (large_bandwidth l) (large_faults l).

Definition readable_policy (p : OpPolicy) : bool :=
  readable_triple (bandwidth p) (faults p) &&
  match size_tier p with Some t => readable_large (large t) | None => true end.

Definition readable_config (c : Config) : bool :=
  forallb (fun e => readable_policy e.2) (map_to_list (ops c)).

Section RoundTrip.
Context {V : Type} `{FormatLaws V}.

Lemma as_struct_of_map names (m : list (string * V)) : NoDup m.*1 -> as_struct names (of_map m) = Some m.
Proof. intros Hm. unfold as_struct. by rewrite as_of_map. Qed.

(** Whatever is read from the entries of a struct. *)
Lemma by_position {A} names (k : list (string * V) -> option A) v vs :
  NoDup names -> as_map v = None -> as_fields (length names) v = Some vs ->
  as_struct names v ≫= k = as_struct names (of_map (zip names vs)) ≫= k.
Proof.
  intros Hnd Hm Hf. rewrite as_struct_of_map; [by unfold as_struct; rewrite Hm, Hf|].
  clear Hf. revert vs. induction Hnd as [|name names Hname _ IH]; intros [|w vs]; [by apply NoDup_nil_2..|].
  cbn. apply NoDup_cons. split; [|apply IH]. intros Hin. apply Hname.
  apply list_elem_of_fmap in Hin as ([n w'] & -> & Hin). by eapply elem_of_zip_l in Hin.
Qed.

(** Reading back a written struct: its entries, which have distinct names. *)
Ltac read_map := rewrite as_struct_of_map by (apply (bool_decide_unpack _); by vm_compute); cbn [mbind option_bind].

(** One field of it. *)
Ltac read_fields :=
  unfold field, opt_field, field; cbn [get String.eqb Ascii.eqb Bool.eqb app opt_entry];
  repeat (first [erewrite as_of_u64 by eassumption | rewrite as_of_f64 by eassumption
                | rewrite as_of_bool | rewrite as_of_str | rewrite as_of_variant]; cbn [mbind option_bind fmap option_fmap option_map]).

Lemma latency_round_trip l v :
  latency_typed l -> se_LatencyProfile l = Some v -> de_LatencyProfile v = Some l.
Proof.
  intros [] E. unfold se_LatencyProfile in E. open_de E. unfold de_LatencyProfile. read_map. read_fields.
  by destruct l.
Qed.

Lemma de_se_BandwidthProfile b v : se_BandwidthProfile b = Some v -> de_BandwidthProfile v = None.
Proof.
  intros E. unfold se_BandwidthProfile in E. open_de E. unfold de_BandwidthProfile, de_BandwidthProfileRaw.
  by read_map.
Qed.

Lemma de_se_FaultRule r : de_FaultRule (se_FaultRule r) = None.
Proof.
  unfold de_FaultRule, de_FaultRuleRaw, se_FaultRule, se_FsOp, de_FsOp. read_map. read_fields.
  by rewrite op_from_as_str; cbn; rewrite as_str_of_i32.
Qed.

(** The bandwidth and the faults of a policy, as they come back. *)
Lemma de_se_faults (f : list FaultRule) :
  de_Vec de_FaultRule (of_seq (se_FaultRule <$> f) : V) = match f with [] => Some [] | _ => None end.
Proof.
  unfold de_Vec. rewrite as_of_seq. cbn [mbind option_bind]. destruct f as [|r f]; [done|].
  cbn. by rewrite de_se_FaultRule.
Qed.

Lemma se_opt_bandwidth b (w : option V) :
  se_opt se_BandwidthProfile b = Some w ->
  b = None /\ w = None \/ exists b' v, b = Some b' /\ w = Some v /\ de_BandwidthProfile v = None.
Proof.
  destruct b as [b|]; cbn; [|intros [= <-]; by left].
  intros (v & E & ->)%fmap_Some. right.
  exists b, v. by eauto using de_se_BandwidthProfile.
Qed.

Lemma large_round_trip l v :
  large_typed l -> se_LargeTierPolicy l = Some v ->
  de_LargeTierPolicy v = if readable_large l then Some l else None.
Proof.
  intros [Hl _ _] E. unfold se_LargeTierPolicy in E. open_de E.
  match goal with E : se_opt _ _ = Some _ |- _ => apply se_opt_bandwidth in E as [[Eb ->]|(b & vb & Eb & -> & Hb)] end;
    unfold de_LargeTierPolicy; cbn [opt_entry app]; read_map; read_fields;
    (erewrite latency_round_trip by eassumption); cbn [mbind option_bind];
    unfold readable_large, readable_triple; destruct l as [ll lb lf]; cbn in *; subst lb;
    [|by rewrite Hb].
  rewrite de_se_faults. by destruct lf.
Qed.

Lemma tier_round_trip t v :
  tier_typed t -> se_SizeTier t = Some v ->
  de_SizeTier v = if readable_large (large t) then Some t else None.
Proof.
  intros [_ Hl] E. unfold se_SizeTier in E. open_de E. unfold de_SizeTier. read_map. read_fields.
  erewrite large_round_trip by eassumption. by destruct t as [th lg], (readable_large _).
Qed.

Lemma se_opt_tier t (w : option V) :
  opt_typed tier_typed t -> se_opt se_SizeTier t = Some w ->
  t = None /\ w = None \/
  exists t' v, t = Some t' /\ w = Some v /\
    de_SizeTier v = if readable_large (large t') then Some t' else None.
Proof.
  destruct t as [t|]; cbn; [|intros _ [= <-]; by left].
  intros Ht (v & E & ->)%fmap_Some. right. exists t, v. by eauto using tier_round_trip.
Qed.

Lemma policy_round_trip p v :
  policy_typed p -> se_OpPolicy p = Some v ->
  de_OpPolicy v = if readable_policy p then Some p else None.
Proof.
  intros [_ _ Hl _ _ Ht] E. unfold se_OpPolicy in E. open_de E.
  match goal with E : se_opt se_SizeTier _ = Some _ |- _ => apply (se_opt_tier _ _ Ht) in E as [[Et ->]|(t & vt & Et & -> & Htier)] end;
  match goal with E : se_opt _ _ = Some _ |- _ => apply se_opt_bandwidth in E as [[Eb ->]|(b & vb & Eb & -> & Hb)] end;
    unfold de_OpPolicy; cbn [opt_entry app]; read_map; read_fields;
    (erewrite latency_round_trip by eassumption); cbn [mbind option_bind];
    unfold readable_policy, readable_triple; destruct p as [pc pq pl pb pf pt]; cbn in *; subst pb pt;
    rewrite ?Hb, ?de_se_faults, ?Htier; cbn; try done; destruct pf; cbn; try done.
  by destruct (readable_large (large t)).
Qed.

Lemma entry_round_trip e kv :
  policy_typed e.2 -> se_entry e = Some kv ->
  kv.1 = op_as_str e.1 /\ de_entry kv = if readable_policy e.2 then Some e else None.
Proof.
  unfold se_entry, de_entry. intros Ht E. open_de E. cbn [fst snd]. rewrite op_from_as_str.
  cbn [mbind option_bind]. split; [done|]. erewrite policy_round_trip by eassumption.
  destruct e as [op p]; cbn. by destruct (readable_policy p).
Qed.

Lemma entries_round_trip l (kvs : list (string * V)) :
  Forall (fun e : FsOp * OpPolicy => policy_typed e.2) l -> mapM se_entry l = Some kvs ->
  kvs.*1 = op_as_str <$> l.*1 /\
  mapM de_entry kvs = if forallb (fun e => readable_policy e.2) l then Some l else None.
Proof.
  intros Ht E%mapM_Some_1. induction E as [|e kv l kvs He _ IH]; [done|].
  apply Forall_cons in Ht as [Hp Ht]. destruct (IH Ht) as [IH1 IH2].
  destruct (entry_round_trip e kv Hp He) as [Hk Hd]. split; [cbn; congruence|].
  cbn [mapM forallb]. rewrite Hd, IH2. by destruct (readable_policy e.2), (forallb _ l).
Qed.

Lemma ops_round_trip (m : gmap FsOp OpPolicy) v :
  map_Forall (fun _ p => policy_typed p) m -> se_ops m = Some v ->
  de_ops v = if forallb (fun e => readable_policy e.2) (map_to_list m) then Some m else None.
Proof.
  intros Ht E. unfold se_ops in E. apply fmap_Some in E as (kvs & E & ->).
  destruct (entries_round_trip (map_to_list m) kvs) as [Hk Hd]; [|exact E|].
  { apply Forall_forall. intros [op p] Hin%elem_of_map_to_list. by eapply Ht. }
  unfold de_ops. rewrite as_of_map.
  - cbn [mbind option_bind]. rewrite Hd. case_match; [|done]. cbn. by rewrite list_to_map_to_list.
  - rewrite Hk. apply NoDup_fmap_2_strong; [|apply NoDup_fst_map_to_list].
    intros x y _ _. apply op_as_str_inj.
Qed.

Lemma mount_round_trip c : de_MountConfig (se_MountConfig c : V) = Some c.
Proof. unfold de_MountConfig, se_MountConfig. read_map. read_fields. by destruct c. Qed.

Lemma files_round_trip c (v : V) : se_FilesConfig c = Some v -> de_FilesConfig v = Some c.
Proof.
  intros E. unfold se_FilesConfig in E. open_de E. unfold de_FilesConfig, de_RootLayout, de_WriteMode.
  read_map. read_fields. by destruct c as [? ? [] []].
Qed.

Lemma metrics_round_trip c (v : V) : se_MetricsConfig c = Some v -> de_MetricsConfig v = Some c.
Proof.
  intros E. unfold se_MetricsConfig in E. open_de E. unfold de_MetricsConfig. destruct c as [[p|]]; cbn in *.
  - match goal with E : _ = Some _ |- _ => apply fmap_Some in E as (w & E & ->) end.
    unfold se_PathBuf, to_str in *. case_match; simplify_eq/=. read_map. by read_fields.
  - simplify_eq. by read_map.
Qed.

Lemma de_se_Config c v :
  config_wt c -> se_Config c = Some v ->
  de_Config v = if readable_config c then Some c else None.
Proof.
  intros [_ _ _ Ht] E. unfold se_Config in E. open_de E. unfold de_Config. read_map. read_fields.
  rewrite mount_round_trip. cbn [mbind option_bind]. erewrite files_round_trip by eassumption.
  cbn [mbind option_bind]. erewrite ops_round_trip by eassumption. unfold readable_config.
  destruct (forallb _ _); [|done]. cbn [mbind option_bind]. erewrite metrics_round_trip by eassumption. by destruct c.
Qed.

Lemma de_se_default : exists v : V, se_Config default_Config = Some v /\ de_Config v = Some default_Config.
Proof.
  destruct (of_u64_small 42) as [v1 E1]; [done|]. destruct (of_u64_small 1000) as [v2 E2]; [done|].
  destruct (of_u64_small 65536) as [v3 E3]; [done|].
  assert (E : exists v, se_Config default_Config = Some v).
  { unfold se_Config, se_FilesConfig. cbn [seed files default_Config default_FilesConfig inode_count file_size_bytes].
    change default_seed with 42. change default_inode_count with 1000. change default_file_size_bytes with 65536.
    rewrite E1, E2, E3. cbn. eauto. }
  destruct E as [v E]. exists v. split; [exact E|].
  rewrite (de_se_Config default_Config v); [done| |exact E].
  by split; vm_compute.
Qed.

(** ** Properties *)

(** C31: a configuration that is written and read again comes back as it was
    exactly when no policy has a bandwidth profile or a fault rule; with one,
    in the base policy or in the large tier, the written text is refused. *)
Theorem config_round_trip c v :
  config_wt c -> se_Config c = Some v ->
  de_Config v = if readable_config c then Some c else None.
Proof. apply de_se_Config. Qed.

(** A document without entries is the default configuration, and the
    default configuration can be written and is read back, so the output of
    [print-default-config] is a configuration file. *)
Theorem default_config_readable :
  (forall v : V, as_map v = Some [] -> de_Config v = Some default_Config) /\
  exists v : V, se_Config default_Config = Some v /\ de_Config v = Some default_Config.
Proof.
  split; [intros v E; unfold de_Config, as_struct; by rewrite E|apply de_se_default].
Qed.

(** A struct may be given by position: a sequence of fields reads as the table
    with these fields under their names, at the top as in every policy. *)
Theorem config_by_position (v : V) vs :
  as_map v = None -> as_fields 5 v = Some vs ->
  de_Config v = de_Config (of_map (zip ["seed"; "mount"; "files"; "ops"; "metrics"] vs)).
Proof.
  intros Hm Hf. refine (by_position ["seed"; "mount"; "files"; "ops"; "metrics"] _ v vs _ Hm Hf).
  apply (bool_decide_unpack _). by vm_compute.
Qed.
End RoundTrip.

(** ** A format

    TOML's data model without dates: the parameter can be met. Integers are
    signed words of 64 bits; a float field also takes an integer. *)
Inductive Toml : Type :=
| TString (s : string)
| TInteger (z : Z)
| TFloat (x : f64)
| TBoolean (b : bool)
| TArray (l : list Toml)
| TTable (m : list (string * Toml)).

Definition i64_word (z : Z) : bool := (- 2 ^ 63 <=? z) && (z <? 2 ^ 63).

#[export] Instance toml_format : Format Toml := {|
  as_u64 v := match v with TInteger z => if (0 <=? z) && (z <? 2 ^ 63) then Some z else None | _ => None end;
  as_f64 v :=
    match v with
    | TFloat x => if valid_binary 53 1024 x then Some x else None
    | TInteger z => if i64_word z then Some (f64_of_Z z) else None
    | _ => None
    end;
  as_bool v := match v with TBoolean b => Some b | _ => None end;
  as_str v := match v with TString s => Some s | _ => None end;
  as_seq v := match v with TArray l => Some l | _ => None end;
  as_map v := match v with TTable m => if bool_decide (NoDup m.*1) then Some m else None | _ => None end;
  as_variant v := match v with TString s => Some s | _ => None end;
  as_fields _ v := match v with TArray l => Some l | _ => None end;
  of_u64 n := if (0 <=? n) && (n <? 2 ^ 63) then Some (TInteger n) else None;
  of_i32 := TInteger;
  of_f64 := TFloat;
  of_bool := TBoolean;
  of_str := TString;
  of_seq := TArray;
  of_map := TTable;
  of_variant := TString
|}.

#[export] Instance toml_laws : FormatLaws Toml.
Proof.
  assert (Hw : forall n, (0 <=? n) && (n <? 2 ^ 63) = true -> 0 <= n < 2 ^ 63) by (intros; lia).
  split; cbn [as_u64 as_f64 as_bool as_str as_seq as_map as_variant of_u64 of_i32 of_f64 of_bool of_str of_seq of_map of_variant
    toml_format];
    try done.
  - intros n v E. case_match eqn:Ew; simplify_eq. by rewrite Ew.
  - intros x Hx. unfold valid in Hx. by rewrite Hx.
  - intros m Hm. by rewrite bool_decide_true.
  - intros v n E. destruct v; simplify_eq. case_match eqn:Ew; simplify_eq. apply Hw in Ew. unfold is_u64. lia.
  - intros v y E. destruct v; simplify_eq; case_match eqn:Ew; simplify_eq; [|exact Ew].
    apply f64_of_Z_valid. unfold i64_word in Ew. lia.
  - intros n Hn. case_match eqn:Ew; [eauto|lia].
Qed.

(** ** Witnesses *)

(** Reads limited to one mebibyte per second. *)
Definition throttled_config : Config :=
  {| seed := 42; mount := default_MountConfig; files := default_FilesConfig;
     ops := {[ Read := {| concurrency_cap := 2; queue_cap := 0; latency := default_LatencyProfile;
                          bandwidth := Some {| bytes_per_sec := f64_of_Z 1048576; burst_bytes := 0 |};
                          faults := []; size_tier := None |} ]};
     metrics := {| jsonl_path := Some "events.jsonl" |} |}.

Lemma throttled_config_wt : config_wt throttled_config.
Proof.
  split; try (by vm_compute). apply map_Forall_singleton.
  by split; vm_compute.
Qed.

Definition throttled_text : Toml := default (TTable []) (se_Config throttled_config).

(** A seed, and defaults. *)
Lemma config_by_position_witness :
  option_map seed (de_Config (TArray [TInteger 7])) = Some 7.
Proof.
  rewrite (config_by_position (V := Toml) (TArray [TInteger 7]) [TInteger 7]); reflexivity.
Defined.

Lemma config_round_trip_witness : de_Config throttled_text = None.
Proof. exact (config_round_trip throttled_config throttled_text throttled_config_wt eq_refl). Defined.
