(* ===== verification/EventLog.v ===== *)
(** * The event log, read back

    The derived [Serialize] implementations of [Event] and [Outcome] in
    [fusecraft-core/src/events/mod.rs], over the data formats of the file
    Serde, and what the JSON-lines file of [JsonlEventSink] tells a reader:
    as long as its writes do not fail, the events themselves, in order.
    Composed with the engine's interleaved steps and the buffered writer of
    the file LogWriter, the file of a finished run accounts for every call. *)

From stdpp Require Import base list numbers strings gmap.
From Stdlib Require Import ZArith Lia Bool Ascii.

From S2P Require Import Prelude Word Float Binary64 Time Op Text Concurrency Config SampleKey Sampler.
From S2P Require Import Bandwidth Metrics Events LogWriter Engine EngineSteps Serde.

Local Open Scope Z_scope.

(** What the serialization of events asks of a format beyond [Format]: the
    timestamp is a [u128], and errnos are read back as numbers. *)
Class LogFormat (V : Type) `{Format V} : Type := {
  of_u128 : Z -> option V;
  as_u128 : V -> option Z;
  as_i32 : V -> option Z
}.

(** What a reader of the log relies on: the integers, the names and the entries
    that events are made of are read back as they were written. Events have no
    floats, which JSON cannot hold in full; the laws of configurations,
    [FormatLaws], are not asked of this format. *)
Class LogFormatLaws (V : Type) `{LogFormat V} : Prop := {
  log_as_of_u64 n v : of_u64 n = Some v -> as_u64 v = Some n;
  log_as_of_u128 n v : of_u128 n = Some v -> as_u128 v = Some n;
  log_as_of_i32 n : as_i32 (of_i32 n) = Some n;
  log_as_of_variant s : as_variant (of_variant s) = Some s;
  log_as_of_map m : NoDup m.*1 -> as_map (of_map m) = Some m
}.

(** ** Serialization *)

Section Documents.
Context {V : Type} `{LogFormat V}.

(** [rename_all = lowercase] *)
Definition se_Outcome (o : Outcome) : V := of_variant match o with OutcomeOk => "ok" | OutcomeError => "error" end.

(** The errno is skipped when there is none. *)
Definition se_Event (e : Event) : option V :=
  ts ← of_u128 (ts_unix_nanos e);
  seq ← of_u64 (ev_seq e);
  ino ← of_u64 (ev_ino e);
  offset ← of_u64 (ev_offset e);
  len ← of_u64 (ev_len e);
  queue_wait ← of_u64 (ev_queue_wait_us e);
  latency ← of_u64 (ev_injected_latency_us e);
  bandwidth ← of_u64 (ev_bandwidth_delay_us e);
  total ← of_u64 (ev_total_duration_us e);
  Some (of_map ([("ts_unix_nanos", ts); ("seq", seq); ("op", se_FsOp (ev_op e)); ("ino", ino);
                 ("offset", offset); ("len", len); ("outcome", se_Outcome (ev_outcome e))] ++
                opt_entry "errno" (of_i32 <$> ev_errno e) ++
                [("queue_wait_us", queue_wait); ("injected_latency_us", latency);
                 ("bandwidth_delay_us", bandwidth); ("total_duration_us", total)])).

(** ** A reader

    The repository has none: this is what a consumer of the log can do. *)

Definition read_Outcome (v : V) : option Outcome :=
  s ← as_variant v;
  if String.eqb s "ok" then Some OutcomeOk else if String.eqb s "error" then Some OutcomeError else None.

Definition read_Event (v : V) : option Event :=
  m ← as_map v;
  ts ← field as_u128 m "ts_unix_nanos" None;
  seq ← field as_u64 m "seq" None;
  op ← field de_FsOp m "op" None;
  ino ← field as_u64 m "ino" None;
  offset ← field as_u64 m "offset" None;
  len ← field as_u64 m "len" None;
  outcome ← field read_Outcome m "outcome" None;
  errno ← opt_field as_i32 m "errno";
  queue_wait ← field as_u64 m "queue_wait_us" None;
  latency ← field as_u64 m "injected_latency_us" None;
  bandwidth ← field as_u64 m "bandwidth_delay_us" None;
  total ← field as_u64 m "total_duration_us" None;
  Some {| ts_unix_nanos := ts; ev_seq := seq; ev_op := op; ev_ino := ino; ev_offset := offset; ev_len := len;
          ev_outcome := outcome; ev_errno := errno; ev_queue_wait_us := queue_wait;
          ev_injected_latency_us := latency; ev_bandwidth_delay_us := bandwidth;
          ev_total_duration_us := total |}.

Context `{!LogFormatLaws V}.

Lemma read_se_Outcome o : read_Outcome (se_Outcome o) = Some o.
Proof. unfold read_Outcome, se_Outcome. rewrite log_as_of_variant. by destruct o. Qed.

Lemma de_se_FsOp op : de_FsOp (se_FsOp op : V) = Some op.
Proof. unfold de_FsOp, se_FsOp. rewrite log_as_of_variant. cbn. apply op_from_as_str. Qed.

Lemma event_round_trip_raw e (v : V) : se_Event e = Some v -> read_Event v = Some e.
Proof.
  intros E. unfold se_Event in E. open_de E. unfold read_Event.
  destruct e as [t sq op ino off len out [errno|] qw lat bw tot];
    cbn [opt_entry fmap option_fmap option_map ev_errno app];
    (rewrite log_as_of_map by (apply (bool_decide_unpack _); by vm_compute));
    unfold opt_field, field; cbn [mbind option_bind get String.eqb Ascii.eqb Bool.eqb];
    (erewrite log_as_of_u128 by eassumption);
    repeat (first [erewrite log_as_of_u64 by eassumption | rewrite de_se_FsOp | rewrite read_se_Outcome
                  | rewrite log_as_of_i32]; cbn [mbind option_bind fmap option_fmap option_map]); done.
Qed.
End Documents.

(** ** The file *)

Section LogFile.
Context {V : Type} `{LogFormatLaws V}.

(** The text of a document, [serde_json::to_string] after serialization. *)
Context (print : V -> string) (parse : string -> option V).

Definition log_json (e : Event) : option string := print <$> se_Event e.

Definition read_line (line : string) : option Event := v ← parse line; read_Event v.

Definition read_log (text : string) : option (list Event) := mapM read_line (split_lines text).

Definition representable (e : Event) : Prop := is_Some (se_Event (V := V) e).

(** What the printer does with the document of an event: the text can be
    parsed, and is on one line. *)
Definition line_printer : Prop :=
  forall e v, se_Event e = Some v -> parse (print v) = Some v /\ no_newline (print v) = true.

Lemma log_json_line e json : line_printer -> log_json e = Some json -> no_newline json = true.
Proof. intros Hp (v & Ev & ->)%fmap_Some. by apply (Hp e). Qed.

Lemma read_lines evs :
  line_printer -> Forall representable evs -> mapM read_line (jsonl_lines log_json evs) = Some evs.
Proof.
  intros Hp. induction 1 as [|e evs (v & Ev) _ IH]; [done|].
  assert (Hl : read_line (print v) = Some e).
  { unfold read_line. rewrite (proj1 (Hp e v Ev)). cbn. by apply event_round_trip_raw. }
  assert (Ej : log_json e = Some (print v)) by (unfold log_json; by rewrite Ev).
  unfold jsonl_lines in IH |- *. cbn [omap list_omap]. rewrite Ej. cbn [mapM].
  rewrite Hl. cbn. by rewrite IH.
Qed.

Lemma read_unlines evs :
  line_printer -> Forall representable evs -> read_log (unlines (jsonl_lines log_json evs)) = Some evs.
Proof.
  intros Hp Hr. unfold read_log. rewrite split_unlines; [by apply read_lines|]. apply Forall_forall. intros l Hl.
  unfold jsonl_lines in Hl. apply list_elem_of_omap in Hl as (e & _ & He). by eapply log_json_line.
Qed.

(** The file that the buffered writer leaves behind, when writes do not fail. *)
Lemma read_written capacity os evs :
  line_printer -> Forall harmless os -> Forall representable evs ->
  let w := emit_all (H := writer_sink capacity log_json) (writer_create os) evs in
  (writer_flush w).1 = true /\ read_log (disk (writer_flush w).2) = Some evs.
Proof.
  intros Hp Hos Hr. destruct (run_flush capacity log_json os evs Hos) as (_ & _ & Hok & Hdisk).
  split; [exact Hok|]. rewrite Hdisk. by apply read_unlines.
Qed.

(** ** Properties *)

(** No information is lost: an event that is written as a document is
    read back field by field, the absent errno included. *)
Theorem event_round_trip e (v : V) : se_Event e = Some v -> read_Event v = Some e.
Proof. apply event_round_trip_raw. Qed.

Context (capacity : nat).

#[local] Instance log_sink : EventSink Writer := writer_sink capacity log_json.

(** C16: the log accounts for the run: when the threads of an engine that
    writes to a JSON-lines file are idle, however their calls interleaved and
    whatever the capacity of the buffer, and no write to the file fails, then
    the final flush succeeds and leaves a file that reads back as a list of
    events with one event per call begun, and the recorded metrics are those of
    exactly these events. *)
Theorem engine_log_read_back {R} `{Rng R} `{Libm} {HI} `{Histogram HI} {T W} config nows (w0 : W) os
    (s : Shared Writer HI T W) :
  line_printer -> Forall harmless os -> engine_reachable (R := R) config (writer_create os) nows w0 s ->
  (forall i p, ops_in s !! i = Some p -> p = Ready) -> Forall representable (log s) ->
  let (ok, sink) := writer_flush (events (eng s)) in
  ok = true /\
  exists evs, read_log (disk sink) = Some evs /\
    (ev_seq <$> evs) ≡ₚ wrap64 <$> seqZ 0 (begun s) /\
    exists recorded, recorded ≡ₚ sample_of_event <$> evs /\
      eng_metrics (eng s) = record_all recorder_new recorded.
Proof.
  intros Hp Hos Hr Hidle Hrep. destruct (reachable_history _ _ _ _ s Hr) as [_ _ Hseqs Hsam Hsink Hmet].
  assert (Hnil : forall B (f : op_phase T W -> list B), f Ready = [] -> ops_in s ≫= f = []).
  { intros B f Hf. apply bind_nil. intros i p Hi. by rewrite (Hidle i p Hi). }
  rewrite Hnil, app_nil_r in Hseqs, Hsam by done.
  pose proof (read_written capacity os (log s) Hp Hos Hrep) as [Hok Hread].
  change (emit_all (writer_create os) (log s)) with (fold_left emit (log s) (writer_create os)) in Hok, Hread.
  rewrite Hsink. destruct (writer_flush _) as [ok sink]. cbn [fst snd] in *. split; [exact Hok|].
  exists (log s). split; [exact Hread|]. split; [exact Hseqs|]. exists (samples s). by split.
Qed.
End LogFile.

(** ** A format with text

    Trees whose leaves are the scalars, printed in binary: the parameters can
    be met. *)

Definition Scalar : Type := string + (Z + (bool + (nat * bool * positive * Z))).

Definition f64_code (x : f64) : nat * bool * positive * Z :=
  match x with
  | S754_zero s => (0%nat, s, 1%positive, 0)
  | S754_infinity s => (1%nat, s, 1%positive, 0)
  | S754_nan => (2%nat, true, 1%positive, 0)
  | S754_finite s m e => (3%nat, s, m, e)
  end.

Definition code_f64 (c : nat * bool * positive * Z) : f64 :=
  let '(k, s, m, e) := c in
  match k with 0%nat => S754_zero s | 1%nat => S754_infinity s | 2%nat => S754_nan | _ => S754_finite s m e end.

Lemma code_f64_code x : code_f64 (f64_code x) = x.
Proof. by destruct x. Qed.

Definition Tree : Type := gen_tree Scalar.

Definition tree_entry (v : Tree) : option (string * Tree) :=
  match v with GenNode 2 [GenLeaf (inl k); v] => Some (k, v) | _ => None end.

Definition u64_word (n : Z) : bool := (0 <=? n) && (n <=? U64_MAX).

#[export] Instance tree_format : Format Tree := {|
  as_u64 v := match v with GenLeaf (inr (inl n)) => if u64_word n then Some n else None | _ => None end;
  as_f64 v :=
    match v with
    | GenLeaf (inr (inr (inr c))) => let x := code_f64 c in if valid_binary 53 1024 x then Some x else None
    | _ => None
    end;
  as_bool v := match v with GenLeaf (inr (inr (inl b))) => Some b | _ => None end;
  as_str v := match v with GenLeaf (inl s) => Some s | _ => None end;
  as_seq v := match v with GenNode 0 l => Some l | _ => None end;
  as_map v := match v with GenNode 1 l => mapM tree_entry l | _ => None end;
  as_variant v := match v with GenLeaf (inl s) => Some s | _ => None end;
  as_fields n v := match v with GenNode 0 l => if (length l <=? n)%nat then Some l else None | _ => None end;
  of_u64 n := if u64_word n then Some (GenLeaf (inr (inl n))) else None;
  of_i32 n := GenLeaf (inr (inl n));
  of_f64 x := GenLeaf (inr (inr (inr (f64_code x))));
  of_bool b := GenLeaf (inr (inr (inl b)));
  of_str s := GenLeaf (inl s);
  of_seq l := GenNode 0 l;
  of_map m := GenNode 1 ((fun e => GenNode 2 [GenLeaf (inl e.1); e.2]) <$> m);
  of_variant s := GenLeaf (inl s)
|}.

#[export] Instance tree_log_format : LogFormat Tree := {|
  of_u128 n := Some (GenLeaf (inr (inl n)));
  as_u128 v := match v with GenLeaf (inr (inl n)) => Some n | _ => None end;
  as_i32 v := match v with GenLeaf (inr (inl n)) => Some n | _ => None end
|}.

Lemma u64_word_spec n : u64_word n = true <-> is_u64 n.
Proof. unfold u64_word, is_u64, U64_MAX. lia. Qed.

#[export] Instance tree_laws : FormatLaws Tree.
Proof.
  split; cbn.
  - intros n v E. destruct (u64_word n) eqn:Hn; [|done]. simplify_eq. cbn. by rewrite Hn.
  - intros x Hx. rewrite code_f64_code. unfold valid in Hx. by rewrite Hx.
  - done.
  - done.
  - done.
  - intros m _. induction m as [|[k v] m IH]; [done|]. cbn. by rewrite IH.
  - done.
  - intros v n E. destruct v as [[?|[n'|?]]|]; try done. destruct (u64_word n') eqn:Hn; simplify_eq.
    by apply u64_word_spec.
  - intros v x E. destruct v as [[?|[?|[?|c]]]|]; try done. destruct (valid_binary 53 1024 (code_f64 c)) eqn:Hv; by simplify_eq.
  - done.
  - intros n Hn. destruct (u64_word n) eqn:E; [eauto|]. exfalso.
    assert (u64_word n = true) by (apply u64_word_spec; unfold is_u64; lia). congruence.
Qed.

#[export] Instance tree_log_laws : LogFormatLaws Tree.
Proof.
  split; cbn [of_u128 as_u128 of_i32 as_i32 tree_log_format]; [apply as_of_u64|by intros n v [= <-]|done|done|apply as_of_map].
Qed.

Fixpoint print_pos (p : positive) : string :=
  match p with xH => "" | xO p => String "0"%char (print_pos p) | xI p => String "1"%char (print_pos p) end.

Fixpoint parse_pos (s : string) : option positive :=
  match s with
  | EmptyString => Some xH
  | String c s =>
      p ← parse_pos s;
      if bool_decide (c = "0"%char) then Some (xO p) else if bool_decide (c = "1"%char) then Some (xI p) else None
  end.

Definition print_tree (v : Tree) : string := print_pos (encode v).
Definition parse_tree (s : string) : option Tree := p ← parse_pos s; decode p.

Lemma tree_line_printer : line_printer print_tree parse_tree.
Proof.
  intros _ v _. unfold print_tree, parse_tree.
  assert (Hp : forall p, parse_pos (print_pos p) = Some p /\ no_newline (print_pos p) = true).
  { induction p as [p [IH1 IH2]|p [IH1 IH2]|]; cbn; [by rewrite IH1..|done]. }
  destruct (Hp (encode v)) as [H1 H2]. split; [|exact H2]. rewrite H1. cbn. apply decode_encode.
Qed.

(** ** Witnesses *)

Lemma event_round_trip_witness : exists v : Tree, read_Event v = Some (sample_event 7).
Proof.
  assert (E : exists v : Tree, se_Event (sample_event 7) = Some v) by (eexists; by vm_compute).
  destruct E as [v E]. exists v. exact (event_round_trip (sample_event 7) v E).
Defined.

#[local] Instance tree_sink : EventSink Writer := writer_sink DEFAULT_BUF_SIZE (log_json print_tree).

Abbreviation logged := (Shared Writer (list Z) Z Z).

(** A file that takes short writes. *)
Definition log_file : Writer := writer_create [Interrupted; Wrote 100].

(** One read by an engine that logs to it, from its start to its return. *)
Lemma log_demo :
  exists s : logged, engine_reachable (R := unit) demo_config log_file (fun _ => (0, 0)) 0 s /\
    ops_in s = [Ready] /\ begun s = 1 /\ Forall (representable (V := Tree)) (log s).
Proof.
  eexists. split_and!; [exists 1%nat|..].
  - eapply steps_cons; [eexists; by apply (e_begin (e_initial demo_config log_file (fun _ => (0, 0)) 0 1) 0 small_read demo_body 0)|].
    eapply steps_cons; [eexists; eapply (e_acquire _ 0 demo_call demo_res 10); [done|by vm_compute|reflexivity]|].
    eapply steps_cons; [eexists; eapply (e_draw (R := unit) _ 0 demo_call 0 _ 20); [done|by vm_compute|reflexivity]|].
    eapply steps_cons; [eexists; eapply (e_execute _ 0); [by vm_compute|reflexivity]|].
    eapply steps_cons; [eexists; eapply (e_emit _ 0 _ _ _ _ demo_clock); reflexivity|].
    eapply steps_cons; [eexists; eapply (e_record _ 0); reflexivity|].
    eapply steps_cons; [eexists; eapply (e_return _ 0); [reflexivity|]|apply steps_refl].
    apply notify_op_none. intros [|i] c start Hi; by vm_compute in Hi.
  - reflexivity.
  - reflexivity.
  - cbn [log set_threads with_sample with_event set_thread e_initial app]. apply Forall_singleton. eexists. by vm_compute.
Qed.

Lemma engine_log_read_back_witness :
  exists (s : logged) evs, (writer_flush (events (eng s))).1 = true /\
    read_log parse_tree (disk (writer_flush (events (eng s))).2) = Some evs /\ (ev_seq <$> evs) ≡ₚ [0].
Proof.
  destruct log_demo as (s & Hr & Hops & Hb & Hrep).
  pose proof (engine_log_read_back print_tree parse_tree DEFAULT_BUF_SIZE (R := unit) demo_config (fun _ => (0, 0)) 0
    [Interrupted; Wrote 100] s tree_line_printer ltac:(by repeat constructor) Hr) as Hlog.
  exists s. destruct (writer_flush (events (eng s))) as [ok sink]. destruct Hlog as (Hok & evs & E & Hseq & _); [|exact Hrep|].
  - rewrite Hops. intros [|i] p Hp; by simplify_eq/=.
  - exists evs. split; [exact Hok|]. split; [exact E|]. rewrite Hb in Hseq. exact Hseq.
Defined.
