(* ===== verification/TestsCore.v ===== *)
(** * The unit tests of the components

    The [#[cfg(test)]] modules of [fusecraft-core/src/config.rs],
    [namespace/flat.rs], [content/deterministic.rs] and the samplers, run on
    the model: a test is a boolean, the conjunction of its assertions, and a
    suite lists the tests of a module under their names. That no test fails
    ties the definitions to what the authors expect of the code. Tests that
    need the values of the [rand] crate or of the platform's logarithm are run
    over every generator or with an instance of them, as their sections say. *)

From stdpp Require Import base list numbers gmap strings.
From Stdlib Require Import ZArith Lia Bool Ascii.

From S2P Require Import Prelude Word Float Binary64 Op Text Config SampleKey Sampler ParetoTail Content Namespace.
From S2P Require Import Serde.

Local Open Scope Z_scope.

(** ** Assertions *)

(** [s.contains(sub)] *)
Definition contains (s sub : string) : bool :=
  match String.index 0 sub s with Some _ => true | None => false end.

(** [assert_eq!] on a type with decidable equality. *)
Definition assert_eq {A} `{EqDecision A} (x y : A) : bool := bool_decide (x = y).

(** A test that unwraps a value. *)
Definition expect {A} (x : option A) (f : A -> bool) : bool :=
  match x with Some a => f a | None => false end.

Definition expect_ok {A E} (r : result A E) (f : A -> bool) : bool :=
  match r with Ok a => f a | Err _ => false end.

(** [match err { FsError::Config(msg) => assert!(..), other => panic!(..) }] *)
Definition expect_config_error {A} (r : result A FsError) (f : string -> bool) : bool :=
  match r with Err (ConfigError msg) => f msg | _ => false end.

Definition expect_errno {A} (r : result A FsError) (errno : Z) : bool :=
  match r with Err (Errno e) => e =? errno | _ => false end.

(** The names of the tests that fail. *)
Definition failing (suite : list (string * bool)) : list string :=
  fst <$> filter (fun t => t.2 = false) suite.

Lemma failing_nil suite : failing suite = [] <-> Forall (fun t => t.2 = true) suite.
Proof.
  unfold failing. split.
  - intros E%fmap_nil_inv. apply Forall_forall. intros [name []] Hin; [done|].
    exfalso. assert (Hf : (name, false) ∈ filter (fun t : string * bool => t.2 = false) suite)
      by (by apply list_elem_of_filter).
    rewrite E in Hf. by apply not_elem_of_nil in Hf.
  - intros HF. induction HF as [|[name b] suite Hb _ IH]; [done|]. cbn in Hb. subst b. exact IH.
Qed.

(** ** [config.rs] *)

Module ConfigTests.
Section Tests.
(** How Rust prints floats in messages; the tests do not look at it. *)
Context (fmt_f64 : f64 -> string).

Definition make_large_tier : LargeTierPolicy :=
  {| large_latency := default_LatencyProfile; large_bandwidth := None; large_faults := [] |}.

(** [OpPolicy { bandwidth, faults, size_tier, ..OpPolicy::default() }] *)
Definition policy_with (b : option BandwidthProfile) (fs : list FaultRule) (t : option SizeTier) : OpPolicy :=
  {| concurrency_cap := concurrency_cap default_OpPolicy; queue_cap := queue_cap default_OpPolicy;
     latency := latency default_OpPolicy; bandwidth := b; faults := fs; size_tier := t |}.

Definition tier_policy (threshold : Z) (l : LargeTierPolicy) : OpPolicy :=
  policy_with None [] (Some {| threshold_bytes := threshold; large := l |}).

(** [cfg.validate()] for the default configuration with one policy inserted. *)
Definition validate_with (op : FsOp) (p : OpPolicy) : result unit FsError :=
  let cfg := {| seed := seed default_Config; mount := mount default_Config; files := files default_Config;
                ops := <[op := p]> (ops default_Config); metrics := metrics default_Config |} in
  validate fmt_f64 cfg (map_to_list (ops cfg)).

Definition accepted (r : result unit FsError) : bool := expect_ok r (fun _ => true).

Definition validate_rejects_zero_threshold : bool :=
  expect_config_error (validate_with Read (tier_policy 0 make_large_tier))
    (fun msg => contains msg "threshold_bytes").

Definition validate_rejects_size_tier_on_metadata_op : bool :=
  expect_config_error (validate_with Open (tier_policy 1024 make_large_tier))
    (fun msg => contains msg "size_tier" && contains msg "Read or Write").

Definition validate_accepts_size_tier_on_read : bool :=
  accepted (validate_with Read (tier_policy (128 * 1024) make_large_tier)).

Definition validate_accepts_size_tier_on_write : bool :=
  accepted (validate_with Write (tier_policy (128 * 1024) make_large_tier)).

Definition validate_rejects_invalid_large_tier_latency : bool :=
  let lat := {| base_us := 1000; lognormal_median_us := lognormal_median_us default_LatencyProfile;
                lognormal_sigma := lognormal_sigma default_LatencyProfile;
                pareto_weight := pareto_weight default_LatencyProfile;
                pareto_xm_us := pareto_xm_us default_LatencyProfile;
                pareto_alpha := pareto_alpha default_LatencyProfile; max_us := 10 |} in
  expect_config_error
    (validate_with Read (tier_policy 1024
       {| large_latency := lat; large_bandwidth := None; large_faults := [] |}))
    (fun msg => contains msg "size_tier.large.latency.max_us").

Definition fault (op : FsOp) (rate : f64) : FaultRule := {| rule_op := op; rule_errno := EIO; rule_rate := rate |}.

Definition large_with_faults (fs : list FaultRule) : LargeTierPolicy :=
  {| large_latency := default_LatencyProfile; large_bandwidth := None; large_faults := fs |}.

Definition validate_rejects_invalid_large_tier_fault_rate : bool :=
  expect_config_error
    (validate_with Read (tier_policy 1024 (large_with_faults [fault Read (f64_div (f64_of_Z 3) (f64_of_Z 2))])))
    (fun msg => contains msg "size_tier.large.faults" && contains msg "rate").

Definition tenth : f64 := f64_div (f64_of_Z 1) (f64_of_Z 10).

Definition validate_rejects_mismatched_op_in_base_faults : bool :=
  expect_config_error (validate_with Read (policy_with None [fault Write tenth] None))
    (fun msg => contains msg "ops.read.faults" && contains msg "does not match" &&
                contains msg (quoted "write") && contains msg (quoted "read")).

Definition validate_rejects_mismatched_op_in_large_tier_faults : bool :=
  expect_config_error (validate_with Read (tier_policy 1024 (large_with_faults [fault Write tenth])))
    (fun msg => contains msg "ops.read.size_tier.large.faults" && contains msg "does not match").

Definition validate_rejects_non_finite_base_bandwidth : bool :=
  expect_config_error
    (validate_with Read (policy_with (Some {| bytes_per_sec := S754_nan; burst_bytes := 0 |}) [] None))
    (fun msg => contains msg "ops.read.bandwidth" && contains msg "finite").

Definition validate_rejects_non_finite_large_tier_bandwidth : bool :=
  expect_config_error
    (validate_with Read (tier_policy 1024
       {| large_latency := default_LatencyProfile;
          large_bandwidth := Some {| bytes_per_sec := S754_infinity false; burst_bytes := 0 |};
          large_faults := [] |}))
    (fun msg => contains msg "size_tier.large.bandwidth" && contains msg "finite").

(** The document that the text of [size_tier_toml_round_trip] denotes. *)
Definition size_tier_document : Toml :=
  TTable [("seed", TInteger 777);
    ("ops", TTable [("read", TTable [
      ("concurrency_cap", TInteger 8);
      ("latency", TTable [("base_us", TInteger 10)]);
      ("size_tier", TTable [
        ("threshold_bytes", TInteger 131072);
        ("large", TTable [
          ("latency", TTable [("base_us", TInteger 5000); ("max_us", TInteger 100000)]);
          ("bandwidth", TTable [("mib_per_sec", TFloat (f64_of_Z 25)); ("burst_bytes", TInteger 65536)]);
          ("faults", TArray [TTable [("op", TString "read"); ("errno", TString "EIO");
             ("rate", TFloat (f64_div (f64_of_Z 1) (f64_of_Z 100)))]])])])])])].

(** [(a - b).abs() < bound] *)
Definition close (a b bound : f64) : bool := f64_lt (SFabs (f64_sub a b)) bound.

Definition EPSILON : f64 := f64_div (f64_of_Z 1) (f64_of_Z (2 ^ 52)).

Definition size_tier_toml_round_trip : bool :=
  expect (de_Config size_tier_document) (fun cfg =>
    accepted (validate fmt_f64 cfg (map_to_list (ops cfg))) &&
    expect (ops cfg !! Read) (fun read_policy =>
    expect (size_tier read_policy) (fun tier =>
      (threshold_bytes tier =? 131072) &&
      (base_us (large_latency (large tier)) =? 5000) &&
      (max_us (large_latency (large tier)) =? 100000) &&
      expect (large_bandwidth (large tier)) (fun bw =>
        let expected_bps := f64_mul (f64_mul (f64_of_Z 25) f64_1024) f64_1024 in
        close (bytes_per_sec bw) expected_bps f64_one && (burst_bytes bw =? 65536)) &&
      (length (large_faults (large tier)) =? 1)%nat &&
      expect (large_faults (large tier) !! 0%nat) (fun f =>
        (rule_errno f =? EIO) &&
        close (rule_rate f) (f64_div (f64_of_Z 1) (f64_of_Z 100)) EPSILON)))).

Definition suite : list (string * bool) :=
  [("validate_rejects_zero_threshold", validate_rejects_zero_threshold);
   ("validate_rejects_size_tier_on_metadata_op", validate_rejects_size_tier_on_metadata_op);
   ("validate_accepts_size_tier_on_read", validate_accepts_size_tier_on_read);
   ("validate_accepts_size_tier_on_write", validate_accepts_size_tier_on_write);
   ("validate_rejects_invalid_large_tier_latency", validate_rejects_invalid_large_tier_latency);
   ("validate_rejects_invalid_large_tier_fault_rate", validate_rejects_invalid_large_tier_fault_rate);
   ("validate_rejects_mismatched_op_in_base_faults", validate_rejects_mismatched_op_in_base_faults);
   ("validate_rejects_mismatched_op_in_large_tier_faults", validate_rejects_mismatched_op_in_large_tier_faults);
   ("validate_rejects_non_finite_base_bandwidth", validate_rejects_non_finite_base_bandwidth);
   ("validate_rejects_non_finite_large_tier_bandwidth", validate_rejects_non_finite_large_tier_bandwidth);
   ("size_tier_toml_round_trip", size_tier_toml_round_trip)].
End Tests.

End ConfigTests.

(** Every test of [config.rs] passes, however Rust prints floats. *)
Lemma config_tests_pass fmt : failing (ConfigTests.suite fmt) = [].
Proof. by vm_compute. Qed.

(** ** [namespace/flat.rs] *)

Module FlatTests.
Import FlatObjectNamespace.

Section Tests.
(** The credentials of the process and the clock. *)
Context (getuid getgid : Z) (now : SystemTime).

Definition test_config (count : Z) : FilesConfig :=
  {| Config.inode_count := count; Config.file_size_bytes := 4096;
     root_layout := root_layout default_FilesConfig; write_mode := write_mode default_FilesConfig |}.

Definition ns_of (config : FilesConfig) : t := (new config getuid getgid now).1.

Record CollectingSink : Type := {
  entries : list (Z * Z * FileKind * string);
  stop_after : option nat
}.

Definition sink_unbounded : CollectingSink := {| entries := []; stop_after := None |}.

Definition sink_stop_after (n : nat) : CollectingSink := {| entries := []; stop_after := Some n |}.

Definition collect (self : CollectingSink) (ino offset : Z) (kind : FileKind) (name : string) : bool * CollectingSink :=
  let self := {| entries := entries self ++ [(ino, offset, kind, name)]; stop_after := stop_after self |} in
  (match stop_after self with Some n => (length (entries self) <? n)%nat | None => true end, self).

#[local] Instance collecting_sink : DirSink CollectingSink := {| push := collect |}.

(** What a [readdir] that is unwrapped pushed. *)
Definition pushed (count ino offset : Z) (sink : CollectingSink) : option (list (Z * Z * FileKind * string)) :=
  let (r, sink) := readdir (ns_of (test_config count)) ino offset sink in
  match r with Ok _ => Some (entries sink) | Err _ => None end.

Definition is_none {A} (x : option A) : bool := match x with None => true | Some _ => false end.

Definition entry_name (l : list (Z * Z * FileKind * string)) (i : nat) (name : string) : bool :=
  expect (l !! i) (fun e => assert_eq e.2 name).

Definition entry_offset (l : list (Z * Z * FileKind * string)) (i : nat) (offset : Z) : bool :=
  expect (l !! i) (fun e => e.1.1.2 =? offset).

Definition lookup_objects_under_root : bool :=
  expect (lookup (ns_of (test_config 10)) FUSE_ROOT_INO "objects") (fun ino => ino =? OBJECTS_INO).

Definition lookup_rejects_wrong_name_under_root : bool :=
  is_none (lookup (ns_of (test_config 10)) FUSE_ROOT_INO "other").

Definition lookup_file_under_objects : bool :=
  expect (lookup (ns_of (test_config 100)) OBJECTS_INO "000042") (fun ino => ino =? FIRST_FILE_INO + 42).

Definition lookup_rejects_invalid_names : bool :=
  let ns := ns_of (test_config 100) in
  is_none (lookup ns OBJECTS_INO "00042") && is_none (lookup ns OBJECTS_INO "0000042") &&
  is_none (lookup ns OBJECTS_INO "abcdef") && is_none (lookup ns OBJECTS_INO "00004a").

Definition lookup_rejects_out_of_range : bool :=
  let ns := ns_of (test_config 10) in
  is_none (lookup ns OBJECTS_INO "000010") && is_none (lookup ns OBJECTS_INO "000099").

Definition lookup_under_unknown_parent : bool := is_none (lookup (ns_of (test_config 10)) 42 "anything").

Definition attr_root_is_dir : bool :=
  expect (attr (ns_of (test_config 10)) FUSE_ROOT_INO) (fun a =>
    (attr_ino a =? FUSE_ROOT_INO) && assert_eq (attr_kind a) Dir && (attr_mode a =? 493 (* 0o755 *)) && (attr_nlink a =? 2)).

Definition attr_objects_is_dir : bool :=
  expect (attr (ns_of (test_config 10)) OBJECTS_INO) (fun a => assert_eq (attr_kind a) Dir).

Definition attr_file_has_configured_size : bool :=
  expect (attr (ns_of (test_config 10)) (FIRST_FILE_INO + 5)) (fun a =>
    assert_eq (attr_kind a) File && (attr_size a =? 4096) && (attr_mode a =? 420 (* 0o644 *)) && (attr_nlink a =? 1)).

Definition attr_unknown_inode : bool :=
  let ns := ns_of (test_config 10) in is_none (attr ns (FIRST_FILE_INO + 10)) && is_none (attr ns 50).

Definition readdir_root_yields_dot_dotdot_objects : bool :=
  expect (pushed 10 FUSE_ROOT_INO 0 sink_unbounded) (fun es =>
    (length es =? 3)%nat && entry_name es 0 "." && entry_name es 1 ".." && entry_name es 2 "objects" &&
    entry_offset es 2 3).

Definition readdir_root_respects_offset : bool :=
  expect (pushed 10 FUSE_ROOT_INO 2 sink_unbounded) (fun es => (length es =? 1)%nat && entry_name es 0 "objects").

Definition readdir_objects_yields_all_entries : bool :=
  expect (pushed 5 OBJECTS_INO 0 sink_unbounded) (fun es =>
    (length es =? 7)%nat && entry_name es 0 "." && entry_name es 1 ".." &&
    forallb (fun '(idx, (ino, off, kind, name)) =>
        assert_eq name (show_u64_06 (Z.of_nat idx)) && (ino =? FIRST_FILE_INO + Z.of_nat idx) &&
        (off =? 3 + Z.of_nat idx) && assert_eq kind File)
      (imap pair (drop 2 es))).

Definition readdir_objects_respects_offset : bool :=
  expect (pushed 10 OBJECTS_INO 4 sink_unbounded) (fun es => entry_name es 0 "000002" && entry_offset es 0 5).

Definition readdir_stops_when_sink_returns_false : bool :=
  expect (pushed 100 OBJECTS_INO 0 (sink_stop_after 5)) (fun es => (length es =? 5)%nat).

Definition readdir_on_file_returns_enotdir : bool :=
  expect_errno (readdir (ns_of (test_config 10)) FIRST_FILE_INO 0 sink_unbounded).1 ENOTDIR.

(** Through the trait: the methods of the class. *)
Definition usable_via_trait_object : bool :=
  let ns := ns_of (test_config 3) in
  expect (lookup_child ns FUSE_ROOT_INO "objects") (fun ino => ino =? OBJECTS_INO) &&
  expect (Namespace.attr ns FUSE_ROOT_INO) (fun a => assert_eq (attr_kind a) Dir).

Definition clamps_inode_count_at_limit : bool :=
  inode_count (ns_of (test_config 2000000)) =? MAX_FILES - 1.

Definition suite : list (string * bool) :=
  [("lookup_objects_under_root", lookup_objects_under_root);
   ("lookup_rejects_wrong_name_under_root", lookup_rejects_wrong_name_under_root);
   ("lookup_file_under_objects", lookup_file_under_objects);
   ("lookup_rejects_invalid_names", lookup_rejects_invalid_names);
   ("lookup_rejects_out_of_range", lookup_rejects_out_of_range);
   ("lookup_under_unknown_parent", lookup_under_unknown_parent);
   ("attr_root_is_dir", attr_root_is_dir); ("attr_objects_is_dir", attr_objects_is_dir);
   ("attr_file_has_configured_size", attr_file_has_configured_size); ("attr_unknown_inode", attr_unknown_inode);
   ("readdir_root_yields_dot_dotdot_objects", readdir_root_yields_dot_dotdot_objects);
   ("readdir_root_respects_offset", readdir_root_respects_offset);
   ("readdir_objects_yields_all_entries", readdir_objects_yields_all_entries);
   ("readdir_objects_respects_offset", readdir_objects_respects_offset);
   ("readdir_stops_when_sink_returns_false", readdir_stops_when_sink_returns_false);
   ("readdir_on_file_returns_enotdir", readdir_on_file_returns_enotdir);
   ("usable_via_trait_object", usable_via_trait_object);
   ("clamps_inode_count_at_limit", clamps_inode_count_at_limit)].
End Tests.
End FlatTests.

(** Every test of [flat.rs] passes, whatever the credentials and the clock. *)
Lemma flat_tests_pass u g now : failing (FlatTests.suite u g now) = [].
Proof. by vm_compute. Qed.

(** ** [content/deterministic.rs] *)

Module ContentTests.
Import DeterministicContent.

Definition zeros (n : nat) : list Z := replicate n 0.

Definition bytes_of (s : string) : list Z := (fun c => Z.of_N (N_of_ascii c)) <$> list_ascii_of_string s.

(** Every byte of the buffer is the content's at its place. *)
Definition holds_content (buf : list Z) (ino offset seed : Z) : bool :=
  forallb (fun '(i, b) => b =? synth_byte ino (offset + Z.of_nat i) seed) (imap pair buf).

Definition synth_byte_is_deterministic : bool := synth_byte 100 0 1 =? synth_byte 100 0 1.

Definition synth_byte_varies_by_seed : bool :=
  let seeds := (fun s => synth_byte 100 0 s) <$> seqZ 0 32 in
  (4 <? length (remove_dups seeds))%nat.

Definition synth_byte_varies_by_ino_and_offset : bool :=
  negb (synth_byte 100 0 0 =? synth_byte 101 0 0) && negb (synth_byte 100 0 0 =? synth_byte 100 1 0).

Definition read_at_fills_entire_buffer : bool :=
  let c := new 42 1024 in holds_content (read_at c 7 10 (zeros 128)) 7 10 42.

Definition read_at_empty_buffer_is_noop : bool := assert_eq (read_at (new 1 1024) 1 0 []) [].

Definition read_at_does_not_clamp_against_file_len : bool :=
  let buf := read_at (new 1 16) 1 0 (zeros 32) in
  (0 <? length (filter (fun b => b <> 0%Z) buf))%nat.

Definition write_at_returns_len_and_discards : bool :=
  let c := new 1 1024 in
  expect_ok (write_at c 1 0 (bytes_of "hello")) (fun n => n =? 5) &&
  holds_content (read_at c 1 0 (zeros 5)) 1 0 1.

Definition file_len_reports_configured_size : bool := file_len (new 1 65536) 0 =? 65536.

Definition usable_via_trait_object : bool :=
  let c := new 99 128 in
  (length (Content.read_at c 1 0 (zeros 8)) =? 8)%nat && (Content.file_len c 1 =? 128) &&
  expect_ok (Content.write_at c 1 0 (bytes_of "abc")) (fun n => n =? 3).

Definition suite : list (string * bool) :=
  [("synth_byte_is_deterministic", synth_byte_is_deterministic);
   ("synth_byte_varies_by_seed", synth_byte_varies_by_seed);
   ("synth_byte_varies_by_ino_and_offset", synth_byte_varies_by_ino_and_offset);
   ("read_at_fills_entire_buffer", read_at_fills_entire_buffer);
   ("read_at_empty_buffer_is_noop", read_at_empty_buffer_is_noop);
   ("read_at_does_not_clamp_against_file_len", read_at_does_not_clamp_against_file_len);
   ("write_at_returns_len_and_discards", write_at_returns_len_and_discards);
   ("file_len_reports_configured_size", file_len_reports_configured_size);
   ("usable_via_trait_object", usable_via_trait_object)].
End ContentTests.

Lemma content_tests_pass : failing ContentTests.suite = [].
Proof. by vm_compute. Qed.

(** ** [sampler/fault.rs] and [sampler/latency.rs]

    The tests that hold of every generator whose numbers lie in [0, 1) and
    every mathematical library; those that expect draws to differ follow below,
    and the one on the median of the lognormal latencies is a fact on the
    platform's logarithm. *)

Module SamplerTests.
Section Faults.
Context {R : Type} `{Rng R}.

Definition mk_key (op : FsOp) (seq : Z) : SampleKey :=
  {| key_seed := 42; key_op := op; key_ino := 1; key_offset := 0; key_len := 4096; key_seq := seq |}.

Definition rule (op : FsOp) (errno : Z) (rate : f64) : FaultRule :=
  {| rule_op := op; rule_errno := errno; rule_rate := rate |}.

Definition make_rules : list FaultRule :=
  [rule Read EIO f64_half; rule Write ENOSPC f64_one;
   rule Read EAGAIN (f64_div (f64_of_Z 1) (f64_of_Z 10))].

(** [assert_eq!(sample_fault(rules, key(seq)), expected)] for [seq] in [0..n]. *)
Definition always (n : Z) (rules : list FaultRule) (op : FsOp) (expected : option Z) : bool :=
  forallb (fun seq => assert_eq (sample_fault (R := R) rules (mk_key op seq)) expected) (seqZ 0 n).

Definition fault_sampling_is_deterministic : bool :=
  let key := mk_key Read 7 in
  assert_eq (sample_fault (R := R) make_rules key) (sample_fault (R := R) make_rules key).

Definition one_fault_rate_always_faults : bool := always 1000 [rule Write ENOSPC f64_one] Write (Some ENOSPC).

Definition zero_fault_rate_never_faults : bool := always 1000 [rule Read EIO f64_zero] Read None.

Definition fault_respects_op_filter : bool := always 100 [rule Read EIO f64_one] Write None.

Definition no_rules_passes : bool := assert_eq (sample_fault (R := R) [] (mk_key Read 0)) None.

Definition first_matching_rule_wins : bool :=
  always 100 [rule Read EIO f64_one; rule Read EAGAIN f64_one] Read (Some EIO).

Definition fault_suite : list (string * bool) :=
  [("fault_sampling_is_deterministic", fault_sampling_is_deterministic);
   ("one_fault_rate_always_faults", one_fault_rate_always_faults);
   ("zero_fault_rate_never_faults", zero_fault_rate_never_faults);
   ("fault_respects_op_filter", fault_respects_op_filter);
   ("no_rules_passes", no_rules_passes); ("first_matching_rule_wins", first_matching_rule_wins)].
End Faults.

Section Latencies.
Context {R : Type} `{Rng R} `{Libm}.

Definition latency_sampling_is_deterministic : bool :=
  let key := mk_key Read 7 in
  sample_latency_us (R := R) default_LatencyProfile key =? sample_latency_us (R := R) default_LatencyProfile key.

Definition max_100 : LatencyProfile :=
  {| base_us := 0; lognormal_median_us := lognormal_median_us default_LatencyProfile;
     lognormal_sigma := lognormal_sigma default_LatencyProfile;
     pareto_weight := pareto_weight default_LatencyProfile;
     pareto_xm_us := pareto_xm_us default_LatencyProfile;
     pareto_alpha := pareto_alpha default_LatencyProfile; max_us := 100 |}.

Definition latency_sampling_respects_max : bool :=
  forallb (fun seq =>
    let key := {| key_seed := 1; key_op := Read; key_ino := 0; key_offset := 0; key_len := 0; key_seq := seq |} in
    sample_latency_us (R := R) max_100 key <=? 100) (seqZ 0 10000).

Definition base_250 : LatencyProfile :=
  {| base_us := 250; lognormal_median_us := f64_zero; lognormal_sigma := f64_zero; pareto_weight := f64_zero;
     pareto_xm_us := f64_of_Z 1000; pareto_alpha := f64_div (f64_of_Z 3) f64_two; max_us := 1000000 |}.

Definition latency_sampling_respects_base : bool :=
  forallb (fun seq => sample_latency_us (R := R) base_250 (mk_key Read seq) =? 250) (seqZ 0 100).

Definition pareto_tail_fires : bool :=
  let samples := (fun seq => sample_latency_us (R := R) tail_profile (mk_key Read seq)) <$> seqZ 0 100 in
  let above_xm := count (fun s => 1000 <=? s) samples in
  90 <? above_xm.

(** [sampler/mod.rs]: drawing a fault does not change the latency. *)
Definition latency_and_fault_independent : bool :=
  let key := {| key_seed := 7; key_op := Read; key_ino := 1; key_offset := 0; key_len := 0; key_seq := 99 |} in
  let lat := sample_latency_us (R := R) default_LatencyProfile key in
  let _fault := sample_fault (R := R) [rule Read EIO f64_one] key in
  let lat_again := sample_latency_us (R := R) default_LatencyProfile key in
  lat =? lat_again.

Definition latency_suite : list (string * bool) :=
  [("latency_sampling_is_deterministic", latency_sampling_is_deterministic);
   ("latency_sampling_respects_max", latency_sampling_respects_max);
   ("latency_sampling_respects_base", latency_sampling_respects_base);
   ("pareto_tail_fires", pareto_tail_fires);
   ("latency_and_fault_independent", latency_and_fault_independent)].
End Latencies.
End SamplerTests.

Section SamplerTestsPass.
Context {R : Type} `{RngLaws R} `{LibmLaws} `{!PowLaws}.
Import SamplerTests.

Lemma forallb_true {A} (f : A -> bool) l : (forall x, f x = true) -> forallb f l = true.
Proof. intros Hf. induction l as [|x l IH]; [done|]. cbn. by rewrite Hf. Qed.

Lemma assert_eq_true {A} `{EqDecision A} (x y : A) : x = y -> assert_eq x y = true.
Proof. intros ->. by apply bool_decide_eq_true. Qed.

Lemma always_certain n r rest op :
  rule_op r = op -> f64_le f64_one (rule_rate r) = true ->
  always (R := R) n (r :: rest) op (Some (rule_errno r)) = true.
Proof.
  intros Hop Hle. apply forallb_true. intros seq. apply assert_eq_true. by apply sample_fault_certain.
Qed.

Lemma always_none n r op :
  rule_op r <> op \/ f64_le (rule_rate r) f64_zero = true -> always (R := R) n [r] op None = true.
Proof.
  intros Hr. apply forallb_true. intros seq. apply assert_eq_true.
  destruct (decide (rule_op r = op)) as [Hop|Hop]; [|apply sample_fault_other_ops; by repeat constructor].
  destruct Hr as [|Hle]; [done|]. unfold sample_fault. apply first_fault_spec. intros [|m] Hm.
  - rewrite filter_cons_True in Hm by done. by eapply fires_impossible in Hm.
  - destruct Hm as (r' & Hr' & _). by rewrite filter_cons_True in Hr' by done.
Qed.

(** Every test of [fault.rs] but [statistical_rate] passes, whichever the
    generator. *)
Lemma fault_tests_pass : failing (fault_suite (R := R)) = [].
Proof.
  apply failing_nil. repeat (apply Forall_cons; split); cbn [snd].
  - by apply assert_eq_true.
  - by apply (always_certain 1000 (rule Write ENOSPC f64_one)).
  - unfold zero_fault_rate_never_faults. apply always_none. by right.
  - unfold fault_respects_op_filter. apply always_none. by left.
  - by apply assert_eq_true.
  - by apply (always_certain 100 (rule Read EIO f64_one)).
  - done.
Qed.

(** Every draw of this test is from the tail, and at least its scale. *)
Lemma pareto_tail_fires_passes : pareto_tail_fires (R := R) = true.
Proof.
  unfold pareto_tail_fires. rewrite count_fmap, (count_ext _ (fun _ => true)); [by vm_compute|].
  intros seq. apply Z.leb_le.
  apply (pareto_latency_floor tail_profile (mk_key Read seq) 1000 tail_profile_valid tail_profile_ok); [done..|lia|done].
Qed.

(** The tests of [latency.rs] on bounds pass, whichever the generator and the
    mathematical library. *)
Lemma latency_tests_pass : failing (latency_suite (R := R)) = [].
Proof.
  apply failing_nil. repeat (apply Forall_cons; split); cbn [snd].
  - apply Z.eqb_refl.
  - apply forallb_true. intros seq. apply Z.leb_le. by apply sample_latency_le_max_raw.
  - apply forallb_true. intros seq. apply Z.eqb_eq.
    by rewrite (sample_latency_fixed base_250 _ false).
  - apply pareto_tail_fires_passes.
  - apply Z.eqb_refl.
  - done.
Qed.
End SamplerTestsPass.

(** ** Tests that draws differ

    The tests of [sampler/key.rs], and those of the samplers that expect draws
    to differ or to have a rate, on a generator that shows its seed: its first
    number is the seed, the next ones follow at a fixed distance. What they
    test of the repository is that [mix] spreads its keys. The rate is tested
    on the first 250 draws, which is enough for its bounds. The mathematical
    library is a decreasing [ln] with its inverse, so that the normal numbers
    keep apart. *)

#[local] Instance seed_rng : Rng Z :=
  {| seed_from_u64 := fun s => s;
     random_f64 := fun r => (f64_div (f64_of_Z (r / 2 ^ 11)) (f64_of_Z (2 ^ 53)), wrapping_add r 0x9e3779b97f4a7c15) |}.

(** [r.random::<u64>()] *)
Definition random_u64 (r : Z) : Z * Z := (r, wrapping_add r 0x9e3779b97f4a7c15).

#[local] Instance plain_libm : Libm :=
  {| f64_ln := f64_neg; f64_exp := f64_neg; f64_cos := fun x => x; f64_powf := fun x _ => x |}.

Module KeyTests.
Definition base_key (op : FsOp) (seq : Z) : SampleKey :=
  {| key_seed := 42; key_op := op; key_ino := 1; key_offset := 0; key_len := 4096; key_seq := seq |}.

(** [(0..n).map(|_| r.random()).collect()] *)
Fixpoint numbers (n : nat) (r : Z) : list Z :=
  match n with
  | O => []
  | S n => let (v, r) := random_u64 r in v :: numbers n r
  end.

(** [assert_ne!] on the first numbers of two generators. *)
Definition first_differ (r1 r2 : Z) : bool :=
  let (v1, _) := random_u64 r1 in
  let (v2, _) := random_u64 r2 in
  negb (assert_eq v1 v2).

Definition same_key_same_rng : bool :=
  let key := base_key Read 0 in
  assert_eq (numbers 10 (latency_rng key)) (numbers 10 (latency_rng key)).

Definition different_seq_different_rng : bool :=
  first_differ (latency_rng (base_key Read 0)) (latency_rng (base_key Read 1)).

Definition latency_and_fault_streams_differ : bool :=
  let key := base_key Read 0 in first_differ (latency_rng key) (fault_rng key).

Definition different_ops_differ : bool :=
  first_differ (latency_rng (base_key Read 0)) (latency_rng (base_key Write 0)).

(** [fault.rs], with the number of draws, 10000 there, as an argument. *)
Definition statistical_rate (n : Z) : bool :=
  let rules := [SamplerTests.rule Read EIO (f64_div (f64_of_Z 3) (f64_of_Z 10))] in
  let failures := count (fun seq => bool_decide (is_Some (sample_fault (R := Z) rules (SamplerTests.mk_key Read seq)))) (seqZ 0 n) in
  let observed_rate := f64_div (f64_of_Z failures) (f64_of_Z n) in
  f64_le (f64_div (f64_of_Z 25) (f64_of_Z 100)) observed_rate &&
  f64_le observed_rate (f64_div (f64_of_Z 35) (f64_of_Z 100)).

(** Whether two families of keys are given another latency somewhere. *)
Definition some_differ (n : Z) (key key' : Z -> SampleKey) : bool :=
  existsb (fun seq =>
    negb (sample_latency_us (R := Z) default_LatencyProfile (key seq) =?
          sample_latency_us (R := Z) default_LatencyProfile (key' seq))) (seqZ 0 n).

Definition key_of (seed : Z) (op : FsOp) (seq : Z) : SampleKey :=
  {| key_seed := seed; key_op := op; key_ino := 1; key_offset := 0; key_len := 0; key_seq := seq |}.

(** [latency.rs] *)
Definition different_ops_get_different_streams : bool := some_differ 100 (key_of 1 Read) (key_of 1 Write).

(** [sampler/mod.rs] *)
Definition different_seeds_different_results : bool := some_differ 50 (key_of 1 Read) (key_of 2 Read).

Definition suite : list (string * bool) :=
  [("same_key_same_rng", same_key_same_rng); ("different_seq_different_rng", different_seq_different_rng);
   ("latency_and_fault_streams_differ", latency_and_fault_streams_differ);
   ("different_ops_differ", different_ops_differ); ("statistical_rate", statistical_rate 250);
   ("different_ops_get_different_streams", different_ops_get_different_streams);
   ("different_seeds_different_results", different_seeds_different_results)].
End KeyTests.

Lemma key_tests_pass : failing KeyTests.suite = [].
Proof. by vm_compute. Qed.
