(* ===== verification/TestsConfig.v ===== *)
(** * The example configurations

    The integration tests of [fusecraft-core/tests], [config_toml.rs] and
    [config_examples.rs], as in the file TestsCore: the configurations in
    [examples/] and the texts of the tests are given as the documents they
    denote, and are read and validated by the model. *)

From stdpp Require Import base list numbers gmap strings.
From Stdlib Require Import ZArith Lia Bool Ascii.

From S2P Require Import Prelude Word Float Binary64 Op Text Config Serde TestsCore.

Local Open Scope Z_scope.

(** The decimal [m / 10^k], rounded once: [m] and [10^k] convert exactly. *)
Definition decimal (m k : Z) : f64 := f64_div (f64_of_Z m) (f64_of_Z (10 ^ k)).

(** ** [examples/] *)

Module ExampleFiles.
(** [examples/bandwidth_throttle.toml] *)
Definition bandwidth_throttle : Toml :=
  TTable [
    ("seed", TInteger 2024);
    ("mount", TTable [("direct_io", TBoolean true)]);
    ("files", TTable [
      ("inode_count", TInteger 100); ("file_size_bytes", TInteger 10485760);
      ("root_layout", TString "flat")]);
    ("ops", TTable [
      ("read", TTable [
        ("concurrency_cap", TInteger 16);
        ("queue_cap", TInteger 32);
        ("latency", TTable [
          ("base_us", TInteger 50); ("lognormal_median_us", TFloat (f64_of_Z 100));
          ("lognormal_sigma", TFloat (decimal 3 1)); ("max_us", TInteger 500000)]);
        ("bandwidth", TTable [
          ("mib_per_sec", TFloat (f64_of_Z 10)); ("burst_bytes", TInteger 131072)])]);
      ("write", TTable [
        ("concurrency_cap", TInteger 8);
        ("queue_cap", TInteger 16);
        ("latency", TTable [
          ("base_us", TInteger 100); ("lognormal_median_us", TFloat (f64_of_Z 200));
          ("lognormal_sigma", TFloat (decimal 4 1)); ("max_us", TInteger 1000000)]);
        ("bandwidth", TTable [
          ("mib_per_sec", TFloat (f64_of_Z 5)); ("burst_bytes", TInteger 65536)])])]);
    ("metrics", TTable [("jsonl_path", TString "/tmp/fusecraft-bw.jsonl")])].

(** [examples/fault_injection.toml] *)
Definition fault_injection : Toml :=
  TTable [
    ("seed", TInteger 7777);
    ("files", TTable [
      ("inode_count", TInteger 500); ("file_size_bytes", TInteger 65536)]);
    ("ops", TTable [
      ("read", TTable [
        ("concurrency_cap", TInteger 32);
        ("queue_cap", TInteger 64);
        ("latency", TTable [
          ("base_us", TInteger 100); ("lognormal_median_us", TFloat (f64_of_Z 150));
          ("lognormal_sigma", TFloat (decimal 4 1)); ("max_us", TInteger 500000)]);
        ("faults", TArray [TTable [
            ("op", TString "read"); ("errno", TString "EIO"); ("rate", TFloat (decimal 5 2))]; TTable [
            ("op", TString "read"); ("errno", TString "EAGAIN"); ("rate", TFloat (decimal 2 2))]])]);
      ("write", TTable [
        ("concurrency_cap", TInteger 16);
        ("queue_cap", TInteger 32);
        ("latency", TTable [
          ("base_us", TInteger 200); ("lognormal_median_us", TFloat (f64_of_Z 300));
          ("lognormal_sigma", TFloat (decimal 5 1)); ("max_us", TInteger 1000000)]);
        ("faults", TArray [TTable [
            ("op", TString "write"); ("errno", TString "ENOSPC"); ("rate", TFloat (decimal 1 1))]; TTable [
            ("op", TString "write"); ("errno", TString "EIO"); ("rate", TFloat (decimal 1 2))]])]);
      ("open", TTable [
        ("concurrency_cap", TInteger 32);
        ("latency", TTable [
          ("base_us", TInteger 50); ("lognormal_median_us", TFloat (f64_of_Z 100));
          ("lognormal_sigma", TFloat (decimal 3 1)); ("max_us", TInteger 200000)]);
        ("faults", TArray [TTable [
            ("op", TString "open"); ("errno", TString "ENOENT"); ("rate", TFloat (decimal 3 2))]])]);
      ("fsync", TTable [
        ("concurrency_cap", TInteger 8);
        ("latency", TTable [
          ("base_us", TInteger 500); ("lognormal_median_us", TFloat (f64_of_Z 1000));
          ("lognormal_sigma", TFloat (decimal 7 1)); ("max_us", TInteger 5000000)]);
        ("faults", TArray [TTable [
            ("op", TString "fsync"); ("errno", TString "EIO"); ("rate", TFloat (decimal 2 2))]])])]);
    ("metrics", TTable [("jsonl_path", TString "/tmp/fusecraft-faults.jsonl")])].

(** [examples/fsync_enospc.toml] *)
Definition fsync_enospc : Toml :=
  TTable [
    ("seed", TInteger 5150);
    ("mount", TTable [
      ("auto_unmount", TBoolean false); ("default_permissions", TBoolean true);
      ("read_only", TBoolean false); ("direct_io", TBoolean false)]);
    ("files", TTable [
      ("inode_count", TInteger 100); ("file_size_bytes", TInteger 131072);
      ("root_layout", TString "flat"); ("write_mode", TString "discard")]);
    ("ops", TTable [
      ("open", TTable [
        ("concurrency_cap", TInteger 32);
        ("queue_cap", TInteger 64);
        ("latency", TTable [
          ("base_us", TInteger 50); ("lognormal_median_us", TFloat (f64_of_Z 80));
          ("lognormal_sigma", TFloat (decimal 3 1)); ("max_us", TInteger 200000)])]);
      ("write", TTable [
        ("concurrency_cap", TInteger 32);
        ("queue_cap", TInteger 64);
        ("latency", TTable [
          ("base_us", TInteger 100); ("lognormal_median_us", TFloat (f64_of_Z 200));
          ("lognormal_sigma", TFloat (decimal 4 1)); ("max_us", TInteger 500000)])]);
      ("fsync", TTable [
        ("concurrency_cap", TInteger 16);
        ("queue_cap", TInteger 32);
        ("latency", TTable [
          ("base_us", TInteger 500); ("lognormal_median_us", TFloat (f64_of_Z 1000));
          ("lognormal_sigma", TFloat (decimal 4 1)); ("max_us", TInteger 500000)]);
        ("faults", TArray [TTable [
            ("op", TString "fsync"); ("errno", TString "ENOSPC"); ("rate", TFloat (f64_of_Z 1))]])]);
      ("flush", TTable [
        ("concurrency_cap", TInteger 32);
        ("latency", TTable [
          ("base_us", TInteger 20); ("lognormal_median_us", TFloat (f64_of_Z 50));
          ("lognormal_sigma", TFloat (decimal 3 1)); ("max_us", TInteger 200000)])]);
      ("release", TTable [
        ("concurrency_cap", TInteger 64);
        ("latency", TTable [
          ("base_us", TInteger 10); ("lognormal_median_us", TFloat (f64_of_Z 30));
          ("lognormal_sigma", TFloat (decimal 2 1)); ("max_us", TInteger 100000)])])]);
    ("metrics", TTable [("jsonl_path", TString "/tmp/fusecraft-fsync-enospc.jsonl")])].

(** [examples/full.toml] *)
Definition full : Toml :=
  TTable [
    ("seed", TInteger 42);
    ("mount", TTable [
      ("fs_name", TString "fusecraft"); ("subtype", TString "sim"); ("auto_unmount", TBoolean true);
      ("default_permissions", TBoolean true); ("read_only", TBoolean false);
      ("direct_io", TBoolean false)]);
    ("files", TTable [
      ("inode_count", TInteger 1000); ("file_size_bytes", TInteger 65536);
      ("root_layout", TString "flat"); ("write_mode", TString "discard")]);
    ("ops", TTable [
      ("lookup", TTable [
        ("concurrency_cap", TInteger 64);
        ("queue_cap", TInteger 128);
        ("latency", TTable [
          ("base_us", TInteger 10); ("lognormal_median_us", TFloat (f64_of_Z 50));
          ("lognormal_sigma", TFloat (decimal 4 1)); ("pareto_weight", TFloat (decimal 1 2));
          ("pareto_xm_us", TFloat (f64_of_Z 2000)); ("pareto_alpha", TFloat (decimal 15 1));
          ("max_us", TInteger 500000)])]);
      ("getattr", TTable [
        ("concurrency_cap", TInteger 64);
        ("queue_cap", TInteger 128);
        ("latency", TTable [
          ("base_us", TInteger 5); ("lognormal_median_us", TFloat (f64_of_Z 30));
          ("lognormal_sigma", TFloat (decimal 3 1)); ("pareto_weight", TFloat (f64_of_Z 0));
          ("pareto_xm_us", TFloat (f64_of_Z 1000)); ("pareto_alpha", TFloat (decimal 15 1));
          ("max_us", TInteger 200000)])]);
      ("open", TTable [
        ("concurrency_cap", TInteger 32);
        ("queue_cap", TInteger 64);
        ("latency", TTable [
          ("base_us", TInteger 20); ("lognormal_median_us", TFloat (f64_of_Z 80));
          ("lognormal_sigma", TFloat (decimal 5 1)); ("pareto_weight", TFloat (decimal 2 2));
          ("pareto_xm_us", TFloat (f64_of_Z 3000)); ("pareto_alpha", TFloat (decimal 13 1));
          ("max_us", TInteger 1000000)]);
        ("faults", TArray [TTable [
            ("op", TString "open"); ("errno", TString "ENOENT"); ("rate", TFloat (decimal 1 3))]])]);
      ("read", TTable [
        ("concurrency_cap", TInteger 64);
        ("queue_cap", TInteger 256);
        ("latency", TTable [
          ("base_us", TInteger 50); ("lognormal_median_us", TFloat (f64_of_Z 200));
          ("lognormal_sigma", TFloat (decimal 6 1)); ("pareto_weight", TFloat (decimal 5 2));
          ("pareto_xm_us", TFloat (f64_of_Z 5000)); ("pareto_alpha", TFloat (decimal 12 1));
          ("max_us", TInteger 2000000)]);
        ("bandwidth", TTable [
          ("mib_per_sec", TFloat (f64_of_Z 100)); ("burst_bytes", TInteger 1048576)]);
        ("faults", TArray [TTable [
            ("op", TString "read"); ("errno", TString "EIO"); ("rate", TFloat (decimal 1 3))]; TTable [
            ("op", TString "read"); ("errno", TString "EAGAIN"); ("rate", TFloat (decimal 5 3))]])]);
      ("write", TTable [
        ("concurrency_cap", TInteger 32);
        ("queue_cap", TInteger 128);
        ("latency", TTable [
          ("base_us", TInteger 100); ("lognormal_median_us", TFloat (f64_of_Z 400));
          ("lognormal_sigma", TFloat (decimal 7 1)); ("pareto_weight", TFloat (decimal 3 2));
          ("pareto_xm_us", TFloat (f64_of_Z 8000)); ("pareto_alpha", TFloat (decimal 11 1));
          ("max_us", TInteger 5000000)]);
        ("bandwidth", TTable [
          ("mib_per_sec", TFloat (f64_of_Z 50)); ("burst_bytes", TInteger 524288)]);
        ("faults", TArray [TTable [
            ("op", TString "write"); ("errno", TString "ENOSPC"); ("rate", TFloat (decimal 2 3))]])]);
      ("flush", TTable [
        ("concurrency_cap", TInteger 32);
        ("latency", TTable [
          ("base_us", TInteger 10); ("lognormal_median_us", TFloat (f64_of_Z 50));
          ("lognormal_sigma", TFloat (decimal 3 1)); ("max_us", TInteger 500000)])]);
      ("release", TTable [
        ("concurrency_cap", TInteger 64);
        ("latency", TTable [
          ("base_us", TInteger 5); ("lognormal_median_us", TFloat (f64_of_Z 20));
          ("lognormal_sigma", TFloat (decimal 2 1)); ("max_us", TInteger 100000)])]);
      ("fsync", TTable [
        ("concurrency_cap", TInteger 16);
        ("queue_cap", TInteger 32);
        ("latency", TTable [
          ("base_us", TInteger 500); ("lognormal_median_us", TFloat (f64_of_Z 2000));
          ("lognormal_sigma", TFloat (decimal 8 1)); ("pareto_weight", TFloat (decimal 1 1));
          ("pareto_xm_us", TFloat (f64_of_Z 20000)); ("pareto_alpha", TFloat (f64_of_Z 1));
          ("max_us", TInteger 10000000)]);
        ("faults", TArray [TTable [
            ("op", TString "fsync"); ("errno", TString "EIO"); ("rate", TFloat (decimal 5 3))]])]);
      ("readdir", TTable [
        ("concurrency_cap", TInteger 32);
        ("latency", TTable [
          ("base_us", TInteger 100); ("lognormal_median_us", TFloat (f64_of_Z 500));
          ("lognormal_sigma", TFloat (decimal 5 1)); ("max_us", TInteger 2000000)])]);
      ("statfs", TTable [
        ("concurrency_cap", TInteger 16);
        ("latency", TTable [
          ("base_us", TInteger 10); ("lognormal_median_us", TFloat (f64_of_Z 30));
          ("lognormal_sigma", TFloat (decimal 3 1)); ("max_us", TInteger 100000)])])]);
    ("metrics", TTable [("jsonl_path", TString "/tmp/fusecraft-events.jsonl")])].

(** [examples/minimal.toml] *)
Definition minimal : Toml :=
  TTable [("seed", TInteger 1)].

(** [examples/read_heavy.toml] *)
Definition read_heavy : Toml :=
  TTable [
    ("seed", TInteger 100);
    ("mount", TTable [("read_only", TBoolean true); ("direct_io", TBoolean true)]);
    ("files", TTable [
      ("inode_count", TInteger 10000); ("file_size_bytes", TInteger 1048576);
      ("root_layout", TString "flat")]);
    ("ops", TTable [
      ("read", TTable [
        ("concurrency_cap", TInteger 128);
        ("queue_cap", TInteger 256);
        ("latency", TTable [
          ("base_us", TInteger 200); ("lognormal_median_us", TFloat (f64_of_Z 500));
          ("lognormal_sigma", TFloat (decimal 6 1)); ("pareto_weight", TFloat (decimal 3 2));
          ("pareto_xm_us", TFloat (f64_of_Z 10000)); ("pareto_alpha", TFloat (decimal 12 1));
          ("max_us", TInteger 2000000)]);
        ("bandwidth", TTable [
          ("mib_per_sec", TFloat (f64_of_Z 200)); ("burst_bytes", TInteger 2097152)])]);
      ("getattr", TTable [
        ("concurrency_cap", TInteger 64);
        ("latency", TTable [
          ("base_us", TInteger 50); ("lognormal_median_us", TFloat (f64_of_Z 80));
          ("lognormal_sigma", TFloat (decimal 3 1)); ("max_us", TInteger 100000)])]);
      ("lookup", TTable [
        ("concurrency_cap", TInteger 64);
        ("latency", TTable [
          ("base_us", TInteger 50); ("lognormal_median_us", TFloat (f64_of_Z 80));
          ("lognormal_sigma", TFloat (decimal 3 1)); ("max_us", TInteger 100000)])])]);
    ("metrics", TTable [("jsonl_path", TString "/tmp/fusecraft-read-heavy.jsonl")])].

(** [examples/size_tiered.toml] *)
Definition size_tiered : Toml :=
  TTable [
    ("seed", TInteger 424242);
    ("mount", TTable [
      ("auto_unmount", TBoolean false); ("default_permissions", TBoolean true);
      ("read_only", TBoolean false); ("direct_io", TBoolean false)]);
    ("files", TTable [
      ("inode_count", TInteger 100); ("file_size_bytes", TInteger 4194304);
      ("root_layout", TString "flat"); ("write_mode", TString "discard")]);
    ("ops", TTable [
      ("read", TTable [
        ("concurrency_cap", TInteger 64);
        ("queue_cap", TInteger 128);
        ("latency", TTable [
          ("base_us", TInteger 2000); ("lognormal_median_us", TFloat (f64_of_Z 500));
          ("lognormal_sigma", TFloat (decimal 3 1)); ("pareto_weight", TFloat (f64_of_Z 0));
          ("pareto_xm_us", TFloat (f64_of_Z 1)); ("pareto_alpha", TFloat (decimal 15 1));
          ("max_us", TInteger 500000)]);
        ("size_tier", TTable [
          ("threshold_bytes", TInteger 131072);
          ("large", TTable [
            ("latency", TTable [
              ("base_us", TInteger 50000); ("lognormal_median_us", TFloat (f64_of_Z 10000));
              ("lognormal_sigma", TFloat (decimal 5 1)); ("pareto_weight", TFloat (decimal 2 2));
              ("pareto_xm_us", TFloat (f64_of_Z 50000)); ("pareto_alpha", TFloat (decimal 13 1));
              ("max_us", TInteger 2000000)]);
            ("bandwidth", TTable [
              ("mib_per_sec", TFloat (f64_of_Z 850)); ("burst_bytes", TInteger 1048576)])])])]);
      ("write", TTable [
        ("concurrency_cap", TInteger 32);
        ("queue_cap", TInteger 64);
        ("latency", TTable [
          ("base_us", TInteger 2000); ("lognormal_median_us", TFloat (f64_of_Z 500));
          ("lognormal_sigma", TFloat (decimal 3 1)); ("max_us", TInteger 500000)]);
        ("size_tier", TTable [
          ("threshold_bytes", TInteger 131072);
          ("large", TTable [
            ("latency", TTable [
              ("base_us", TInteger 50000); ("lognormal_median_us", TFloat (f64_of_Z 10000));
              ("lognormal_sigma", TFloat (decimal 5 1)); ("pareto_weight", TFloat (decimal 2 2));
              ("pareto_xm_us", TFloat (f64_of_Z 50000)); ("pareto_alpha", TFloat (decimal 13 1));
              ("max_us", TInteger 2000000)]);
            ("bandwidth", TTable [
              ("mib_per_sec", TFloat (f64_of_Z 850)); ("burst_bytes", TInteger 1048576)])])])]);
      ("open", TTable [
        ("concurrency_cap", TInteger 32);
        ("queue_cap", TInteger 64);
        ("latency", TTable [
          ("base_us", TInteger 100); ("lognormal_median_us", TFloat (f64_of_Z 150));
          ("lognormal_sigma", TFloat (decimal 3 1)); ("max_us", TInteger 200000)])]);
      ("getattr", TTable [
        ("concurrency_cap", TInteger 64);
        ("latency", TTable [
          ("base_us", TInteger 20); ("lognormal_median_us", TFloat (f64_of_Z 40));
          ("lognormal_sigma", TFloat (decimal 3 1)); ("max_us", TInteger 100000)])]);
      ("lookup", TTable [
        ("concurrency_cap", TInteger 64);
        ("latency", TTable [
          ("base_us", TInteger 20); ("lognormal_median_us", TFloat (f64_of_Z 40));
          ("lognormal_sigma", TFloat (decimal 3 1)); ("max_us", TInteger 100000)])])]);
    ("metrics", TTable [("jsonl_path", TString "/tmp/fusecraft-size-tiered.jsonl")])].

(** [examples/write_fsync_tail.toml] *)
Definition write_fsync_tail : Toml :=
  TTable [
    ("seed", TInteger 314);
    ("mount", TTable [
      ("auto_unmount", TBoolean false); ("default_permissions", TBoolean true);
      ("read_only", TBoolean false); ("direct_io", TBoolean false)]);
    ("files", TTable [
      ("inode_count", TInteger 200); ("file_size_bytes", TInteger 262144);
      ("root_layout", TString "flat"); ("write_mode", TString "discard")]);
    ("ops", TTable [
      ("open", TTable [
        ("concurrency_cap", TInteger 64);
        ("queue_cap", TInteger 128);
        ("latency", TTable [
          ("base_us", TInteger 50); ("lognormal_median_us", TFloat (f64_of_Z 120));
          ("lognormal_sigma", TFloat (decimal 4 1)); ("pareto_weight", TFloat (f64_of_Z 0));
          ("pareto_xm_us", TFloat (f64_of_Z 1)); ("pareto_alpha", TFloat (decimal 15 1));
          ("max_us", TInteger 500000)])]);
      ("write", TTable [
        ("concurrency_cap", TInteger 32);
        ("queue_cap", TInteger 128);
        ("latency", TTable [
          ("base_us", TInteger 100); ("lognormal_median_us", TFloat (f64_of_Z 250));
          ("lognormal_sigma", TFloat (decimal 5 1)); ("pareto_weight", TFloat (decimal 1 2));
          ("pareto_xm_us", TFloat (f64_of_Z 5000)); ("pareto_alpha", TFloat (decimal 14 1));
          ("max_us", TInteger 2000000)]);
        ("bandwidth", TTable [
          ("mib_per_sec", TFloat (f64_of_Z 50)); ("burst_bytes", TInteger 524288)])]);
      ("flush", TTable [
        ("concurrency_cap", TInteger 32);
        ("queue_cap", TInteger 64);
        ("latency", TTable [
          ("base_us", TInteger 20); ("lognormal_median_us", TFloat (f64_of_Z 80));
          ("lognormal_sigma", TFloat (decimal 3 1)); ("pareto_weight", TFloat (f64_of_Z 0));
          ("pareto_xm_us", TFloat (f64_of_Z 1)); ("pareto_alpha", TFloat (decimal 15 1));
          ("max_us", TInteger 500000)])]);
      ("fsync", TTable [
        ("concurrency_cap", TInteger 8);
        ("queue_cap", TInteger 32);
        ("latency", TTable [
          ("base_us", TInteger 1000); ("lognormal_median_us", TFloat (f64_of_Z 3000));
          ("lognormal_sigma", TFloat (decimal 6 1)); ("pareto_weight", TFloat (decimal 5 2));
          ("pareto_xm_us", TFloat (f64_of_Z 20000)); ("pareto_alpha", TFloat (decimal 11 1));
          ("max_us", TInteger 500000)]);
        ("faults", TArray [TTable [
            ("op", TString "fsync"); ("errno", TString "EIO"); ("rate", TFloat (decimal 2 3))]])]);
      ("release", TTable [
        ("concurrency_cap", TInteger 64);
        ("latency", TTable [
          ("base_us", TInteger 10); ("lognormal_median_us", TFloat (f64_of_Z 40));
          ("lognormal_sigma", TFloat (decimal 3 1)); ("pareto_weight", TFloat (f64_of_Z 0));
          ("pareto_xm_us", TFloat (f64_of_Z 1)); ("pareto_alpha", TFloat (decimal 15 1));
          ("max_us", TInteger 100000)])])]);
    ("metrics", TTable [
      ("jsonl_path", TString "/tmp/fusecraft-write-fsync-tail.jsonl")])].

(** [examples/zero_latency.toml] *)
Definition zero_latency : Toml :=
  TTable [
    ("seed", TInteger 1);
    ("mount", TTable [
      ("auto_unmount", TBoolean false); ("default_permissions", TBoolean false);
      ("read_only", TBoolean false); ("direct_io", TBoolean false)]);
    ("files", TTable [
      ("inode_count", TInteger 64); ("file_size_bytes", TInteger 4096);
      ("root_layout", TString "flat"); ("write_mode", TString "discard")]);
    ("ops", TTable [
      ("lookup", TTable [
        ("concurrency_cap", TInteger 32);
        ("queue_cap", TInteger 128);
        ("latency", TTable [
          ("base_us", TInteger 0); ("lognormal_median_us", TFloat (f64_of_Z 0));
          ("lognormal_sigma", TFloat (f64_of_Z 0)); ("pareto_weight", TFloat (f64_of_Z 0));
          ("pareto_xm_us", TFloat (f64_of_Z 1)); ("pareto_alpha", TFloat (decimal 15 1));
          ("max_us", TInteger 0)])]);
      ("getattr", TTable [
        ("concurrency_cap", TInteger 32);
        ("queue_cap", TInteger 128);
        ("latency", TTable [
          ("base_us", TInteger 0); ("lognormal_median_us", TFloat (f64_of_Z 0));
          ("lognormal_sigma", TFloat (f64_of_Z 0)); ("pareto_weight", TFloat (f64_of_Z 0));
          ("pareto_xm_us", TFloat (f64_of_Z 1)); ("pareto_alpha", TFloat (decimal 15 1));
          ("max_us", TInteger 0)])]);
      ("open", TTable [
        ("concurrency_cap", TInteger 32);
        ("queue_cap", TInteger 128);
        ("latency", TTable [
          ("base_us", TInteger 0); ("lognormal_median_us", TFloat (f64_of_Z 0));
          ("lognormal_sigma", TFloat (f64_of_Z 0)); ("pareto_weight", TFloat (f64_of_Z 0));
          ("pareto_xm_us", TFloat (f64_of_Z 1)); ("pareto_alpha", TFloat (decimal 15 1));
          ("max_us", TInteger 0)])]);
      ("read", TTable [
        ("concurrency_cap", TInteger 32);
        ("queue_cap", TInteger 128);
        ("latency", TTable [
          ("base_us", TInteger 0); ("lognormal_median_us", TFloat (f64_of_Z 0));
          ("lognormal_sigma", TFloat (f64_of_Z 0)); ("pareto_weight", TFloat (f64_of_Z 0));
          ("pareto_xm_us", TFloat (f64_of_Z 1)); ("pareto_alpha", TFloat (decimal 15 1));
          ("max_us", TInteger 0)])]);
      ("write", TTable [
        ("concurrency_cap", TInteger 32);
        ("queue_cap", TInteger 128);
        ("latency", TTable [
          ("base_us", TInteger 0); ("lognormal_median_us", TFloat (f64_of_Z 0));
          ("lognormal_sigma", TFloat (f64_of_Z 0)); ("pareto_weight", TFloat (f64_of_Z 0));
          ("pareto_xm_us", TFloat (f64_of_Z 1)); ("pareto_alpha", TFloat (decimal 15 1));
          ("max_us", TInteger 0)])]);
      ("flush", TTable [
        ("concurrency_cap", TInteger 32);
        ("queue_cap", TInteger 128);
        ("latency", TTable [
          ("base_us", TInteger 0); ("lognormal_median_us", TFloat (f64_of_Z 0));
          ("lognormal_sigma", TFloat (f64_of_Z 0)); ("pareto_weight", TFloat (f64_of_Z 0));
          ("pareto_xm_us", TFloat (f64_of_Z 1)); ("pareto_alpha", TFloat (decimal 15 1));
          ("max_us", TInteger 0)])]);
      ("release", TTable [
        ("concurrency_cap", TInteger 32);
        ("queue_cap", TInteger 128);
        ("latency", TTable [
          ("base_us", TInteger 0); ("lognormal_median_us", TFloat (f64_of_Z 0));
          ("lognormal_sigma", TFloat (f64_of_Z 0)); ("pareto_weight", TFloat (f64_of_Z 0));
          ("pareto_xm_us", TFloat (f64_of_Z 1)); ("pareto_alpha", TFloat (decimal 15 1));
          ("max_us", TInteger 0)])]);
      ("fsync", TTable [
        ("concurrency_cap", TInteger 32);
        ("queue_cap", TInteger 128);
        ("latency", TTable [
          ("base_us", TInteger 0); ("lognormal_median_us", TFloat (f64_of_Z 0));
          ("lognormal_sigma", TFloat (f64_of_Z 0)); ("pareto_weight", TFloat (f64_of_Z 0));
          ("pareto_xm_us", TFloat (f64_of_Z 1)); ("pareto_alpha", TFloat (decimal 15 1));
          ("max_us", TInteger 0)])]);
      ("readdir", TTable [
        ("concurrency_cap", TInteger 32);
        ("queue_cap", TInteger 128);
        ("latency", TTable [
          ("base_us", TInteger 0); ("lognormal_median_us", TFloat (f64_of_Z 0));
          ("lognormal_sigma", TFloat (f64_of_Z 0)); ("pareto_weight", TFloat (f64_of_Z 0));
          ("pareto_xm_us", TFloat (f64_of_Z 1)); ("pareto_alpha", TFloat (decimal 15 1));
          ("max_us", TInteger 0)])]);
      ("statfs", TTable [
        ("concurrency_cap", TInteger 32);
        ("queue_cap", TInteger 128);
        ("latency", TTable [
          ("base_us", TInteger 0); ("lognormal_median_us", TFloat (f64_of_Z 0));
          ("lognormal_sigma", TFloat (f64_of_Z 0)); ("pareto_weight", TFloat (f64_of_Z 0));
          ("pareto_xm_us", TFloat (f64_of_Z 1)); ("pareto_alpha", TFloat (decimal 15 1));
          ("max_us", TInteger 0)])]);
      ("access", TTable [
        ("concurrency_cap", TInteger 32);
        ("queue_cap", TInteger 128);
        ("latency", TTable [
          ("base_us", TInteger 0); ("lognormal_median_us", TFloat (f64_of_Z 0));
          ("lognormal_sigma", TFloat (f64_of_Z 0)); ("pareto_weight", TFloat (f64_of_Z 0));
          ("pareto_xm_us", TFloat (f64_of_Z 1)); ("pareto_alpha", TFloat (decimal 15 1));
          ("max_us", TInteger 0)])])])].

Definition all : list (string * Toml) :=
  [("bandwidth_throttle.toml", bandwidth_throttle); ("fault_injection.toml", fault_injection);
   ("fsync_enospc.toml", fsync_enospc); ("full.toml", full); ("minimal.toml", minimal);
   ("read_heavy.toml", read_heavy); ("size_tiered.toml", size_tiered);
   ("write_fsync_tail.toml", write_fsync_tail); ("zero_latency.toml", zero_latency)].
End ExampleFiles.

(** ** [config_examples.rs] *)

Module ConfigExamplesTests.
Section Tests.
Context (fmt_f64 : f64 -> string).

(** What the loop of the test pushes to [failures] for one file. *)
Definition example_failure (e : string * Toml) : option string :=
  match de_Config e.2 with
  | None => Some (e.1 +:+ ": TOML parse error")
  | Some cfg =>
      match validate fmt_f64 cfg (map_to_list (ops cfg)) with
      | Ok _ => None
      | Err _ => Some (e.1 +:+ ": validation error")
      end
  end.

Definition all_example_configs_parse_and_validate : bool :=
  let configs := ExampleFiles.all in
  negb (bool_decide (configs = [])) && bool_decide (omap example_failure configs = []).

Definition suite : list (string * bool) :=
  [("all_example_configs_parse_and_validate", all_example_configs_parse_and_validate)].
End Tests.
End ConfigExamplesTests.

Lemma config_examples_tests_pass fmt : failing (ConfigExamplesTests.suite fmt) = [].
Proof. by vm_compute. Qed.

(** ** [config_toml.rs] *)

#[export] Instance RootLayout_eq_dec : EqDecision RootLayout.
Proof. solve_decision. Defined.
#[export] Instance WriteMode_eq_dec : EqDecision WriteMode.
Proof. solve_decision. Defined.

Module ConfigTomlTests.
Section Tests.
Context (fmt_f64 : f64 -> string).

Abbreviation validated cfg := (validate fmt_f64 cfg (map_to_list (ops cfg))).

Definition round_trip_default_config : bool :=
  let original := default_Config in
  expect (se_Config original) (fun text : Toml =>
  expect (de_Config text) (fun parsed =>
    (seed parsed =? seed original) &&
    (inode_count (files parsed) =? inode_count (files original)) &&
    (file_size_bytes (files parsed) =? file_size_bytes (files original)) &&
    assert_eq (root_layout (files parsed)) (root_layout (files original)) &&
    assert_eq (write_mode (files parsed)) (write_mode (files original)) &&
    assert_eq (fs_name (mount parsed)) (fs_name (mount original)) &&
    Bool.eqb (auto_unmount (mount parsed)) (auto_unmount (mount original)) &&
    bool_decide (ops parsed = ∅) && ConfigTests.accepted (validated parsed))).

(** The document that the text of [parse_ops_read_example] denotes. *)
Definition ops_read_document : Toml :=
  TTable [
    ("seed", TInteger 12345);
    ("files", TTable [
      ("inode_count", TInteger 500); ("file_size_bytes", TInteger 131072);
      ("root_layout", TString "flat"); ("write_mode", TString "discard")]);
    ("ops", TTable [
      ("read", TTable [
        ("concurrency_cap", TInteger 32);
        ("queue_cap", TInteger 128);
        ("latency", TTable [
          ("base_us", TInteger 50); ("lognormal_median_us", TFloat (f64_of_Z 200));
          ("lognormal_sigma", TFloat (decimal 8 1)); ("pareto_weight", TFloat (decimal 5 2));
          ("pareto_xm_us", TFloat (f64_of_Z 5000)); ("pareto_alpha", TFloat (decimal 12 1));
          ("max_us", TInteger 500000)]);
        ("bandwidth", TTable [
          ("mib_per_sec", TFloat (f64_of_Z 100)); ("burst_bytes", TInteger 1048576)]);
        ("faults", TArray [TTable [
            ("op", TString "read"); ("errno", TString "EIO"); ("rate", TFloat (decimal 1 3))]; TTable [
            ("op", TString "read"); ("errno", TString "EAGAIN"); ("rate", TFloat (decimal 1 2))]])])])].

Definition parse_ops_read_example : bool :=
  expect (de_Config ops_read_document) (fun cfg =>
    ConfigTests.accepted (validated cfg) &&
    (seed cfg =? 12345) && (inode_count (files cfg) =? 500) && (file_size_bytes (files cfg) =? 131072) &&
    expect (ops cfg !! Read) (fun read_policy =>
      let l := latency read_policy in
      (concurrency_cap read_policy =? 32) && (queue_cap read_policy =? 128) && (base_us l =? 50) &&
      ConfigTests.close (lognormal_median_us l) (f64_of_Z 200) ConfigTests.EPSILON &&
      ConfigTests.close (lognormal_sigma l) (decimal 8 1) ConfigTests.EPSILON &&
      ConfigTests.close (pareto_weight l) (decimal 5 2) ConfigTests.EPSILON &&
      ConfigTests.close (pareto_xm_us l) (f64_of_Z 5000) ConfigTests.EPSILON &&
      ConfigTests.close (pareto_alpha l) (decimal 12 1) ConfigTests.EPSILON && (max_us l =? 500000) &&
      expect (bandwidth read_policy) (fun bw =>
        let expected_bps := f64_mul (f64_mul (f64_of_Z 100) (f64_of_Z 1024)) (f64_of_Z 1024) in
        ConfigTests.close (bytes_per_sec bw) expected_bps f64_one && (burst_bytes bw =? 1048576)) &&
      (length (faults read_policy) =? 2)%nat &&
      expect (faults read_policy !! 0%nat) (fun f =>
        (rule_errno f =? EIO) && ConfigTests.close (rule_rate f) (decimal 1 3) ConfigTests.EPSILON) &&
      expect (faults read_policy !! 1%nat) (fun f => rule_errno f =? EAGAIN))).

Definition parse_errno_bogus_returns_config_error : bool :=
  expect_config_error (parse_errno "BOGUS") (fun msg => contains msg "unknown errno").

Definition parse_errno_known_values : bool :=
  forallb (fun p => expect_ok (parse_errno p.1) (fun e => e =? p.2))
    [("EIO", EIO); ("ENOENT", ENOENT); ("ESTALE", ESTALE); ("ENOSPC", ENOSPC); ("EAGAIN", EAGAIN); ("EINTR", EINTR)].

(** The default configuration with other [files]. *)
Definition with_files (count size : Z) : Config :=
  let f := files default_Config in
  {| seed := seed default_Config; mount := mount default_Config;
     files := {| inode_count := count; file_size_bytes := size;
                 root_layout := root_layout f; write_mode := write_mode f |};
     ops := ops default_Config; metrics := metrics default_Config |}.

Definition validate_rejects_zero_inode_count : bool :=
  let cfg := with_files 0 (file_size_bytes (files default_Config)) in
  expect_config_error (validated cfg) (fun msg => contains msg "inode_count").

Definition validate_rejects_zero_file_size_bytes : bool :=
  let cfg := with_files (inode_count (files default_Config)) 0 in
  expect_config_error (validated cfg) (fun msg => contains msg "file_size_bytes").

(** [OpPolicy { concurrency_cap, latency, ..OpPolicy::default() }] *)
Definition policy (cap : Z) (l : LatencyProfile) : OpPolicy :=
  {| concurrency_cap := cap; queue_cap := queue_cap default_OpPolicy; latency := l;
     bandwidth := bandwidth default_OpPolicy; faults := faults default_OpPolicy;
     size_tier := size_tier default_OpPolicy |}.

Definition profile (base max : Z) (weight : f64) : LatencyProfile :=
  let d := default_LatencyProfile in
  {| base_us := base; lognormal_median_us := lognormal_median_us d; lognormal_sigma := lognormal_sigma d;
     pareto_weight := weight; pareto_xm_us := pareto_xm_us d; pareto_alpha := pareto_alpha d; max_us := max |}.

Definition validate_rejects_zero_concurrency_cap : bool :=
  expect_config_error (ConfigTests.validate_with fmt_f64 Read (policy 0 default_LatencyProfile))
    (fun msg => contains msg "concurrency_cap").

Definition validate_rejects_max_us_less_than_base_us : bool :=
  let l := profile 1000 500 (pareto_weight default_LatencyProfile) in
  expect_config_error (ConfigTests.validate_with fmt_f64 Write (policy (concurrency_cap default_OpPolicy) l))
    (fun msg => contains msg "max_us").

Definition validate_rejects_fault_rate_above_one : bool :=
  expect_config_error
    (ConfigTests.validate_with fmt_f64 Read (ConfigTests.policy_with None [ConfigTests.fault Read (decimal 15 1)] None))
    (fun msg => contains msg "rate").

Definition validate_rejects_pareto_weight_above_one : bool :=
  let l := profile (base_us default_LatencyProfile) (max_us default_LatencyProfile) (decimal 15 1) in
  expect_config_error (ConfigTests.validate_with fmt_f64 Fsync (policy (concurrency_cap default_OpPolicy) l))
    (fun msg => contains msg "pareto_weight").

Definition default_config_validates : bool := ConfigTests.accepted (validated default_Config).

Definition suite : list (string * bool) :=
  [("round_trip_default_config", round_trip_default_config);
   ("parse_ops_read_example", parse_ops_read_example);
   ("parse_errno_bogus_returns_config_error", parse_errno_bogus_returns_config_error);
   ("parse_errno_known_values", parse_errno_known_values);
   ("validate_rejects_zero_inode_count", validate_rejects_zero_inode_count);
   ("validate_rejects_zero_file_size_bytes", validate_rejects_zero_file_size_bytes);
   ("validate_rejects_zero_concurrency_cap", validate_rejects_zero_concurrency_cap);
   ("validate_rejects_max_us_less_than_base_us", validate_rejects_max_us_less_than_base_us);
   ("validate_rejects_fault_rate_above_one", validate_rejects_fault_rate_above_one);
   ("validate_rejects_pareto_weight_above_one", validate_rejects_pareto_weight_above_one);
   ("default_config_validates", default_config_validates)].
End Tests.
End ConfigTomlTests.

Lemma config_toml_tests_pass fmt : failing (ConfigTomlTests.suite fmt) = [].
Proof. by vm_compute. Qed.
