(* ===== verification/TestsEngine.v ===== *)
(** * The unit tests of the limiters, the metrics and the engine

    The [#[cfg(test)]] modules of [fusecraft-core/src/limiter/bandwidth.rs],
    [limiter/concurrency.rs], [metrics/mod.rs] and [engine/mod.rs], as in the
    file TestsCore, and the example of the crate's documentation. Tests that measure time run on a clock that advances by
    [tick] from one reading to the next, and by the requested duration in
    [thread::sleep]. Tests that start threads run the schedule that their
    sleeps and channels force. *)

From stdpp Require Import base list numbers gmap strings sorting.
From Stdlib Require Import ZArith Lia Bool.

From S2P Require Import Prelude Word Float Binary64 Time Op Concurrency Config SampleKey Sampler.
From S2P Require Import Bandwidth Metrics Events Engine TestsCore.

Local Open Scope Z_scope.

(** Between two readings of the clock: one microsecond. *)
Definition tick : Duration := 1000.

Definition from_millis (ms : Z) : Duration := ms * 1000000.

(** ** [limiter/bandwidth.rs] *)

Module BandwidthTests.
Definition test_profile (rate : f64) (burst : Z) : BandwidthProfile :=
  {| bytes_per_sec := rate; burst_bytes := burst |}.

Definition limiter_of (rate : f64) (burst : Z) : BandwidthLimiter := bw_new (test_profile rate burst) 0.

(** The waits of successive reservations, each a tick after the one before. *)
Fixpoint reserve_all (l : BandwidthLimiter) (now : Instant) (requests : list Z) : list Duration * BandwidthLimiter :=
  match requests with
  | [] => ([], l)
  | bytes :: rest =>
      let (w, l) := reserve l bytes now in
      let (ws, l) := reserve_all l (now + tick) rest in (w :: ws, l)
  end.

Definition waits (l : BandwidthLimiter) (requests : list Z) : list Duration := (reserve_all l tick requests).1.

(** [|wait - expected| < bound] *)
Definition about (wait expected bound : Duration) : bool :=
  (if expected <? wait then wait - expected else expected - wait) <? bound.

Definition bandwidth_within_burst_no_delay : bool :=
  assert_eq (waits (limiter_of (f64_of_Z 1000000) 4096) [4096]) [DURATION_ZERO].

Definition bandwidth_over_burst_delays : bool :=
  match waits (limiter_of (f64_of_Z 1000) 1000) [1000; 500] with
  | [w1; w2] => (w1 =? DURATION_ZERO) && (DURATION_ZERO <? w2) && about w2 (from_millis 500) (from_millis 10)
  | _ => false
  end.

Definition bandwidth_refills_over_time : bool :=
  let limiter := limiter_of (f64_of_Z 10000) 10000 in
  let (w1, limiter) := reserve limiter 10000 tick in
  let (w2, _) := reserve limiter 500 (2 * tick + from_millis 100) in
  (w1 =? DURATION_ZERO) && (w2 =? DURATION_ZERO).

Definition burst_cap_limits_token_accumulation : bool :=
  let (stats, _) := bw_stats (limiter_of (f64_of_Z 100000) 1000) (tick + from_millis 100) in
  f64_le (tokens_available stats) (f64_of_Z 1000).

Definition stats_tracking : bool :=
  let (_, limiter) := reserve_all (limiter_of (f64_of_Z 1000000) 4096) tick [1000; 2000] in
  let (stats, _) := bw_stats limiter (3 * tick) in
  (stat_total_bytes_reserved stats =? 3000) && SFeqb (stat_bytes_per_sec stats) (f64_of_Z 1000000) &&
  (stat_burst_bytes stats =? 4096).

(** The mutex makes the thousand reservations a sequence. *)
Definition concurrent_reservations_are_serialized : bool :=
  let (_, limiter) := reserve_all (limiter_of (f64_of_Z 1000000) 100000) tick (replicate (10 * 100) 100) in
  stat_total_bytes_reserved (bw_stats limiter (from_millis 10)).1 =? 100000.

Definition zero_reserve_returns_zero_duration : bool :=
  assert_eq (waits (limiter_of (f64_of_Z 1000) 1000) [0]) [DURATION_ZERO].

Definition large_reserve_returns_proportional_wait : bool :=
  match waits (limiter_of (f64_of_Z 1000) 100) [100; 2000] with
  | [w1; w2] => (w1 =? DURATION_ZERO) && about w2 (from_millis 2000) (from_millis 50)
  | _ => false
  end.

Definition bandwidth_zero_rate_returns_zero_duration : bool :=
  assert_eq (waits (limiter_of f64_zero 0) [1000]) [DURATION_ZERO].

Definition bandwidth_negative_rate_returns_zero_duration : bool :=
  assert_eq (waits (limiter_of (f64_neg (f64_of_Z 100)) 1000) [5000]) [DURATION_ZERO].

Definition suite : list (string * bool) :=
  [("bandwidth_within_burst_no_delay", bandwidth_within_burst_no_delay);
   ("bandwidth_over_burst_delays", bandwidth_over_burst_delays);
   ("bandwidth_refills_over_time", bandwidth_refills_over_time);
   ("burst_cap_limits_token_accumulation", burst_cap_limits_token_accumulation);
   ("stats_tracking", stats_tracking);
   ("concurrent_reservations_are_serialized", concurrent_reservations_are_serialized);
   ("zero_reserve_returns_zero_duration", zero_reserve_returns_zero_duration);
   ("large_reserve_returns_proportional_wait", large_reserve_returns_proportional_wait);
   ("bandwidth_zero_rate_returns_zero_duration", bandwidth_zero_rate_returns_zero_duration);
   ("bandwidth_negative_rate_returns_zero_duration", bandwidth_negative_rate_returns_zero_duration)].
End BandwidthTests.

Lemma bandwidth_tests_pass : failing BandwidthTests.suite = [].
Proof. by vm_compute. Qed.

(** ** [limiter/concurrency.rs] *)

Module LimiterTests.
(** [limiter.acquire()] by a thread that is admitted or refused at once. *)
Definition acquire (l : BlockingLimiter) : option Duration * option FsError * BlockingLimiter :=
  match acquire_enter l 0 with
  | (Guard w, l) => (Some w, None, l)
  | (Fails e, l) => (None, Some e, l)
  | (_, l) => (None, None, l)
  end.

(** [for _ in 0..n { let _g = limiter.acquire().unwrap(); }] *)
Fixpoint acquire_and_drop (n : nat) (l : BlockingLimiter) : option BlockingLimiter :=
  match n with
  | O => Some l
  | S n => match acquire l with (Some _, _, l) => acquire_and_drop n (release l) | _ => None end
  end.

(** [n] calls that must be refused with EAGAIN. *)
Fixpoint all_refused (n : nat) (l : BlockingLimiter) : option BlockingLimiter :=
  match n with
  | O => Some l
  | S n => match acquire l with (_, Some (Errno e), l) => if e =? EAGAIN then all_refused n l else None | _ => None end
  end.

(** [let _ = limiter.acquire();] drops a guard at once. *)
Definition acquire_and_ignore (l : BlockingLimiter) : BlockingLimiter :=
  match acquire l with (Some _, _, l) => release l | (_, _, l) => l end.

Definition acquire_under_cap_succeeds : bool :=
  match acquire (Concurrency.new 2 0) with
  | (Some w1, _, l) =>
      match acquire l with
      | (Some w2, _, l) =>
          (w1 =? DURATION_ZERO) && (w2 =? DURATION_ZERO) && (st_inflight (stats l) =? 2) &&
          (st_queued (stats l) =? 0) && (st_inflight (stats (release (release l))) =? 0)
      | _ => false
      end
  | _ => false
  end.

(** The second thread calls while the first holds the only slot for [ms]
    milliseconds; then the release wakes it. Its wait, and the limiter while
    it waits and at the end. *)
Definition handover (queue_cap ms : Z) : option (Duration * BlockingLimiter * BlockingLimiter) :=
  match acquire (Concurrency.new 1 queue_cap) with
  | (Some _, _, l) =>
      match acquire_enter l tick with
      | (Waits start _, waiting) =>
          match acquire_wake (release waiting) start (tick + from_millis ms) with
          | (Guard w, l) => Some (w, waiting, release l)
          | _ => None
          end
      | _ => None
      end
  | _ => None
  end.

Definition acquire_over_cap_blocks_until_release : bool :=
  expect (handover 2 50) (fun '(w, waiting, l) =>
    (DURATION_ZERO <? w) && (st_queued (stats waiting) =? 1) && (st_inflight (stats l) =? 0)).

Definition queue_cap_zero_rejects_when_full : bool :=
  match acquire (Concurrency.new 1 0) with
  | (Some _, _, l) => match acquire l with (_, Some (Errno e), _) => e =? EAGAIN | _ => false end
  | _ => false
  end.

Definition guard_drop_releases_capacity : bool :=
  expect (acquire_and_drop 100 (Concurrency.new 2 0)) (fun l => st_inflight (stats l) =? 0).

Definition limiter_does_not_underflow : bool :=
  expect (acquire_and_drop 50 (Concurrency.new 4 0)) (fun l =>
    (st_inflight (stats l) =? 0) && (st_total_acquired (stats l) =? 50)).

Definition queue_wait_is_recorded : bool :=
  expect (handover 4 50) (fun '(w, _, l) =>
    (from_millis 40 <? w) && (from_millis 40 <=? st_total_queue_wait (stats l))).

Definition cap_zero_always_rejects : bool :=
  expect (all_refused 5 (Concurrency.new 0 10)) (fun l =>
    (st_total_rejected (stats l) =? 5) && (st_total_acquired (stats l) =? 0)).

(** The first four of the twenty threads are admitted, the others queue; then
    each of the first sixteen to finish hands its slot to a waiting thread.
    The limiter, and the largest number of threads seen active. *)
Fixpoint admit_threads (n : nat) (l : BlockingLimiter) (active most : Z) : option (BlockingLimiter * Z * Z) :=
  match n with
  | O => Some (l, active, most)
  | S n =>
      match acquire_enter l 0 with
      | (Guard _, l) => admit_threads n l (active + 1) (Z.max most (active + 1))
      | (Waits _ _, l) => admit_threads n l active most
      | _ => None
      end
  end.

Fixpoint hand_over (n : nat) (l : BlockingLimiter) (active most : Z) : option (BlockingLimiter * Z) :=
  match n with
  | O => Some (l, most)
  | S n =>
      match acquire_wake (release l) 0 (from_millis 10) with
      | (Guard _, l) => hand_over n l active (Z.max most (active - 1 + 1))
      | _ => None
      end
  end.

Definition concurrent_threads_respect_capacity : bool :=
  expect (admit_threads 20 (Concurrency.new 4 16) 0 0) (fun '(l, active, most) =>
    expect (hand_over 16 l active most) (fun '(l, most) =>
      (most <=? 4) && (st_total_acquired (stats (Nat.iter 4 release l)) =? 20))).

Definition stats_tracks_rejections : bool :=
  match acquire (Concurrency.new 1 0) with
  | (Some _, _, l) =>
      let l := Nat.iter 5 acquire_and_ignore l in
      (st_total_acquired (stats l) =? 1) && (st_total_rejected (stats l) =? 5)
  | _ => false
  end.

Definition suite : list (string * bool) :=
  [("acquire_under_cap_succeeds", acquire_under_cap_succeeds);
   ("acquire_over_cap_blocks_until_release", acquire_over_cap_blocks_until_release);
   ("queue_cap_zero_rejects_when_full", queue_cap_zero_rejects_when_full);
   ("guard_drop_releases_capacity", guard_drop_releases_capacity);
   ("limiter_does_not_underflow", limiter_does_not_underflow);
   ("queue_wait_is_recorded", queue_wait_is_recorded); ("cap_zero_always_rejects", cap_zero_always_rejects);
   ("concurrent_threads_respect_capacity", concurrent_threads_respect_capacity);
   ("stats_tracks_rejections", stats_tracks_rejections)].
End LimiterTests.

Lemma limiter_tests_pass : failing LimiterTests.suite = [].
Proof. by vm_compute. Qed.

(** ** [metrics/mod.rs] *)

(** A histogram that keeps every value and answers with the nearest rank. *)
Definition nearest_rank (h : list Z) (p : f64) : Z :=
  let rank := Z.max 1 (f64_to_u64 (f64_round (f64_div (f64_mul p (f64_of_Z (Z.of_nat (length h)))) (f64_of_Z 100)))) in
  default 0 (merge_sort Z.le h !! Z.to_nat (rank - 1)).

#[local] Instance rank_histogram : Histogram (list Z) :=
  {| new_with_bounds := fun _ _ _ => []; hist_record := fun h v => v :: h; value_at_percentile := nearest_rank |}.

Module MetricsTests.
Definition r0 : HistogramRecorder (list Z) := recorder_new.

Definition record_each (r : HistogramRecorder (list Z)) (l : list (FsOp * Z * bool)) : HistogramRecorder (list Z) :=
  fold_left (fun r '(op, us, err) => record r op us err) l r.

(** The first line of the summary. *)
Definition first_summary (l : list (FsOp * Z * bool)) (f : OpSummary -> bool) : bool :=
  expect (summary (record_each r0 l) !! 0%nat) f.

Definition summary_of (op : FsOp) (l : list OpSummary) : option OpSummary :=
  filter (fun s => sum_op s = op) l !! 0%nat.

Definition summary_empty_when_no_records : bool := (length (summary r0) =? 0)%nat.

Definition records_ok_and_error_separately : bool :=
  first_summary [(Read, 100, false); (Read, 200, false); (Read, 300, true)] (fun s =>
    assert_eq (sum_op s) Read && (sum_count s =? 3) && (sum_errors s =? 1)).

Definition summary_skips_ops_without_records : bool :=
  Nat.eqb (length (summary (record_each r0 [(Read, 100, false)]))) 1 &&
  first_summary [(Read, 100, false)] (fun s => assert_eq (sum_op s) Read).

Definition summary_ordered_by_fsop_all : bool :=
  assert_eq (sum_op <$> summary (record_each r0 [(Write, 500, false); (Read, 100, false); (Open, 10, false)]))
    [Open; Read; Write].

Definition percentiles_are_reasonable : bool :=
  first_summary ((fun i => (Read, i, false)) <$> seqZ 1 1000) (fun s =>
    (450 <=? p50_us s) && (p50_us s <=? 550) && (900 <=? p95_us s) && (p95_us s <=? 1000) &&
    (950 <=? p99_us s) && (p99_us s <=? 1010)).

Definition clamps_values_outside_range : bool :=
  first_summary [(Read, 0, false); (Read, HIST_HIGH * 10, false)] (fun s =>
    (HIST_LOW <=? p50_us s) && (p999_us s <=? HIST_HIGH + HIST_HIGH / 1000)).

Definition records_multiple_ops_independently : bool :=
  let l := summary (record_each r0 [(Read, 100, false); (Write, 500, false)]) in
  (length l =? 2)%nat &&
  expect (summary_of Read l) (fun read => expect (summary_of Write l) (fun write => p50_us read <? p50_us write)).

Definition suite : list (string * bool) :=
  [("summary_empty_when_no_records", summary_empty_when_no_records);
   ("records_ok_and_error_separately", records_ok_and_error_separately);
   ("summary_skips_ops_without_records", summary_skips_ops_without_records);
   ("summary_ordered_by_fsop_all", summary_ordered_by_fsop_all);
   ("percentiles_are_reasonable", percentiles_are_reasonable);
   ("clamps_values_outside_range", clamps_values_outside_range);
   ("records_multiple_ops_independently", records_multiple_ops_independently)].
End MetricsTests.

Lemma metrics_tests_pass : failing MetricsTests.suite = [].
Proof. by vm_compute. Qed.

(** ** [engine/mod.rs]

    On the generator that always draws one half. *)

Module EngineTests.
Section Runs.
Context {ES : Type} `{EventSink ES}.

Abbreviation engine := (SimEngine ES (list Z)).

(** How long [thread::sleep] is asked to hold the call. *)
Definition slept (e : engine) (ctx : OpContext) (clk : Clock) : Duration :=
  match resources e !! ctx_op ctx with
  | Some res => match sleep_for (call_drawn (R := unit) e res ctx clk) with Returns d => d | Panic => 0 end
  | None => 0
  end.

(** The readings of a call that starts at [t]. *)
Definition clock_from (e : engine) (ctx : OpContext) (t : Instant) : Clock :=
  let c := {| t_start := t; t_acquire := t + tick; t_reserve := t + 2 * tick; t_end := t; t_unix := t |} in
  {| t_start := t; t_acquire := t + tick; t_reserve := t + 2 * tick; t_end := t + 3 * tick + slept e ctx c;
     t_unix := t |}.

Record Ran (T W : Type) : Type := { ran_result : result T FsError; ran_engine : engine; ran_world : W; elapsed : Duration }.
Arguments ran_result {T W}.
Arguments ran_engine {T W}.
Arguments ran_world {T W}.
Arguments elapsed {T W}.

(** [engine.run_op(ctx, body)] from time [t] on, by a thread nobody makes wait. *)
Definition run {T W} (e : engine) (ctx : OpContext) (body : W -> result T FsError * W) (w : W) (t : Instant)
    : option (Ran T W) :=
  let clk := clock_from e ctx t in
  match run_op (R := unit) e ctx body w clk with
  | RunReturns r e w => Some {| ran_result := r; ran_engine := e; ran_world := w; elapsed := t_end clk - t |}
  | _ => None
  end.

(** [|| Ok(value)] *)
Definition returns {T} (value : T) (w : unit) : result T FsError * unit := (Ok value, w).

Definition call {T} (e : engine) (ctx : OpContext) (value : T) : option (Ran T unit) := run e ctx (returns value) tt 0.

(** [n] calls, each of which must succeed. *)
Fixpoint calls_ok (n : nat) (e : engine) (ctx : OpContext) : option engine :=
  match n with
  | O => Some e
  | S n =>
      match call e ctx tt with
      | Some ran => if is_ok (ran_result ran) then calls_ok n (ran_engine ran) ctx else None
      | None => None
      end
  end.

Definition fails_with {T} (e : engine) (ctx : OpContext) (value : T) (errno : Z) : bool :=
  expect (call e ctx value) (fun ran => expect_errno (ran_result ran) errno).

Definition gives {T} `{EqDecision T} (e : engine) (ctx : OpContext) (value : T) : bool :=
  expect (call e ctx value) (fun ran => expect_ok (ran_result ran) (fun v => assert_eq v value)).
End Runs.

Arguments ran_result {ES T W}.
Arguments ran_engine {ES T W}.
Arguments ran_world {ES T W}.
Arguments elapsed {ES T W}.

Definition zero_latency : LatencyProfile :=
  {| base_us := 0; lognormal_median_us := f64_zero; lognormal_sigma := f64_zero; pareto_weight := f64_zero;
     pareto_xm_us := f64_one; pareto_alpha := f64_div (f64_of_Z 3) f64_two; max_us := 1000000 |}.

(** [zero_latency_policy()] with the given fields changed. *)
Definition policy_with (cap queue : Z) (l : LatencyProfile) (b : option BandwidthProfile) (fs : list FaultRule)
    (t : option SizeTier) : OpPolicy :=
  {| concurrency_cap := cap; Config.queue_cap := queue; latency := l; bandwidth := b; faults := fs; size_tier := t |}.

Definition zero_latency_policy : OpPolicy := policy_with 4 16 zero_latency None [] None.

Definition config_with (op : FsOp) (p : OpPolicy) : Config :=
  {| seed := seed default_Config; mount := mount default_Config; files := files default_Config;
     ops := <[op := p]> (ops default_Config); Config.metrics := Config.metrics default_Config |}.

Definition at_zero (_ : FsOp) : Instant * Instant := (0, 0).

(** [SimEngine::new_without_events(&config_with(op, policy))] *)
Definition silent (op : FsOp) (p : OpPolicy) : SimEngine NullEventSink (list Z) :=
  new_without_events (config_with op p) at_zero.

(** [SimEngine::new(&config_with(op, policy), sink)] with a collecting sink. *)
Definition collecting (op : FsOp) (p : OpPolicy) : SimEngine (list Event) (list Z) :=
  engine_new (config_with op p) [] at_zero.

(** The events of a successful or failed call. *)
Definition events_of {T} (e : SimEngine (list Event) (list Z)) (ctx : OpContext) (value : T) : option (list Event) :=
  match call e ctx value with Some ran => Some (events (ran_engine ran)) | None => None end.

Definition is_outcome (o o' : Outcome) : bool :=
  match o, o' with OutcomeOk, OutcomeOk | OutcomeError, OutcomeError => true | _, _ => false end.

Definition certain (op : FsOp) (errno : Z) : FaultRule := {| rule_op := op; rule_errno := errno; rule_rate := f64_one |}.

Definition zero_latency_runs_closure_and_returns_value : bool :=
  gives (silent Read zero_latency_policy) (data Read 100 0 4096) 7.

Definition injected_error_skips_closure : bool :=
  let e := silent Read (policy_with 4 16 zero_latency None [certain Read EIO] None) in
  expect (run e (data Read 100 0 4096) (fun _ => (Ok tt, true)) false 0) (fun ran =>
    expect_errno (ran_result ran) EIO && negb (ran_world ran)).

Definition event_is_emitted_for_success : bool :=
  expect (events_of (collecting Read zero_latency_policy) (data Read 42 0 128) tt) (fun evs =>
    Nat.eqb (length evs) 1 && expect (evs !! 0%nat) (fun ev =>
      assert_eq (ev_op ev) Read && (ev_ino ev =? 42) && (ev_len ev =? 128) && is_outcome (ev_outcome ev) OutcomeOk &&
      assert_eq (ev_errno ev) None)).

Definition event_is_emitted_for_injected_error : bool :=
  let e := collecting Write (policy_with 4 16 zero_latency None [certain Write ENOSPC] None) in
  expect (events_of e (data Write 1 0 16) tt) (fun evs =>
    Nat.eqb (length evs) 1 && expect (evs !! 0%nat) (fun ev =>
      is_outcome (ev_outcome ev) OutcomeError && assert_eq (ev_errno ev) (Some ENOSPC))).

(** [n] calls that must fail with [errno]. *)
Fixpoint calls_fail (n : nat) (e : SimEngine NullEventSink (list Z)) (ctx : OpContext) (errno : Z) : bool :=
  match n with
  | O => true
  | S n => expect (call e ctx tt) (fun ran => expect_errno (ran_result ran) errno && calls_fail n (ran_engine ran) ctx errno)
  end.

Definition limiter_releases_after_injected_error : bool :=
  calls_fail 5 (silent Read (policy_with 1 0 zero_latency None [certain Read EIO] None)) (data Read 1 0 0) EIO.

Definition base_latency (us : Z) : LatencyProfile :=
  {| base_us := us; lognormal_median_us := f64_zero; lognormal_sigma := f64_zero; pareto_weight := f64_zero;
     pareto_xm_us := f64_one; pareto_alpha := f64_div (f64_of_Z 3) f64_two; max_us := 1000000 |}.

(** [engine.run_op(ctx, || Ok(())).unwrap()] and a test of [before.elapsed()]. *)
Definition elapses (e : SimEngine NullEventSink (list Z)) (ctx : OpContext) (f : Duration -> bool) : bool :=
  expect (call e ctx tt) (fun ran => is_ok (ran_result ran) && f (elapsed ran)).

Definition latency_injection_blocks_caller : bool :=
  elapses (silent Open (policy_with 4 16 (base_latency 20000) None [] None)) (metadata Open 1)
    (fun d => from_millis 15 <=? d).

Definition seq_increments_monotonically : bool :=
  expect (calls_ok 5 (collecting GetAttr zero_latency_policy) (metadata GetAttr 1)) (fun e =>
    assert_eq (ev_seq <$> events e) [0; 1; 2; 3; 4]).

Definition bandwidth_only_applies_to_read_write : bool :=
  let b := {| bytes_per_sec := f64_one; burst_bytes := 0 |} in
  elapses (silent Open (policy_with 4 16 zero_latency (Some b) [] None)) (data Open 1 0 1000000)
    (fun d => d <? from_millis 500).

Definition metrics_record_per_op : bool :=
  expect (calls_ok 10 (silent Read zero_latency_policy) (data Read 1 0 128)) (fun e =>
    expect (MetricsTests.summary_of Read (summary (engine_metrics e))) (fun read =>
      (sum_count read =? 10) && (sum_errors read =? 0))).

Definition limiter_rejection_is_recorded_as_error : bool :=
  let e := collecting Read (policy_with 0 0 zero_latency None [] None) in
  let ctx := data Read 1 0 0 in
  fails_with e ctx tt EAGAIN && expect (events_of e ctx tt) (fun evs =>
    Nat.eqb (length evs) 1 && expect (evs !! 0%nat) (fun ev =>
      is_outcome (ev_outcome ev) OutcomeError && assert_eq (ev_errno ev) (Some EAGAIN))).
End EngineTests.

(** The tests of the size tier. *)

Module TierTests.
Import EngineTests.

Definition fixed_latency_profile (us : Z) : LatencyProfile :=
  {| base_us := us; lognormal_median_us := f64_zero; lognormal_sigma := f64_zero; pareto_weight := f64_zero;
     pareto_xm_us := f64_one; pareto_alpha := f64_div (f64_of_Z 3) f64_two; max_us := Z.max us 1000000 |}.

Definition tier (threshold : Z) (l : LatencyProfile) (b : option BandwidthProfile) (fs : list FaultRule) : option SizeTier :=
  Some {| threshold_bytes := threshold;
          large := {| large_latency := l; Config.large_bandwidth := b; large_faults := fs |} |}.

(** A silent engine with a base latency and a tier for one operation. *)
Definition tiered (op : FsOp) (base : LatencyProfile) (t : option SizeTier) : SimEngine NullEventSink (list Z) :=
  silent op (policy_with 4 16 base None [] t).

Definition size_tier_routes_reads_below_threshold_to_base : bool :=
  elapses (tiered Read (fixed_latency_profile 5000) (tier 1024 (fixed_latency_profile 200000) None []))
    (data Read 1 0 500) (fun d => d <? from_millis 50).

Definition size_tier_routes_reads_above_threshold_to_large : bool :=
  elapses (tiered Read zero_latency (tier 1024 (fixed_latency_profile 50000) None []))
    (data Read 1 0 2000) (fun d => from_millis 40 <=? d).

Definition size_tier_ignored_on_metadata_ops : bool :=
  elapses (tiered Open zero_latency (tier 1 (fixed_latency_profile 250000) None [certain Open EIO]))
    (data Open 1 0 1000000) (fun d => d <? from_millis 50).

Definition size_tier_bandwidth_throttles_large_reads : bool :=
  let b := {| bytes_per_sec := f64_of_Z 1000000; burst_bytes := 100 |} in
  let e := tiered Read (fixed_latency_profile 0) (tier 1024 (fixed_latency_profile 0) (Some b) []) in
  expect (call e (data Read 1 0 50) tt) (fun small =>
    is_ok (ran_result small) && (elapsed small <? from_millis 50) &&
    elapses (ran_engine small) (data Read 1 0 200000) (fun d => from_millis 150 <=? d)).

Definition size_tier_faults_apply_above_threshold : bool :=
  let e := tiered Read zero_latency (tier 1024 (fixed_latency_profile 0) None [certain Read EIO]) in
  expect (call e (data Read 1 0 100) 42) (fun ran =>
    expect_ok (ran_result ran) (fun v => v =? 42) &&
    fails_with (ran_engine ran) (data Read 1 0 4096) 42 EIO).

Definition size_tier_faults_apply_above_threshold_for_writes : bool :=
  let e := tiered Write zero_latency (tier 1024 (fixed_latency_profile 0) None [certain Write ENOSPC]) in
  expect (call e (data Write 1 0 100) 7) (fun ran =>
    expect_ok (ran_result ran) (fun v => v =? 7) &&
    fails_with (ran_engine ran) (data Write 1 0 4096) 7 ENOSPC).

(** The large read holds the slot for 150 ms in its body. The small one, a
    tick later, has to queue, and is admitted when the large one returns. *)
Definition size_tier_uses_inherited_concurrency_cap : bool :=
  let e := silent Read (policy_with 1 4 (fixed_latency_profile 0) None []
             (tier 1024 (fixed_latency_profile 0) None [])) in
  expect (resources e !! Read) (fun res =>
    match acquire_enter (limiter res) 0 with
    | (Guard _, l) =>
        let holding := set_resources e Read (set_limiter res l) in
        match run_op (R := unit) holding (data Read 1 0 100) (returns tt) tt (clock_from holding (data Read 1 0 100) tick) with
        | RunBlocks waiting =>
            expect (resources (drop_guard waiting Read) !! Read) (fun res =>
              match acquire_wake (limiter res) (2 * tick) (from_millis 150) with
              | (Guard queue_wait, _) => from_millis 80 <=? queue_wait
              | _ => false
              end)
        | _ => false
        end
    | _ => false
    end).

Definition size_tier_routes_on_requested_len_not_clamped_len : bool :=
  elapses (tiered Read (fixed_latency_profile 0) (tier 1024 (fixed_latency_profile 50000) None []))
    (with_requested_len (data Read 1 0 100) 10000) (fun d => from_millis 40 <=? d).

Definition size_tier_routes_to_base_when_requested_len_at_threshold : bool :=
  elapses (tiered Read (fixed_latency_profile 0) (tier 1024 (fixed_latency_profile 200000) None []))
    (with_requested_len (data Read 1 0 10000) 1024) (fun d => d <? from_millis 50).
End TierTests.

Definition engine_suite : list (string * bool) :=
  [("zero_latency_runs_closure_and_returns_value", EngineTests.zero_latency_runs_closure_and_returns_value);
   ("injected_error_skips_closure", EngineTests.injected_error_skips_closure);
   ("event_is_emitted_for_success", EngineTests.event_is_emitted_for_success);
   ("event_is_emitted_for_injected_error", EngineTests.event_is_emitted_for_injected_error);
   ("limiter_releases_after_injected_error", EngineTests.limiter_releases_after_injected_error);
   ("latency_injection_blocks_caller", EngineTests.latency_injection_blocks_caller);
   ("seq_increments_monotonically", EngineTests.seq_increments_monotonically);
   ("bandwidth_only_applies_to_read_write", EngineTests.bandwidth_only_applies_to_read_write);
   ("metrics_record_per_op", EngineTests.metrics_record_per_op);
   ("limiter_rejection_is_recorded_as_error", EngineTests.limiter_rejection_is_recorded_as_error);
   ("size_tier_routes_reads_below_threshold_to_base", TierTests.size_tier_routes_reads_below_threshold_to_base);
   ("size_tier_routes_reads_above_threshold_to_large", TierTests.size_tier_routes_reads_above_threshold_to_large);
   ("size_tier_ignored_on_metadata_ops", TierTests.size_tier_ignored_on_metadata_ops);
   ("size_tier_bandwidth_throttles_large_reads", TierTests.size_tier_bandwidth_throttles_large_reads);
   ("size_tier_faults_apply_above_threshold", TierTests.size_tier_faults_apply_above_threshold);
   ("size_tier_faults_apply_above_threshold_for_writes", TierTests.size_tier_faults_apply_above_threshold_for_writes);
   ("size_tier_uses_inherited_concurrency_cap", TierTests.size_tier_uses_inherited_concurrency_cap);
   ("size_tier_routes_on_requested_len_not_clamped_len", TierTests.size_tier_routes_on_requested_len_not_clamped_len);
   ("size_tier_routes_to_base_when_requested_len_at_threshold",
    TierTests.size_tier_routes_to_base_when_requested_len_at_threshold)].

Lemma engine_tests_pass : failing engine_suite = [].
Proof. by vm_compute. Qed.

(** ** The quick start of [fusecraft-core/src/lib.rs]

    The program of the crate's documentation: the default configuration is
    valid, and its engine returns the block that the closure makes. *)

Definition quick_start : bool :=
  let config := default_Config in
  is_ok (validate (fun _ => "") config (map_to_list (ops config))) &&
  let engine := engine_new (HI := list Z) config (tt : NullEventSink) EngineTests.at_zero in
  let ctx := data Read 42 0 4096 in
  EngineTests.gives engine ctx (replicate 4096%nat 0).

Lemma quick_start_runs : quick_start = true.
Proof. by vm_compute. Qed.
