(* ===== verification/Cli.v ===== *)
(** * The command line

    [fusecraft-cli/src]: loading a configuration, and the three subcommands
    as lists of visible actions up to success or an error.
    Argument parsing (clap), the TOML reader and writer, the file system and
    the FUSE session are outside the repository; their answers are arguments. *)

From stdpp Require Import base list numbers gmap strings.
From Stdlib Require Import ZArith Lia.

From S2P Require Import Prelude Word Float Time Op Config Text Concurrency SampleKey Sampler Bandwidth Metrics.
From S2P Require Import Events Content Namespace Engine FaultFs MountOpts Serde.

Local Open Scope Z_scope.

(** [anyhow::Error]: the added context and the cause's message. *)
Record CliError : Type := { context : string; cause : string }.

(** [Display for FsError]; how an [io::Error] prints is the standard library's. *)
Definition display_FsError (fmt_io : IoError -> string) (e : FsError) : string :=
  match e with
  | Errno n => "errno(" +:+ (if n <? 0 then "-" else "") +:+ show_u64 (Z.abs n) +:+ ")"
  | ConfigError msg => "config: " +:+ msg
  | Io e => "io: " +:+ fmt_io e
  end.

Inductive Command : Type :=
| Mount (config mountpoint : string)
| ValidateConfig (config : string)
| PrintDefaultConfig.

(** What the process does that others can see, in order. *)
Inductive Action : Type :=
| CreateLog (path : string)
| Warn (message : string)
| MountAt (mountpoint : string)
| Unmount
| Eprintln (line : string)
| FlushLog (path contents : string)
| Print (text : string).

(** What a command does, and how it ends. *)
Definition Run (T : Type) : Type := list Action * result T CliError.

Definition run_bind {T U} (m : Run T) (k : T -> Run U) : Run U :=
  match m.2 with
  | Ok x => (m.1 ++ (k x).1, (k x).2)
  | Err e => (m.1, Err e)
  end.

(** An action, and a step that does nothing visible. *)
Definition tell (actions : list Action) : Run unit := (actions, Ok tt).
Definition lift {T} (r : result T CliError) : Run T := ([], r).

Notation "'let!' x ':=' m 'in' k" := (run_bind m (fun x => k))
  (at level 10, x pattern, m at level 100, k at level 200) : fusecraft_scope.

Section Cli.
(** [std::fs::read_to_string], [toml::from_str], [toml::to_string_pretty],
    [Path::is_dir], each failure as its message. *)
Context (read_to_string : string -> result string string).
Context (toml_from_str : string -> result Config string).
Context (toml_to_string_pretty : Config -> result string string).
Context (is_dir : string -> bool).
(** [f64]'s and [FsError]'s [Display], and the iteration order of the map of
    operations. *)
Context (fmt_f64 : f64 -> string) (fmt_error : FsError -> string).
Context (iteration : Config -> list (FsOp * OpPolicy)).

Definition with_context {T} (r : result T string) (ctx : string) : result T CliError :=
  match r with
  | Ok x => Ok x
  | Err m => Err {| context := ctx; cause := m |}
  end.

Definition fs_message {T} (r : result T FsError) : result T string :=
  match r with Ok x => Ok x | Err e => Err (fmt_error e) end.

Definition load_config (path : string) : result Config CliError :=
  (let? text := with_context (read_to_string path) ("failed to read config file: " +:+ path) in
   let? config := with_context (toml_from_str text) ("invalid TOML in " +:+ path) in
   let? _ := with_context (fs_message (validate fmt_f64 config (iteration config)))
               ("config validation failed for " +:+ path) in
   Ok config)%fc.

Definition default_config_toml : result string CliError :=
  with_context (toml_to_string_pretty default_Config) "failed to serialize default config to TOML".

Definition print_default_run : Run unit :=
  (let! toml_text := lift default_config_toml in tell [Print toml_text])%fc.

Definition validate_run (config_path : string) : Run unit :=
  (let! _ := lift (load_config config_path) in tell [Eprintln ("config OK: " +:+ config_path)])%fc.

(** *** [mount] *)

Section MountRun.
Context {HI : Type} `{Histogram HI} {ES : Type}.
(** The sink behind [Arc<dyn EventSink>]: the null sink, or a log file that
    may fail to open. *)
Context (null : ES) (create_log : string -> result ES string).
(** The credentials and the clock at construction. *)
Context (getuid getgid : Z) (now : SystemTime) (nows : FsOp -> Instant * Instant).

Abbreviation filesystem := (FaultFs ES HI FlatObjectNamespace.t DeterministicContent.t).

(** The session: mounting fails, or serves requests until it is dropped and
    leaves the filesystem in some state. *)
Context (spawn : filesystem -> string -> FuserMountOptions -> result filesystem FsError).
(** [ctrlc::set_handler], and the final [sink.flush()] with what the log file
    then holds. *)
Context (set_handler : result unit string) (flush : ES -> result string string).

(** The models and the engine of a configuration, with the lines the
    namespace writes to the standard error. *)
Definition build_fs (config : Config) (sink : ES) : filesystem * list string :=
  let engine := engine_new config sink nows in
  let (ns, warnings) := FlatObjectNamespace.new (files config) getuid getgid now in
  let content := DeterministicContent.new (seed config) (file_size_bytes (files config)) in
  (fs_new engine ns content, warnings).

Definition open_sink (config : Config) : Run ES :=
  match jsonl_path (Config.metrics config) with
  | Some path =>
      (let! sink := lift (with_context (create_log path) ("failed to create event log: " +:+ path)) in
       let! _ := tell [CreateLog path] in
       lift (Ok sink))%fc
  | None => lift (Ok null)
  end.

Definition auto_unmount_warning (config : Config) : list Action :=
  if auto_unmount (Config.mount config) then
    [Warn "mount.auto_unmount=true is configured but requires allow_other, which is not currently exposed; relying on drop-based unmount instead"]
  else [].

(** After the session has ended: the summary, then the log. *)
Definition shutdown (config : Config) (fs : filesystem) : list Action :=
  (Eprintln <$> print_summary (engine_metrics (fs_engine fs))) ++
  match jsonl_path (Config.metrics config) with
  | Some path =>
      match flush (events (fs_engine fs)) with
      | Ok contents => [FlushLog path contents]
      | Err _ => [Warn "failed to flush event log"]
      end
  | None => []
  end.

(** Once the filesystem is mounted, every way out unmounts it: the handle is
    dropped. *)
Definition mount_run (config_path mountpoint : string) : Run unit :=
  if negb (is_dir mountpoint) then
    lift (Err {| context := "mountpoint does not exist or is not a directory: " +:+ mountpoint; cause := "" |})
  else
    (let! config := lift (load_config config_path) in
     let! sink := open_sink config in
     let (fs, warnings) := build_fs config sink in
     let! _ := tell (Eprintln <$> warnings) in
     let opts := from_mount_config (Config.mount config) in
     let! _ := tell (auto_unmount_warning config) in
     let! served := lift (match spawn fs mountpoint opts with
                         | Err e => Err {| context := "failed to mount: " +:+ fmt_error e; cause := "" |}
                         | Ok served => Ok served
                         end) in
     let! _ := tell [MountAt mountpoint] in
     match with_context set_handler "failed to set Ctrl+C handler" with
     | Err e => ([Unmount], Err e)
     | Ok _ =>
         let! _ := tell [Unmount] in
         tell (shutdown config served)
     end)%fc.

Definition main (command : Command) : Run unit :=
  match command with
  | Mount config mountpoint => mount_run config mountpoint
  | ValidateConfig config => validate_run config
  | PrintDefaultConfig => print_default_run
  end.
End MountRun.
End Cli.

(** ** Facts *)

Section CliFacts.
Context (read_to_string : string -> result string string).
Context (toml_from_str : string -> result Config string).
Context (fmt_f64 : f64 -> string) (fmt_error : FsError -> string).
Context (iteration : Config -> list (FsOp * OpPolicy)).
(** A map is iterated over its entries, in some order. *)
Context (iteration_entries : forall cfg, iteration cfg ≡ₚ map_to_list (ops cfg)).

Abbreviation load := (load_config read_to_string toml_from_str fmt_f64 fmt_error iteration).

Lemma load_config_iff path cfg :
  load path = Ok cfg <->
  exists text, read_to_string path = Ok text /\ toml_from_str text = Ok cfg /\ config_ok cfg.
Proof.
  unfold load_config, with_context.
  destruct (read_to_string path) as [text|m];
    [|split; [done|intros (t & Ht & _); congruence]].
  destruct (toml_from_str text) as [c|m] eqn:Ec;
    [|split; [done|intros (t & Ht & Hc & _); congruence]].
  pose proof (validate_ok_iff fmt_f64 c (iteration c) (iteration_entries c)) as Hok.
  unfold fs_message. destruct (validate fmt_f64 c (iteration c)) as [[]|e] eqn:Ev.
  - split; [intros [= <-]; exists text; split; [done|]; split; [done|by apply Hok]|]. intros (t & Ht & Hc & _). congruence.
  - split; [done|]. intros (t & Ht & Hc & Hcfg). assert (c = cfg) as -> by congruence.
    by apply Hok in Hcfg.
Qed.
End CliFacts.

(** The ranges of the configuration's integer types. *)
Definition config_typed (cfg : Config) : Prop :=
  is_u64 (inode_count (files cfg)) /\ is_u64 (file_size_bytes (files cfg)) /\ is_u64 (seed cfg) /\
  forall op p, ops cfg !! op = Some p ->
    is_u64 (concurrency_cap p) /\ is_u64 (Config.queue_cap p).

Lemma build_limiter_ready p now now' :
  is_u64 (concurrency_cap p) -> is_u64 (Config.queue_cap p) -> concurrency_cap p <> 0 ->
  counters_ok (limiter (build_resources p now now')) /\
  inflight (state (limiter (build_resources p now now'))) <
    cap (limiter (build_resources p now now')).
Proof. unfold counters_ok, is_u64. cbn. lia. Qed.

(** ** From the text of a configuration *)

Section Documents.
Context {V : Type} `{FormatLaws V}.
(** TOML's text: parsing, with its error message, and printing. *)
Context (parse : string -> result V string) (print : V -> string).
Context (parse_print : forall v, se_Config default_Config = Some v -> parse (print v) = Ok v).

(** [toml::from_str] and [toml::to_string_pretty] at [Config]. *)
Definition document_from_str (text : string) : result Config string :=
  match parse text with
  | Ok v => ok_or (de_Config v) "invalid configuration"
  | Err m => Err m
  end.

Definition document_to_string (c : Config) : result string string :=
  ok_or (print <$> se_Config c) "number out of range".

Lemma document_from_str_typed text c : document_from_str text = Ok c -> config_wt c.
Proof.
  unfold document_from_str. case_match; [|done]. unfold ok_or. case_match eqn:E; [|done].
  intros [= <-]. by eapply de_Config_typed.
Qed.

Lemma document_default : exists text, document_to_string default_Config = Ok text /\
  document_from_str text = Ok default_Config.
Proof.
  destruct (de_se_default (V := V)) as (v & Es & Ed). exists (print v).
  unfold document_to_string, document_from_str. by rewrite Es; cbn; rewrite parse_print, Ed.
Qed.
End Documents.

Lemma default_config_ok : config_ok default_Config /\ config_typed default_Config.
Proof. split; (split; [by vm_compute|split; [by vm_compute|]]); [|split; [by vm_compute|]]; by intros. Qed.

(** What the engine's theorems ask of the resources of an operation. *)
Record resources_ready (res : OpResources) : Prop := {
  ready_limiter : counters_ok (limiter res);
  ready_slot : inflight (state (limiter res)) < cap (limiter res);
  ready_latency : tier_max_us res;
  ready_base : forall bw, base_bw res = Some bw -> bw_wf bw;
  ready_large : forall bw, large_bw res = Some bw -> bw_wf bw
}.

Lemma built_resources_ready p now now' :
  policy_typed p -> concurrency_cap p <> 0 -> is_instant now -> is_instant now' ->
  resources_ready (build_resources p now now').
Proof.
  intros [Hc Hq Hl Hb _ Ht] Hne Hn Hn'. destruct (build_limiter_ready p now now' Hc Hq Hne) as [H1 H2].
  split; [exact H1|exact H2| | |].
  - unfold tier_max_us. cbn [policy build_resources]. split; [apply Hl|].
    destruct (size_tier p); [|done]. apply Ht.
  - cbn. intros bw. destruct (bandwidth p) as [b|]; cbn; [|done]. intros [= <-].
    destruct Hb. by apply bw_new_wf.
  - cbn. intros bw. destruct (size_tier p) as [t|]; [|done]. destruct Ht as [_ [_ Hlb _]].
    destruct (Config.large_bandwidth (large t)) as [b|]; cbn; [|done]. intros [= <-].
    destruct Hlb. by apply bw_new_wf.
Qed.

(** ** Properties *)

(** [load_config] succeeds exactly on a readable file of TOML that satisfies
    the documented rules, and returns that configuration: no command runs on
    one that validation refuses. *)
Theorem load_config_validated read_to_string toml_from_str fmt_f64 fmt_error iteration path cfg :
  (forall cfg, iteration cfg ≡ₚ map_to_list (ops cfg)) ->
  load_config read_to_string toml_from_str fmt_f64 fmt_error iteration path = Ok cfg <->
  exists text, read_to_string path = Ok text /\ toml_from_str text = Ok cfg /\ config_ok cfg.
Proof. intros Hit. by apply load_config_iff. Qed.

(** The filesystem built from a validated configuration is well formed: every
    operation has an idle limiter with at least one slot, the namespace's file
    count is in range, and the content's files have the configured size. *)
Theorem build_fs_ready {HI} `{Histogram HI} {ES} (cfg : Config) (sink : ES) u g now nows op :
  config_ok cfg -> config_typed cfg ->
  let fs := (build_fs (HI := HI) u g now nows cfg sink).1 in
  flat_wf (namespace fs) /\
  file_len (content fs) 100 = file_size_bytes (files cfg) /\
  exists res, resources (fs_engine fs) !! op = Some res /\ counters_ok (limiter res) /\
    inflight (state (limiter res)) < cap (limiter res).
Proof.
  intros (_ & _ & Hpol) (Hcount & _ & _ & Hty). cbn zeta. unfold build_fs.
  destruct (FlatObjectNamespace.new (files cfg) u g now) as [ns ws] eqn:En.
  cbn [fst namespace content fs_engine fs_new]. split_and!.
  - change ns with (ns, ws).1. rewrite <- En. apply new_wf. unfold is_u64 in Hcount. lia.
  - done.
  - rewrite engine_new_resources. eexists. split; [done|].
    destruct (ops cfg !! op) as [p|] eqn:Ep; cbn [default].
    + destruct (Hty op p Ep) as [H1 H2]. apply build_limiter_ready; [done|done|]. by apply (Hpol op p).
    + by apply build_limiter_ready.
Qed.

(** C30: a configuration file that [load_config] accepts is well typed and
    satisfies the documented rules, and the engine built from it gives every
    operation resources that the theorems on [run_op] ask for: counters in
    range, a free slot, latencies that fit their word, and well-formed
    buckets. *)
Theorem loaded_engine_ready {V} `{FormatLaws V} {HI} `{Histogram HI} {ES} read_to_string
    (parse : string -> result V string) fmt_f64 fmt_error iteration path cfg (sink : ES) nows op :
  (forall c, iteration c ≡ₚ map_to_list (ops c)) ->
  load_config read_to_string (document_from_str parse) fmt_f64 fmt_error iteration path = Ok cfg ->
  is_instant (nows op).1 -> is_instant (nows op).2 ->
  config_wt cfg /\ config_ok cfg /\
  exists res, resources (engine_new (HI := HI) cfg sink nows) !! op = Some res /\ resources_ready res.
Proof.
  intros Hit Hload Hn Hn'. apply (load_config_iff _ _ _ _ _ Hit) in Hload as (text & _ & Hparse & Hok).
  pose proof (document_from_str_typed _ _ _ Hparse) as Hwt. split; [done|]. split; [done|].
  eexists. split; [apply engine_new_resources|]. apply built_resources_ready; [| |done|done].
  - destruct (ops cfg !! op) as [p|] eqn:Ep; cbn; [by apply (ct_ops _ Hwt op p)|apply default_policy_typed].
  - destruct Hok as (_ & _ & Hpol). destruct (ops cfg !! op) as [p|] eqn:Ep; cbn; [by apply (Hpol op p)|done].
Qed.

(** What [print-default-config] prints is a configuration file: saved and
    loaded, it passes validation and is the default configuration, provided
    TOML's parser reads that document back as it was printed. *)
Theorem printed_default_loads {V} `{FormatLaws V} (parse : string -> result V string) (print : V -> string)
    read_to_string fmt_f64 fmt_error iteration path :
  (forall v, se_Config default_Config = Some v -> parse (print v) = Ok v) ->
  (forall c, iteration c ≡ₚ map_to_list (ops c)) ->
  exists text, print_default_run (document_to_string print) = ([Print text], Ok tt) /\
    (read_to_string path = Ok text ->
     load_config read_to_string (document_from_str parse) fmt_f64 fmt_error iteration path = Ok default_Config).
Proof.
  intros Hpp Hit. destruct (document_default parse print Hpp) as (text & Hs & Hd). exists text.
  split; [unfold print_default_run, default_config_toml; by rewrite Hs|].
  intros Hread. apply (load_config_iff _ _ _ _ _ Hit). exists text. split; [done|]. split; [done|].
  apply default_config_ok.
Qed.

(** ** Witnesses *)

Definition demo_iteration (cfg : Config) : list (FsOp * OpPolicy) := map_to_list (ops cfg).

Lemma load_config_validated_witness :
  load_config (fun _ => Ok "text") (fun _ => Ok misplaced_config) (fun _ => "0") (fun _ => "e")
    demo_iteration "a.toml" <> Ok misplaced_config.
Proof.
  intros E. apply load_config_validated in E as (text & _ & _ & Hok); [|by intros].
  apply (validate_ok_iff (fun _ => "0") misplaced_config _ misplaced_entries) in Hok. by vm_compute in Hok.
Defined.

Lemma build_fs_ready_witness :
  exists res, resources (fs_engine (build_fs (HI := list Z) 0 0 0 (fun _ => (0, 0)) default_Config tt).1) !! Read
    = Some res /\ counters_ok (limiter res).
Proof.
  destruct (build_fs_ready (HI := list Z) default_Config tt 0 0 0 (fun _ => (0, 0)) Read
    (proj1 default_config_ok) (proj2 default_config_ok)) as (_ & _ & res & Hr & Hok & _).
  exists res. by split.
Defined.

(** A format whose text is the value itself. *)
Definition demo_document : Toml := TTable [("seed", TInteger 7)].

Lemma loaded_engine_ready_witness :
  exists cfg, config_ok cfg /\ seed cfg = 7.
Proof.
  assert (E : exists cfg, load_config (fun _ => Ok "seed = 7") (document_from_str (fun _ => Ok demo_document))
    (fun _ => "0") (fun _ => "e") demo_iteration "a.toml" = Ok cfg /\ seed cfg = 7)
    by (eexists; split; by vm_compute).
  destruct E as (cfg & E & Hseed). exists cfg. split; [|exact Hseed].
  refine (proj1 (proj2 (loaded_engine_ready (HI := list Z) _ _ _ _ demo_iteration _ cfg tt (fun _ => (0, 0)) Read
    _ E _ _))); [by intros|by vm_compute|by vm_compute].
Defined.

Definition default_document : Toml := default (TTable []) (se_Config default_Config).

Lemma printed_default_loads_witness :
  exists text, print_default_run (document_to_string (fun _ : Toml => "default")) = ([Print text], Ok tt) /\ text = "default".
Proof.
  destruct (printed_default_loads (fun _ => Ok default_document) (fun _ => "default") (fun _ => Ok "default")
    (fun _ => "0") (fun _ => "e") demo_iteration "a.toml") as (text & E & _); [|by intros|].
  - intros v E. unfold default_document. by rewrite E.
  - exists text. split; [exact E|]. by injection E.
Defined.
