(* ===== verification/Mounted.v ===== *)
(** * A mounted run, from the command line to the log

    The [mount] subcommand of [fusecraft-cli/src/commands/mount.rs] around the
    threads that serve the kernel's requests: what the summary and the log
    file of a finished session say is what the kernel asked and was answered.
    The session itself is fuser's; it is any run of the server of the file
    Serving that has ended. *)

From stdpp Require Import base list numbers gmap strings.
From Stdlib Require Import ZArith Lia Bool.

From S2P Require Import Prelude Word Float Binary64 Time Op Text Concurrency Config SampleKey Sampler Content.
From S2P Require Import Namespace Bandwidth Metrics Events LogWriter Engine EngineSteps EngineDecisions FaultFs.
From S2P Require Import Serving Sessions MountOpts Serde EventLog Cli.

Local Open Scope Z_scope.

(** ** The sink of the run *)

(** [Arc<dyn EventSink>] as [run] builds it. *)
Inductive DynSink : Type :=
| DynNull
| DynJsonl (sink : Writer).

Section Sink.
Context (capacity : nat) (to_json : Event -> option string).

Definition dyn_emit (self : DynSink) (event : Event) : DynSink :=
  match self with
  | DynNull => DynNull
  | DynJsonl sink => DynJsonl (writer_emit capacity to_json sink event)
  end.

#[local] Instance dyn_sink : EventSink DynSink := {| emit := dyn_emit |}.

(** [sink.flush()], with the file's contents; only a log file is flushed. *)
Definition dyn_flush (self : DynSink) : result string string :=
  match self with
  | DynNull => Err "no event log"
  | DynJsonl sink =>
      let (ok, sink) := writer_flush sink in
      if ok then Ok (disk sink) else Err "failed to write"
  end.

Lemma dyn_emit_all w evs :
  fold_left emit evs (DynJsonl w) = DynJsonl (emit_all (H := writer_sink capacity to_json) w evs).
Proof.
  unfold emit_all. revert w. induction evs as [|e evs IH]; intros w; [done|]. cbn [fold_left].
  change (emit (DynJsonl w) e) with (DynJsonl (writer_emit capacity to_json w e)). by rewrite IH.
Qed.
End Sink.

(** ** Counting *)

(** The rows of the summary: operation, count and errors. *)
Definition row (s : OpSummary) : FsOp * Z * Z := (sum_op s, sum_count s, sum_errors s).

(** How many of the calls were of an operation, and how many of these failed. *)
Definition tally (calls : list (FsOp * bool)) (op : FsOp) : option (FsOp * Z * Z) :=
  match filter (fun c => c.1 = op) calls with
  | [] => None
  | l => Some (op, Z.of_nat (length l), count snd l)
  end.

Lemma count_perm {A} (P : A -> bool) (l l' : list A) : l ≡ₚ l' -> count P l = count P l'.
Proof. induction 1; cbn [count]; lia. Qed.

#[export] Instance tally_proper : Proper ((≡ₚ) ==> eq ==> eq) tally.
Proof.
  intros l l' Hl op ? <-. unfold tally.
  assert (Hf : filter (fun c => c.1 = op) l ≡ₚ filter (fun c => c.1 = op) l') by (by rewrite Hl).
  pose proof (Permutation_length Hf) as Hlen. pose proof (count_perm snd _ _ Hf) as Hc.
  destruct (filter _ l), (filter _ l'); [done|done|done|by rewrite Hlen, Hc].
Qed.

Definition sample_tally (s : sample) : FsOp * bool := (sample_op s, sample_err s).

Lemma filter_tally l op : filter (fun c => c.1 = op) (sample_tally <$> l) = sample_tally <$> of_op op l.
Proof.
  unfold of_op. induction l as [|s l IH]; [done|]. rewrite fmap_cons, !filter_cons, IH. cbn.
  by case_decide.
Qed.

Lemma summary_tally {HI} `{Histogram HI} l :
  Z.of_nat (length l) < 2 ^ 64 ->
  row <$> summary (record_all recorder_new l) = omap (tally (sample_tally <$> l)) ALL.
Proof.
  intros Hl. unfold summary. rewrite list_fmap_omap. apply list_omap_ext, Forall_Forall2_diag, Forall_forall.
  intros op _. rewrite op_summary_run. unfold tally. cbn zeta.
  rewrite filter_tally.
  assert (Hlen : (length (of_op op l) <= length l)%nat) by apply length_filter.
  pose proof (count_length (of_op op l)) as Hc.
  pose proof (count_nonneg (fun s => negb (sample_err s)) (of_op op l)) as Hn. fold (n_oks (of_op op l)) in Hn.
  pose proof (count_nonneg sample_err (of_op op l)) as He. fold (n_errors (of_op op l)) in He.
  rewrite !wrap64_small by (unfold is_u64; lia).
  destruct (of_op op l) as [|s l'] eqn:E; [done|]. rewrite fmap_cons. cbv iota.
  rewrite <- (fmap_cons sample_tally), length_fmap, count_fmap. done.
Qed.

(** ** The samples of idle threads *)

(** The operation of an event, and whether it reports a failure. *)
Definition key_tally (k : EventKey) : FsOp * bool :=
  let '(_, op, _, _, _, outcome, _) := k in
  (op, match outcome with OutcomeError => true | OutcomeOk => false end).

Lemma key_tally_event e : key_tally (event_key e) = sample_tally (sample_of_event e).
Proof. done. Qed.

Section Idle.
Context {R : Type} `{Rng R} `{Libm} {ES : Type} `{EventSink ES} {HI : Type} `{Histogram HI}.
Context {N : Type} `{NamespaceModel N} {C : Type} `{ContentModel C} {D : Type} `{ReplyDirectory D}.
Context {Errno' : Type} (from_i32 : Z -> Errno').
Context (fs : FaultFs ES HI N C) (config : Config) (sink : ES) (nows : FsOp -> Instant * Instant).
Context (sv : Server (ES := ES) (HI := HI) (D := D) (Errno' := Errno')).
Context (Hreachable : server_reachable (R := R) fs config sink nows sv).
Context (Hready : forall i p, ops_in (threads_of sv) !! i = Some p -> p = Ready).

(** The recorder of a server at rest has one sample per event of the log. *)
Lemma idle_samples :
  exists recorded, eng_metrics (eng (threads_of sv)) = record_all recorder_new recorded /\
    sample_tally <$> recorded ≡ₚ key_tally <$> (event_key <$> log (threads_of sv)).
Proof.
  pose proof (srv_engine _ _ _ _ _ _ (reachable_serves (R := R) from_i32 fs config sink nows sv Hreachable)) as He.
  destruct (reachable_history _ _ _ _ _ He) as [_ _ _ Hsam _ Hmet].
  rewrite (bind_nil owed_sample), app_nil_r in Hsam by (intros i p Hi; by rewrite (Hready i p Hi)).
  exists (samples (threads_of sv)). split; [exact Hmet|]. by rewrite Hsam, <- !list_fmap_compose.
Qed.

(** So its summary counts the events. *)
Lemma idle_summary :
  Z.of_nat (length (log (threads_of sv))) < 2 ^ 64 ->
  row <$> summary (eng_metrics (eng (threads_of sv))) =
  omap (tally (key_tally <$> (event_key <$> log (threads_of sv)))) ALL.
Proof.
  intros Hlen. destruct idle_samples as (recorded & -> & Htally). rewrite summary_tally.
  - apply list_omap_ext, Forall_Forall2_diag, Forall_forall. intros op _. by rewrite Htally.
  - apply Permutation_length in Htally. rewrite !length_fmap in Htally. by rewrite Htally.
Qed.
End Idle.

(** ** The session *)

Section Session.
Context {R : Type} `{Rng R} `{Libm} {HI : Type} `{Histogram HI} {D : Type} `{ReplyDirectory D}.
Context {Errno' : Type} (from_i32 : Z -> Errno').
Context {V : Type} `{LogFormatLaws V} (print : V -> string) (parse : string -> option V).
Context (capacity : nat).

#[local] Instance session_sink : EventSink DynSink := dyn_sink capacity (log_json print).

Abbreviation filesystem := (FaultFs DynSink HI FlatObjectNamespace.t DeterministicContent.t).
Abbreviation server := (Server (ES := DynSink) (HI := HI) (D := D) (Errno' := Errno')).

(** A session of the filesystem [fs], built from [config] and [sink], that has
    ended in [served]: its threads have followed the server's steps, and none
    is in a handler any more. *)
Record session (config : Config) (sink : DynSink) (nows : FsOp -> Instant * Instant) (fs served : filesystem)
    (sv : server) : Prop := {
  session_run : server_reachable (R := R) fs config sink nows sv;
  session_over : forall i p, ops_in (threads_of sv) !! i = Some p -> p = Ready;
  session_served : served = set_engine fs (eng (threads_of sv))
}.

(** The operation of an answered request, and whether it failed. *)
Definition answer_tally (fs : filesystem) (a : Answer (D := D) (Errno' := Errno')) : FsOp * bool :=
  (ctx_op (req_ctx fs (ans_req a)), negb (is_ok (ans_result a))).

Lemma key_tally_answer fs a : key_tally (answer_key fs a) = answer_tally fs a.
Proof. unfold answer_tally, answer_key, call_key, key_tally. by destruct (ans_result a). Qed.

Context (config : Config) (sink : DynSink) (nows : FsOp -> Instant * Instant) (fs served : filesystem) (sv : server).
Context (Hsession : session config sink nows fs served sv).

(** What the sink holds when the session is over. *)
Lemma session_accounts :
  received sv ≡ₚ ans_req <$> answers sv /\ Forall (answer_ok (R := R) from_i32 fs config) (answers sv) /\
  event_key <$> log (threads_of sv) ≡ₚ answer_key fs <$> answers sv /\
  events (fs_engine served) = fold_left emit (log (threads_of sv)) sink.
Proof.
  destruct Hsession as [Hr Hready ->]. pose proof (reachable_serves (R := R) from_i32 fs config sink nows sv Hr) as Hs.
  destruct (idle_answers (R := R) from_i32 fs config sink nows sv Hs Hready) as [Hrec Hlog].
  destruct (reachable_history _ _ _ _ _ (srv_engine _ _ _ _ _ _ Hs)) as [_ _ _ _ Hsink _].
  split_and!; [exact Hrec|apply (srv_answers _ _ _ _ _ _ Hs)|exact Hlog|exact Hsink].
Qed.

(** What the recorder holds. *)
Lemma session_summary :
  Z.of_nat (length (received sv)) < 2 ^ 64 ->
  row <$> summary (eng_metrics (fs_engine served)) = omap (tally (answer_tally fs <$> answers sv)) ALL.
Proof.
  intros Hlen. destruct session_accounts as (Hrec & _ & Hlog & _). destruct Hsession as [Hr Hready ->].
  cbn [fs_engine set_engine]. rewrite (idle_summary (R := R) from_i32 fs config sink nows sv Hr Hready).
  - apply list_omap_ext, Forall_Forall2_diag, Forall_forall. intros op _.
    rewrite Hlog, <- list_fmap_compose.
    by rewrite (list_fmap_ext (key_tally ∘ answer_key fs) (answer_tally fs)) by (intros; apply key_tally_answer).
  - apply Permutation_length in Hrec, Hlog. rewrite !length_fmap in Hlog. rewrite length_fmap in Hrec.
    by rewrite Hlog, <- Hrec.
Qed.

(** The log file, without failing writes. *)
Lemma session_log os :
  line_printer print parse -> Forall harmless os -> sink = DynJsonl (writer_create os) ->
  Forall (representable (V := V)) (log (threads_of sv)) ->
  exists contents, dyn_flush (events (fs_engine served)) = Ok contents /\
    read_log parse contents = Some (log (threads_of sv)).
Proof.
  intros Hp Hos Esink Hrep. destruct session_accounts as (_ & _ & _ & ->). rewrite Esink.
  destruct (run_flush capacity (log_json print) os (log (threads_of sv)) Hos) as (_ & _ & Hok & Hdisk).
  unfold session_sink. rewrite dyn_emit_all. cbn [dyn_flush]. destruct (writer_flush _) as [ok w]. cbn [fst snd] in *.
  subst ok. exists (disk w). split; [done|]. rewrite Hdisk. by apply read_unlines.
Qed.
End Session.

(** ** The run *)

Section Run.
Context (read_to_string : string -> result string string) (toml_from_str : string -> result Config string).
Context (is_dir : string -> bool) (fmt_f64 : f64 -> string) (fmt_error : FsError -> string).
Context (iteration : Config -> list (FsOp * OpPolicy)).
Context {HI : Type} `{Histogram HI} {ES : Type} (null : ES) (create_log : string -> result ES string).
Context (getuid getgid : Z) (now : SystemTime) (nows : FsOp -> Instant * Instant).

Abbreviation filesystem := (FaultFs ES HI FlatObjectNamespace.t DeterministicContent.t).

Context (spawn : filesystem -> string -> FuserMountOptions -> result filesystem FsError).
Context (set_handler : result unit string) (flush : ES -> result string string).

Abbreviation run := (mount_run read_to_string toml_from_str is_dir fmt_f64 fmt_error iteration null create_log
  getuid getgid now nows spawn set_handler flush).
Abbreviation load := (load_config read_to_string toml_from_str fmt_f64 fmt_error iteration).

(** What is done before the filesystem is mounted. *)
Definition before_mount (config : Config) (sink : ES) : list Action :=
  match jsonl_path (Config.metrics config) with Some path => [CreateLog path] | None => [] end ++
  (Eprintln <$> (build_fs (HI := HI) getuid getgid now nows config sink).2) ++ auto_unmount_warning config.

(** Neither mounts nor unmounts. *)
Definition quiet (a : Action) : bool := match a with MountAt _ | Unmount => false | _ => true end.

(** From the configuration and the sink on. *)
Lemma run_opened config_path mountpoint config sink :
  is_dir mountpoint = true -> load config_path = Ok config ->
  match jsonl_path (Config.metrics config) with
  | Some path => create_log path = Ok sink
  | None => sink = null
  end ->
  let fs := (build_fs getuid getgid now nows config sink).1 in
  exists e e', run config_path mountpoint =
    match spawn fs mountpoint (from_mount_config (Config.mount config)), set_handler with
    | Err _, _ => (before_mount config sink, Err e)
    | Ok _, Err _ => (before_mount config sink ++ [MountAt mountpoint; Unmount], Err e')
    | Ok served, Ok _ => (before_mount config sink ++ [MountAt mountpoint; Unmount] ++ shutdown flush config served, Ok tt)
    end.
Proof.
  intros Hdir Hload Hsink fs. unfold mount_run, before_mount, fs. rewrite Hdir, Hload. cbn [negb].
  assert (Hopen : open_sink null create_log config =
    (match jsonl_path (Config.metrics config) with Some path => [CreateLog path] | None => [] end, Ok sink)).
  { unfold open_sink. destruct (jsonl_path _) as [path|]; [|by subst]. by rewrite Hsink. }
  unfold run_bind at 1 2, lift at 1. cbn [fst snd app]. rewrite Hopen. cbn [fst snd].
  destruct (build_fs _ _ _ _ _ _) as [fs0 warnings]. cbn [fst snd] in *.
  unfold run_bind, tell, lift, with_context.
  destruct (spawn _ _ _) as [served|e]; [destruct set_handler as [[]|e']|]; cbn [fst snd app];
    do 2 eexists; by rewrite ?app_nil_r, <- ?(assoc_L (++)).
Qed.

Lemma quiet_lines ls : Forall quiet (Eprintln <$> ls).
Proof. apply Forall_fmap, Forall_forall. done. Qed.

Lemma quiet_before config sink : Forall quiet (before_mount config sink).
Proof.
  unfold before_mount, auto_unmount_warning. rewrite !Forall_app. split_and!; [|apply quiet_lines|].
  - destruct (jsonl_path _); by repeat constructor.
  - case_match; by repeat constructor.
Qed.

Lemma quiet_shutdown config (fs : filesystem) : Forall quiet (shutdown flush config fs).
Proof.
  unfold shutdown. apply Forall_app_2; [apply quiet_lines|]. repeat case_match; by repeat constructor.
Qed.

(** C27: however it ends, a run of [fusecraft mount] that mounts unmounts
    exactly once, right after its session, whatever happens before and after;
    and one that has not mounted has failed. *)
Theorem mount_run_unmounts config_path mountpoint :
  let (actions, r) := run config_path mountpoint in
  (exists before after, actions = before ++ [MountAt mountpoint; Unmount] ++ after /\ Forall quiet (before ++ after)) \/
  (Forall quiet actions /\ exists e, r = Err e).
Proof.
  destruct (is_dir mountpoint) eqn:Hdir; [|unfold mount_run; rewrite Hdir; right; by eauto using Forall_nil].
  destruct (load config_path) as [config|e] eqn:Hload;
    [|unfold mount_run; rewrite Hdir, Hload; right; by eauto using Forall_nil].
  assert (Hopen : (exists sink, match jsonl_path (Config.metrics config) with
      | Some path => create_log path = Ok sink
      | None => sink = null
      end) \/ exists path e, jsonl_path (Config.metrics config) = Some path /\ create_log path = Err e).
  { destruct (jsonl_path _) as [path|]; [destruct (create_log path) eqn:E|]; eauto. }
  destruct Hopen as [[sink Hsink]|(path & e & Hpath & Hfail)].
  - destruct (run_opened config_path mountpoint config sink Hdir Hload Hsink) as (e & e' & ->).
    pose proof (quiet_before config sink) as Hb.
    destruct (spawn _ _ _) as [served|]; [destruct set_handler as [|]; left|right; by eauto];
      exists (before_mount config sink).
    + exists (shutdown flush config served). split; [done|]. apply Forall_app_2; [done|apply quiet_shutdown].
    + exists []. by rewrite !app_nil_r.
  - unfold mount_run, open_sink. rewrite Hdir, Hload. cbn. rewrite Hpath, Hfail. cbn. right. by eauto using Forall_nil.
Qed.
End Run.

(** ** What is read *)

Lemma det_read_run c ino offset n :
  0 <= offset -> offset + n <= 2 ^ 64 ->
  read_at c ino offset (replicate (Z.to_nat n) 0) =
  (fun i => synth_byte ino (offset + i) (DeterministicContent.seed c)) <$> seqZ 0 n.
Proof.
  intros Ho Hn. apply list_eq. intros i. cbn. rewrite list_lookup_fmap. destruct (decide (Z.of_nat i < n)) as [Hi|Hi].
  - rewrite det_read_lookup by (rewrite length_replicate; lia).
    rewrite lookup_seqZ_lt by lia. cbn. unfold wrapping_add. rewrite wrap64_small; [done|].
    unfold is_u64. lia.
  - rewrite lookup_seqZ_ge by lia. apply lookup_ge_None_2. rewrite det_read_length, length_replicate. lia.
Qed.

Section Reads.
Context {ES HI : Type} `{Histogram HI} {D : Type} `{ReplyDirectory D} {Errno' : Type} (from_i32 : Z -> Errno').
Context (getuid getgid : Z) (now : SystemTime) (nows : FsOp -> Instant * Instant) (config : Config) (sink : ES).

Abbreviation built := (build_fs (HI := HI) getuid getgid now nows config sink).1.

Lemma built_content : content built = DeterministicContent.new (seed config) (file_size_bytes (files config)).
Proof. unfold build_fs. by destruct (FlatObjectNamespace.new _ _ _ _). Qed.

(** The bytes a read asks for that are in the file. *)
Definition bytes_read (ino offset size : Z) : list Z :=
  (fun i => synth_byte ino (offset + i) (seed config)) <$>
    seqZ 0 (Z.min (offset + size) (file_size_bytes (files config)) - offset).

Lemma built_read ino offset size :
  is_u64 (file_size_bytes (files config)) -> 0 <= offset -> 0 <= size ->
  ideal (D := D) from_i32 built (ReqRead ino offset size) = ReplyData (bytes_read ino offset size).
Proof.
  unfold is_u64. intros Hlen Ho Hs. cbn [ideal]. unfold readable_len, bytes_read. rewrite built_content.
  change (file_len (DeterministicContent.new _ ?l) _) with l. f_equal.
  destruct (Z.leb_spec (file_size_bytes (files config)) offset) as [Hle|Hlt]; [by rewrite seqZ_nil by lia|].
  replace (Z.min (file_size_bytes (files config) - offset) size)
    with (Z.min (offset + size) (file_size_bytes (files config)) - offset) by lia.
  destruct (Z.eqb_spec (Z.min (offset + size) (file_size_bytes (files config)) - offset) 0) as [->|_]; [done|].
  apply det_read_run; lia.
Qed.

(** The whole of a file, from an offset on. *)
Definition file_from (ino offset : Z) : list Z :=
  (fun i => synth_byte ino (offset + i) (seed config)) <$> seqZ 0 (file_size_bytes (files config) - offset).

Lemma bytes_read_length ino offset size :
  Z.of_nat (length (bytes_read ino offset size)) = Z.max 0 (Z.min (offset + size) (file_size_bytes (files config)) - offset).
Proof. unfold bytes_read. rewrite length_fmap, length_seqZ. lia. Qed.

Lemma file_from_read ino offset size :
  file_from ino offset = bytes_read ino offset size ++ file_from ino (offset + Z.of_nat (length (bytes_read ino offset size))).
Proof.
  rewrite bytes_read_length. set (k := Z.max 0 _). unfold file_from, bytes_read.
  replace (seqZ 0 (Z.min (offset + size) (file_size_bytes (files config)) - offset)) with (seqZ 0 k)
    by (unfold k; destruct (Z.max_spec 0 (Z.min (offset + size) (file_size_bytes (files config)) - offset)) as [[_ ->]|[? ->]];
        [done|by rewrite !seqZ_nil by lia]).
  destruct (decide (file_size_bytes (files config) - offset <= 0)).
  { rewrite !seqZ_nil by (unfold k; lia). done. }
  replace (file_size_bytes (files config) - offset) with (k + (file_size_bytes (files config) - (offset + k))) at 1 by lia.
  rewrite seqZ_app, fmap_app by (unfold k; lia). f_equal. rewrite Z.add_0_l.
  rewrite <- (Z.add_0_r k) at 1. rewrite <- (fmap_add_seqZ k 0).
  rewrite <- list_fmap_compose. apply list_fmap_ext. intros _ i _. cbn. f_equal. lia.
Qed.

(** A client that reads a file from an offset on, with requests of any size: it
    goes on after the bytes it got, repeats what was refused, and stops when it
    gets none. *)
Inductive read_by (out : list (Answer (D := D) (Errno' := Errno'))) (ino : Z) : Z -> list Z -> Prop :=
| read_end a offset size :
    a ∈ out -> ans_req a = ReqRead ino offset size -> 0 < size -> ans_reply from_i32 a = ReplyData [] ->
    read_by out ino offset []
| read_on a offset size bytes rest :
    a ∈ out -> ans_req a = ReqRead ino offset size -> 0 < size -> ans_reply from_i32 a = ReplyData bytes -> bytes <> [] ->
    read_by out ino (offset + Z.of_nat (length bytes)) rest -> read_by out ino offset (bytes ++ rest).
End Reads.

(** A reply to a read, and to any other request, when the session serves the
    filesystem [fs]. *)
Lemma answer_ok_configured {R} `{Rng R} `{Libm} {ES HI N C} `{NamespaceModel N} `{ContentModel C} {D}
    `{ReplyDirectory D} {Errno'} (from_i32 : Z -> Errno') (fs : FaultFs ES HI N C) config
    (a : Answer (D := D) (Errno' := Errno')) :
  answer_ok (R := R) from_i32 fs config a ->
  ans_reply from_i32 a = ideal from_i32 fs (ans_req a) \/
  exists errno, ans_reply from_i32 a = ReplyError (from_i32 errno) /\
    (errno = EAGAIN \/ configured_errno config (ctx_op (req_ctx fs (ans_req a))) errno).
Proof.
  intros [E|E]; [right; eauto|]. destruct (decided_fault _ _ _) as [errno|] eqn:Ef; [|by left].
  right. exists errno. split; [exact E|]. right. by eapply decided_fault_configured.
Qed.

(** A read that is answered with bytes, and the other replies to reads. *)
Lemma reachable_reads {R} `{Rng R} `{Libm} {ES} `{EventSink ES} {HI} `{Histogram HI} {D} `{ReplyDirectory D} {Errno'}
    (from_i32 : Z -> Errno') getuid getgid now nows config (sink : ES)
    (sv : Server (ES := ES) (HI := HI) (D := D) (Errno' := Errno')) a ino offset size :
  let fs := (build_fs getuid getgid now nows config sink).1 in
  is_u64 (file_size_bytes (files config)) -> server_reachable (R := R) fs config sink nows sv ->
  a ∈ answers sv -> ans_req a = ReqRead ino offset size -> 0 <= offset -> 0 <= size ->
  ans_reply from_i32 a = ReplyData (bytes_read config ino offset size) \/
  exists errno, ans_reply from_i32 a = ReplyError (from_i32 errno) /\
    (errno = EAGAIN \/ configured_errno config Read errno).
Proof.
  cbn zeta. intros Hlen Hr Ha Hreq Ho Hs.
  pose proof (srv_answers _ _ _ _ _ _ (reachable_serves (R := R) from_i32 _ config sink nows sv Hr)) as Hall.
  rewrite Forall_forall in Hall. specialize (Hall a Ha). apply answer_ok_configured in Hall.
  rewrite Hreq, built_read in Hall by done. exact Hall.
Qed.

(** What a client that reads to the end collects. *)
Lemma reachable_file {R} `{Rng R} `{Libm} {ES} `{EventSink ES} {HI} `{Histogram HI} {D} `{ReplyDirectory D} {Errno'}
    (from_i32 : Z -> Errno') getuid getgid now nows config (sink : ES)
    (sv : Server (ES := ES) (HI := HI) (D := D) (Errno' := Errno')) ino offset found :
  let fs := (build_fs getuid getgid now nows config sink).1 in
  is_u64 (file_size_bytes (files config)) -> server_reachable (R := R) fs config sink nows sv -> 0 <= offset ->
  read_by from_i32 (answers sv) ino offset found -> found = file_from config ino offset.
Proof.
  cbn zeta. intros Hlen Hr Ho Hread. unfold is_u64 in Hlen.
  assert (Hdata : forall a offset size bytes, 0 <= offset -> a ∈ answers sv -> ans_req a = ReqRead ino offset size ->
      0 < size -> ans_reply from_i32 a = ReplyData bytes -> bytes = bytes_read config ino offset size).
  { intros a offset' size bytes Ho' Ha Hreq Hs Hrep.
    destruct (reachable_reads (R := R) from_i32 getuid getgid now nows config sink sv a ino offset' size
      Hlen Hr Ha Hreq Ho' ltac:(lia)) as [E|(errno & E & _)]; rewrite Hrep in E; [by injection E|done]. }
  induction Hread as [a offset size Ha Hreq Hs Hrep|a offset size bytes rest Ha Hreq Hs Hrep Hne _ IH].
  - pose proof (Hdata _ _ _ _ Ho Ha Hreq Hs Hrep) as E. apply (f_equal (Z.of_nat ∘ length)) in E. cbn in E.
    rewrite bytes_read_length in E. unfold file_from. by rewrite seqZ_nil by lia.
  - pose proof (Hdata _ _ _ _ Ho Ha Hreq Hs Hrep) as ->. rewrite IH by lia. symmetry. apply file_from_read.
Qed.

(** ** Properties *)

(** C9: end to end: when [fusecraft mount] serves a session with a log file,
    and writes to that file do not fail, then the process ends well, having
    mounted and unmounted once and printed the summary after that; every
    request received was answered once, with a reply the file Serving allows;
    each row of the summary counts the requests of its operation and those
    that failed; and the flushed file reads back as one event per answer, with
    the number, context, outcome and errno of that answer. *)
Theorem mounted_run_accounts {R} `{Rng R} `{Libm} {HI} `{Histogram HI} {D} `{ReplyDirectory D} {Errno'}
    (from_i32 : Z -> Errno') {V} `{LogFormatLaws V} (print : V -> string) (parse : string -> option V) capacity os
    read_to_string toml_from_str is_dir fmt_f64 fmt_error iteration (create_log : string -> result DynSink string)
    getuid getgid now nows spawn set_handler config_path mountpoint config path
    (sv : Server (ES := DynSink) (HI := HI) (D := D) (Errno' := Errno')) served :
  let sink := DynJsonl (writer_create os) in
  let fs := (build_fs getuid getgid now nows config sink).1 in
  line_printer print parse -> Forall harmless os ->
  is_dir mountpoint = true ->
  load_config read_to_string toml_from_str fmt_f64 fmt_error iteration config_path = Ok config ->
  jsonl_path (Config.metrics config) = Some path -> create_log path = Ok sink ->
  spawn fs mountpoint (from_mount_config (Config.mount config)) = Ok served ->
  session (R := R) print capacity config sink nows fs served sv ->
  set_handler = Ok tt -> Forall (representable (V := V)) (log (threads_of sv)) ->
  Z.of_nat (length (received sv)) < 2 ^ 64 ->
  exists before recorder contents evs,
    mount_run read_to_string toml_from_str is_dir fmt_f64 fmt_error iteration DynNull create_log getuid getgid now nows
      spawn set_handler dyn_flush config_path mountpoint =
      (before ++ [MountAt mountpoint; Unmount] ++ (Eprintln <$> print_summary recorder) ++ [FlushLog path contents], Ok tt) /\
    Forall quiet before /\
    received sv ≡ₚ ans_req <$> answers sv /\ Forall (answer_ok (R := R) from_i32 fs config) (answers sv) /\
    row <$> summary recorder = omap (tally (answer_tally fs <$> answers sv)) ALL /\
    read_log parse contents = Some evs /\ event_key <$> evs ≡ₚ answer_key fs <$> answers sv.
Proof.
  cbn zeta. intros Hp Hos Hdir Hload Hpath Hcreate Hspawn Hs -> Hrep Hlen.
  pose proof (session_accounts (R := R) from_i32 print capacity _ _ _ _ _ _ Hs) as (Hrec & Hans & Hlog & _).
  destruct (session_log (R := R) from_i32 print parse capacity _ _ _ _ _ _ Hs os Hp Hos eq_refl Hrep)
    as (contents & Hflush & Hread).
  pose proof (session_summary (R := R) from_i32 print capacity _ _ _ _ _ _ Hs Hlen) as Hrows.
  destruct (run_opened read_to_string toml_from_str is_dir fmt_f64 fmt_error iteration DynNull create_log
    getuid getgid now nows spawn (Ok tt) dyn_flush config_path mountpoint config (DynJsonl (writer_create os))
    Hdir Hload ltac:(by rewrite Hpath)) as (e & e' & Hrun).
  rewrite Hspawn in Hrun. unfold shutdown in Hrun. rewrite Hpath, Hflush in Hrun.
  do 4 eexists. split; [exact Hrun|]. split; [apply quiet_before|]. split_and!; [exact Hrec|exact Hans|exact Hrows|exact Hread|exact Hlog].
Qed.

(** C10: the data the kernel gets: whatever requests a mounted filesystem serves
    besides, on however many threads, every answered read of [size] bytes at
    [offset] replies the bytes that seed, inode and offset determine, from
    [offset] to the end of the request or of the configured file size, none
    past it; or EAGAIN, or an errno that the configuration has a rule for. *)
Theorem served_reads {R} `{Rng R} `{Libm} {ES} `{EventSink ES} {HI} `{Histogram HI} {D} `{ReplyDirectory D} {Errno'}
    (from_i32 : Z -> Errno') getuid getgid now nows config (sink : ES)
    (sv : Server (ES := ES) (HI := HI) (D := D) (Errno' := Errno')) a ino offset size :
  let fs := (build_fs getuid getgid now nows config sink).1 in
  is_u64 (file_size_bytes (files config)) -> server_reachable (R := R) fs config sink nows sv ->
  a ∈ answers sv -> ans_req a = ReqRead ino offset size -> 0 <= offset -> 0 <= size ->
  ans_reply from_i32 a = ReplyData (bytes_read config ino offset size) \/
  exists errno, ans_reply from_i32 a = ReplyError (from_i32 errno) /\
    (errno = EAGAIN \/ configured_errno config Read errno).
Proof. apply reachable_reads. Qed.

(** C11: a whole file under load: however the requests of a mount interleave, a
    client that reads a file with requests of any size, from the start and each
    time from where it is, and repeats the requests that were refused, ends with
    the file: as many bytes as the configuration says, each the one that seed,
    inode and offset determine, whatever was written to it meanwhile. *)
Theorem served_file {R} `{Rng R} `{Libm} {ES} `{EventSink ES} {HI} `{Histogram HI} {D} `{ReplyDirectory D} {Errno'}
    (from_i32 : Z -> Errno') getuid getgid now nows config (sink : ES)
    (sv : Server (ES := ES) (HI := HI) (D := D) (Errno' := Errno')) ino found :
  let fs := (build_fs getuid getgid now nows config sink).1 in
  is_u64 (file_size_bytes (files config)) -> server_reachable (R := R) fs config sink nows sv ->
  read_by from_i32 (answers sv) ino 0 found ->
  found = (fun i => synth_byte ino i (seed config)) <$> seqZ 0 (file_size_bytes (files config)).
Proof.
  cbn zeta. intros Hlen Hr Hread.
  rewrite (reachable_file (R := R) from_i32 getuid getgid now nows config sink sv ino 0 found Hlen Hr ltac:(lia) Hread).
  unfold file_from. by rewrite Z.sub_0_r.
Qed.

(** ** Witness

    One fsync on a filesystem whose fsyncs fail, with a log file and one
    thread. *)

Definition logged_config : Config :=
  {| seed := 42; Config.mount := default_MountConfig; files := default_FilesConfig;
     ops := {[Fsync := fsync_policy]}; Config.metrics := {| jsonl_path := Some "events.jsonl" |} |}.

Definition log_to_file : DynSink := DynJsonl (writer_create [Interrupted; Wrote 100]).

#[local] Instance mounted_sink : EventSink DynSink := dyn_sink DEFAULT_BUF_SIZE (log_json print_tree).

Definition mounted_fs : FaultFs DynSink (list Z) FlatObjectNamespace.t DeterministicContent.t :=
  (build_fs 1000 1000 0 (fun _ => (0, 0)) logged_config log_to_file).1.

Abbreviation mounted_server := (Server (ES := DynSink) (HI := list Z) (D := two_slots) (Errno' := Z)).
Abbreviation mounted_step :=
  (fun sv sv' : mounted_server => exists a, sstep (R := unit) mounted_fs a sv sv').

(** A step of the only thread, which is not about to return. *)
Ltac lone_step tac :=
  eapply (steps_cons mounted_step);
    [exists Settle; eapply s_work; [tac|done|intros [|i] p Hp Hsome; cbn in Hp; simplify_eq; by destruct Hsome]|].

Lemma mounted_demo :
  exists sv : mounted_server,
    server_reachable (R := unit) mounted_fs logged_config log_to_file (fun _ => (0, 0)) sv /\
    ops_in (threads_of sv) = [Ready] /\ received sv = [ReqFsync 100] /\
    Forall (representable (V := Tree)) (log (threads_of sv)).
Proof.
  eexists. split; [exists 1%nat|].
  - eapply (steps_cons mounted_step); [exists Call; by apply (s_request _ _ 0 (ReqFsync 100) 0)|].
    lone_step ltac:(eapply (e_acquire _ 0 _ (build_resources fsync_policy 0 0) 10); [done|by vm_compute|reflexivity]).
    lone_step ltac:(eapply (e_draw (R := unit) _ 0 _ 0 _ 20); [done|by vm_compute|reflexivity]).
    lone_step ltac:(eapply (e_execute _ 0); [by vm_compute|reflexivity]).
    lone_step ltac:(eapply (e_emit _ 0 _ _ _ _ demo_clock); reflexivity).
    lone_step ltac:(eapply (e_record _ 0); reflexivity).
    eapply (steps_cons mounted_step); [exists Settle|apply steps_refl].
    eapply (s_reply _ _ _ 0).
    { eapply (e_return _ 0); [reflexivity|]. apply notify_op_none. intros [|i] c start Hi; by vm_compute in Hi. }
    all: reflexivity.
  - split; [reflexivity|]. split; [reflexivity|].
    cbn [log threads_of set_threads with_sample with_event set_thread app]. apply Forall_singleton. eexists. by vm_compute.
Qed.

Lemma logged_config_loads :
  load_config (fun _ => Ok "") (fun _ => Ok logged_config) (fun _ => "0") (fun _ => "e") demo_iteration "a.toml"
  = Ok logged_config.
Proof. by vm_compute. Qed.

Definition mounted_spawn (sv : mounted_server) (fs : FaultFs DynSink (list Z) FlatObjectNamespace.t DeterministicContent.t)
    (_ : string) (_ : FuserMountOptions) :
    result (FaultFs DynSink (list Z) FlatObjectNamespace.t DeterministicContent.t) FsError :=
  Ok (set_engine fs (eng (threads_of sv))).

(** The log of that run has one event, an fsync that failed. *)
Lemma mounted_run_accounts_witness :
  exists (sv : mounted_server) actions contents evs,
    mount_run (fun _ => Ok "") (fun _ => Ok logged_config) (fun _ => true) (fun _ => "0") (fun _ => "e") demo_iteration
      DynNull (fun _ => Ok log_to_file) 1000 1000 0 (fun _ => (0, 0)) (mounted_spawn sv) (Ok tt) dyn_flush
      "a.toml" "/mnt" = (actions, Ok tt) /\
    FlushLog "events.jsonl" contents ∈ actions /\ read_log parse_tree contents = Some evs /\
    [ReqFsync 100] ≡ₚ ans_req <$> answers sv /\ event_key <$> evs ≡ₚ answer_key mounted_fs <$> answers sv.
Proof.
  destruct mounted_demo as (sv & Hr & Hops & Hrec & Hrep). exists sv.
  destruct (mounted_run_accounts (R := unit) (fun e : Z => e) print_tree parse_tree DEFAULT_BUF_SIZE
    [Interrupted; Wrote 100] (fun _ => Ok "") (fun _ => Ok logged_config) (fun _ => true) (fun _ => "0") (fun _ => "e")
    demo_iteration (fun _ => Ok log_to_file) 1000 1000 0 (fun _ => (0, 0)) (mounted_spawn sv) (Ok tt) "a.toml" "/mnt"
    logged_config "events.jsonl" sv (set_engine mounted_fs (eng (threads_of sv))))
    as (before & recorder & contents & evs & Hrun & _ & Hperm & _ & _ & Hread & Hkeys);
    [exact tree_line_printer|by repeat constructor|done|exact logged_config_loads|done|done|done| |done|exact Hrep| |].
  - split; [exact Hr| |done]. intros i p. rewrite Hops. destruct i; intros; by simplify_eq/=.
  - by rewrite Hrec.
  - do 3 eexists. split; [exact Hrun|]. split_and!; [|exact Hread|by rewrite <- Hrec|exact Hkeys].
    rewrite !elem_of_app. right. right. right. by apply list_elem_of_singleton.
Defined.

Lemma logged_words : config_words logged_config.
Proof. intros []; vm_compute; done. Qed.

Lemma logged_caps op : 0 < concurrency_cap (policy_of logged_config op).
Proof. by destruct op. Qed.

Lemma logged_unthrottled : unthrottled logged_config.
Proof. intros []; vm_compute; done. Qed.

(** A read and an fsync, each of which is answered. *)
Lemma mounted_answers :
  exists sv : mounted_server,
    server_reachable (R := unit) mounted_fs logged_config log_to_file (fun _ => (0, 0)) sv /\
    [ReqRead 100 65440 200; ReqFsync 100] ≡ₚ ans_req <$> answers sv.
Proof.
  set (start := s_initial logged_config log_to_file (fun _ => (0, 0)) 2 : mounted_server).
  assert (Htaken : exists sv, steps mounted_step start sv /\ received sv = [ReqRead 100 65440 200; ReqFsync 100]).
  { eexists. split.
    - eapply (steps_cons mounted_step); [exists Call; by apply (s_request _ _ 0 (ReqRead 100 65440 200) 0)|].
      eapply (steps_cons mounted_step); [exists Call; by apply (s_request _ _ 1 (ReqFsync 100) 0)|apply steps_refl].
    - done. }
  destruct Htaken as (sv & Hsteps & Hrec).
  assert (Hr : server_reachable (R := unit) mounted_fs logged_config log_to_file (fun _ => (0, 0)) sv) by (by exists 2%nat).
  destruct (server_can_finish (R := unit) (fun e : Z => e) mounted_fs logged_config log_to_file (fun _ => (0, 0))
    logged_words sv Hr) as (n & sv' & Hn & Hstuck). exists sv'.
  pose proof (server_reachable_settle _ _ _ _ _ _ _ Hr Hn) as Hr'. split; [exact Hr'|].
  rewrite <- Hrec, <- (proj2 (ssteps_esteps _ _ _ _ Hn)).
  apply (stopped_answers (R := unit) (fun e : Z => e) mounted_fs logged_config log_to_file (fun _ => (0, 0))
    logged_words logged_caps sv' logged_unthrottled Hr' Hstuck).
Qed.

(** That read gets the last 96 bytes of the file. *)
Lemma served_reads_witness :
  exists a, ans_req (D := two_slots) (Errno' := Z) a = ReqRead 100 65440 200 /\
    length (bytes_read logged_config 100 65440 200) = 96%nat /\
    (ans_reply (fun e : Z => e) a = ReplyData (bytes_read logged_config 100 65440 200) \/
     exists errno, ans_reply (fun e : Z => e) a = ReplyError errno /\ (errno = EAGAIN \/ configured_errno logged_config Read errno)).
Proof.
  destruct mounted_answers as (sv & Hr & Hperm).
  assert (Hin : ReqRead 100 65440 200 ∈ ans_req <$> answers sv) by (rewrite <- Hperm; left).
  apply list_elem_of_fmap in Hin as (a & Hreq & Ha). exists a. split; [done|]. split; [by vm_compute|].
  refine (served_reads (R := unit) (fun e : Z => e) 1000 1000 0 (fun _ => (0, 0)) logged_config log_to_file sv a 100 65440 200
    _ Hr Ha (eq_sym Hreq) _ _); [by vm_compute|lia|lia].
Defined.

(** Files of ten bytes, and a client that reads one in two pieces, writes to it
    in between and is refused once. *)
Definition short_config : Config :=
  {| seed := 42; Config.mount := default_MountConfig;
     files := {| inode_count := 1; file_size_bytes := 10; root_layout := Flat; write_mode := Discard |};
     ops := {[Fsync := fsync_policy]}; Config.metrics := default_MetricsConfig |}.

Definition short_requests : list (Request two_slots) :=
  [ReqRead 100 0 6; ReqWrite 100 0 [1; 2; 3]; ReqFsync 100; ReqRead 100 6 6; ReqRead 100 10 6].

Definition short_fs : FaultFs (list Event) (list Z) FlatObjectNamespace.t DeterministicContent.t :=
  (build_fs 1000 1000 0 (fun _ => (0, 0)) short_config []).1.

Lemma short_words : config_words short_config.
Proof. intros []; vm_compute; done. Qed.

Lemma short_caps op : 0 < concurrency_cap (policy_of short_config op).
Proof. by destruct op. Qed.

Lemma short_unthrottled : unthrottled short_config.
Proof. intros []; vm_compute; done. Qed.

Lemma short_session :
  exists sv : Server (ES := list Event) (HI := list Z) (D := two_slots) (Errno' := Z),
    server_reachable (R := unit) short_fs short_config [] (fun _ => (0, 0)) sv /\
    ans_req <$> answers sv = short_requests /\
    ans_reply (fun e : Z => e) <$> answers sv =
      [ReplyData (bytes_read short_config 100 0 6); ReplyWritten 3; ReplyError ENOSPC;
       ReplyData (bytes_read short_config 100 6 6); ReplyData []].
Proof.
  destruct (serve_all (R := unit) (fun e : Z => e) short_fs short_config [] (fun _ => (0, 0)) short_words short_requests
    short_unthrottled short_caps) as (sv & Hr & Hidle & Hrec). exists sv. split; [exact Hr|].
  assert (Hone : length (ops_in (threads_of sv)) = 1%nat) by (by rewrite Hidle).
  assert (Hfits : fits short_config (threads_of sv)) by (intros op; rewrite Hone; pose proof (short_caps op); lia).
  pose proof (reachable_in_order (R := unit) (fun e : Z => e) _ _ _ _ short_words sv Hr Hone Hfits) as Hord. split.
  - by rewrite <- Hrec, (in_order_idle _ _ _ _ _ _ Hord Hidle).
  - rewrite (proj2 (in_order_replies _ _ _ _ _ _ Hord) Hidle), Hrec. by vm_compute.
Qed.

(** That client ends with the ten bytes. *)
Lemma served_file_witness :
  exists (sv : Server (ES := list Event) (HI := list Z) (D := two_slots) (Errno' := Z)) found,
    ans_req <$> answers sv = short_requests /\ read_by (fun e : Z => e) (answers sv) 100 0 found /\
    found = (fun i => synth_byte 100 i 42) <$> seqZ 0 10.
Proof.
  destruct short_session as (sv & Hr & Hreqs & Hreplies).
  destruct (answer_at _ _ _ _ 0%nat _ _ Hreqs Hreplies eq_refl eq_refl) as (a1 & Ha1 & Hq1 & Hp1).
  destruct (answer_at _ _ _ _ 3%nat _ _ Hreqs Hreplies eq_refl eq_refl) as (a2 & Ha2 & Hq2 & Hp2).
  destruct (answer_at _ _ _ _ 4%nat _ _ Hreqs Hreplies eq_refl eq_refl) as (a3 & Ha3 & Hq3 & Hp3).
  assert (Hread : read_by (fun e : Z => e) (answers sv) 100 0
    (bytes_read short_config 100 0 6 ++ bytes_read short_config 100 6 6 ++ [])).
  { eapply read_on; [exact Ha1|exact Hq1|lia|exact Hp1|by vm_compute|].
    eapply read_on; [exact Ha2|exact Hq2|lia|exact Hp2|by vm_compute|].
    eapply read_end; [exact Ha3|exact Hq3|lia|exact Hp3]. }
  exists sv. eexists. split; [exact Hreqs|]. split; [exact Hread|].
  refine (served_file (R := unit) (fun e : Z => e) 1000 1000 0 (fun _ => (0, 0)) short_config [] sv 100 _ _ Hr Hread).
  by vm_compute.
Defined.
