(* ===== verification/Replay.v ===== *)
(** * Two mounts of one configuration

    The promise in the program's name: a session of the [mount] subcommand can
    be replayed. Two filesystems that [build_fs] of the file Cli makes from one
    configuration differ in the user that mounted them, the time, the sink and
    the clocks. A request is answered alike by both but for the owner and the
    times of the files, and one thread of either serves equal requests with
    equal faults, injected latencies, log events and summary rows. *)

From stdpp Require Import base list numbers gmap strings.
From Stdlib Require Import ZArith Lia Bool.

From S2P Require Import Prelude Word Float Binary64 Time Op Text Concurrency Config SampleKey Sampler Content.
From S2P Require Import Namespace Bandwidth Metrics Events Engine EngineSteps EngineDecisions FaultFs.
From S2P Require Import LogWriter Serving Sessions MountOpts Serde EventLog Cli Mounted.

Local Open Scope Z_scope.

(** ** Alike but for owner and times *)

Definition anonymous_spec (a : FileAttrSpec) : FileAttrSpec :=
  {| attr_ino := attr_ino a; attr_size := attr_size a; attr_kind := attr_kind a; attr_mode := attr_mode a;
     attr_nlink := attr_nlink a; attr_uid := 0; attr_gid := 0; attr_mtime := 0 |}.

Definition anonymous_attr (a : FileAttr) : FileAttr :=
  {| fa_ino := fa_ino a; fa_size := fa_size a; fa_blocks := fa_blocks a; fa_atime := 0; fa_mtime := 0; fa_ctime := 0;
     fa_crtime := fa_crtime a; fa_kind := fa_kind a; fa_perm := fa_perm a; fa_nlink := fa_nlink a;
     fa_uid := 0; fa_gid := 0; fa_rdev := fa_rdev a; fa_blksize := fa_blksize a; fa_flags := fa_flags a |}.

Lemma anonymous_attr_spec a : anonymous_attr (attr_from_spec a) = attr_from_spec (anonymous_spec a).
Proof. done. Qed.

Definition anonymous {D Errno'} (r : Reply D Errno') : Reply D Errno' :=
  match r with
  | ReplyEntry ttl a generation => ReplyEntry ttl (anonymous_attr a) generation
  | ReplyAttr ttl a => ReplyAttr ttl (anonymous_attr a)
  | _ => r
  end.

(** Replies that differ in owner and times at most. *)
Definition alike {D Errno'} (r r' : Reply D Errno') : Prop := anonymous r = anonymous r'.

#[export] Instance alike_equivalence {D Errno'} : Equivalence (alike (D := D) (Errno' := Errno')).
Proof. split; unfold alike; [by intros r|by intros r r'|by intros r1 r2 r3 -> ->]. Qed.

(** Results that differ as much, and fail with the same error. *)
Definition alike_result {D Errno'} (b b' : result (Reply D Errno') FsError) : Prop :=
  result_map anonymous b = result_map anonymous b'.

#[export] Instance reply_result_alike {D Errno'} (from_i32 : Z -> Errno') :
  Proper (alike_result (D := D) ==> alike) (fun b => reply_result from_i32 b (fun r => r)).
Proof. intros [r|e] [r'|e'] E; unfold alike_result in E; simplify_eq/=; done. Qed.

#[export] Instance outcome_alike {D Errno'} : Proper (alike_result (D := D) (Errno' := Errno') ==> eq) outcome_of.
Proof. intros [r|e] [r'|e'] E; unfold alike_result in E; by simplify_eq/=. Qed.

(** ** Filesystems that answer alike *)

Section Twins.
Context {R : Type} `{Rng R} `{Libm} {ES ES' HI HI' : Type}.
Context {N : Type} `{NamespaceModel N} {N' : Type} `{NamespaceModel N'} {C : Type} `{ContentModel C}.
Context {D : Type} `{ReplyDirectory D} {Errno' : Type} (from_i32 : Z -> Errno').

Record twins (fs : FaultFs ES HI N C) (fs' : FaultFs ES' HI' N' C) : Prop := {
  twin_content : content fs = content fs';
  twin_attr_ttl : attr_ttl fs = attr_ttl fs';
  twin_entry_ttl : entry_ttl fs = entry_ttl fs';
  twin_lookup : forall parent name, lookup_child (namespace fs) parent name = lookup_child (namespace fs') parent name;
  twin_attr : forall ino, anonymous_spec <$> attr (namespace fs) ino = anonymous_spec <$> attr (namespace fs') ino;
  twin_readdir : forall ino offset, readdir_body fs ino offset = readdir_body fs' ino offset
}.

Context (fs : FaultFs ES HI N C) (fs' : FaultFs ES' HI' N' C) (Htwins : twins fs fs').

Lemma twins_ctx (req : Request D) : req_ctx fs req = req_ctx fs' req.
Proof. destruct req; try done. cbn [req_ctx]. unfold readable_len. by rewrite (twin_content _ _ Htwins). Qed.

(** A reply made of a file's attributes. *)
Lemma twins_attr_reply ino (reply : FileAttrSpec -> Reply D Errno') :
  (forall a a', anonymous_spec a = anonymous_spec a' -> alike (reply a) (reply a')) ->
  alike_result (result_map reply (ok_or (attr (namespace fs) ino) (Errno ENOENT)))
               (result_map reply (ok_or (attr (namespace fs') ino) (Errno ENOENT))).
Proof.
  intros Hreply. pose proof (twin_attr _ _ Htwins ino) as E. unfold alike_result.
  destruct (attr (namespace fs) ino), (attr (namespace fs') ino); try done. cbn. f_equal. apply Hreply.
  by apply (inj Some) in E.
Qed.

(** The handlers that reply attributes look at nothing else. *)
Lemma attr_reply_alike ttl generation a a' :
  anonymous_spec a = anonymous_spec a' ->
  alike (D := D) (Errno' := Errno') (ReplyEntry ttl (attr_from_spec a) generation)
    (ReplyEntry ttl (attr_from_spec a') generation) /\
  alike (D := D) (Errno' := Errno') (ReplyAttr ttl (attr_from_spec a)) (ReplyAttr ttl (attr_from_spec a')).
Proof. intros E. unfold alike. cbn [anonymous]. by rewrite !anonymous_attr_spec, !E. Qed.

Lemma twins_body (req : Request D) : alike_result (Errno' := Errno') (req_body fs req) (req_body fs' req).
Proof.
  destruct req; cbn [req_body]; try done.
  - unfold lookup_body. rewrite (twin_lookup _ _ Htwins), (twin_entry_ttl _ _ Htwins).
    destruct (lookup_child _ _ _) as [ino|]; [|done]. cbn [ok_or].
    pose proof (twins_attr_reply ino (fun spec => ReplyEntry (entry_ttl fs') (attr_from_spec spec) 0)
      ltac:(intros; by apply attr_reply_alike)) as Ha.
    by destruct (attr (namespace fs) ino), (attr (namespace fs') ino).
  - rewrite (twin_attr_ttl _ _ Htwins). apply twins_attr_reply. intros. by apply (attr_reply_alike _ 0).
  - unfold read_body, readable_len. by rewrite (twin_content _ _ Htwins).
  - unfold write_body. by rewrite (twin_content _ _ Htwins).
  - by rewrite (twin_readdir _ _ Htwins).
  - unfold access_body. pose proof (twin_attr _ _ Htwins ino) as E.
    by destruct (attr (namespace fs) ino), (attr (namespace fs') ino).
Qed.

Context (config : Config).

(** The replies and events of one thread. *)
Lemma twins_replies (reqs : list (Request D)) :
  Forall2 alike (mount_replies (R := R) from_i32 fs config reqs) (mount_replies (R := R) from_i32 fs' config reqs).
Proof.
  unfold mount_replies. apply Forall2_same_length_lookup. split; [by rewrite !length_imap|]. intros k r r'.
  rewrite !list_lookup_imap. destruct (reqs !! k) as [req|]; [|done]. cbn. intros [= <-] [= <-].
  unfold decided_reply. rewrite twins_ctx. destruct (decided_fault _ _ _); [done|].
  rewrite <- !req_body_ideal. by apply reply_result_alike, twins_body.
Qed.

Lemma twins_events (reqs : list (Request D)) :
  mount_events (R := R) (Errno' := Errno') fs config reqs = mount_events (R := R) (Errno' := Errno') fs' config reqs.
Proof.
  apply imap_ext. intros k req _. unfold decided_event. rewrite twins_ctx. destruct (decided_fault _ _ _); [done|].
  unfold call_key. by rewrite (outcome_alike _ _ (twins_body req)).
Qed.
End Twins.

(** The models that [build_fs] makes depend on the mounting user and the time
    only in the owner and the times of the files. *)
Lemma built_twins {ES ES' HI HI'} `{Histogram HI} `{Histogram HI'} uid uid' gid gid' now now' nows nows' config
    (sink : ES) (sink' : ES') :
  twins (build_fs (HI := HI) uid gid now nows config sink).1 (build_fs (HI := HI') uid' gid' now' nows' config sink').1.
Proof.
  assert (Hdir : forall ino offset, readdir_body (build_fs (HI := HI) uid gid now nows config sink).1 ino offset =
      readdir_body (build_fs (HI := HI') uid' gid' now' nows' config sink').1 ino offset).
  { intros ino offset. unfold readdir_body, build_fs. cbn [FlatObjectNamespace.new fst namespace fs_new readdir flat_namespace].
    unfold FlatObjectNamespace.readdir, FlatObjectNamespace.push_rest. by cbn [FlatObjectNamespace.inode_count]. }
  split; [done..| |exact Hdir].
  intros ino. unfold build_fs. cbn [FlatObjectNamespace.new fst namespace fs_new attr flat_namespace].
  unfold FlatObjectNamespace.attr, FlatObjectNamespace.ino_to_index. cbn [FlatObjectNamespace.inode_count].
  by repeat case_match.
Qed.

(** ** One side *)

Section Side.
Context {R : Type} `{Rng R} `{Libm} {ES : Type} `{EventSink ES} {HI : Type} `{Histogram HI}.
Context {N : Type} `{NamespaceModel N} {C : Type} `{ContentModel C} {D : Type} `{ReplyDirectory D}.
Context {Errno' : Type} (from_i32 : Z -> Errno').
Context (fs : FaultFs ES HI N C) (config : Config) (sink : ES) (nows : FsOp -> Instant * Instant).
Context (words : config_words config) (caps : forall op, 0 < concurrency_cap (policy_of config op)).

(** The events of a list of requests, as the summary counts them. *)
Definition mount_tally (reqs : list (Request D)) : list (FsOp * bool) :=
  (fun facts => key_tally facts.1.1) <$> mount_events (R := R) (Errno' := Errno') fs config reqs.

(** What one thread leaves behind: replies, log and summary are functions of
    the requests. *)
Lemma one_thread_session (sv : Server (ES := ES) (HI := HI) (D := D) (Errno' := Errno')) :
  server_reachable (R := R) fs config sink nows sv -> ops_in (threads_of sv) = [Ready] ->
  Z.of_nat (length (received sv)) < 2 ^ 64 ->
  ans_reply from_i32 <$> answers sv = mount_replies (R := R) from_i32 fs config (received sv) /\
  event_facts <$> log (threads_of sv) = mount_events (R := R) (Errno' := Errno') fs config (received sv) /\
  row <$> summary (eng_metrics (eng (threads_of sv))) = omap (tally (mount_tally (received sv))) ALL.
Proof.
  intros Hr Hidle Hlen. assert (Hone : length (ops_in (threads_of sv)) = 1%nat) by (by rewrite Hidle).
  assert (Hfits : fits config (threads_of sv)) by (intros op; rewrite Hone; specialize (caps op); lia).
  pose proof (reachable_in_order (R := R) from_i32 fs config sink nows words sv Hr Hone Hfits) as Hord.
  pose proof (reachable_logged (R := R) from_i32 fs config sink nows words sv Hr Hone Hfits) as Hlog.
  unfold Sessions.logged, logged_requests in Hlog. rewrite Hidle, app_nil_r in Hlog. cbn in Hlog.
  rewrite <- (in_order_idle _ _ _ _ _ _ Hord Hidle) in Hlog.
  split; [by apply (in_order_replies _ _ _ _ _ _ Hord)|]. split; [exact Hlog|].
  rewrite (idle_summary (R := R) from_i32 fs config sink nows sv Hr).
  - unfold mount_tally. by rewrite <- Hlog, <- !list_fmap_compose.
  - intros i p. rewrite Hidle. destruct i; [by intros [= <-]|done].
  - apply (f_equal length) in Hlog. unfold mount_events in Hlog. rewrite length_fmap, length_imap in Hlog. by rewrite Hlog.
Qed.
End Side.

(** ** Properties *)

(** C6: a session can be replayed: two mounts of one configuration, by any
    users, at any times, with any sinks and clocks, that serve the same
    requests on one thread and have answered them, have sent replies that
    differ in owners and times of files at most, logged events with the same
    numbers, contexts, outcomes, errnos and injected latencies in the same
    order, and print summaries with the same counts and errors. *)
Theorem mounts_replay {R} `{Rng R} `{Libm} {ES} `{EventSink ES} {ES'} `{EventSink ES'} {HI} `{Histogram HI}
    {HI'} `{Histogram HI'} {D} `{ReplyDirectory D} {Errno'} (from_i32 : Z -> Errno') config
    uid gid now nows (sink : ES) (sv : Server (ES := ES) (HI := HI) (D := D) (Errno' := Errno'))
    uid' gid' now' nows' (sink' : ES') (sv' : Server (ES := ES') (HI := HI') (D := D) (Errno' := Errno')) :
  let fs := (build_fs uid gid now nows config sink).1 in
  let fs' := (build_fs uid' gid' now' nows' config sink').1 in
  config_words config -> (forall op, 0 < concurrency_cap (policy_of config op)) ->
  server_reachable (R := R) fs config sink nows sv -> ops_in (threads_of sv) = [Ready] ->
  server_reachable (R := R) fs' config sink' nows' sv' -> ops_in (threads_of sv') = [Ready] ->
  received sv = received sv' -> Z.of_nat (length (received sv)) < 2 ^ 64 ->
  Forall2 alike (ans_reply from_i32 <$> answers sv) (ans_reply from_i32 <$> answers sv') /\
  event_facts <$> log (threads_of sv) = event_facts <$> log (threads_of sv') /\
  row <$> summary (eng_metrics (eng (threads_of sv))) = row <$> summary (eng_metrics (eng (threads_of sv'))).
Proof.
  cbn zeta. intros Hwords Hcaps Hr Hidle Hr' Hidle' Hrec Hlen.
  destruct (one_thread_session (R := R) from_i32 _ config sink nows Hwords Hcaps sv Hr Hidle Hlen) as (-> & -> & ->).
  rewrite Hrec in *.
  destruct (one_thread_session (R := R) from_i32 _ config sink' nows' Hwords Hcaps sv' Hr' Hidle' Hlen) as (-> & -> & ->).
  pose proof (built_twins (HI := HI) (HI' := HI') uid uid' gid gid' now now' nows nows' config sink sink') as Htwins.
  unfold mount_tally. rewrite (twins_events _ _ Htwins). split; [by apply twins_replies|done].
Qed.

(** ** Witness

    The filesystem whose fsyncs fail, mounted by two users at different times,
    once with a log file and once with a list of events as the sink. *)

#[local] Instance log_sink : EventSink DynSink := dyn_sink DEFAULT_BUF_SIZE (log_json print_tree).

Definition replayed_requests : list (Request two_slots) := [ReqGetAttr 100; ReqFsync 100; ReqRead 100 65440 200].

Definition first_mount : FaultFs DynSink (list Z) FlatObjectNamespace.t DeterministicContent.t :=
  (build_fs 1000 1000 0 (fun _ => (0, 0)) logged_config log_to_file).1.

Definition second_mount : FaultFs (list Event) (list Z) FlatObjectNamespace.t DeterministicContent.t :=
  (build_fs 0 0 77 (fun _ => (5, 5)) logged_config []).1.

(** The owner of the file is another, the rest is alike. *)
Lemma mounts_replay_witness :
  exists (sv : Server (ES := DynSink) (HI := list Z) (D := two_slots) (Errno' := Z))
         (sv' : Server (ES := list Event) (HI := list Z) (D := two_slots) (Errno' := Z)),
    received sv = replayed_requests /\ received sv' = replayed_requests /\
    ans_reply (fun e : Z => e) <$> answers sv <> ans_reply (fun e : Z => e) <$> answers sv' /\
    Forall2 alike (ans_reply (fun e : Z => e) <$> answers sv) (ans_reply (fun e : Z => e) <$> answers sv') /\
    event_facts <$> log (threads_of sv) = event_facts <$> log (threads_of sv') /\
    row <$> summary (eng_metrics (eng (threads_of sv))) = row <$> summary (eng_metrics (eng (threads_of sv'))).
Proof.
  destruct (serve_all (R := unit) (fun e : Z => e) first_mount logged_config log_to_file (fun _ => (0, 0)) logged_words
    replayed_requests logged_unthrottled logged_caps) as (sv & Hr & Hidle & Hrec).
  destruct (serve_all (R := unit) (fun e : Z => e) second_mount logged_config [] (fun _ => (5, 5)) logged_words
    replayed_requests logged_unthrottled logged_caps) as (sv' & Hr' & Hidle' & Hrec').
  exists sv, sv'. split; [exact Hrec|]. split; [exact Hrec'|]. split.
  - destruct (one_thread_session (R := unit) (fun e : Z => e) _ _ _ _ logged_words logged_caps sv Hr Hidle) as [-> _];
      [by rewrite Hrec|].
    destruct (one_thread_session (R := unit) (fun e : Z => e) _ _ _ _ logged_words logged_caps sv' Hr' Hidle') as [-> _];
      [by rewrite Hrec'|].
    rewrite Hrec, Hrec'. intros E. apply (f_equal head) in E. by vm_compute in E.
  - apply (mounts_replay (R := unit) (fun e : Z => e) logged_config 1000 1000 0 (fun _ => (0, 0)) log_to_file sv
      0 0 77 (fun _ => (5, 5)) [] sv' logged_words logged_caps Hr Hidle Hr' Hidle');
      [by rewrite Hrec, Hrec'|by rewrite Hrec].
Defined.
