(* ===== verification/TestsFiles.v ===== *)
(** * The unit tests of the event log and of configuration loading

    The [#[cfg(test)]] modules of [fusecraft-core/src/events/mod.rs] and
    [fusecraft-cli/src/config_io.rs], as in the file TestsCore. The JSON text
    is that of the format of the file EventLog; a TOML text is given with the
    document it denotes. *)

From stdpp Require Import base list numbers gmap strings.
From Stdlib Require Import ZArith Lia Bool.

From S2P Require Import Prelude Word Float Time Op Text Config SampleKey Sampler Events LogWriter Serde EventLog TestsCore Cli.

Local Open Scope Z_scope.

(** ** [events/mod.rs] *)

Module LogTests.
Definition sample_event (seq : Z) (outcome : Outcome) (errno : option Z) : Event :=
  {| ts_unix_nanos := 1700000000000000000; ev_seq := seq; ev_op := Read; ev_ino := 100; ev_offset := 0;
     ev_len := 4096; ev_outcome := outcome; ev_errno := errno; ev_queue_wait_us := 1;
     ev_injected_latency_us := 42; ev_bandwidth_delay_us := 3; ev_total_duration_us := 50 |}.

#[local] Instance json_sink : EventSink Writer := writer_sink DEFAULT_BUF_SIZE (log_json print_tree).

(** What [fs::read_to_string] finds after the events were emitted to a sink
    just created, and the sink flushed or dropped, when the file takes every
    write. *)
Definition file_after (evs : list Event) : string :=
  disk (writer_flush (fold_left emit evs (writer_create []))).2.

(** [v[key]] of line [i], parsed. *)
Definition line_field (contents : string) (i : nat) (key : string) : option Tree :=
  line ← split_lines contents !! i;
  v ← parse_tree line;
  m ← as_map v;
  get m key.

Definition null_sink_accepts_events : bool :=
  match emit (tt : NullEventSink) (sample_event 1 OutcomeOk None) with tt => true end.

Definition is_number (v : option Tree) (n : Z) : bool := assert_eq (v ≫= as_u64) (Some n).
Definition is_string (v : option Tree) (s : string) : bool := assert_eq (v ≫= as_str) (Some s).

Definition jsonl_sink_writes_one_line_per_event : bool :=
  let contents := file_after [sample_event 1 OutcomeOk None; sample_event 2 OutcomeError (Some EIO)] in
  Nat.eqb (length (split_lines contents)) 2 &&
  is_number (line_field contents 0 "seq") 1 && is_string (line_field contents 0 "op") "read" &&
  is_string (line_field contents 0 "outcome") "ok" &&
  match line_field contents 0 "errno" with None => true | Some _ => false end &&
  is_number (line_field contents 1 "seq") 2 && is_string (line_field contents 1 "outcome") "error" &&
  is_number (line_field contents 1 "errno") EIO.

(** The second creation truncates: nothing of the first run is left. *)
Definition jsonl_sink_truncates_on_create : bool :=
  let first := file_after [sample_event 1 OutcomeOk None] in
  let contents := file_after [sample_event 99 OutcomeOk None] in
  negb (assert_eq first "") && Nat.eqb (length (split_lines contents)) 1 &&
  is_number (line_field contents 0 "seq") 99.

Definition sink_usable_as_trait_object : bool :=
  Nat.eqb (length (split_lines (file_after [sample_event 7 OutcomeOk None]))) 1.

(** At any time after the epoch. *)
Definition now_unix_nanos_is_positive (now : Z) : bool := 0 <? now_unix_nanos now.

Definition suite : list (string * bool) :=
  [("null_sink_accepts_events", null_sink_accepts_events);
   ("jsonl_sink_writes_one_line_per_event", jsonl_sink_writes_one_line_per_event);
   ("jsonl_sink_truncates_on_create", jsonl_sink_truncates_on_create);
   ("sink_usable_as_trait_object", sink_usable_as_trait_object);
   ("now_unix_nanos_is_positive", now_unix_nanos_is_positive 1700000000000000000)].
End LogTests.

Lemma log_tests_pass : failing LogTests.suite = [].
Proof. by vm_compute. Qed.

(** ** [config_io.rs] *)

Module ConfigIoTests.
(** The files of the tests: their contents, and the documents these denote. *)
Definition minimal_text : string := "[files]" +:+ newline +:+ "inode_count = 10" +:+ newline +:+ "file_size_bytes = 4096" +:+ newline.
Definition zero_text : string := "[files]" +:+ newline +:+ "inode_count = 0" +:+ newline +:+ "file_size_bytes = 4096" +:+ newline.

Definition files_document (count : Z) : Toml :=
  TTable [("files", TTable [("inode_count", TInteger count); ("file_size_bytes", TInteger 4096)])].

Definition parse (text : string) : result Toml string :=
  if String.eqb text minimal_text then Ok (files_document 10)
  else if String.eqb text zero_text then Ok (files_document 0)
  else if String.eqb text "default" then Ok default_document
  else Err "TOML parse error".

(** [write_temp] and a path that nobody wrote. *)
Definition write_temp (contents path : string) : result string string :=
  if String.eqb path "present.toml" then Ok contents else Err "No such file or directory (os error 2)".

Definition load (contents path : string) : result Config CliError :=
  load_config (write_temp contents) (document_from_str parse) (fun _ => "0.5")
    (display_FsError (fun _ => "")) demo_iteration path.

(** [format!({err:?})]: the context, then the cause. *)
Definition debug (e : CliError) : string := context e +:+ newline +:+ "Caused by: " +:+ cause e.

Definition fails_mentioning (r : result Config CliError) (what : string) : bool :=
  match r with Err e => contains (debug e) what | Ok _ => false end.

Definition load_valid_minimal_config : bool :=
  expect_ok (load minimal_text "present.toml") (fun cfg =>
    (inode_count (files cfg) =? 10) && (file_size_bytes (files cfg) =? 4096)).

Definition load_config_rejects_invalid_inode_count : bool :=
  fails_mentioning (load zero_text "present.toml") "inode_count".

Definition load_config_rejects_bad_toml : bool :=
  fails_mentioning (load "not valid [[[ toml" "present.toml") "TOML".

Definition load_config_rejects_missing_file : bool :=
  fails_mentioning (load minimal_text "missing.toml") "read config file".

Definition default_config_toml_roundtrips : bool :=
  expect_ok (default_config_toml (document_to_string (fun v : Toml => "default"))) (fun text =>
    expect_ok (document_from_str parse text) (fun parsed =>
      expect_ok (validate (fun _ => "0.5") parsed (demo_iteration parsed)) (fun _ => true) &&
      (seed parsed =? 42) && (inode_count (files parsed) =? 1000))).

Definition suite : list (string * bool) :=
  [("load_valid_minimal_config", load_valid_minimal_config);
   ("load_config_rejects_invalid_inode_count", load_config_rejects_invalid_inode_count);
   ("load_config_rejects_bad_toml", load_config_rejects_bad_toml);
   ("load_config_rejects_missing_file", load_config_rejects_missing_file);
   ("default_config_toml_roundtrips", default_config_toml_roundtrips)].
End ConfigIoTests.

Lemma config_io_tests_pass : failing ConfigIoTests.suite = [].
Proof. by vm_compute. Qed.
