(* ===== verification/TestsAdapter.v ===== *)
(** * The integration tests of the adapter

    The tests of [fusecraft-fuser/tests]. Each mounts a filesystem of its own
    configuration, calls the operating system, and looks at what comes back.
    The configurations are definitions here, and each test is a lemma on every
    session of its mount: whatever requests the kernel makes of the test's
    system calls, and whatever else it asks in between, the replies that decide
    the test's assertions are those it expects. How a kernel turns system calls
    into requests is not modelled, and a time that a test measures is given as
    the latency that its calls report. *)

From stdpp Require Import base list numbers gmap strings.
From Stdlib Require Import ZArith Lia Bool.

From S2P Require Import Prelude Word Float Binary64 Time Op Text Concurrency Config SampleKey Sampler Content.
From S2P Require Import Namespace Bandwidth BandwidthCurve Metrics Events LogWriter Engine EngineSteps EngineDecisions.
From S2P Require Import FaultFs Serving Sessions MountOpts Serde EventLog Cli Mounted Replay.

Local Open Scope Z_scope.

(** ** [common/mod.rs] *)

(** A latency of [base_us] and nothing else. *)
Definition fixed_latency (base_us : Z) : LatencyProfile :=
  {| base_us := base_us; lognormal_median_us := f64_zero; lognormal_sigma := f64_zero; pareto_weight := f64_zero;
     pareto_xm_us := f64_one; pareto_alpha := f64_div (f64_of_Z 3) (f64_of_Z 2); max_us := 1000000 |}.

Definition zero_latency : OpPolicy :=
  {| concurrency_cap := 8; Config.queue_cap := 32; latency := fixed_latency 0; bandwidth := None; faults := [];
     size_tier := None |}.

Definition default_test_config : Config :=
  {| seed := 1;
     Config.mount :=
       {| fs_name := "fusecraft-test"; subtype := "sim-test"; auto_unmount := false; default_permissions := false;
          read_only := false; direct_io := false |};
     files := {| inode_count := 10; file_size_bytes := 4096; root_layout := Flat; write_mode := Discard |};
     ops := list_to_map ((fun op => (op, zero_latency)) <$> ALL);
     Config.metrics := default_MetricsConfig |}.

(** [config.ops.get_mut(&op)], and the other fields that tests assign. *)
Definition with_policy (op : FsOp) (change : OpPolicy -> OpPolicy) (config : Config) : Config :=
  {| seed := seed config; Config.mount := Config.mount config; files := files config;
     ops := alter change op (ops config); Config.metrics := Config.metrics config |}.

Definition with_file_size (size : Z) (config : Config) : Config :=
  {| seed := seed config; Config.mount := Config.mount config;
     files := {| inode_count := inode_count (files config); file_size_bytes := size;
                 root_layout := root_layout (files config); write_mode := write_mode (files config) |};
     ops := ops config; Config.metrics := Config.metrics config |}.

Definition with_mount (change : MountConfig -> MountConfig) (config : Config) : Config :=
  {| seed := seed config; Config.mount := change (Config.mount config); files := files config;
     ops := ops config; Config.metrics := Config.metrics config |}.

Definition set_read_only (m : MountConfig) : MountConfig :=
  {| fs_name := fs_name m; subtype := subtype m; auto_unmount := auto_unmount m;
     default_permissions := default_permissions m; read_only := true; direct_io := direct_io m |}.

Definition set_direct_io (m : MountConfig) : MountConfig :=
  {| fs_name := fs_name m; subtype := subtype m; auto_unmount := auto_unmount m;
     default_permissions := default_permissions m; read_only := read_only m; direct_io := true |}.

Definition with_run (seed' : Z) (path : string) (config : Config) : Config :=
  {| seed := seed'; Config.mount := Config.mount config; files := files config; ops := ops config;
     Config.metrics := {| jsonl_path := Some path |} |}.

(** [policy.faults = vec![..]], [policy.latency.base_us = ..], the limits, the
    bandwidth and the tier. *)
Definition set_faults (rules : list FaultRule) (p : OpPolicy) : OpPolicy :=
  {| concurrency_cap := concurrency_cap p; Config.queue_cap := Config.queue_cap p; latency := latency p;
     bandwidth := bandwidth p; faults := rules; size_tier := size_tier p |}.

Definition set_base_us (us : Z) (p : OpPolicy) : OpPolicy :=
  {| concurrency_cap := concurrency_cap p; Config.queue_cap := Config.queue_cap p;
     latency :=
       {| base_us := us; lognormal_median_us := lognormal_median_us (latency p);
          lognormal_sigma := lognormal_sigma (latency p); pareto_weight := pareto_weight (latency p);
          pareto_xm_us := pareto_xm_us (latency p); pareto_alpha := pareto_alpha (latency p);
          max_us := max_us (latency p) |};
     bandwidth := bandwidth p; faults := faults p; size_tier := size_tier p |}.

Definition set_limits (cap queue : Z) (p : OpPolicy) : OpPolicy :=
  {| concurrency_cap := cap; Config.queue_cap := queue; latency := latency p; bandwidth := bandwidth p;
     faults := faults p; size_tier := size_tier p |}.

Definition set_bandwidth (b : BandwidthProfile) (p : OpPolicy) : OpPolicy :=
  {| concurrency_cap := concurrency_cap p; Config.queue_cap := Config.queue_cap p; latency := latency p;
     bandwidth := Some b; faults := faults p; size_tier := size_tier p |}.

Definition set_tier (small : LatencyProfile) (tier : SizeTier) (p : OpPolicy) : OpPolicy :=
  {| concurrency_cap := concurrency_cap p; Config.queue_cap := Config.queue_cap p; latency := small;
     bandwidth := bandwidth p; faults := faults p; size_tier := Some tier |}.

Definition always (op : FsOp) (errno : Z) : list FaultRule :=
  [{| rule_op := op; rule_errno := errno; rule_rate := f64_one |}].

(** The filesystem that the helpers mount, and the options they ask for. *)
Definition mount_test_fs {ES HI} `{Histogram HI} (uid gid : Z) (now : SystemTime) (nows : FsOp -> Instant * Instant)
    (config : Config) (sink : ES) : FaultFs ES HI FlatObjectNamespace.t DeterministicContent.t * FuserMountOptions :=
  let engine := engine_new config sink nows in
  let namespace := (FlatObjectNamespace.new (files config) uid gid now).1 in
  let content := DeterministicContent.new (seed config) (file_size_bytes (files config)) in
  let fs := fs_new engine namespace content in
  let opts := from_mount_config (Config.mount config) in
  (fs, opts).

(** It is the filesystem of the [mount] subcommand. *)
Lemma mount_test_fs_built {ES HI} `{Histogram HI} uid gid now nows config (sink : ES) :
  (mount_test_fs (HI := HI) uid gid now nows config sink).1 = (build_fs uid gid now nows config sink).1.
Proof. done. Qed.

(** ** Sessions of a test *)

(** What every test's configuration has. *)
Record test_config (config : Config) : Prop := {
  tc_words : config_words config;
  tc_caps : forall op, 0 < concurrency_cap (policy_of config op);
  tc_file : is_u64 (file_size_bytes (files config))
}.

Ltac test_config := split; [intros []; vm_compute; done|intros []; vm_compute; done|vm_compute; done].

Section Sessions.
Context {R : Type} `{RngLaws R} `{Libm} {ES : Type} `{EventSink ES} {HI : Type} `{Histogram HI}.
Context {D : Type} `{ReplyDirectoryLaws D} {Errno' : Type} (from_i32 : Z -> Errno').
Context (uid gid : Z) (now : SystemTime) (nows : FsOp -> Instant * Instant) (sink : ES).

Abbreviation server := (Server (ES := ES) (HI := HI) (D := D) (Errno' := Errno')).
Abbreviation test_fs config := (mount_test_fs (HI := HI) uid gid now nows config sink).1.

(** A state of a mount of the configuration, which [fuser] serves on one
    thread. *)
Definition test_session (config : Config) (sv : server) : Prop :=
  server_reachable (R := R) (test_fs config) config sink nows sv /\ length (ops_in (threads_of sv)) = 1%nat.

Section Session.
Context (config : Config) (sv : server) (Hok : test_config config) (Hs : test_session config sv).

Lemma test_fits : fits config (threads_of sv).
Proof. intros op. rewrite (proj2 Hs). pose proof (tc_caps _ Hok op). lia. Qed.

(** Every reply is the decided one. *)
Lemma test_reply a :
  a ∈ answers sv ->
  ans_reply from_i32 a = decided_reply (R := R) from_i32 (test_fs config) config (ans_seq a) (ans_req a).
Proof.
  intros Ha. pose proof (reachable_exactly (R := R) from_i32 _ config sink nows (tc_words _ Hok) sv (proj1 Hs) test_fits)
    as [_ _ Hex]. rewrite Forall_forall in Hex. by apply Hex.
Qed.

(** The ideal filesystem's, for an operation without rules. *)
Lemma test_reply_ideal a :
  a ∈ answers sv -> policy_rules (policy_of config (ctx_op (req_ctx (test_fs config) (ans_req a)))) = [] ->
  ans_reply from_i32 a = ideal from_i32 (test_fs config) (ans_req a).
Proof. intros Ha Hnone. rewrite test_reply by done. by apply decided_reply_ideal. Qed.

(** The configured errno, for a metadata or data operation whose rule always
    fires. *)
Lemma test_reply_faulted a op errno :
  a ∈ answers sv -> ctx_op (req_ctx (test_fs config) (ans_req a)) = op ->
  faults (policy_of config op) = always op errno -> size_tier (policy_of config op) = None ->
  ans_reply from_i32 a = ReplyError (from_i32 errno).
Proof.
  intros Ha Hop Hf Ht. rewrite test_reply by done. unfold decided_reply, decided_fault, decided_tier, select_tier.
  rewrite Hop. unfold build_resources. cbn [policy]. rewrite Ht, Hf.
  destruct (is_data_op op); cbn [fst snd]; unfold always; by rewrite sample_fault_certain.
Qed.

(** Every event is that of a request, and reports the latency decided for it. *)
Lemma test_event ev :
  ev ∈ log (threads_of sv) ->
  exists seq (req : Request D), event_facts ev = decided_event (R := R) (Errno' := Errno') (test_fs config) config seq req.
Proof.
  intros Hev.
  pose proof (reachable_logged (R := R) from_i32 _ config sink nows (tc_words _ Hok) sv (proj1 Hs) (proj2 Hs) test_fits)
    as Hlog. unfold Sessions.logged, mount_events in Hlog.
  assert (Hin : event_facts ev ∈ event_facts <$> log (threads_of sv)) by (apply list_elem_of_fmap; eauto).
  rewrite Hlog in Hin. apply list_elem_of_lookup in Hin as [k Hk]. rewrite list_lookup_imap in Hk.
  destruct (_ !! k) as [req|]; [|done]. eexists _, req. symmetry. exact (inj Some _ _ Hk).
Qed.

Lemma test_event_latency ev op us :
  ev ∈ log (threads_of sv) -> ev_op ev = op -> size_tier (policy_of config op) = None ->
  latency (policy_of config op) = fixed_latency us -> 0 <= us <= 1000000 ->
  ev_injected_latency_us ev = us.
Proof.
  intros Hev Hop Ht Hl Hus. destruct (test_event ev Hev) as (seq & req & E).
  unfold event_facts, decided_event, event_key, call_key in E. injection E as _ Eop _ _ _ _ _ _ ->.
  unfold decided_latency, decided_tier, select_tier. rewrite <- Eop, Hop. unfold build_resources. cbn [policy].
  rewrite Ht, Hl. replace (if is_data_op op then _ else _) with (fixed_latency us, faults (policy_of config op), BaseTier)
    by (by destruct (is_data_op op)). cbn [fst].
  rewrite (sample_latency_fixed (R := R) (fixed_latency us) _ false); [done|done|done|cbn; lia|cbn; lia|by vm_compute].
Qed.
End Session.
End Sessions.

(** ** The configurations *)

(** [fuse_mount.rs] *)
Definition eio_config : Config := with_policy Read (set_faults (always Read EIO)) default_test_config.

(** [write_mount.rs] *)
Definition write_enospc_config : Config := with_policy Write (set_faults (always Write ENOSPC)) default_test_config.
Definition slow_flush_config : Config := with_policy Flush (set_base_us 50000) default_test_config.
Definition slow_fsync_config : Config := with_policy Fsync (set_base_us 50000) default_test_config.
Definition read_only_config : Config := with_mount set_read_only default_test_config.

(** [fsync_isolation.rs] *)
Definition fsync_enospc_config : Config :=
  with_policy Fsync (set_faults (always Fsync ENOSPC)) (with_file_size 131072 default_test_config).

(** [size_tiering.rs] *)
Definition large_tier (threshold us : Z) : SizeTier :=
  {| threshold_bytes := threshold;
     large := {| large_latency := fixed_latency us; Config.large_bandwidth := None; large_faults := [] |} |}.

Definition tiered_config : Config :=
  with_policy Read (set_tier (fixed_latency 0) (large_tier (8 * 1024) 50000))
    (with_mount set_direct_io (with_file_size (256 * 1024) default_test_config)).

Definition threshold_config : Config :=
  with_policy Read (set_tier (fixed_latency 0) (large_tier (16 * 1024) 200000))
    (with_mount set_direct_io (with_file_size (64 * 1024) default_test_config)).

(** [advanced_mount.rs] *)
Definition eagain_config : Config :=
  with_policy Read (fun p => set_base_us 200000 (set_limits 1 0 p)) default_test_config.

Definition throttle_profile : BandwidthProfile := {| bytes_per_sec := f64_of_Z 1048576; burst_bytes := 4096 |}.

Definition throttled_config : Config :=
  with_policy Read (fun p => set_bandwidth throttle_profile (set_base_us 0 (set_limits 8 32 p)))
    (with_file_size (2 ^ 20) default_test_config).

Definition direct_io_config : Config := with_mount set_direct_io default_test_config.
Definition jsonl_config (path : string) : Config := with_run 1 path default_test_config.
Definition replay_config (path : string) : Config := with_run 12345 path default_test_config.

Lemma default_ok : test_config default_test_config. Proof. test_config. Qed.
Lemma eio_ok : test_config eio_config. Proof. test_config. Qed.
Lemma write_enospc_ok : test_config write_enospc_config. Proof. test_config. Qed.
Lemma slow_flush_ok : test_config slow_flush_config. Proof. test_config. Qed.
Lemma slow_fsync_ok : test_config slow_fsync_config. Proof. test_config. Qed.
Lemma fsync_enospc_ok : test_config fsync_enospc_config. Proof. test_config. Qed.
Lemma tiered_ok : test_config tiered_config. Proof. test_config. Qed.
Lemma threshold_ok : test_config threshold_config. Proof. test_config. Qed.
Lemma eagain_ok : test_config eagain_config. Proof. test_config. Qed.
Lemma throttled_ok : test_config throttled_config. Proof. test_config. Qed.
Lemma direct_io_ok : test_config direct_io_config. Proof. test_config. Qed.
Lemma run_ok seed path : test_config (with_run seed path default_test_config).
Proof. test_config. Qed.

(** ** The tests *)

(** The object files: names, inodes, attributes. *)
Lemma object_path_resolves i :
  0 <= i < 10 ->
  let ns := (FlatObjectNamespace.new (files default_test_config) 0 0 0).1 in
  lookup_child ns FUSE_ROOT_INO "objects" = Some 2 /\
  lookup_child ns 2 (FlatObjectNamespace.index_to_name i) = Some (100 + i).
Proof.
  intros Hi. cbn zeta. split; [done|]. apply lookup_spec; [by vm_compute|].
  right. split; [done|]. exists i. done.
Qed.

Section Tests.
Context {R : Type} `{RngLaws R} `{Libm} {ES : Type} `{EventSink ES} {HI : Type} `{Histogram HI}.
Context {D : Type} `{ReplyDirectoryLaws D} {Errno' : Type} (from_i32 : Z -> Errno').
Context (uid gid : Z) (now : SystemTime) (nows : FsOp -> Instant * Instant) (sink : ES).

Abbreviation server := (Server (ES := ES) (HI := HI) (D := D) (Errno' := Errno')).
Abbreviation session config := (test_session (R := R) (HI := HI) uid gid now nows sink config).
Context (sv : server).

(** *** [fuse_mount.rs] *)

(** Whoever lists a directory of the mount finds the entries of the flat
    namespace. *)
Lemma test_listing config ino es n found :
  session config sv -> 0 <= inode_count (files config) -> Forall can_list (ans_req <$> answers sv) ->
  listing (namespace (mount_test_fs (HI := HI) uid gid now nows config sink).1) ino = Some es ->
  paged from_i32 (answers sv) ino n 0 found -> found = page_entry <$> es.
Proof.
  intros [Hr _] Hn Hcan Hl Hp.
  exact (proj1 (paged_listing (R := R) from_i32 _ config sink nows sv ino es n found Hr Hcan
    (new_wf (files config) uid gid now Hn) Hl Hp)).
Qed.

Definition names (found : list (Z * Z * FileType * string)) : list string := snd <$> found.

Lemma readdir_root_lists_objects_directory n found :
  session default_test_config sv -> Forall can_list (ans_req <$> answers sv) ->
  paged from_i32 (answers sv) FUSE_ROOT_INO n 0 found -> "objects" ∈ names found.
Proof.
  intros Hs Hcan Hp. rewrite (test_listing default_test_config FUSE_ROOT_INO _ n found Hs ltac:(by vm_compute) Hcan eq_refl Hp).
  cbn. set_solver.
Qed.

(** [read_dir] leaves out the directory itself and its parent. *)
Lemma multiple_files_have_expected_count n found :
  session default_test_config sv -> Forall can_list (ans_req <$> answers sv) ->
  paged from_i32 (answers sv) 2 n 0 found ->
  Z.of_nat (length (filter (fun nm => nm <> "." /\ nm <> "..") (names found))) = inode_count (files default_test_config).
Proof.
  intros Hs Hcan Hp. rewrite (test_listing default_test_config 2 _ n found Hs ltac:(by vm_compute) Hcan eq_refl Hp).
  by vm_compute.
Qed.

(** Any two reads of a whole file agree, whatever is written in between. *)
Lemma test_file config ino found :
  test_config config -> session config sv -> read_by from_i32 (answers sv) ino 0 found ->
  found = file_from config ino 0 /\ Z.of_nat (length found) = file_size_bytes (files config).
Proof.
  intros Hok [Hr _] Hread. pose proof (tc_file _ Hok) as Hlen.
  rewrite (reachable_file (R := R) from_i32 uid gid now nows config sink sv ino 0 found Hlen Hr ltac:(lia) Hread).
  split; [done|]. unfold file_from, is_u64 in *. rewrite length_fmap, length_seqZ. lia.
Qed.

Lemma read_file_returns_deterministic_content data data2 :
  session default_test_config sv -> read_by from_i32 (answers sv) 100 0 data -> read_by from_i32 (answers sv) 100 0 data2 ->
  Z.of_nat (length data) = file_size_bytes (files default_test_config) /\ data = data2.
Proof.
  intros Hs Hd Hd2. destruct (test_file _ _ _ default_ok Hs Hd) as [-> Hlen].
  destruct (test_file _ _ _ default_ok Hs Hd2) as [-> _]. done.
Qed.

(** The attributes come with the lookup or with a request of their own. *)
Lemma stat_file_returns_correct_size a :
  session default_test_config sv -> a ∈ answers sv ->
  ans_req a = ReqGetAttr 100 \/ ans_req a = ReqLookup 2 "000000" ->
  exists attr, (ans_reply from_i32 a = ReplyAttr DEFAULT_ATTR_TTL attr \/ ans_reply from_i32 a = ReplyEntry DEFAULT_ENTRY_TTL attr 0) /\
    fa_ino attr = 100 /\ fa_size attr = file_size_bytes (files default_test_config) /\ fa_kind attr = RegularFile.
Proof.
  intros Hs Ha Hreq.
  pose proof (test_reply_ideal from_i32 uid gid now nows sink _ sv default_ok Hs a Ha) as E.
  destruct Hreq as [Hreq|Hreq]; rewrite Hreq in E; rewrite E by done; eexists.
  - split; [by left|by repeat split].
  - split; [by right|by repeat split].
Qed.

Lemma error_injection_eio_reaches_caller a ino offset size :
  session eio_config sv -> a ∈ answers sv -> ans_req a = ReqRead ino offset size ->
  ans_reply from_i32 a = ReplyError (from_i32 EIO).
Proof.
  intros Hs Ha Hreq.
  apply (test_reply_faulted from_i32 uid gid now nows sink _ sv eio_ok Hs a Read EIO Ha); [by rewrite Hreq|done..].
Qed.

(** *** [write_mount.rs] *)

(** An acknowledged write. *)
Lemma test_written config a ino offset bytes :
  test_config config -> session config sv -> policy_rules (policy_of config Write) = [] ->
  a ∈ answers sv -> ans_req a = ReqWrite ino offset bytes -> Z.of_nat (length bytes) < 2 ^ 32 ->
  ans_reply from_i32 a = ReplyWritten (Z.of_nat (length bytes)).
Proof.
  intros Hok Hs Hnone Ha Hreq Hlen.
  rewrite (test_reply_ideal from_i32 uid gid now nows sink _ sv Hok Hs a Ha) by (by rewrite Hreq).
  rewrite Hreq. cbn. unfold wrap32. by rewrite Z.mod_small by lia.
Qed.

Lemma write_is_acknowledged_with_correct_length a ino offset bytes :
  session default_test_config sv -> a ∈ answers sv -> ans_req a = ReqWrite ino offset bytes ->
  Z.of_nat (length bytes) < 2 ^ 32 -> ans_reply from_i32 a = ReplyWritten (Z.of_nat (length bytes)).
Proof. intros Hs. exact (test_written _ a ino offset bytes default_ok Hs eq_refl). Qed.

(** The reads before and after are two of the reads of any one session. *)
Lemma write_does_not_mutate_subsequent_reads before data :
  session default_test_config sv -> read_by from_i32 (answers sv) 100 0 before -> read_by from_i32 (answers sv) 100 0 data ->
  data = before.
Proof. intros Hs Hb Hd. by destruct (read_file_returns_deterministic_content before data Hs Hb Hd) as [_ ->]. Qed.

Lemma write_error_injection_reaches_caller a ino offset bytes :
  session write_enospc_config sv -> a ∈ answers sv -> ans_req a = ReqWrite ino offset bytes ->
  ans_reply from_i32 a = ReplyError (from_i32 ENOSPC).
Proof.
  intros Hs Ha Hreq.
  apply (test_reply_faulted from_i32 uid gid now nows sink _ sv write_enospc_ok Hs a Write ENOSPC Ha); [by rewrite Hreq|done..].
Qed.

Lemma flush_and_release_complete_successfully a ino :
  session default_test_config sv -> a ∈ answers sv ->
  (ans_req a = ReqFlush ino \/ ans_req a = ReqRelease ino -> ans_reply from_i32 a = ReplyOk) /\
  (ans_req a = ReqOpen ino -> ans_reply from_i32 a = ReplyOpened 0 0).
Proof.
  intros Hs Ha. pose proof (test_reply_ideal from_i32 uid gid now nows sink _ sv default_ok Hs a Ha) as E.
  split; [intros [Hreq|Hreq]|intros Hreq]; rewrite Hreq in E; by apply E.
Qed.

(** The calls report 50 milliseconds of latency, and are held for it as the
    file EngineTiming says. *)
Lemma flush_latency_is_observed_on_close ev :
  session slow_flush_config sv -> ev ∈ log (threads_of sv) -> ev_op ev = Flush -> ev_injected_latency_us ev = 50000.
Proof.
  intros Hs Hev Hop. by apply (test_event_latency from_i32 uid gid now nows sink _ sv slow_flush_ok Hs ev Flush).
Qed.

Lemma fsync_latency_is_observed ev :
  session slow_fsync_config sv -> ev ∈ log (threads_of sv) -> ev_op ev = Fsync -> ev_injected_latency_us ev = 50000.
Proof.
  intros Hs Hev Hop. by apply (test_event_latency from_i32 uid gid now nows sink _ sv slow_fsync_ok Hs ev Fsync).
Qed.

(** The kernel refuses to open for writing on a mount that is read only. *)
Lemma read_only_mount_rejects_write :
  RO ∈ build_options (mount_test_fs (HI := HI) uid gid now nows read_only_config sink).2 /\
  ~ (RW ∈ build_options (mount_test_fs (HI := HI) uid gid now nows read_only_config sink).2).
Proof. by rewrite ro_option, rw_option. Qed.

(** *** [fsync_isolation.rs] *)

(** Both tests: whatever came before, every fsync fails and every write
    succeeds. *)
Lemma fsync_enospc_does_not_affect_write a :
  session fsync_enospc_config sv -> a ∈ answers sv ->
  (forall ino, ans_req a = ReqFsync ino -> ans_reply from_i32 a = ReplyError (from_i32 ENOSPC)) /\
  (forall ino offset bytes, ans_req a = ReqWrite ino offset bytes -> Z.of_nat (length bytes) < 2 ^ 32 ->
     ans_reply from_i32 a = ReplyWritten (Z.of_nat (length bytes))).
Proof.
  intros Hs Ha. split.
  - intros ino Hreq.
    apply (test_reply_faulted from_i32 uid gid now nows sink _ sv fsync_enospc_ok Hs a Fsync ENOSPC Ha); [by rewrite Hreq|done..].
  - intros ino offset bytes. exact (test_written _ a ino offset bytes fsync_enospc_ok Hs eq_refl Ha).
Qed.

(** *** [size_tiering.rs] *)

(** A finished session: one event per request, in order. *)
Lemma test_log config :
  test_config config -> session config sv -> ops_in (threads_of sv) = [Ready] ->
  event_facts <$> log (threads_of sv) =
    mount_events (R := R) (Errno' := Errno') (mount_test_fs (HI := HI) uid gid now nows config sink).1 config (received sv).
Proof.
  intros Hok Hs Hidle. pose proof (test_fits uid gid now nows sink config sv Hok Hs) as Hfits.
  pose proof (reachable_logged (R := R) from_i32 _ config sink nows (tc_words _ Hok) sv (proj1 Hs) (proj2 Hs) Hfits) as Hlog.
  pose proof (reachable_in_order (R := R) from_i32 _ config sink nows (tc_words _ Hok) sv (proj1 Hs) (proj2 Hs) Hfits) as Hord.
  unfold Sessions.logged, logged_requests in Hlog. rewrite Hidle, app_nil_r in Hlog.
  by rewrite (in_order_idle _ _ _ _ _ _ Hord Hidle).
Qed.

(** A read with a tier: the bytes, and the latency of the tier that the
    requested length selects. *)
Lemma test_tiered_read config threshold us k ino offset size :
  test_config config -> session config sv -> ops_in (threads_of sv) = [Ready] ->
  policy_of config Read = set_tier (fixed_latency 0) (large_tier threshold us) zero_latency -> 0 <= us <= 1000000 ->
  received sv !! k = Some (ReqRead ino offset size) -> 0 <= offset -> 0 <= size ->
  offset + size <= file_size_bytes (files config) ->
  (exists a, a ∈ answers sv /\ ans_req a = ReqRead ino offset size) /\
  (forall a, a ∈ answers sv -> ans_req a = ReqRead ino offset size ->
     exists bytes, ans_reply from_i32 a = ReplyData bytes /\ Z.of_nat (length bytes) = size) /\
  exists ev, log (threads_of sv) !! k = Some ev /\ ev_injected_latency_us ev = (if threshold <? size then us else 0).
Proof.
  intros Hok Hs Hidle Hpol Hus Hk Ho Hsize Hfit. pose proof (test_fits uid gid now nows sink config sv Hok Hs) as Hfits.
  pose proof (reachable_in_order (R := R) from_i32 _ config sink nows (tc_words _ Hok) sv (proj1 Hs) (proj2 Hs) Hfits) as Hord.
  split_and!.
  - apply list_elem_of_lookup_2 in Hk. rewrite (in_order_idle _ _ _ _ _ _ Hord Hidle) in Hk.
    apply list_elem_of_fmap in Hk as (a & E & Ha). by exists a.
  - intros a Ha Hreq. exists (bytes_read config ino offset size). split; [|rewrite bytes_read_length; lia].
    rewrite (test_reply_ideal from_i32 uid gid now nows sink config sv Hok Hs a Ha) by (rewrite Hreq; cbn; by rewrite Hpol).
    rewrite Hreq. by apply (built_read from_i32 uid gid now nows config sink), Hsize; [apply tc_file|].
  - pose proof (test_log config Hok Hs Hidle) as Hlog. apply (f_equal (lookup k)) in Hlog. unfold mount_events in Hlog.
    rewrite list_lookup_fmap, list_lookup_imap, Hk in Hlog. destruct (log _ !! k) as [ev|]; [|done].
    exists ev. split; [done|]. apply (inj Some), (f_equal snd) in Hlog. cbn [event_facts decided_event snd] in Hlog.
    rewrite Hlog. unfold decided_latency, decided_tier, select_tier, build_resources. cbn [req_ctx ctx_op data with_requested_len].
    rewrite Hpol. cbn [is_data_op policy size_tier set_tier large_tier threshold_bytes large large_latency latency].
    replace (ctx_requested_len _) with size by done.
    destruct (threshold <? size); cbn [fst];
      by rewrite (sample_latency_fixed (R := R) (fixed_latency _) _ false) by (done || cbn; lia || by vm_compute).
Qed.

Lemma large_read_routes_to_large_tier_latency i j :
  session tiered_config sv -> ops_in (threads_of sv) = [Ready] ->
  received sv !! i = Some (ReqRead 100 0 (4 * 1024)) -> received sv !! j = Some (ReqRead 100 (64 * 1024) (64 * 1024)) ->
  exists small large, log (threads_of sv) !! i = Some small /\ log (threads_of sv) !! j = Some large /\
    ev_injected_latency_us small = 0 /\ ev_injected_latency_us large = 50000.
Proof.
  intros Hs Hidle Hi Hj.
  destruct (test_tiered_read tiered_config (8 * 1024) 50000 i 100 0 (4 * 1024) tiered_ok Hs Hidle eq_refl)
    as (_ & _ & small & Hsmall & Elow); [lia|done|lia|lia|by vm_compute|].
  destruct (test_tiered_read tiered_config (8 * 1024) 50000 j 100 (64 * 1024) (64 * 1024) tiered_ok Hs Hidle eq_refl)
    as (_ & _ & large & Hlarge & Ehigh); [lia|done|lia|lia|by vm_compute|].
  by exists small, large.
Qed.

Lemma read_at_exact_threshold_stays_in_base_tier i :
  session threshold_config sv -> ops_in (threads_of sv) = [Ready] ->
  received sv !! i = Some (ReqRead 100 0 (16 * 1024)) ->
  exists ev, log (threads_of sv) !! i = Some ev /\ ev_injected_latency_us ev = 0.
Proof.
  intros Hs Hidle Hi.
  destruct (test_tiered_read threshold_config (16 * 1024) 200000 i 100 0 (16 * 1024) threshold_ok Hs Hidle eq_refl)
    as (_ & _ & ev & Hev & E); [lia|done|lia|lia|by vm_compute|]. by exists ev.
Qed.

(** *** [advanced_mount.rs] *)

Lemma statfs_reports_synthetic_constants a ino :
  session default_test_config sv -> a ∈ answers sv -> ans_req a = ReqStatfs ino ->
  exists blocks bfree bavail nfiles ffree, ans_reply from_i32 a = ReplyStatfs blocks bfree bavail nfiles ffree 4096 255 4096.
Proof.
  intros Hs Ha Hreq. pose proof (test_reply_ideal from_i32 uid gid now nows sink _ sv default_ok Hs a Ha) as E.
  rewrite Hreq in E. do 5 eexists. by apply E.
Qed.

(** The mount option changes nothing of what is served. *)
Lemma direct_io_mount_round_trip (sv' : server) baseline_bytes data :
  session default_test_config sv' -> read_by from_i32 (answers sv') 100 0 baseline_bytes ->
  session direct_io_config sv -> read_by from_i32 (answers sv) 100 0 data ->
  Z.of_nat (length data) = file_size_bytes (files direct_io_config) /\ data = baseline_bytes.
Proof.
  intros [Hr' _] Hb Hs Hd. destruct (test_file _ _ _ direct_io_ok Hs Hd) as [-> Hlen]. split; [done|].
  rewrite (reachable_file (R := R) from_i32 uid gid now nows default_test_config sink sv' 100 0 baseline_bytes
    (tc_file _ default_ok) Hr' ltac:(lia) Hb). done.
Qed.

(** The events of a finished session have the numbers from 0 on, and the
    operations of the requests: a request driven once is logged once. *)
Lemma test_log_numbers config :
  test_config config -> session config sv -> ops_in (threads_of sv) = [Ready] ->
  ev_seq <$> log (threads_of sv) = wrap64 <$> seqZ 0 (Z.of_nat (length (received sv))) /\
  ev_op <$> log (threads_of sv) =
    (fun req => ctx_op (req_ctx (mount_test_fs (HI := HI) uid gid now nows config sink).1 req)) <$> received sv.
Proof.
  intros Hok Hs Hidle. pose proof (test_log config Hok Hs Hidle) as Hlog. unfold mount_events in Hlog.
  split; apply list_eq; intros k; apply (f_equal (lookup k)) in Hlog;
    rewrite list_lookup_fmap, list_lookup_imap in Hlog; rewrite !list_lookup_fmap.
  - destruct (decide (k < length (received sv))%nat) as [Hk|Hk].
    + rewrite lookup_seqZ_lt by lia. apply lookup_lt_is_Some_2 in Hk as [req Hreq]. rewrite Hreq in Hlog.
      destruct (log _ !! k) as [ev|]; [|done]. cbn in *. by injection Hlog as ->.
    + rewrite lookup_seqZ_ge by lia. rewrite (lookup_ge_None_2 (received sv) k) in Hlog by lia.
      by destruct (log _ !! k).
  - destruct (received sv !! k), (log _ !! k); try done. cbn in *. by injection Hlog as _ ->.
Qed.

(** Every read of the configuration that the replay test mounts reports no
    latency, whatever its number: the latencies that the test compares agree
    also between runs whose events have other numbers, or other seeds. *)
Lemma replay_latencies_zero seed path ev :
  session (with_run seed path default_test_config) sv -> ev ∈ log (threads_of sv) ->
  ev_injected_latency_us ev = 0.
Proof.
  intros Hs Hev.
  apply (test_event_latency from_i32 uid gid now nows sink _ sv (run_ok seed path) Hs ev (ev_op ev) 0 Hev eq_refl);
    [by destruct (ev_op ev)|by destruct (ev_op ev)|lia].
Qed.

Definition read_latencies (evs : list Event) : list Z :=
  ev_injected_latency_us <$> filter (fun ev => ev_op ev = Read) evs.

(** A mount of the configuration with one slot for reads and no queue, on any
    number of threads. *)
Lemma single_slot_taken (s : Shared ES HI (Reply D Errno') unit) i c w d res clock :
  limits eagain_config s -> ops_in s !! i = Some (Sleeping c w d) -> run_op_of c = Read ->
  resources (eng s) !! Read = Some res -> (acquire_enter (limiter res) clock).1 = Fails (Errno EAGAIN).
Proof.
  intros Hl Hi Hc Hres. destruct (Hl Read) as (l & n & (res' & Hres' & <-) & Hinv). simplify_eq.
  pose proof (inv_cap _ _ _ Hinv) as Hcap. pose proof (inv_queue_cap _ _ _ Hinv) as Hqcap.
  pose proof (inv_inflight _ _ _ Hinv) as Hin. pose proof (inv_queued _ _ _ Hinv) as Hqueued. cbn [lim threads project] in *.
  change (concurrency_cap (policy_of eagain_config Read)) with 1 in Hcap.
  change (Config.queue_cap (policy_of eagain_config Read)) with 0 in Hqcap.
  assert (Hheld : 0 < count is_holding (lim_phase Read <$> ops_in s)).
  { eapply count_lookup_pos; [by rewrite list_lookup_fmap, Hi|]. cbn. by rewrite decide_True. }
  unfold acquire_enter. rewrite Hcap, Hqcap. cbn [Z.eqb].
  rewrite (proj2 (Z.ltb_ge _ _)) by lia. rewrite (proj2 (Z.leb_le _ _)); [done|].
  rewrite Hqueued. repeat apply Z.add_nonneg_nonneg; apply count_nonneg.
Qed.

(** A step leaves a thread at the limiter's entrance, or lets it in. *)
Lemma entering_step a (s s' : Shared ES HI (Reply D Errno') unit) j c :
  estep (R := R) a s s' -> ops_in s !! j = Some (Entering c) ->
  ops_in s' !! j = Some (Entering c) \/
  exists res clock, resources (eng s) !! run_op_of c = Some res /\
    ops_in s' !! j = Some (after_section c (acquire_enter (limiter res) clock).1).
Proof.
  intros Hs Hj.
  assert (Hother : forall k p p', ops_in s !! k = Some p -> (forall c, p <> Entering c) ->
    <[k := p']> (ops_in s) !! j = Some (Entering c)).
  { intros k p p' Hk Hp. rewrite list_lookup_insert_ne; [done|]. intros ->. simplify_eq. by destruct (Hp c). }
  destruct Hs as [s k ctx body now0 f e Hk E|s k c0 res now0 r l Hk Hres E| | | | | | | | |s k c0 w r ts Hk Hn|s k c0 w ts Hk Hn];
    try (left; by eapply Hother).
  - destruct (decide (k = j)) as [->|Hne]; [|left; cbn; by rewrite list_lookup_insert_ne].
    simplify_eq. right. exists res, now0. split; [done|]. rewrite E. cbn.
    apply list_lookup_insert_eq. by eapply lookup_lt_Some.
  - left. by eapply notify_op_keeps; [exact Hn|eapply Hother|].
  - left. by eapply notify_op_keeps; [exact Hn|eapply Hother|].
Qed.

(** While one read sleeps out its latency, another that enters the limiter is
    refused with EAGAIN, and the first one gets no error. *)
Lemma concurrency_cap_rejects_with_eagain (sv' : server) a i j c w d c' :
  server_reachable (R := R) (mount_test_fs (HI := HI) uid gid now nows eagain_config sink).1 eagain_config sink nows sv ->
  ops_in (threads_of sv) !! i = Some (Sleeping c w d) -> run_op_of c = Read ->
  ops_in (threads_of sv) !! j = Some (Entering c') -> run_op_of c' = Read ->
  sstep (R := R) (mount_test_fs (HI := HI) uid gid now nows eagain_config sink).1 a sv sv' ->
  drawn_fault d = None /\
  (ops_in (threads_of sv') !! j = Some (Entering c') \/ ops_in (threads_of sv') !! j = Some (Rejected c' (Errno EAGAIN))).
Proof.
  intros Hr Hi Hc Hj Hc' Hs.
  pose proof (srv_engine _ _ _ _ _ _ (reachable_serves (R := R) from_i32 _ eagain_config sink nows sv Hr)) as He.
  pose proof (reachable_limits eagain_config sink nows tt _ (tc_words _ eagain_ok) He) as Hl. split.
  - pose proof (dec_phase _ _ (reachable_decided _ _ _ _ _ He) i _ Hi) as [-> _].
    unfold decided_fault, decided_tier, select_tier. unfold run_op_of in Hc. rewrite Hc. done.
  - apply sstep_estep in Hs. destruct (entering_step _ _ _ _ _ Hs Hj) as [Hsame|(res & clock & Hres & ->)]; [by left|right].
    rewrite Hc' in Hres. by rewrite (single_slot_taken _ i c w d res clock Hl Hi Hc Hres).
Qed.

End Tests.

(** Runs of the replay test that make equally many reads agree on the latencies
    that their reads report; nothing else is needed. *)
Lemma determinism_replay_same_seed_same_events {R} `{RngLaws R} `{Libm} {ES} `{EventSink ES} {HI} `{Histogram HI} {D}
    `{ReplyDirectoryLaws D} {Errno'} (from_i32 : Z -> Errno') uid gid now nows (sink : ES) path path'
    (sv sv' : Server (ES := ES) (HI := HI) (D := D) (Errno' := Errno')) :
  test_session (R := R) uid gid now nows sink (replay_config path) sv ->
  test_session (R := R) uid gid now nows sink (replay_config path') sv' ->
  length (read_latencies (log (threads_of sv))) = length (read_latencies (log (threads_of sv'))) ->
  read_latencies (log (threads_of sv)) = read_latencies (log (threads_of sv')).
Proof.
  intros Hs Hs' Hlen.
  assert (Hzero : forall p (x : Server (ES := ES) (HI := HI) (D := D) (Errno' := Errno')), test_session (R := R) uid gid now nows sink (replay_config p) x ->
      read_latencies (log (threads_of x)) = replicate (length (read_latencies (log (threads_of x)))) 0).
  { intros p x Hx. symmetry. apply replicate_as_elem_of. split; [done|]. intros us. unfold read_latencies.
    rewrite list_elem_of_fmap. intros (ev & -> & Hev). apply list_elem_of_filter in Hev as [_ Hev].
    by apply (replay_latencies_zero from_i32 uid gid now nows sink x 12345 p). }
  rewrite (Hzero path sv Hs), (Hzero path' sv' Hs'). by rewrite Hlen.
Qed.

(** The log file of a finished session: what is read back has the numbers from
    0 on, each once, and one event per request of each operation. *)
Lemma jsonl_event_sink_writes_one_event_per_op {R} `{RngLaws R} `{Libm} {HI} `{Histogram HI} {D}
    `{ReplyDirectoryLaws D} {Errno'} (from_i32 : Z -> Errno') {V} `{LogFormatLaws V} (print : V -> string)
    (parse : string -> option V) capacity os uid gid now nows path
    (sv : Server (ES := DynSink) (HI := HI) (D := D) (Errno' := Errno')) :
  let sink := DynJsonl (writer_create os) in
  let _ : EventSink DynSink := dyn_sink capacity (log_json print) in
  let fs := (mount_test_fs (HI := HI) uid gid now nows (jsonl_config path) sink).1 in
  line_printer print parse -> Forall harmless os ->
  test_session (R := R) uid gid now nows sink (jsonl_config path) sv -> ops_in (threads_of sv) = [Ready] ->
  Forall (representable (V := V)) (log (threads_of sv)) ->
  exists contents evs,
    dyn_flush (events (eng (threads_of sv))) = Ok contents /\ read_log parse contents = Some evs /\
    ev_seq <$> evs = wrap64 <$> seqZ 0 (Z.of_nat (length (received sv))) /\
    ev_op <$> evs = (fun req => ctx_op (req_ctx fs req)) <$> received sv.
Proof.
  cbn zeta. intros Hp Hos Hs Hidle Hrep.
  assert (Hsession : session (R := R) print capacity (jsonl_config path) (DynJsonl (writer_create os)) nows
    (mount_test_fs (HI := HI) uid gid now nows (jsonl_config path) (DynJsonl (writer_create os))).1
    (set_engine (mount_test_fs (HI := HI) uid gid now nows (jsonl_config path) (DynJsonl (writer_create os))).1
      (eng (threads_of sv))) sv).
  { split; [exact (proj1 Hs)| |done]. intros i p. rewrite Hidle. destruct i; [by intros [= <-]|done]. }
  destruct (session_log (R := R) from_i32 print parse capacity _ _ _ _ _ _ Hsession os Hp Hos eq_refl Hrep)
    as (contents & Hflush & Hread).
  exists contents, (log (threads_of sv)). split; [exact Hflush|]. split; [exact Hread|].
  exact (test_log_numbers from_i32 uid gid now nows _ sv (jsonl_config path) (run_ok 1 path) Hs Hidle).
Qed.

(** *** The bandwidth limiter of [bandwidth_throttle_observable] *)

(** A request of the kernel, of a 32-bit size. *)
Definition kernel_request (p : Z * Instant) : Prop := is_u32 p.1 /\ is_instant p.2.

Lemma kernel_request_ok p : kernel_request p -> request_ok p.
Proof. intros [Hb Ht]. split; [apply Hb|exact Ht]. Qed.

Lemma reserve_all_wf reqs l : bw_wf l -> Forall kernel_request reqs -> bw_wf (reserve_all l reqs).
Proof.
  intros Hl HF. revert l Hl. induction HF as [|[bytes t] reqs [Hb Ht] _ IH]; intros l Hl; [done|].
  apply IH, reserve_wf; [done| |done]. unfold is_u32, is_u64 in *. cbn in Hb. lia.
Qed.

(** However the kernel cuts the read of the megabyte, when the wait of its last
    piece is over at least half a second has passed since the mount. *)
Lemma bandwidth_throttle_observable t0 reqs bytes clock :
  let wait := (reserve (reserve_all (bw_new throttle_profile t0) reqs) bytes clock).1 in
  is_instant t0 -> Forall kernel_request reqs -> is_u32 bytes -> 0 < bytes -> is_instant clock ->
  clock_runs t0 (reqs ++ [(bytes, clock)]) ->
  sum_bytes reqs + bytes = file_size_bytes (files throttled_config) -> Z.of_nat (length reqs) < 2 ^ 20 ->
  500 * 1000000 <= clock + wait - t0.
Proof.
  cbn zeta. intros Ht Hreqs Hword Hbytes Hclock Hruns Hsum Hlen.
  change (file_size_bytes (files throttled_config)) with (2 ^ 20) in Hsum.
  assert (Hrate : rate_ok (bytes_per_sec throttle_profile)) by (split; by vm_compute).
  assert (Hburst : is_u64 (burst_bytes throttle_profile)) by (by vm_compute).
  assert (Hwait : is_duration (reserve (reserve_all (bw_new throttle_profile t0) reqs) bytes clock).1).
  { apply reserve_duration; [|unfold is_u32, is_u64 in *; lia|done]. apply reserve_all_wf; [|done].
    apply bw_new_wf; [apply Hrate|exact Hburst|exact Ht]. }
  assert (Hlast : t0 <= clock) by (by destruct (clock_runs_before _ _ _ _ Hruns)).
  pose proof (bucket_conforms throttle_profile t0 reqs bytes clock Hrate Hburst Ht
    (Forall_impl _ _ _ Hreqs kernel_request_ok) Hbytes Hclock Hruns) as Hcurve. cbn zeta in Hcurve.
  change (scaled (bytes_per_sec throttle_profile)) with (2 ^ 20 * BYTE) in Hcurve.
  change (scaled (f64_of_Z (burst_bytes throttle_profile))) with (4096 * BYTE) in Hcurve. rewrite Hsum in Hcurve.
  set (wait := (reserve _ bytes clock).1) in *. unfold is_duration, DURATION_MAX, NANOS_PER_SEC in *.
  destruct (decide (500 * 1000000 <= clock + wait - t0)) as [|Hshort]; [done|exfalso].
  destruct Hcurve as [_ Hcurve]; [lia|lia|lia|].
  assert (HB : 0 < BYTE) by done. revert Hcurve. generalize dependent BYTE. intros B HB Hcurve.
  nia.
Qed.

(** The sessions that the lemmas speak of exist: one thread can serve any
    requests on a mount of any of the configurations without a bandwidth. *)
Lemma test_sessions_exist {R} `{Rng R} `{Libm} {ES} `{EventSink ES} {HI} `{Histogram HI} {D} `{ReplyDirectory D} {Errno'}
    (from_i32 : Z -> Errno') uid gid now nows (sink : ES) config (reqs : list (Request D)) :
  config ∈ [default_test_config; eio_config; write_enospc_config; slow_flush_config; slow_fsync_config; read_only_config;
            fsync_enospc_config; tiered_config; threshold_config; direct_io_config; jsonl_config "events.jsonl";
            replay_config "run_a.jsonl"] ->
  exists sv : Server (ES := ES) (HI := HI) (D := D) (Errno' := Errno'),
    test_session (R := R) uid gid now nows sink config sv /\ ops_in (threads_of sv) = [Ready] /\ received sv = reqs.
Proof.
  intros Hin. assert (Hok : test_config config /\ unthrottled config).
  { rewrite !elem_of_cons, elem_of_nil in Hin. destruct_or! Hin; subst; (split; [test_config|intros []; vm_compute; done]) || done. }
  destruct Hok as [Hok Hun].
  destruct (serve_all (R := R) from_i32 (mount_test_fs (HI := HI) uid gid now nows config sink).1 config sink nows
    (tc_words _ Hok) reqs Hun (tc_caps _ Hok)) as (sv & Hr & Hidle & Hrec).
  exists sv. split; [split; [exact Hr|by rewrite Hidle]|by split].
Qed.
